(** * HTTP/2 session multiplexer (src/node_http2.cc): a shallow embedding

    The C++ classes [Http2Session] and [Http2Stream] are embedded as records,
    their methods as functions on an explicit world state.  The world holds
    the session object, the state of the frame codec (nghttp2), the state of
    the underlying i/o stream, the queue of [SetImmediate] tasks of the event
    loop and the calls that were made into JavaScript.

    The codec and the i/o stream are external collaborators: they are taken
    as interfaces ([Nghttp2], [StreamResource]) and every result below holds
    for all their implementations.  The declarations of node_http2.h that
    the methods use (object sizes, two constants and three inline
    predicates) are taken as the interface [Http2Header]. *)

From Stdlib Require Import ZArith NArith Lia Bool.
From stdpp Require Import base option list gmap.

Local Open Scope Z_scope.

(** ** Data model *)

(** A [WriteWrap] is the completion token of one write request;
    [wrap_stream] is what [req_wrap->stream()] answers: the stream that
    issued the request, named by its id. *)
Record WriteWrap : Type := {
  wrap_id : nat;
  wrap_stream : Z;
}.

(** Where a byte range starts: nowhere yet, in the static block of zero
    bytes that serves as padding, or at an address of the caller's memory. *)
Inductive pointer : Type :=
| nullptr
| zero_bytes_256
| address (a : Z).

Definition pointer_add (p : pointer) (n : N) : pointer :=
  match p with
  | address a => address (a + Z.of_N n)
  | _ => p
  end.

(** [uv_buf_t]: a byte range. *)
Record uv_buf_t : Type := {
  base : pointer;
  len : N;
}.

Definition uv_buf_init (b : pointer) (l : N) : uv_buf_t :=
  {| base := b; len := l |}.

Record nghttp2_stream_write : Type := {
  req_wrap : option WriteWrap;
  buf : uv_buf_t;
}.

(** A reference counted buffer of the codec; the counters live in the
    world ([rcbuf_refs]). *)
Record nghttp2_rcbuf : Type := {
  rcbuf_id : nat;
  rcbuf_len : N;
}.

Record nghttp2_header : Type := {
  name : nghttp2_rcbuf;
  value : nghttp2_rcbuf;
  flags : Z;
}.

Record Http2Ping : Type := { ping_id : nat }.

Record Http2Settings : Type := {
  settings_id : nat;
  entries_ : list (Z * N);
}.

Inductive padding_strategy_type : Type :=
| PADDING_STRATEGY_NONE
| PADDING_STRATEGY_ALIGNED
| PADDING_STRATEGY_MAX
| PADDING_STRATEGY_CALLBACK.

(** Constants of the nghttp2 and libuv public headers. *)
Definition NGHTTP2_FLAG_ACK : Z := 1.
Definition NGHTTP2_ENHANCE_YOUR_CALM : Z := 11.
Definition NGHTTP2_ERR_PROTO : Z := -505.
Definition NGHTTP2_ERR_TEMPORAL_CALLBACK_FAILURE : Z := -521.
Definition NGHTTP2_ERR_NOMEM : Z := -901.
Definition UV_EOF : Z := -4095.
Definition UV_ECANCELED : Z := -125.
Definition UV_EPIPE : Z := -32.
Definition NGHTTP2_HCAT_HEADERS : Z := 3.
Definition NGHTTP2_DATA_FLAG_EOF : Z := 1.
Definition NGHTTP2_DATA_FLAG_NO_END_STREAM : Z := 2.
Definition NGHTTP2_DATA_FLAG_NO_COPY : Z := 4.
Definition NGHTTP2_ERR_DEFERRED : Z := -508.
Definition NGHTTP2_ERR_STREAM_CLOSED : Z := -510.
Definition NGHTTP2_ERR_STREAM_CLOSING : Z := -511.
Definition NGHTTP2_ERR_SESSION_CLOSING : Z := -530.

(** The bits of [Http2Stream::flags_] that the embedded methods read or
    write, one boolean per enumerator. *)
Record Http2Stream : Type := {
  id_ : Z;
  NGHTTP2_STREAM_FLAG_SHUT : bool;
  NGHTTP2_STREAM_FLAG_CLOSED : bool;
  NGHTTP2_STREAM_FLAG_DESTROYED : bool;
  NGHTTP2_STREAM_FLAG_TRAILERS : bool;
  code_ : Z;
  queue_ : list nghttp2_stream_write;
  available_outbound_length_ : N;
  current_headers_ : list nghttp2_header;
  current_headers_length_ : N;
  current_headers_category_ : Z;
  max_header_pairs_ : N;
  max_header_length_ : N;
}.

(** The bits of [Http2Session::flags_], one boolean per enumerator, and
    the members of the session.  [stream_] tells whether the pointer to the
    underlying i/o stream is non-null. *)
Record Http2Session : Type := {
  SESSION_STATE_HAS_SCOPE : bool;
  SESSION_STATE_WRITE_SCHEDULED : bool;
  SESSION_STATE_CLOSED : bool;
  SESSION_STATE_CLOSING : bool;
  SESSION_STATE_SENDING : bool;
  streams_ : gmap Z Http2Stream;
  outstanding_pings_ : list Http2Ping;
  outstanding_settings_ : list Http2Settings;
  pending_rst_streams_ : list Z;
  outgoing_buffers_ : list nghttp2_stream_write;
  outgoing_storage_ : N;
  stream_ : bool;
  current_session_memory_ : Z;
  max_session_memory_ : Z;
  max_outstanding_pings_ : N;
  max_outstanding_settings_ : N;
  session_max_header_pairs_ : N;
  padding_strategy_ : padding_strategy_type;
}.

(** ** The external collaborators *)

Inductive nghttp2_settings_id : Type :=
| NGHTTP2_SETTINGS_MAX_CONCURRENT_STREAMS
| NGHTTP2_SETTINGS_MAX_HEADER_LIST_SIZE.

(** The entry points of the codec that submit a frame or change its state. *)
Inductive nghttp2_call : Type :=
| nghttp2_submit_request (len : N) (empty_payload : bool)
| nghttp2_submit_rst_stream (id : Z) (code : Z)
| nghttp2_submit_ping (payload : option N)
| nghttp2_submit_settings (entries : list (Z * N))
| nghttp2_session_terminate_session (code : Z)
| nghttp2_session_resume_data (id : Z).

(** What one drain of [nghttp2_session_mem_send] makes the session do.  A
    serialized frame is handed back ([mem_send_frame], of positive length),
    or nghttp2 calls one of the callbacks that the session has registered
    and that it makes while it sends: the data provider of a stream is
    asked for up to [length] bytes (OnRead), the padding of a frame is
    asked for (OnSelectPadding), the payload of a DATA frame is requested
    (OnSendData), a stream has been closed (OnStreamClose), or a frame
    could not be sent (OnFrameNotSent).  [has_onstreamclose] tells whether
    the JavaScript object of the stream has the function [onstreamclose]
    when the callback looks for it; the objects of JavaScript are not part
    of the world.  (OnFrameSent only counts, for the statistics; the other
    callbacks are made while nghttp2 receives.) *)
Inductive mem_send_event : Type :=
| mem_send_frame (src_length : positive)
| mem_send_read (id : Z) (length : N)
| mem_send_select_padding (hd_length maxPayloadLen : Z)
| mem_send_data (id : Z) (length : N) (padlen : N)
| mem_send_stream_close (id : Z) (code : Z) (has_onstreamclose : bool)
| mem_send_frame_not_sent (id : Z) (type : Z) (error_code : Z).

(** The codec.  [nghttp2_session_mem_send] is the whole loop of
    SendPendingData: the events until the first result that is not
    positive, and that result. *)
Class Nghttp2 (C : Type) : Type := {
  nghttp2_session_get_local_settings : C -> nghttp2_settings_id -> N;
  nghttp2_session_want_write : C -> bool;
  nghttp2_session_want_read : C -> bool;
  nghttp2_submit : nghttp2_call -> C -> Z * C;
  nghttp2_session_mem_send : C -> list mem_send_event * Z * C;
}.

Record StreamWriteResult : Type := {
  async : bool;
  err : Z;
}.

(** The underlying i/o stream. *)
Class StreamResource (T : Type) : Type := {
  StreamBase_ReadStop : T -> T;
  StreamBase_Write : list N -> T -> StreamWriteResult * T;
}.

(** ** The event loop and JavaScript *)

(** The option bits that a caller passes along with a new stream. *)
Record stream_options : Type := {
  STREAM_OPTION_EMPTY_PAYLOAD : bool;
  STREAM_OPTION_GET_TRAILERS : bool;
}.

(** The tasks given to [env()->SetImmediate]. *)
Inductive Immediate : Type :=
| ImmPingDone (ping : Http2Ping) (ack : bool)
| ImmStreamDestroy (id : Z)
| ImmSendPendingData
| ImmSessionStatistics
| ImmStreamStatistics (id : Z).

(** The calls out of the core: [MakeCallback], the completion of request
    wraps, and the listener of a stream that is told that the stream wants
    data.  [js_ongetpadding] carries what the padding buffer is filled
    with. *)
Inductive JsCall : Type :=
| ondone_ping (ping : Http2Ping) (ack : bool) (payload : option N)
| ondone_settings (settings : Http2Settings) (ack : bool)
| onerror (code : Z)
| onsettings
| WriteWrap_Done (w : WriteWrap) (status : Z)
| ShutdownWrap_Done (status : Z)
| performance_notify
| js_onstreamclose (id : Z) (code : Z)
| js_ontrailers (id : Z)
| js_onframeerror (id : Z) (type : Z) (error_code : Z)
| js_ongetpadding (frameLen maxPayloadLen : Z)
| OnStreamWantsWrite (id : Z) (suggested_size : N).

Inductive IoCall : Type :=
| io_ReadStop
| io_RemoveStreamListener
| io_Write (bufs : list N).

Record World (C T : Type) : Type := {
  session : Http2Session;
  nghttp2 : C;
  nghttp2_calls : list nghttp2_call;
  io : T;
  io_calls : list IoCall;
  immediates : list Immediate;
  js_calls : list JsCall;
  rcbuf_refs : gmap nat N;
  http2_observer : bool;
}.

Arguments session {C T} _.
Arguments nghttp2 {C T} _.
Arguments nghttp2_calls {C T} _.
Arguments io {C T} _.
Arguments io_calls {C T} _.
Arguments immediates {C T} _.
Arguments js_calls {C T} _.
Arguments rcbuf_refs {C T} _.
Arguments http2_observer {C T} _.

(** ** Field updates *)

Definition set_flag_shut (b : bool) (s : Http2Stream) : Http2Stream :=
  {| id_ := id_ s; NGHTTP2_STREAM_FLAG_SHUT := b;
     NGHTTP2_STREAM_FLAG_CLOSED := NGHTTP2_STREAM_FLAG_CLOSED s;
     NGHTTP2_STREAM_FLAG_DESTROYED := NGHTTP2_STREAM_FLAG_DESTROYED s;
     NGHTTP2_STREAM_FLAG_TRAILERS := NGHTTP2_STREAM_FLAG_TRAILERS s;
     code_ := code_ s; queue_ := queue_ s;
     available_outbound_length_ := available_outbound_length_ s;
     current_headers_ := current_headers_ s;
     current_headers_length_ := current_headers_length_ s;
     current_headers_category_ := current_headers_category_ s;
     max_header_pairs_ := max_header_pairs_ s;
     max_header_length_ := max_header_length_ s |}.

Definition set_flag_destroyed (b : bool) (s : Http2Stream) : Http2Stream :=
  {| id_ := id_ s; NGHTTP2_STREAM_FLAG_SHUT := NGHTTP2_STREAM_FLAG_SHUT s;
     NGHTTP2_STREAM_FLAG_CLOSED := NGHTTP2_STREAM_FLAG_CLOSED s;
     NGHTTP2_STREAM_FLAG_DESTROYED := b;
     NGHTTP2_STREAM_FLAG_TRAILERS := NGHTTP2_STREAM_FLAG_TRAILERS s;
     code_ := code_ s; queue_ := queue_ s;
     available_outbound_length_ := available_outbound_length_ s;
     current_headers_ := current_headers_ s;
     current_headers_length_ := current_headers_length_ s;
     current_headers_category_ := current_headers_category_ s;
     max_header_pairs_ := max_header_pairs_ s;
     max_header_length_ := max_header_length_ s |}.

Definition set_flag_closed (b : bool) (s : Http2Stream) : Http2Stream :=
  {| id_ := id_ s; NGHTTP2_STREAM_FLAG_SHUT := NGHTTP2_STREAM_FLAG_SHUT s;
     NGHTTP2_STREAM_FLAG_CLOSED := b;
     NGHTTP2_STREAM_FLAG_DESTROYED := NGHTTP2_STREAM_FLAG_DESTROYED s;
     NGHTTP2_STREAM_FLAG_TRAILERS := NGHTTP2_STREAM_FLAG_TRAILERS s;
     code_ := code_ s; queue_ := queue_ s;
     available_outbound_length_ := available_outbound_length_ s;
     current_headers_ := current_headers_ s;
     current_headers_length_ := current_headers_length_ s;
     current_headers_category_ := current_headers_category_ s;
     max_header_pairs_ := max_header_pairs_ s;
     max_header_length_ := max_header_length_ s |}.

Definition set_flag_trailers (b : bool) (s : Http2Stream) : Http2Stream :=
  {| id_ := id_ s; NGHTTP2_STREAM_FLAG_SHUT := NGHTTP2_STREAM_FLAG_SHUT s;
     NGHTTP2_STREAM_FLAG_CLOSED := NGHTTP2_STREAM_FLAG_CLOSED s;
     NGHTTP2_STREAM_FLAG_DESTROYED := NGHTTP2_STREAM_FLAG_DESTROYED s;
     NGHTTP2_STREAM_FLAG_TRAILERS := b;
     code_ := code_ s; queue_ := queue_ s;
     available_outbound_length_ := available_outbound_length_ s;
     current_headers_ := current_headers_ s;
     current_headers_length_ := current_headers_length_ s;
     current_headers_category_ := current_headers_category_ s;
     max_header_pairs_ := max_header_pairs_ s;
     max_header_length_ := max_header_length_ s |}.

(** [Http2Stream::HasTrailers()]: the flag that OnTrailers clears. *)
Definition HasTrailers (st : Http2Stream) : bool :=
  NGHTTP2_STREAM_FLAG_TRAILERS st.

Definition set_code (c : Z) (s : Http2Stream) : Http2Stream :=
  {| id_ := id_ s; NGHTTP2_STREAM_FLAG_SHUT := NGHTTP2_STREAM_FLAG_SHUT s;
     NGHTTP2_STREAM_FLAG_CLOSED := NGHTTP2_STREAM_FLAG_CLOSED s;
     NGHTTP2_STREAM_FLAG_DESTROYED := NGHTTP2_STREAM_FLAG_DESTROYED s;
     NGHTTP2_STREAM_FLAG_TRAILERS := NGHTTP2_STREAM_FLAG_TRAILERS s;
     code_ := c; queue_ := queue_ s;
     available_outbound_length_ := available_outbound_length_ s;
     current_headers_ := current_headers_ s;
     current_headers_length_ := current_headers_length_ s;
     current_headers_category_ := current_headers_category_ s;
     max_header_pairs_ := max_header_pairs_ s;
     max_header_length_ := max_header_length_ s |}.

Definition set_queue (q : list nghttp2_stream_write) (s : Http2Stream)
  : Http2Stream :=
  {| id_ := id_ s; NGHTTP2_STREAM_FLAG_SHUT := NGHTTP2_STREAM_FLAG_SHUT s;
     NGHTTP2_STREAM_FLAG_CLOSED := NGHTTP2_STREAM_FLAG_CLOSED s;
     NGHTTP2_STREAM_FLAG_DESTROYED := NGHTTP2_STREAM_FLAG_DESTROYED s;
     NGHTTP2_STREAM_FLAG_TRAILERS := NGHTTP2_STREAM_FLAG_TRAILERS s;
     code_ := code_ s; queue_ := q;
     available_outbound_length_ := available_outbound_length_ s;
     current_headers_ := current_headers_ s;
     current_headers_length_ := current_headers_length_ s;
     current_headers_category_ := current_headers_category_ s;
     max_header_pairs_ := max_header_pairs_ s;
     max_header_length_ := max_header_length_ s |}.

Definition set_available_outbound_length (n : N) (s : Http2Stream)
  : Http2Stream :=
  {| id_ := id_ s; NGHTTP2_STREAM_FLAG_SHUT := NGHTTP2_STREAM_FLAG_SHUT s;
     NGHTTP2_STREAM_FLAG_CLOSED := NGHTTP2_STREAM_FLAG_CLOSED s;
     NGHTTP2_STREAM_FLAG_DESTROYED := NGHTTP2_STREAM_FLAG_DESTROYED s;
     NGHTTP2_STREAM_FLAG_TRAILERS := NGHTTP2_STREAM_FLAG_TRAILERS s;
     code_ := code_ s; queue_ := queue_ s;
     available_outbound_length_ := n;
     current_headers_ := current_headers_ s;
     current_headers_length_ := current_headers_length_ s;
     current_headers_category_ := current_headers_category_ s;
     max_header_pairs_ := max_header_pairs_ s;
     max_header_length_ := max_header_length_ s |}.

(** The three members of header accumulation change together. *)
Definition set_headers (hs : list nghttp2_header) (n : N) (cat : Z)
    (s : Http2Stream) : Http2Stream :=
  {| id_ := id_ s; NGHTTP2_STREAM_FLAG_SHUT := NGHTTP2_STREAM_FLAG_SHUT s;
     NGHTTP2_STREAM_FLAG_CLOSED := NGHTTP2_STREAM_FLAG_CLOSED s;
     NGHTTP2_STREAM_FLAG_DESTROYED := NGHTTP2_STREAM_FLAG_DESTROYED s;
     NGHTTP2_STREAM_FLAG_TRAILERS := NGHTTP2_STREAM_FLAG_TRAILERS s;
     code_ := code_ s; queue_ := queue_ s;
     available_outbound_length_ := available_outbound_length_ s;
     current_headers_ := hs;
     current_headers_length_ := n;
     current_headers_category_ := cat;
     max_header_pairs_ := max_header_pairs_ s;
     max_header_length_ := max_header_length_ s |}.

(** The session: one update for the flag word, one for each member that
    changes. *)
Definition set_session_flags (has_scope write_scheduled closed closing sending : bool)
    (s : Http2Session) : Http2Session :=
  {| SESSION_STATE_HAS_SCOPE := has_scope;
     SESSION_STATE_WRITE_SCHEDULED := write_scheduled;
     SESSION_STATE_CLOSED := closed;
     SESSION_STATE_CLOSING := closing;
     SESSION_STATE_SENDING := sending;
     streams_ := streams_ s;
     outstanding_pings_ := outstanding_pings_ s;
     outstanding_settings_ := outstanding_settings_ s;
     pending_rst_streams_ := pending_rst_streams_ s;
     outgoing_buffers_ := outgoing_buffers_ s;
     outgoing_storage_ := outgoing_storage_ s;
     stream_ := stream_ s;
     current_session_memory_ := current_session_memory_ s;
     max_session_memory_ := max_session_memory_ s;
     max_outstanding_pings_ := max_outstanding_pings_ s;
     max_outstanding_settings_ := max_outstanding_settings_ s;
     session_max_header_pairs_ := session_max_header_pairs_ s;
     padding_strategy_ := padding_strategy_ s |}.

Definition set_HAS_SCOPE (b : bool) (s : Http2Session) : Http2Session :=
  set_session_flags b (SESSION_STATE_WRITE_SCHEDULED s) (SESSION_STATE_CLOSED s)
    (SESSION_STATE_CLOSING s) (SESSION_STATE_SENDING s) s.
Definition set_WRITE_SCHEDULED (b : bool) (s : Http2Session) : Http2Session :=
  set_session_flags (SESSION_STATE_HAS_SCOPE s) b (SESSION_STATE_CLOSED s)
    (SESSION_STATE_CLOSING s) (SESSION_STATE_SENDING s) s.
Definition set_CLOSED (b : bool) (s : Http2Session) : Http2Session :=
  set_session_flags (SESSION_STATE_HAS_SCOPE s) (SESSION_STATE_WRITE_SCHEDULED s) b
    (SESSION_STATE_CLOSING s) (SESSION_STATE_SENDING s) s.
Definition set_CLOSING (b : bool) (s : Http2Session) : Http2Session :=
  set_session_flags (SESSION_STATE_HAS_SCOPE s) (SESSION_STATE_WRITE_SCHEDULED s)
    (SESSION_STATE_CLOSED s) b (SESSION_STATE_SENDING s) s.
Definition set_SENDING (b : bool) (s : Http2Session) : Http2Session :=
  set_session_flags (SESSION_STATE_HAS_SCOPE s) (SESSION_STATE_WRITE_SCHEDULED s)
    (SESSION_STATE_CLOSED s) (SESSION_STATE_CLOSING s) b s.

(** The containers and counters of the session: the stream table and the
    memory counter, the two waiter queues, the deferred resets, the
    outgoing buffers with their storage, and the i/o stream pointer. *)
Definition set_session_members
    (streams : gmap Z Http2Stream) (memory : Z)
    (pings : list Http2Ping) (settings : list Http2Settings)
    (rsts : list Z)
    (buffers : list nghttp2_stream_write) (storage : N)
    (stream : bool)
    (s : Http2Session) : Http2Session :=
  {| SESSION_STATE_HAS_SCOPE := SESSION_STATE_HAS_SCOPE s;
     SESSION_STATE_WRITE_SCHEDULED := SESSION_STATE_WRITE_SCHEDULED s;
     SESSION_STATE_CLOSED := SESSION_STATE_CLOSED s;
     SESSION_STATE_CLOSING := SESSION_STATE_CLOSING s;
     SESSION_STATE_SENDING := SESSION_STATE_SENDING s;
     streams_ := streams;
     outstanding_pings_ := pings;
     outstanding_settings_ := settings;
     pending_rst_streams_ := rsts;
     outgoing_buffers_ := buffers;
     outgoing_storage_ := storage;
     stream_ := stream;
     current_session_memory_ := memory;
     max_session_memory_ := max_session_memory_ s;
     max_outstanding_pings_ := max_outstanding_pings_ s;
     max_outstanding_settings_ := max_outstanding_settings_ s;
     session_max_header_pairs_ := session_max_header_pairs_ s;
     padding_strategy_ := padding_strategy_ s |}.

Definition set_streams (m : gmap Z Http2Stream) (s : Http2Session) :=
  set_session_members m (current_session_memory_ s) (outstanding_pings_ s)
    (outstanding_settings_ s) (pending_rst_streams_ s) (outgoing_buffers_ s)
    (outgoing_storage_ s) (stream_ s) s.
Definition set_current_session_memory (n : Z) (s : Http2Session) :=
  set_session_members (streams_ s) n (outstanding_pings_ s)
    (outstanding_settings_ s) (pending_rst_streams_ s) (outgoing_buffers_ s)
    (outgoing_storage_ s) (stream_ s) s.
Definition set_outstanding_pings (l : list Http2Ping) (s : Http2Session) :=
  set_session_members (streams_ s) (current_session_memory_ s) l
    (outstanding_settings_ s) (pending_rst_streams_ s) (outgoing_buffers_ s)
    (outgoing_storage_ s) (stream_ s) s.
Definition set_outstanding_settings (l : list Http2Settings) (s : Http2Session) :=
  set_session_members (streams_ s) (current_session_memory_ s)
    (outstanding_pings_ s) l (pending_rst_streams_ s) (outgoing_buffers_ s)
    (outgoing_storage_ s) (stream_ s) s.
Definition set_pending_rst_streams (l : list Z) (s : Http2Session) :=
  set_session_members (streams_ s) (current_session_memory_ s)
    (outstanding_pings_ s) (outstanding_settings_ s) l (outgoing_buffers_ s)
    (outgoing_storage_ s) (stream_ s) s.
Definition set_outgoing (l : list nghttp2_stream_write) (n : N) (s : Http2Session) :=
  set_session_members (streams_ s) (current_session_memory_ s)
    (outstanding_pings_ s) (outstanding_settings_ s) (pending_rst_streams_ s)
    l n (stream_ s) s.
Definition set_stream_ (b : bool) (s : Http2Session) :=
  set_session_members (streams_ s) (current_session_memory_ s)
    (outstanding_pings_ s) (outstanding_settings_ s) (pending_rst_streams_ s)
    (outgoing_buffers_ s) (outgoing_storage_ s) b s.

(** What node_http2.h declares and the embedded methods use. *)
Class Http2Header : Type := {
  sizeof_Http2Stream : Z;
  sizeof_Http2Ping : Z;
  sizeof_Http2Settings : Z;
  streams_max_size : N;
  DEFAULT_MAX_HEADER_LIST_PAIRS : N;
  MAX_MAX_HEADER_LIST_SIZE : N;
  IsAvailableSessionMemory : Http2Session -> Z -> bool;
  Http2Session_IsDestroyed : Http2Session -> bool;
  IsWritable : Http2Stream -> bool;
  (** whether the session is destroyed does not depend on its streams *)
  Http2Session_IsDestroyed_streams :
    forall (s : Http2Session) (m : gmap Z Http2Stream),
      Http2Session_IsDestroyed (set_streams m s) = Http2Session_IsDestroyed s;
}.

(** ** The monad of the embedding

    A method either returns a value and a new world, or the process is
    aborted ([Crash]: a failed CHECK, a stream handle that the table does
    not hold any more, or a recursion without end in a drain).  [OutOfFuel]
    arises from the bounded unfolding of a recursion: that between
    SendPendingData and ClearOutgoing, and the restarts of OnRead. *)

Inductive Result (A : Type) : Type :=
| Ok (a : A)
| Crash
| OutOfFuel.

Arguments Ok {A} a.
Arguments Crash {A}.
Arguments OutOfFuel {A}.

Declare Scope http2_scope.
Delimit Scope http2_scope with http2.

Section Core.

Context {C T : Type}.
Context {codec : Nghttp2 C} {transport : StreamResource T}.
Context {header : Http2Header}.

Definition M (A : Type) : Type := World C T -> Result (A * World C T).

Definition ret {A : Type} (a : A) : M A := fun w => Ok (a, w).

Definition bind {A B : Type} (m : M A) (k : A -> M B) : M B :=
  fun w =>
    match m w with
    | Ok (a, w') => k a w'
    | Crash => Crash
    | OutOfFuel => OutOfFuel
    end.

Notation "x <- m ;; k" := (bind m (fun x => k))
  (at level 100, m at next level, right associativity) : http2_scope.
Notation "m ;; k" := (bind m (fun _ => k))
  (at level 100, right associativity) : http2_scope.

Local Open Scope http2_scope.

Definition CHECK (b : bool) : M unit :=
  fun w => if b then Ok (tt, w) else Crash.

Definition when (b : bool) (m : M unit) : M unit := if b then m else ret tt.

Fixpoint for_each {A : Type} (l : list A) (f : A -> M unit) : M unit :=
  match l with
  | [] => ret tt
  | x :: l' => f x ;; for_each l' f
  end.

(** *** Access to the world *)

Definition set_session (s : Http2Session) (w : World C T) : World C T :=
  {| session := s; nghttp2 := nghttp2 w; nghttp2_calls := nghttp2_calls w;
     io := io w; io_calls := io_calls w; immediates := immediates w;
     js_calls := js_calls w; rcbuf_refs := rcbuf_refs w;
     http2_observer := http2_observer w |}.

Definition set_nghttp2 (c : C) (calls : list nghttp2_call) (w : World C T)
  : World C T :=
  {| session := session w; nghttp2 := c; nghttp2_calls := calls;
     io := io w; io_calls := io_calls w; immediates := immediates w;
     js_calls := js_calls w; rcbuf_refs := rcbuf_refs w;
     http2_observer := http2_observer w |}.

Definition set_io (t : T) (calls : list IoCall) (w : World C T) : World C T :=
  {| session := session w; nghttp2 := nghttp2 w;
     nghttp2_calls := nghttp2_calls w;
     io := t; io_calls := calls; immediates := immediates w;
     js_calls := js_calls w; rcbuf_refs := rcbuf_refs w;
     http2_observer := http2_observer w |}.

Definition set_immediates (l : list Immediate) (w : World C T) : World C T :=
  {| session := session w; nghttp2 := nghttp2 w;
     nghttp2_calls := nghttp2_calls w;
     io := io w; io_calls := io_calls w; immediates := l;
     js_calls := js_calls w; rcbuf_refs := rcbuf_refs w;
     http2_observer := http2_observer w |}.

Definition set_js_calls (l : list JsCall) (w : World C T) : World C T :=
  {| session := session w; nghttp2 := nghttp2 w;
     nghttp2_calls := nghttp2_calls w;
     io := io w; io_calls := io_calls w; immediates := immediates w;
     js_calls := l; rcbuf_refs := rcbuf_refs w;
     http2_observer := http2_observer w |}.

Definition set_rcbuf_refs (m : gmap nat N) (w : World C T) : World C T :=
  {| session := session w; nghttp2 := nghttp2 w;
     nghttp2_calls := nghttp2_calls w;
     io := io w; io_calls := io_calls w; immediates := immediates w;
     js_calls := js_calls w; rcbuf_refs := m;
     http2_observer := http2_observer w |}.

(** The session object ([this] in a method of Http2Session). *)
Definition this : M Http2Session := fun w => Ok (session w, w).

Definition update (f : Http2Session -> Http2Session) : M unit :=
  fun w => Ok (tt, set_session (f (session w)) w).

(** A call of the codec: the call is recorded, the codec moves on and
    answers. *)
Definition call (c : nghttp2_call) : M Z :=
  fun w =>
    let '(r, c') := nghttp2_submit c (nghttp2 w) in
    Ok (r, set_nghttp2 c' (nghttp2_calls w ++ [c]) w).

Definition get_local_settings (id : nghttp2_settings_id) : M N :=
  fun w => Ok (nghttp2_session_get_local_settings (nghttp2 w) id, w).

Definition want_write : M bool :=
  fun w => Ok (nghttp2_session_want_write (nghttp2 w), w).

Definition want_read : M bool :=
  fun w => Ok (nghttp2_session_want_read (nghttp2 w), w).

Definition mem_send : M (list mem_send_event * Z) :=
  fun w =>
    let '(evs, r, c') := nghttp2_session_mem_send (nghttp2 w) in
    Ok ((evs, r), set_nghttp2 c' (nghttp2_calls w) w).

Definition MakeCallback (c : JsCall) : M unit :=
  fun w => Ok (tt, set_js_calls (js_calls w ++ [c]) w).

Definition SetImmediate (i : Immediate) : M unit :=
  fun w => Ok (tt, set_immediates (immediates w ++ [i]) w).

Definition HasHttp2Observer : M bool := fun w => Ok (http2_observer w, w).

Definition stream_ReadStop : M unit :=
  fun w => Ok (tt, set_io (StreamBase_ReadStop (io w)) (io_calls w ++ [io_ReadStop]) w).

Definition stream_Write (bufs : list N) : M StreamWriteResult :=
  fun w =>
    let '(res, t) := StreamBase_Write bufs (io w) in
    Ok (res, set_io t (io_calls w ++ [io_Write bufs]) w).

(** [RemoveStreamListener] detaches the session from the i/o stream: the
    listener's [stream_] pointer is reset. *)
Definition stream_RemoveStreamListener : M unit :=
  fun w => Ok (tt, set_io (io w) (io_calls w ++ [io_RemoveStreamListener])
                     (set_session (set_stream_ false (session w)) w)).

Definition nghttp2_rcbuf_incref (b : nghttp2_rcbuf) : M unit :=
  fun w => Ok (tt, set_rcbuf_refs
                     (<[rcbuf_id b := N.succ (default 0%N (rcbuf_refs w !! rcbuf_id b))]>
                        (rcbuf_refs w)) w).

Definition nghttp2_rcbuf_decref (b : nghttp2_rcbuf) : M unit :=
  fun w => Ok (tt, set_rcbuf_refs
                     (<[rcbuf_id b := N.pred (default 0%N (rcbuf_refs w !! rcbuf_id b))]>
                        (rcbuf_refs w)) w).

(** *** Memory accounting *)

Definition IncrementCurrentSessionMemory (amount : Z) : M unit :=
  update (fun s => set_current_session_memory (current_session_memory_ s + amount) s).

Definition DecrementCurrentSessionMemory (amount : Z) : M unit :=
  update (fun s => set_current_session_memory (current_session_memory_ s - amount) s).

(** *** The stream table *)

Definition FindStream (id : Z) : M (option Http2Stream) :=
  s <- this ;; ret (streams_ s !! id).

(** A stream handle is dereferenced. *)
Definition deref (id : Z) : M Http2Stream :=
  o <- FindStream id ;;
  match o with
  | Some st => ret st
  | None => fun _ => Crash
  end.

(** A method of Http2Stream has changed the members of its object; [id]
    is the handle of the object, the key under which the table holds it. *)
Definition store (id : Z) (st : Http2Stream) : M unit :=
  update (fun s => set_streams (<[id := st]> (streams_ s)) s).

(** [GetStream(session, id, source)]. *)
Definition GetStream (id : Z) : M Http2Stream :=
  st <- deref id ;;
  CHECK (id =? id_ st) ;;
  ret st.

(** [Http2Stream::IsDestroyed()]: the flag that Destroy sets. *)
Definition IsDestroyed (st : Http2Stream) : bool :=
  NGHTTP2_STREAM_FLAG_DESTROYED st.

Definition CanAddStream : M bool :=
  maxConcurrentStreams <- get_local_settings NGHTTP2_SETTINGS_MAX_CONCURRENT_STREAMS ;;
  s <- this ;;
  let maxSize := N.min streams_max_size maxConcurrentStreams in
  ret ((N.of_nat (size (streams_ s)) <? maxSize)%N &&
       IsAvailableSessionMemory s sizeof_Http2Stream).

Definition AddStream (st : Http2Stream) : M unit :=
  update (fun s => set_streams (<[id_ st := st]> (streams_ s)) s) ;;
  IncrementCurrentSessionMemory sizeof_Http2Stream.

Definition RemoveStream (id : Z) : M unit :=
  s <- this ;;
  if (size (streams_ s) =? 0)%nat then ret tt
  else
    update (fun s => set_streams (delete id (streams_ s)) s) ;;
    DecrementCurrentSessionMemory sizeof_Http2Stream.

(** *** Http2Scope and the scheduling of writes *)

Definition MaybeScheduleWrite : M unit :=
  s <- this ;;
  CHECK (negb (SESSION_STATE_WRITE_SCHEDULED s)) ;;
  wants <- want_write ;;
  when wants
    (update (set_WRITE_SCHEDULED true) ;;
     SetImmediate ImmSendPendingData).

(** [Http2Scope h2scope(session)] around the rest of a block: the scope is
    inert when another scope is active or a write is scheduled already;
    otherwise it sets the flag, and its destructor clears the flag and calls
    MaybeScheduleWrite. *)
Definition Http2Scope {A : Type} (body : M A) : M A :=
  s <- this ;;
  if SESSION_STATE_HAS_SCOPE s || SESSION_STATE_WRITE_SCHEDULED s then body
  else
    update (set_HAS_SCOPE true) ;;
    r <- body ;;
    update (set_HAS_SCOPE false) ;;
    MaybeScheduleWrite ;;
    ret r.

(** *** Ping and settings waiters *)

Definition PopPing : M (option Http2Ping) :=
  s <- this ;;
  match outstanding_pings_ s with
  | [] => ret None
  | ping :: rest =>
      update (set_outstanding_pings rest) ;;
      DecrementCurrentSessionMemory sizeof_Http2Ping ;;
      ret (Some ping)
  end.

Definition AddPing (ping : Http2Ping) : M bool :=
  s <- this ;;
  if (N.of_nat (length (outstanding_pings_ s)) =? max_outstanding_pings_ s)%N
  then ret false
  else
    update (fun s => set_outstanding_pings (outstanding_pings_ s ++ [ping]) s) ;;
    IncrementCurrentSessionMemory sizeof_Http2Ping ;;
    ret true.

Definition PopSettings : M (option Http2Settings) :=
  s <- this ;;
  match outstanding_settings_ s with
  | [] => ret None
  | settings :: rest =>
      update (set_outstanding_settings rest) ;;
      DecrementCurrentSessionMemory sizeof_Http2Settings ;;
      ret (Some settings)
  end.

Definition AddSettings (settings : Http2Settings) : M bool :=
  s <- this ;;
  if (N.of_nat (length (outstanding_settings_ s)) =? max_outstanding_settings_ s)%N
  then ret false
  else
    update (fun s => set_outstanding_settings (outstanding_settings_ s ++ [settings]) s) ;;
    IncrementCurrentSessionMemory sizeof_Http2Settings ;;
    ret true.

Definition Http2Ping_Send (ping : Http2Ping) (payload : option N) : M unit :=
  Http2Scope
    (r <- call (nghttp2_submit_ping payload) ;;
     CHECK (r =? 0)).

Definition Http2Ping_Done (ping : Http2Ping) (ack : bool) (payload : option N)
  : M unit :=
  MakeCallback (ondone_ping ping ack payload).

Definition Http2Settings_Send (settings : Http2Settings) : M unit :=
  Http2Scope
    (r <- call (nghttp2_submit_settings (entries_ settings)) ;;
     CHECK (r =? 0)).

Definition Http2Settings_Done (settings : Http2Settings) (ack : bool) : M unit :=
  MakeCallback (ondone_settings settings ack).

(** [Http2Session::Ping(args)]: [ping] is the waiter that the binding has
    just constructed; the result is what the binding returns to its
    caller. *)
Definition Ping (ping : Http2Ping) (payload : option N) : M bool :=
  added <- AddPing ping ;;
  if negb added then
    Http2Ping_Done ping false None ;;
    ret false
  else
    Http2Ping_Send ping payload ;;
    ret true.

(** [Http2Session::Settings(args)]. *)
Definition Settings (settings : Http2Settings) : M bool :=
  added <- AddSettings settings ;;
  if negb added then
    Http2Settings_Done settings false ;;
    ret false
  else
    Http2Settings_Send settings ;;
    ret true.

(** A received frame, as far as the two handlers below read it. *)
Record nghttp2_frame : Type := {
  hd_flags : Z;
  ping_opaque_data : N;
}.

Definition HandlePingFrame (frame : nghttp2_frame) : M unit :=
  let ack := negb (Z.land (hd_flags frame) NGHTTP2_FLAG_ACK =? 0) in
  when ack
    (ping <- PopPing ;;
     match ping with
     | Some ping => Http2Ping_Done ping true (Some (ping_opaque_data frame))
     | None => MakeCallback (onerror NGHTTP2_ERR_PROTO)
     end).

Definition HandleSettingsFrame (frame : nghttp2_frame) : M unit :=
  let ack := negb (Z.land (hd_flags frame) NGHTTP2_FLAG_ACK =? 0) in
  if ack then
    settings <- PopSettings ;;
    match settings with
    | Some settings => Http2Settings_Done settings true
    | None => MakeCallback (onerror NGHTTP2_ERR_PROTO)
    end
  else MakeCallback onsettings.

(** *** Padding *)

Definition size_t_max : Z := 2 ^ 64.

(** The conversion of a [size_t] to the [ssize_t] that is returned. *)
Definition to_ssize_t (n : Z) : Z :=
  if n <? 2 ^ 63 then n else n - 2 ^ 64.

(** [frameLen] and [maxPayloadLen] are [size_t]; the sums wrap around at
    [2 ^ 64]. *)
Definition OnDWordAlignedPadding (frameLen maxPayloadLen : Z) : Z :=
  let r := ((frameLen + 9) mod size_t_max) mod 8 in
  if r =? 0 then to_ssize_t frameLen
  else
    let pad := (frameLen + ((8 - r) mod size_t_max)) mod size_t_max in
    let pad := Z.min maxPayloadLen pad in
    to_ssize_t pad.

Definition OnMaxFrameSizePadding (frameLen maxPayloadLen : Z) : Z :=
  to_ssize_t maxPayloadLen.

(** *** Http2Stream: construction and header accumulation *)

(** [Http2Stream::DoShutdown] on the object [st]; the shutdown request is
    completed at once. *)
Definition DoShutdown (st : Http2Stream) : M (Http2Stream * Z) :=
  if IsDestroyed st then ret (st, UV_EPIPE)
  else
    Http2Scope
      (r <- call (nghttp2_session_resume_data (id_ st)) ;;
       CHECK (negb (r =? NGHTTP2_ERR_NOMEM))) ;;
    MakeCallback (ShutdownWrap_Done 0) ;;
    ret (set_flag_shut true st, 0).

(** [new Http2Stream(session, id, category, options)]. *)
Definition new_Http2Stream (id : Z) (category : Z) (options : stream_options)
  : M Http2Stream :=
  s <- this ;;
  max_header_list_size <- get_local_settings NGHTTP2_SETTINGS_MAX_HEADER_LIST_SIZE ;;
  let st :=
    {| id_ := id;
       NGHTTP2_STREAM_FLAG_SHUT := false;
       NGHTTP2_STREAM_FLAG_CLOSED := false;
       NGHTTP2_STREAM_FLAG_DESTROYED := false;
       NGHTTP2_STREAM_FLAG_TRAILERS := STREAM_OPTION_GET_TRAILERS options;
       code_ := 0;
       queue_ := [];
       available_outbound_length_ := 0%N;
       current_headers_ := [];
       current_headers_length_ := 0%N;
       current_headers_category_ := category;
       max_header_pairs_ :=
         (if (session_max_header_pairs_ s =? 0)%N
          then DEFAULT_MAX_HEADER_LIST_PAIRS
          else session_max_header_pairs_ s);
       max_header_length_ := N.min max_header_list_size MAX_MAX_HEADER_LIST_SIZE |} in
  st <- (if STREAM_OPTION_EMPTY_PAYLOAD options
         then r <- DoShutdown st ;; ret (fst r)
         else ret st) ;;
  AddStream st ;;
  ret st.

Definition no_options : stream_options :=
  {| STREAM_OPTION_EMPTY_PAYLOAD := false; STREAM_OPTION_GET_TRAILERS := false |}.

Definition StartHeaders (id : Z) (category : Z) : M unit :=
  st <- deref id ;;
  CHECK (negb (IsDestroyed st)) ;;
  store id (set_headers [] 0%N category st).

(** The price of a header pair: [name.len + value.len + 32].  The lengths
    are those of buffers that exist in memory, so the sum does not reach
    [2 ^ 64]. *)
Definition header_length (name value : nghttp2_rcbuf) : N :=
  (rcbuf_len name + rcbuf_len value + 32)%N.

Definition AddHeader (id : Z) (name value : nghttp2_rcbuf) (flags : Z) : M bool :=
  st <- deref id ;;
  CHECK (negb (IsDestroyed st)) ;;
  s <- this ;;
  let length := header_length name value in
  if negb (IsAvailableSessionMemory s (Z.of_N length))
     || (N.of_nat (List.length (current_headers_ st)) =? max_header_pairs_ st)%N
     || (max_header_length_ st <? current_headers_length_ st + length)%N
  then ret false
  else
    store id (set_headers
             (current_headers_ st ++ [{| name := name; value := value; flags := flags |}])
             (current_headers_length_ st + length)%N
             (current_headers_category_ st) st) ;;
    nghttp2_rcbuf_incref name ;;
    nghttp2_rcbuf_incref value ;;
    ret true.

(** *** The outbound pipeline *)

Definition CopyDataIntoOutgoing (src_length : N) : M unit :=
  update (fun s =>
    set_outgoing
      (outgoing_buffers_ s ++ [{| req_wrap := None; buf := uv_buf_init nullptr src_length |}])
      (outgoing_storage_ s + src_length)%N s).

Definition push_outgoing (wr : nghttp2_stream_write) : M unit :=
  update (fun s => set_outgoing (outgoing_buffers_ s ++ [wr]) (outgoing_storage_ s) s).

(** The loop of OnSendData over the queue of the stream: the writes that
    leave the queue for the outgoing buffers, and the queue that remains.
    [None] when the queue runs empty while bytes are still requested (the
    CHECK of the loop fails). *)
Fixpoint OnSendData_loop (queue : list nghttp2_stream_write) (length : N)
  : option (list nghttp2_stream_write * list nghttp2_stream_write) :=
  if (0 <? length)%N then
    match queue with
    | [] => None
    | write :: queue' =>
        if (len (buf write) <=? length)%N then
          match OnSendData_loop queue' (length - len (buf write))%N with
          | Some (moved, rest) => Some (write :: moved, rest)
          | None => None
          end
        else
          Some ([{| req_wrap := None; buf := uv_buf_init (base (buf write)) length |}],
                {| req_wrap := req_wrap write;
                   buf := {| base := pointer_add (base (buf write)) length;
                             len := (len (buf write) - length)%N |} |} :: queue')
    end
  else Some ([], queue).

Definition OnSendData (id : Z) (length padlen : N) : M unit :=
  st <- GetStream id ;;
  CopyDataIntoOutgoing 9 ;;
  when (0 <? padlen)%N
    (CHECK (padlen - 1 <? 256)%N ;;
     CopyDataIntoOutgoing 1) ;;
  match OnSendData_loop (queue_ st) length with
  | None => fun _ => Crash
  | Some (moved, rest) =>
      for_each moved push_outgoing ;;
      store id (set_queue rest st)
  end ;;
  when (0 <? padlen)%N
    (push_outgoing {| req_wrap := None;
                      buf := uv_buf_init zero_bytes_256 (padlen - 1)%N |}).

Definition MaybeStopReading : M unit :=
  wants <- want_read ;;
  when (negb wants) stream_ReadStop.

(** The two inline accessors of [pending_rst_streams_], the vector that
    ClearOutgoing swaps out and walks through. *)
Definition HasPendingRstStream (s : Http2Session) (id : Z) : bool :=
  existsb (Z.eqb id) (pending_rst_streams_ s).


Definition FlushRstStream (id : Z) : M unit :=
  st <- deref id ;;
  if IsDestroyed st then ret tt
  else
    Http2Scope
      (r <- call (nghttp2_submit_rst_stream id (code_ st)) ;;
       CHECK (r =? 0)).

(** The body of the loop of ClearOutgoing over the deferred resets. *)
Definition flush_deferred (stream_id : Z) : M unit :=
  stream <- FindStream stream_id ;;
  match stream with
  | Some _ => FlushRstStream stream_id
  | None => ret tt
  end.

Definition WriteWrap_Done_all (l : list nghttp2_stream_write) (status : Z) : M unit :=
  for_each l (fun wr =>
    match req_wrap wr with
    | Some wrap => MakeCallback (WriteWrap_Done wrap status)
    | None => ret tt
    end).

(** *** The callbacks that nghttp2 makes while it is drained *)

Definition Http2Stream_EmitStatistics (id : Z) : M unit :=
  observed <- HasHttp2Observer ;;
  when observed (SetImmediate (ImmStreamStatistics id)).

Definition Http2Session_EmitStatistics : M unit :=
  observed <- HasHttp2Observer ;;
  when observed (SetImmediate ImmSessionStatistics).

Definition Destroy (id : Z) : M unit :=
  st <- deref id ;;
  if IsDestroyed st then ret tt
  else
    s <- this ;;
    when (HasPendingRstStream s id) (FlushRstStream id) ;;
    st <- deref id ;;
    store id (set_flag_destroyed true st) ;;
    SetImmediate (ImmStreamDestroy id) ;;
    Http2Stream_EmitStatistics id.

Section Provider.

(** What the listener of the stream does when it is told that the stream
    wants data ([EmitWantsWrite]), and the JavaScript callback
    [ontrailers]: both may call back into the session. *)
Variable EmitWantsWrite : Z -> N -> M unit.
Variable ontrailers : Z -> M unit.

Definition DecrementAvailableOutboundLength (id : Z) (amount : N) : M unit :=
  st <- deref id ;;
  store id (set_available_outbound_length
              (available_outbound_length_ st - amount)%N st) ;;
  DecrementCurrentSessionMemory (Z.of_N amount).

Definition OnTrailers (id : Z) : M unit :=
  st <- deref id ;;
  CHECK (negb (IsDestroyed st)) ;;
  store id (set_flag_trailers false st) ;;
  ontrailers id.

(** The loop of OnRead that removes the empty chunks from the head of the
    queue; [n] bounds the number of turns and is the length of the queue
    when the loop is entered. *)
Fixpoint OnRead_empty_chunks (id : Z) (n : nat) : M unit :=
  match n with
  | O => ret tt
  | S n' =>
      st <- deref id ;;
      match queue_ st with
      | [] => ret tt
      | front :: rest =>
          if negb (len (buf front) =? 0)%N then ret tt
          else
            store id (set_queue rest st) ;;
            match req_wrap front with
            | Some finished => MakeCallback (WriteWrap_Done finished 0)
            | None => ret tt
            end ;;
            OnRead_empty_chunks id n'
      end
  end.

(** [Http2Stream::Provider::Stream::OnRead]: the result is the value that
    is returned and [*flags].  The fuel bounds the number of restarts.
    [length] is at most the size of a frame, so the amount is returned as
    it is.  The statistics of the stream are not part of the embedding. *)
Fixpoint OnRead (fuel : nat) (id : Z) (length : N) (flags : Z) : M (Z * Z) :=
  match fuel with
  | O => fun _ => OutOfFuel
  | S fuel' =>
      stream <- GetStream id ;;
      CHECK (id =? id_ stream) ;;
      OnRead_empty_chunks id (List.length (queue_ stream)) ;;
      stream <- deref id ;;
      r <- (if negb (List.length (queue_ stream) =? 0)%nat then
              let amount := N.min (available_outbound_length_ stream) length in
              if (0 <? amount)%N then
                DecrementAvailableOutboundLength id amount ;;
                ret (amount, Z.lor flags NGHTTP2_DATA_FLAG_NO_COPY)
              else ret (amount, flags)
            else ret (0%N, flags)) ;;
      let amount := fst r in
      let flags := snd r in
      stream <- deref id ;;
      if (amount =? 0)%N && IsWritable stream then
        CHECK (List.length (queue_ stream) =? 0)%nat ;;
        EmitWantsWrite id length ;;
        stream <- deref id ;;
        if (0 <? available_outbound_length_ stream)%N || negb (IsWritable stream)
        then OnRead fuel' id length flags
        else ret (NGHTTP2_ERR_DEFERRED, flags)
      else
        stream <- deref id ;;
        flags <- (if (List.length (queue_ stream) =? 0)%nat && negb (IsWritable stream)
                  then
                    let flags := Z.lor flags NGHTTP2_DATA_FLAG_EOF in
                    if HasTrailers stream then
                      OnTrailers id ;;
                      ret (Z.lor flags NGHTTP2_DATA_FLAG_NO_END_STREAM)
                    else ret flags
                  else ret flags) ;;
        ret (Z.of_N amount, flags)
  end.

End Provider.

Section StreamClose.

(** The JavaScript function [onstreamclose] of the stream object, called
    with the id of the stream and the code. *)
Variable onstreamclose : Z -> Z -> M unit.

(** [Http2Stream::Close(code)]. *)
Definition Http2Stream_Close (id : Z) (code : Z) : M unit :=
  st <- deref id ;;
  CHECK (negb (IsDestroyed st)) ;;
  store id (set_code code (set_flag_closed true st)).

(** [Http2Session::OnStreamClose]; [has_onstreamclose] tells whether the
    stream object has the function [onstreamclose], that is, whether the
    stream was handed to JavaScript. *)
Definition OnStreamClose (has_onstreamclose : bool) (id : Z) (code : Z) : M Z :=
  stream <- FindStream id ;;
  match stream with
  | Some st =>
      if negb (IsDestroyed st) then
        Http2Stream_Close id code ;;
        (if has_onstreamclose then onstreamclose id code else Destroy id) ;;
        ret 0
      else ret 0
  | None => ret 0
  end.

End StreamClose.

(** [Http2Session::OnFrameNotSent]; [id] and [type] are those of the
    header of the frame. *)
Definition OnFrameNotSent (id : Z) (type : Z) (error_code : Z) : M Z :=
  when (negb (error_code =? NGHTTP2_ERR_SESSION_CLOSING) &&
        negb (error_code =? NGHTTP2_ERR_STREAM_CLOSED) &&
        negb (error_code =? NGHTTP2_ERR_STREAM_CLOSING))
    (MakeCallback (js_onframeerror id type error_code)) ;;
  ret 0.

(** What OnSelectPadding does to the world: with the strategy of the
    callback, OnCallbackPadding fills the padding buffer and calls
    [ongetpadding], unless the frame is empty.  The padding that is
    answered goes to nghttp2 ([OnSelectPadding] below computes it). *)
Definition OnSelectPadding_callback (hd_length maxPayloadLen : Z) : M unit :=
  s <- this ;;
  match padding_strategy_ s with
  | PADDING_STRATEGY_CALLBACK =>
      when (negb (hd_length =? 0))
        (MakeCallback (js_ongetpadding (hd_length mod 2 ^ 32) (maxPayloadLen mod 2 ^ 32)))
  | _ => ret tt
  end.

(** The listener of a stream and the functions of its JavaScript object, as
    a drain has them: their calls are recorded, and they return without a
    call into the session. *)
Definition recorded_EmitWantsWrite (id : Z) (length : N) : M unit :=
  MakeCallback (OnStreamWantsWrite id length).

Definition recorded_ontrailers (id : Z) : M unit :=
  MakeCallback (js_ontrailers id).

Definition recorded_onstreamclose (id : Z) (code : Z) : M unit :=
  MakeCallback (js_onstreamclose id code).

(** The data provider is read in a drain; the amount and the flags that
    OnRead returns go to nghttp2.  After a listener that has not touched the
    stream, a restart of OnRead finds the stream as it was and restarts
    again ([OnRead_restarts_without_end] below): the recursion has no end,
    and the process does not get past it. *)
Definition provider_read (id : Z) (length : N) : M unit :=
  fun w =>
    match OnRead recorded_EmitWantsWrite recorded_ontrailers 1 id length 0 w with
    | Ok (_, w') => Ok (tt, w')
    | Crash | OutOfFuel => Crash
    end.

Definition on_mem_send_event (ev : mem_send_event) : M unit :=
  match ev with
  | mem_send_frame src_length => CopyDataIntoOutgoing (Npos src_length)
  | mem_send_read id length => provider_read id length
  | mem_send_select_padding hd_length maxPayloadLen =>
      OnSelectPadding_callback hd_length maxPayloadLen
  | mem_send_data id length padlen => OnSendData id length padlen
  | mem_send_stream_close id code has_onstreamclose =>
      OnStreamClose recorded_onstreamclose has_onstreamclose id code ;;
      ret tt
  | mem_send_frame_not_sent id type error_code =>
      OnFrameNotSent id type error_code ;;
      ret tt
  end.

(** ClearOutgoing and SendPendingData call each other; each body takes the
    other method as an argument. *)
Definition ClearOutgoing_body (SendPendingData : M Z) (status : Z) : M unit :=
  s <- this ;;
  CHECK (SESSION_STATE_SENDING s) ;;
  update (set_SENDING false) ;;
  s <- this ;;
  when (0 <? List.length (outgoing_buffers_ s))%nat
    (update (set_outgoing [] 0%N) ;;
     WriteWrap_Done_all (outgoing_buffers_ s) status) ;;
  s <- this ;;
  when (0 <? List.length (pending_rst_streams_ s))%nat
    (update (set_pending_rst_streams []) ;;
     SendPendingData ;;
     for_each (pending_rst_streams_ s) flush_deferred).

Definition SendPendingData_body (ClearOutgoing : Z -> M unit) : M Z :=
  s <- this ;;
  if Http2Session_IsDestroyed s then ret 0
  else
    update (set_WRITE_SCHEDULED false) ;;
    s <- this ;;
    if SESSION_STATE_SENDING s then ret 1
    else
      update (set_SENDING true) ;;
      s <- this ;;
      CHECK (List.length (outgoing_buffers_ s) =? 0)%nat ;;
      CHECK (outgoing_storage_ s =? 0)%N ;;
      sent <- mem_send ;;
      for_each (fst sent) on_mem_send_event ;;
      CHECK (negb (snd sent =? NGHTTP2_ERR_NOMEM)) ;;
      s <- this ;;
      if negb (stream_ s) then
        ClearOutgoing UV_ECANCELED ;;
        ret 0
      else if (List.length (outgoing_buffers_ s) =? 0)%nat then
        ClearOutgoing 0 ;;
        ret 0
      else
        res <- stream_Write (map (fun wr => len (buf wr)) (outgoing_buffers_ s)) ;;
        when (negb (async res)) (ClearOutgoing (err res)) ;;
        MaybeStopReading ;;
        ret 0.

Fixpoint SendPendingData_fuel (fuel : nat) : M Z :=
  match fuel with
  | O => fun _ => OutOfFuel
  | S fuel' => SendPendingData_body (ClearOutgoing_body (SendPendingData_fuel fuel'))
  end.

(** Two unfoldings are enough: the nested ClearOutgoing finds the list of
    deferred resets empty ([SendPendingData_unfold] below). *)
Definition SendPendingData : M Z := SendPendingData_fuel 2.

Definition ClearOutgoing (status : Z) : M unit :=
  ClearOutgoing_body SendPendingData status.

(** The write to the i/o stream has finished. *)
Definition OnStreamAfterWrite (status : Z) : M unit :=
  ClearOutgoing status ;;
  s <- this ;;
  when (negb (SESSION_STATE_WRITE_SCHEDULED s)) MaybeScheduleWrite.

(** *** Http2Stream: reset, destruction, writes *)


Definition HasWritesOnSocketForStream (s : Http2Session) (id : Z) : bool :=
  existsb (fun wr =>
             match req_wrap wr with
             | Some wrap => wrap_stream wrap =? id
             | None => false
             end)
          (outgoing_buffers_ s).

(** The body of the loop of the destructor over the headers. *)
Definition release_header (header : nghttp2_header) : M unit :=
  nghttp2_rcbuf_decref (name header) ;;
  nghttp2_rcbuf_decref (value header).

(** [delete stream]: the destructor releases the header buffers and takes
    the stream out of the table of the session. *)
Definition delete_stream (id : Z) : M unit :=
  st <- deref id ;;
  for_each (current_headers_ st) release_header ;;
  RemoveStream (id_ st).

(** The task that Destroy gives to SetImmediate. *)
Definition Destroy_immediate (id : Z) : M unit :=
  st <- deref id ;;
  WriteWrap_Done_all (queue_ st) UV_ECANCELED ;;
  store id (set_queue [] st) ;;
  s <- this ;;
  when (negb (HasWritesOnSocketForStream s id)) (delete_stream id).

(** The writes that DoWrite queues: the request wrap goes with the last
    buffer. *)
Fixpoint DoWrite_loop (id : Z) (req_wrap : WriteWrap) (bufs : list uv_buf_t)
  : M unit :=
  match bufs with
  | [] => ret tt
  | b :: bufs' =>
      st <- deref id ;;
      store id (set_queue
               (queue_ st ++
                  [{| req_wrap := match bufs' with [] => Some req_wrap | _ => None end;
                      buf := b |}])
               st) ;;
      (* IncrementAvailableOutboundLength *)
      st <- deref id ;;
      store id (set_available_outbound_length
               (available_outbound_length_ st + len b)%N st) ;;
      IncrementCurrentSessionMemory (Z.of_N (len b)) ;;
      DoWrite_loop id req_wrap bufs'
  end.

Definition DoWrite (id : Z) (req_wrap : WriteWrap) (bufs : list uv_buf_t) : M Z :=
  Http2Scope
    (st <- deref id ;;
     if negb (IsWritable st) || IsDestroyed st then
       MakeCallback (WriteWrap_Done req_wrap UV_EOF) ;;
       ret 0
     else
       DoWrite_loop id req_wrap bufs ;;
       r <- call (nghttp2_session_resume_data id) ;;
       CHECK (negb (r =? NGHTTP2_ERR_NOMEM)) ;;
       ret 0).

(** *** Http2Session: new streams *)

(** The result is the stream, if one was made, and [*ret]. *)
Definition SubmitRequest (len : N) (options : stream_options)
  : M (option Http2Stream * Z) :=
  Http2Scope
    (r <- call (nghttp2_submit_request len (STREAM_OPTION_EMPTY_PAYLOAD options)) ;;
     CHECK (negb (r =? NGHTTP2_ERR_NOMEM)) ;;
     if 0 <? r then
       stream <- new_Http2Stream r NGHTTP2_HCAT_HEADERS options ;;
       ret (Some stream, r)
     else ret (None, r)).

(** [id] is [GetFrameID(frame)], [category] is [frame->headers.cat]. *)
Definition OnBeginHeadersCallback (id : Z) (category : Z) : M Z :=
  stream <- FindStream id ;;
  match stream with
  | None =>
      can <- CanAddStream ;;
      if negb can then
        call (nghttp2_submit_rst_stream id NGHTTP2_ENHANCE_YOUR_CALM) ;;
        ret NGHTTP2_ERR_TEMPORAL_CALLBACK_FAILURE
      else
        new_Http2Stream id category no_options ;;
        ret 0
  | Some st =>
      when (negb (IsDestroyed st)) (StartHeaders id category) ;;
      ret 0
  end.


(** *** Http2Session::Close *)

(** The loop that cancels the outstanding pings; [n] bounds the number of
    turns and is the length of the queue when the loop is entered. *)
Fixpoint Close_pings (n : nat) : M unit :=
  match n with
  | O => ret tt
  | S n' =>
      s <- this ;;
      if (List.length (outstanding_pings_ s) =? 0)%nat then ret tt
      else
        ping <- PopPing ;;
        match ping with
        | Some ping => SetImmediate (ImmPingDone ping false)
        | None => ret tt
        end ;;
        Close_pings n'
  end.

Definition Close (code : Z) (socket_closed : bool) : M unit :=
  s <- this ;;
  if SESSION_STATE_CLOSING s then ret tt
  else
    update (set_CLOSING true) ;;
    when (stream_ s) stream_ReadStop ;;
    (if negb socket_closed then
       r <- call (nghttp2_session_terminate_session code) ;;
       CHECK (r =? 0) ;;
       SendPendingData ;;
       ret tt
     else
       when (stream_ s) stream_RemoveStreamListener) ;;
    update (set_CLOSED true) ;;
    s <- this ;;
    Close_pings (List.length (outstanding_pings_ s)) ;;
    Http2Session_EmitStatistics.

(** *** The event loop: one task of the SetImmediate queue *)

Definition run_immediate (i : Immediate) : M unit :=
  match i with
  | ImmPingDone ping ack => Http2Ping_Done ping ack None
  | ImmStreamDestroy id => Destroy_immediate id
  | ImmSendPendingData =>
      s <- this ;;
      if negb (SESSION_STATE_WRITE_SCHEDULED s) then ret tt
      else SendPendingData ;; ret tt
  | ImmSessionStatistics | ImmStreamStatistics _ =>
      observed <- HasHttp2Observer ;;
      when observed (MakeCallback performance_notify)
  end.

(** The next turn of the event loop: the tasks that are queued now run in
    order; tasks that they queue wait for the turn after. *)
Definition run_immediates : M unit :=
  fun w => for_each (immediates w) run_immediate (set_immediates [] w).

End Core.

Arguments SendPendingData : simpl never.
Arguments ClearOutgoing : simpl never.

Notation "x <- m ;; k" := (bind m (fun x => k))
  (at level 100, m at next level, right associativity) : http2_scope.
Notation "m ;; k" := (bind m (fun _ => k))
  (at level 100, right associativity) : http2_scope.

(** ** Instances of the interfaces, for the examples

    A codec that follows a script: it numbers the streams it is asked to
    open, accepts every other submission, and on each drain emits the next
    batch of the script. *)

Record ScriptedCodec : Type := {
  sc_max_concurrent_streams : N;
  sc_max_header_list_size : N;
  sc_next_stream_id : Z;
  sc_want_write : bool;
  sc_script : list (list mem_send_event);
}.

Definition scripted_submit (c : nghttp2_call) (s : ScriptedCodec)
  : Z * ScriptedCodec :=
  match c with
  | nghttp2_submit_request _ _ =>
      (sc_next_stream_id s,
       {| sc_max_concurrent_streams := sc_max_concurrent_streams s;
          sc_max_header_list_size := sc_max_header_list_size s;
          sc_next_stream_id := sc_next_stream_id s + 2;
          sc_want_write := true;
          sc_script := sc_script s |})
  | _ =>
      (0,
       {| sc_max_concurrent_streams := sc_max_concurrent_streams s;
          sc_max_header_list_size := sc_max_header_list_size s;
          sc_next_stream_id := sc_next_stream_id s;
          sc_want_write := true;
          sc_script := sc_script s |})
  end.

Definition scripted_mem_send (s : ScriptedCodec)
  : list mem_send_event * Z * ScriptedCodec :=
  (hd [] (sc_script s), 0,
   {| sc_max_concurrent_streams := sc_max_concurrent_streams s;
      sc_max_header_list_size := sc_max_header_list_size s;
      sc_next_stream_id := sc_next_stream_id s;
      sc_want_write := false;
      sc_script := tl (sc_script s) |}).

Definition scripted_codec : Nghttp2 ScriptedCodec := {|
  nghttp2_session_get_local_settings := fun s id =>
    match id with
    | NGHTTP2_SETTINGS_MAX_CONCURRENT_STREAMS => sc_max_concurrent_streams s
    | NGHTTP2_SETTINGS_MAX_HEADER_LIST_SIZE => sc_max_header_list_size s
    end;
  nghttp2_session_want_write := sc_want_write;
  nghttp2_session_want_read := fun _ => true;
  nghttp2_submit := scripted_submit;
  nghttp2_session_mem_send := scripted_mem_send;
|}.

(** An i/o stream whose state says whether its writes finish later
    ([true]) or at once. *)
Definition async_flag_stream : StreamResource bool := {|
  StreamBase_ReadStop := fun t => t;
  StreamBase_Write := fun _ t => ({| async := t; err := 0 |}, t);
|}.

(** A header: the memory check compares the counter of the session with
    its ceiling, a closed session counts as destroyed, a stream is writable
    until its writable side is shut down. *)
Definition example_header : Http2Header := {|
  sizeof_Http2Stream := 400;
  sizeof_Http2Ping := 100;
  sizeof_Http2Settings := 200;
  streams_max_size := 1152921504606846975;
  DEFAULT_MAX_HEADER_LIST_PAIRS := 128;
  MAX_MAX_HEADER_LIST_SIZE := 16777215;
  IsAvailableSessionMemory := fun s amount =>
    current_session_memory_ s + amount <=? max_session_memory_ s;
  Http2Session_IsDestroyed := SESSION_STATE_CLOSED;
  IsWritable := fun st => negb (NGHTTP2_STREAM_FLAG_SHUT st);
  Http2Session_IsDestroyed_streams := fun _ _ => eq_refl;
|}.

Definition example_session (max_pings max_settings : N) (memory : Z)
  : Http2Session :=
  {| SESSION_STATE_HAS_SCOPE := false;
     SESSION_STATE_WRITE_SCHEDULED := false;
     SESSION_STATE_CLOSED := false;
     SESSION_STATE_CLOSING := false;
     SESSION_STATE_SENDING := false;
     streams_ := ∅;
     outstanding_pings_ := [];
     outstanding_settings_ := [];
     pending_rst_streams_ := [];
     outgoing_buffers_ := [];
     outgoing_storage_ := 0;
     stream_ := true;
     current_session_memory_ := 0;
     max_session_memory_ := memory;
     max_outstanding_pings_ := max_pings;
     max_outstanding_settings_ := max_settings;
     session_max_header_pairs_ := 4;
     padding_strategy_ := PADDING_STRATEGY_NONE |}.

Definition example_codec (max_streams : N) (script : list (list mem_send_event))
  : ScriptedCodec :=
  {| sc_max_concurrent_streams := max_streams;
     sc_max_header_list_size := 65535;
     sc_next_stream_id := 1;
     sc_want_write := false;
     sc_script := script |}.

Definition example_world (s : Http2Session) (c : ScriptedCodec) (async : bool)
  : World ScriptedCodec bool :=
  {| session := s; nghttp2 := c; nghttp2_calls := [];
     io := async; io_calls := []; immediates := []; js_calls := [];
     rcbuf_refs := ∅; http2_observer := false |}.

(** ** The vocabulary of the statements *)

Local Open Scope http2_scope.

Definition is_WriteWrap_Done (c : JsCall) : Prop :=
  match c with WriteWrap_Done _ _ => True | _ => False end.

Definition is_rst_stream (c : nghttp2_call) : Prop :=
  match c with nghttp2_submit_rst_stream _ _ => True | _ => False end.

Definition is_SendPendingData (i : Immediate) : Prop :=
  match i with ImmSendPendingData => True | _ => False end.

(** The calls that are made while nghttp2 is drained: write requests are
    completed, and the callbacks of the drain call JavaScript and the
    listener of a stream.  No waiter of a ping or of a settings frame is
    completed. *)
Definition is_drain_call (c : JsCall) : Prop :=
  match c with
  | WriteWrap_Done _ _ | js_onstreamclose _ _ | js_ontrailers _
  | js_onframeerror _ _ _ | js_ongetpadding _ _ | OnStreamWantsWrite _ _ => True
  | _ => False
  end.

(** The tasks that are queued while nghttp2 is drained. *)
Definition is_drain_task (i : Immediate) : Prop :=
  match i with
  | ImmSendPendingData | ImmStreamDestroy _ | ImmStreamStatistics _ => True
  | _ => False
  end.

(** [l'] is [l] with elements appended that all satisfy [P]. *)
Definition appended {A : Type} (P : A -> Prop) (l l' : list A) : Prop :=
  exists d, l' = l ++ d /\ Forall P d.

Section Logic.
Context {C T : Type} {codec : Nghttp2 C} {transport : StreamResource T}.
Context {header : Http2Header}.
Implicit Types (w : World C T) (s : Http2Session).

(** [wp m Q w]: run at [w], the method [m] has fuel enough, and unless a
    CHECK aborts the process, it returns a result and a world that satisfy
    [Q]. *)
Definition wp {A : Type} (m : M A) (Q : A -> World C T -> Prop) (w : World C T)
  : Prop :=
  match m w with
  | Ok (a, w') => Q a w'
  | Crash => True
  | OutOfFuel => False
  end.

(** [returns m Q w]: run at [w], the method [m] returns, and its result and
    world satisfy [Q]; no CHECK fails on the way. *)
Definition returns {A : Type} (m : M A) (Q : A -> World C T -> Prop) (w : World C T)
  : Prop :=
  match m w with
  | Ok (a, w') => Q a w'
  | Crash | OutOfFuel => False
  end.

(** What the methods around a drain may change, the callbacks of the drain
    apart: the queues of the streams, the flags SENDING and WRITE_SCHEDULED,
    the outgoing buffers, the codec and the i/o stream; they complete write
    requests, submit deferred resets and may schedule a write. *)
Record flushed (w w' : World C T) : Prop := {
  flushed_streams :
    set_queue [] <$> streams_ (session w') = set_queue [] <$> streams_ (session w);
  flushed_pings : outstanding_pings_ (session w') = outstanding_pings_ (session w);
  flushed_settings :
    outstanding_settings_ (session w') = outstanding_settings_ (session w);
  flushed_pending :
    pending_rst_streams_ (session w') = pending_rst_streams_ (session w) \/
    pending_rst_streams_ (session w') = [];
  flushed_HAS_SCOPE :
    SESSION_STATE_HAS_SCOPE (session w') = SESSION_STATE_HAS_SCOPE (session w);
  flushed_CLOSING :
    SESSION_STATE_CLOSING (session w') = SESSION_STATE_CLOSING (session w);
  flushed_CLOSED :
    SESSION_STATE_CLOSED (session w') = SESSION_STATE_CLOSED (session w);
  flushed_stream_ : stream_ (session w') = stream_ (session w);
  flushed_memory :
    current_session_memory_ (session w') = current_session_memory_ (session w);
  flushed_max_memory :
    max_session_memory_ (session w') = max_session_memory_ (session w);
  flushed_max_pings :
    max_outstanding_pings_ (session w') = max_outstanding_pings_ (session w);
  flushed_max_settings :
    max_outstanding_settings_ (session w') = max_outstanding_settings_ (session w);
  flushed_js : appended is_WriteWrap_Done (js_calls w) (js_calls w');
  flushed_calls : appended is_rst_stream (nghttp2_calls w) (nghttp2_calls w');
  flushed_immediates : appended is_SendPendingData (immediates w) (immediates w');
  flushed_rcbuf : rcbuf_refs w' = rcbuf_refs w;
  flushed_observer : http2_observer w' = http2_observer w;
}.

(** What a drain may do to a stream: OnRead and OnSendData change its
    queue and the count of its bytes, OnTrailers clears the flag of the
    trailers, OnStreamClose marks it as closed with the code of the codec
    and may destroy it.  A stream is destroyed in a drain only after it was
    closed, and neither flag is ever cleared. *)
Record stream_drained (st st' : Http2Stream) : Prop := {
  drained_id : id_ st' = id_ st;
  drained_SHUT : NGHTTP2_STREAM_FLAG_SHUT st' = NGHTTP2_STREAM_FLAG_SHUT st;
  drained_headers : current_headers_ st' = current_headers_ st;
  drained_headers_length : current_headers_length_ st' = current_headers_length_ st;
  drained_headers_category :
    current_headers_category_ st' = current_headers_category_ st;
  drained_max_pairs : max_header_pairs_ st' = max_header_pairs_ st;
  drained_max_length : max_header_length_ st' = max_header_length_ st;
  drained_CLOSED :
    NGHTTP2_STREAM_FLAG_CLOSED st = true -> NGHTTP2_STREAM_FLAG_CLOSED st' = true;
  drained_DESTROYED :
    NGHTTP2_STREAM_FLAG_DESTROYED st = true ->
    NGHTTP2_STREAM_FLAG_DESTROYED st' = true;
  drained_open :
    NGHTTP2_STREAM_FLAG_CLOSED st' = false ->
    code_ st' = code_ st /\
    NGHTTP2_STREAM_FLAG_DESTROYED st' = NGHTTP2_STREAM_FLAG_DESTROYED st;
}.

(** What a flush may change, with the callbacks that nghttp2 makes while it
    is drained: the table holds the same streams, changed as a drain may
    change them; the memory counter goes down by what the providers have
    promised; JavaScript and the listeners are called, resets of streams are
    submitted, and writes, deletions of streams and statistics are given to
    SetImmediate.  The waiters, the flags of closing and the i/o stream
    pointer stay. *)
Record drained (w w' : World C T) : Prop := {
  drained_dom : dom (streams_ (session w')) = dom (streams_ (session w));
  drained_streams : forall id st st',
    streams_ (session w) !! id = Some st ->
    streams_ (session w') !! id = Some st' ->
    stream_drained st st';
  drained_pings : outstanding_pings_ (session w') = outstanding_pings_ (session w);
  drained_settings :
    outstanding_settings_ (session w') = outstanding_settings_ (session w);
  drained_pending :
    pending_rst_streams_ (session w') = pending_rst_streams_ (session w) \/
    pending_rst_streams_ (session w') = [];
  drained_HAS_SCOPE :
    SESSION_STATE_HAS_SCOPE (session w') = SESSION_STATE_HAS_SCOPE (session w);
  drained_CLOSING :
    SESSION_STATE_CLOSING (session w') = SESSION_STATE_CLOSING (session w);
  drained_session_CLOSED :
    SESSION_STATE_CLOSED (session w') = SESSION_STATE_CLOSED (session w);
  drained_stream_ : stream_ (session w') = stream_ (session w);
  drained_memory :
    current_session_memory_ (session w') <= current_session_memory_ (session w);
  drained_max_memory :
    max_session_memory_ (session w') = max_session_memory_ (session w);
  drained_max_pings :
    max_outstanding_pings_ (session w') = max_outstanding_pings_ (session w);
  drained_max_settings :
    max_outstanding_settings_ (session w') = max_outstanding_settings_ (session w);
  drained_js : appended is_drain_call (js_calls w) (js_calls w');
  drained_calls : appended is_rst_stream (nghttp2_calls w) (nghttp2_calls w');
  drained_immediates : appended is_drain_task (immediates w) (immediates w');
  drained_rcbuf : rcbuf_refs w' = rcbuf_refs w;
  drained_observer : http2_observer w' = http2_observer w;
}.

(** What SendPendingData returns: non-zero when a write is in progress on
    a session that is not destroyed. *)
Definition SendPendingData_result (s : Http2Session) : Z :=
  if Http2Session_IsDestroyed s then 0
  else if SESSION_STATE_SENDING s then 1 else 0.




(** A sequence of AddHeader calls on the stream [id], with their results. *)
Fixpoint AddHeaders (id : Z) (pairs : list (nghttp2_rcbuf * nghttp2_rcbuf * Z))
  : @M C T (list bool) :=
  match pairs with
  | [] => ret []
  | (name, value, flags) :: pairs' =>
      r <- AddHeader id name value flags ;;
      rs <- AddHeaders id pairs' ;;
      ret (r :: rs)
  end.


(** The writes that DoWrite appends to the queue of a stream, and the
    number of bytes that they hold. *)
Fixpoint DoWrite_writes (req_wrap : WriteWrap) (bufs : list uv_buf_t)
  : list nghttp2_stream_write :=
  match bufs with
  | [] => []
  | b :: bufs' =>
      {| req_wrap := match bufs' with [] => Some req_wrap | _ => None end;
         buf := b |} :: DoWrite_writes req_wrap bufs'
  end.

Definition total_len (bufs : list uv_buf_t) : N :=
  foldr (fun b acc => (len b + acc)%N) 0%N bufs.

(** The stream after DoWrite has queued [bufs]. *)
Definition with_writes (req_wrap : WriteWrap) (bufs : list uv_buf_t)
    (st : Http2Stream) : Http2Stream :=
  set_available_outbound_length
    (available_outbound_length_ st + total_len bufs)%N
    (set_queue (queue_ st ++ DoWrite_writes req_wrap bufs) st).

(** The bound that CanAddStream compares the size of the table with. *)
Definition stream_limit (w : World C T) : N :=
  N.min streams_max_size
    (nghttp2_session_get_local_settings (nghttp2 w) NGHTTP2_SETTINGS_MAX_CONCURRENT_STREAMS).

Definition within_stream_limit (w : World C T) : Prop :=
  (N.of_nat (size (streams_ (session w))) <= stream_limit w)%N.

(** A sequence of begin-headers events, each with the id and the category
    of its frame. *)
Fixpoint OnBeginHeaders_all (frames : list (Z * Z)) : @M C T (list Z) :=
  match frames with
  | [] => ret []
  | (id, category) :: frames' =>
      r <- OnBeginHeadersCallback id category ;;
      rs <- OnBeginHeaders_all frames' ;;
      ret (r :: rs)
  end.


(** The test of AddHeader that refuses a pair. *)
Definition AddHeader_refuses (s : Http2Session) (st : Http2Stream)
    (name value : nghttp2_rcbuf) : bool :=
  negb (IsAvailableSessionMemory s (Z.of_N (header_length name value)))
  || (N.of_nat (length (current_headers_ st)) =? max_header_pairs_ st)%N
  || (max_header_length_ st <? current_headers_length_ st + header_length name value)%N.

Definition with_header (id : Z) (st : Http2Stream) (name value : nghttp2_rcbuf)
    (flags : Z) : Http2Stream :=
  set_headers
    (current_headers_ st ++ [{| name := name; value := value; flags := flags |}])
    (current_headers_length_ st + header_length name value)%N
    (current_headers_category_ st) st.

(** What the loop of DoWrite leaves as it is. *)
Definition same_but_stream (id : Z) (w w' : World C T) : Prop :=
  SESSION_STATE_HAS_SCOPE (session w') = SESSION_STATE_HAS_SCOPE (session w) /\
  SESSION_STATE_WRITE_SCHEDULED (session w') = SESSION_STATE_WRITE_SCHEDULED (session w) /\
  (forall j, j <> id -> streams_ (session w') !! j = streams_ (session w) !! j) /\
  nghttp2 w' = nghttp2 w /\
  nghttp2_calls w' = nghttp2_calls w /\
  immediates w' = immediates w /\
  js_calls w' = js_calls w.


(** What Close has done when it reaches the point where it marks the
    session closed. *)
Definition closing (w w' : World C T) : Prop :=
  outstanding_pings_ (session w') = outstanding_pings_ (session w) /\
  outstanding_settings_ (session w') = outstanding_settings_ (session w) /\
  appended is_drain_call (js_calls w) (js_calls w') /\
  appended is_drain_task (immediates w) (immediates w').

(** The completions that [WriteWrap_Done_all] makes. *)
Definition completions (l : list nghttp2_stream_write) (status : Z) : list JsCall :=
  omap (fun wr => (fun wrap => WriteWrap_Done wrap status) <$> req_wrap wr) l.

(** A method stays within the footprint of the methods around a drain,
    or within that of a flush. *)
Definition fp {A : Type} (m : @M C T A) : Prop :=
  forall w, wp m (fun _ w' => flushed w w') w.

Definition dp {A : Type} (m : @M C T A) : Prop :=
  forall w, wp m (fun _ w' => drained w w') w.

(** A method returns within the footprint of a flush, if it returns. *)
Definition dpp {A : Type} (m : @M C T A) : Prop :=
  forall w, match m w with
            | Ok (_, w') => drained w w'
            | Crash | OutOfFuel => True
            end.

(** The state of a stream in which OnRead restarts: nothing is queued,
    bytes are counted as available and the stream is writable. *)
Definition restarting (id : Z) (w : World C T) : Prop :=
  exists st, streams_ (session w) !! id = Some st /\
             id_ st = id /\
             queue_ st = [] /\
             (0 < available_outbound_length_ st)%N /\
             IsWritable st = true.

End Logic.

Section Approx.
Context {C T : Type}.

(** [m'] does what [m] does wherever [m] has fuel enough. *)
Definition approx {A : Type} (m m' : @M C T A) : Prop :=
  forall w, m w <> OutOfFuel -> m' w = m w.

End Approx.

(** The least padded length above [frameLen] that aligns the frame, header
    included, to 8 bytes. *)
Definition next_aligned (frameLen : Z) : Z :=
  frameLen + (8 - (frameLen + 9) mod 8).

(** ** Worlds and runs for the examples *)

Definition example_stream (id : Z) : Http2Stream :=
  {| id_ := id;
     NGHTTP2_STREAM_FLAG_SHUT := false;
     NGHTTP2_STREAM_FLAG_CLOSED := false;
     NGHTTP2_STREAM_FLAG_DESTROYED := false;
     NGHTTP2_STREAM_FLAG_TRAILERS := false;
     code_ := 0;
     queue_ := [];
     available_outbound_length_ := 0;
     current_headers_ := [];
     current_headers_length_ := 0;
     current_headers_category_ := 0;
     max_header_pairs_ := 2;
     max_header_length_ := 100 |}.

Definition example_wrap (n : nat) : WriteWrap := {| wrap_id := n; wrap_stream := 1 |}.

Definition example_buf : uv_buf_t := uv_buf_init (address 1000) 10.

Definition example_rcbuf (n : nat) : nghttp2_rcbuf := {| rcbuf_id := n; rcbuf_len := 3 |}.

(** A session that holds the stream 1. *)
Definition example_session_with (st : Http2Stream) (memory : Z) : Http2Session :=
  set_streams (<[1 := st]> ∅) (example_session 2 2 memory).

(** A fresh session whose codec allows one concurrent stream and whose
    memory ceiling is zero. *)
Definition world_one_stream_no_memory : World ScriptedCodec bool :=
  example_world (example_session 2 2 0) (example_codec 1 []) true.

(** A session with two outstanding pings and one outstanding settings
    frame, as many as it allows of each. *)
Definition world_with_waiters : World ScriptedCodec bool :=
  example_world
    (set_outstanding_settings [{| settings_id := 1; entries_ := [] |}]
       (set_outstanding_pings [{| ping_id := 1 |}; {| ping_id := 2 |}]
          (example_session 2 1 10000)))
    (example_codec 10 []) true.

(** A fresh session on an i/o stream whose writes finish later; on its
    first drain the codec will ask the provider of stream 1 for 4 bytes and
    then send them. *)
Definition world_partial_send : World ScriptedCodec bool :=
  example_world (example_session 2 2 10000)
    (example_codec 10 [[mem_send_read 1 4; mem_send_data 1 4 0]]) true.



(** A session whose stream 1 has a write queued already. *)
Definition world_with_queued_write : World ScriptedCodec bool :=
  example_world
    (example_session_with
       (set_queue [{| req_wrap := Some (example_wrap 1); buf := example_buf |}]
          (example_stream 1)) 10000)
    (example_codec 10 []) true.

(** A session with the stream 1 and nothing queued. *)
Definition world_with_stream (memory : Z) : World ScriptedCodec bool :=
  example_world (example_session_with (example_stream 1) memory)
    (example_codec 10 []) true.




(** The peer opens stream 1, ten bytes are written to it, a flush puts the
    first four on the socket, the stream is destroyed, and the event loop
    takes its next turn. *)
Definition run_destroy_after_partial_send : @M ScriptedCodec bool unit :=
  (@OnBeginHeadersCallback _ _ scripted_codec example_header 1 0 ;;
   @DoWrite _ _ scripted_codec example_header 1 (example_wrap 1) [example_buf] ;;
   @SendPendingData _ _ scripted_codec async_flag_stream example_header ;;
   @Destroy _ _ scripted_codec 1 ;;
   @run_immediates _ _ scripted_codec async_flag_stream example_header)%http2.

(** Two requests are submitted in a row. *)
Definition run_two_requests : @M ScriptedCodec bool (Z * Z) :=
  (a <- @SubmitRequest _ _ scripted_codec example_header 3 no_options ;;
   b <- @SubmitRequest _ _ scripted_codec example_header 3 no_options ;;
   ret (snd a, snd b))%http2.


(** A fresh session on an i/o stream whose writes finish later; its codec
    has nothing to send. *)
Definition world_fresh : World ScriptedCodec bool :=
  example_world (example_session 2 2 10000) (example_codec 10 []) true.

(** The peer opens stream 1, ten bytes are written to it, and the event loop
    takes its next turn: the scheduled flush runs, and the codec takes none
    of the data. *)
Definition run_write_then_tick : @M ScriptedCodec bool unit :=
  (@OnBeginHeadersCallback _ _ scripted_codec example_header 1 0 ;;
   @DoWrite _ _ scripted_codec example_header 1 (example_wrap 1) [example_buf] ;;
   @run_immediates _ _ scripted_codec async_flag_stream example_header)%http2.


(** ** The choice of the padding of a frame *)

(** [static_cast<uint32_t>], and the store into an element of a
    [Uint32Array]. *)
Definition to_uint32 (n : Z) : Z := n mod 2 ^ 32.

(** The conversion of an [ssize_t] to the [size_t] of a parameter. *)
Definition to_size_t (n : Z) : Z := n mod size_t_max.

(** [ongetpadding] is the JavaScript callback: given the frame length and
    the maximum payload length that the method has written into the padding
    buffer, it answers with what it leaves in PADDING_BUF_RETURN_VALUE. *)
Definition OnCallbackPadding (ongetpadding : Z -> Z -> Z)
    (frameLen maxPayloadLen : Z) : Z :=
  if frameLen =? 0 then 0
  else
    let retval :=
      to_uint32 (ongetpadding (to_uint32 frameLen) (to_uint32 maxPayloadLen)) in
    let retval := Z.min retval (to_uint32 maxPayloadLen) in
    let retval := Z.max retval (to_uint32 frameLen) in
    retval.

(** [hd_length] is [frame->hd.length]. *)
Definition OnSelectPadding (ongetpadding : Z -> Z -> Z) (s : Http2Session)
    (hd_length maxPayloadLen : Z) : Z :=
  let padding := to_ssize_t hd_length in
  match padding_strategy_ s with
  | PADDING_STRATEGY_NONE => padding
  | PADDING_STRATEGY_MAX => OnMaxFrameSizePadding (to_size_t padding) maxPayloadLen
  | PADDING_STRATEGY_ALIGNED => OnDWordAlignedPadding (to_size_t padding) maxPayloadLen
  | PADDING_STRATEGY_CALLBACK =>
      OnCallbackPadding ongetpadding (to_size_t padding) maxPayloadLen
  end.

(** A session that pads its frames by the given strategy. *)
Definition example_session_padding (strategy : padding_strategy_type) : Http2Session :=
  {| SESSION_STATE_HAS_SCOPE := false;
     SESSION_STATE_WRITE_SCHEDULED := false;
     SESSION_STATE_CLOSED := false;
     SESSION_STATE_CLOSING := false;
     SESSION_STATE_SENDING := false;
     streams_ := ∅;
     outstanding_pings_ := [];
     outstanding_settings_ := [];
     pending_rst_streams_ := [];
     outgoing_buffers_ := [];
     outgoing_storage_ := 0;
     stream_ := true;
     current_session_memory_ := 0;
     max_session_memory_ := 10000;
     max_outstanding_pings_ := 10;
     max_outstanding_settings_ := 10;
     session_max_header_pairs_ := 4;
     padding_strategy_ := strategy |}.

(** ** The Headers class: the array of [nghttp2_nv] of a header block *)

(** [ROUND_UP(a, b)] of node_internals.h, on [uintptr_t]. *)
Definition ROUND_UP (a b : Z) : Z :=
  if negb (a mod b =? 0) then (((a + b) mod size_t_max) - a mod b) mod size_t_max
  else a.

(** A [nghttp2_nv]: the bytes that [name] and [namelen] (and [value] and
    [valuelen]) delimit, and the flags. *)
Record nghttp2_nv : Type := {
  nv_name : list Byte.byte;
  nv_value : list Byte.byte;
  nv_flags : Z;
}.

Definition NGHTTP2_NV_FLAG_NONE : Z := 0.

(** The members of a [Headers] object: [count_], which [length()]
    answers, and the entries of the array that the constructor has
    written. *)
Record Headers : Type := {
  Headers_count_ : nat;
  Headers_nva : list nghttp2_nv;
}.

(** How the constructor ends: with an object, with a failed CHECK, or
    with a [strlen] that runs past the end of the buffer.  [no_fuel] only
    arises from the bounded unfolding of the loop. *)
Inductive HeadersResult : Type :=
| constructed (h : Headers)
| check_failed
| out_of_bounds
| no_fuel.

Definition is_nul (b : Byte.byte) : bool :=
  match b with Byte.x00 => true | _ => false end.

(** [strlen(p)], where [p] points at the bytes that are left of the
    buffer: [None] when no NUL byte is left. *)
Fixpoint strlen (p : list Byte.byte) : option nat :=
  match p with
  | [] => None
  | b :: p' => if is_nul b then Some O else S <$> strlen p'
  end.

(** The header that makes nghttp2 reject the list. *)
Definition zero_header : nghttp2_nv :=
  {| nv_name := [Byte.x00]; nv_value := [Byte.x00]; nv_flags := NGHTTP2_NV_FLAG_NONE |}.

(** The loop of the constructor; [p] is what is left of the header
    contents, from the pointer [p] to their end. *)
Fixpoint Headers_loop (fuel : nat) (count_ : nat) (p : list Byte.byte)
    (n : nat) (nva : list nghttp2_nv) : HeadersResult :=
  match p with
  | [] => constructed {| Headers_count_ := count_; Headers_nva := nva |}
  | _ :: _ =>
      match fuel with
      | O => no_fuel
      | S fuel' =>
          if (count_ <=? n)%nat
          then constructed {| Headers_count_ := 1; Headers_nva := [zero_header] |}
          else
            match strlen p with
            | None => out_of_bounds
            | Some namelen =>
                let p1 := drop (namelen + 1) p in
                match strlen p1 with
                | None => out_of_bounds
                | Some valuelen =>
                    let p2 := drop (valuelen + 1) p1 in
                    Headers_loop fuel' count_ p2 (S n)
                      (nva ++ [{| nv_name := take namelen p;
                                  nv_value := take valuelen p1;
                                  nv_flags := NGHTTP2_NV_FLAG_NONE |}])
                end
            end
      end
  end.

(** [Headers::Headers]: [header_string] and [header_count] are the two
    elements of the array that JavaScript passes; [buf_] is the address of
    the storage that [AllocateSufficientStorage] hands out. *)
Definition Headers_new (alignof_nghttp2_nv sizeof_nghttp2_nv : Z) (buf_ : Z)
    (header_string : list Byte.byte) (header_count : nat) : HeadersResult :=
  let count_ := header_count in
  let header_string_len := Z.of_nat (length header_string) in
  if (count_ =? 0)%nat then
    if header_string_len =? 0
    then constructed {| Headers_count_ := count_; Headers_nva := [] |}
    else check_failed
  else
    let buf_length :=
      (alignof_nghttp2_nv - 1) + Z.of_nat count_ * sizeof_nghttp2_nv + header_string_len in
    let start := ROUND_UP buf_ alignof_nghttp2_nv in
    let header_contents := start + Z.of_nat count_ * sizeof_nghttp2_nv in
    if negb (header_contents + header_string_len <=? buf_ + buf_length)
    then check_failed
    else Headers_loop (length header_string) count_ header_string 0 [].

(** The header contents that hold the given strings, each with the NUL
    byte that ends it. *)
Definition nul_terminated (fields : list (list Byte.byte)) : list Byte.byte :=
  concat (map (fun f => f ++ [Byte.x00]) fields).

Definition header_fields (pairs : list (list Byte.byte * list Byte.byte))
  : list (list Byte.byte) :=
  concat (map (fun nv => [fst nv; snd nv]) pairs).

Definition nv_of (pair : list Byte.byte * list Byte.byte) : nghttp2_nv :=
  {| nv_name := fst pair; nv_value := snd pair; nv_flags := NGHTTP2_NV_FLAG_NONE |}.

Definition no_nul (f : list Byte.byte) : Prop := Forall (fun b => is_nul b = false) f.

(** The number of NUL bytes of a string. *)
Definition count_nul (p : list Byte.byte) : nat := length (filter (fun b => is_nul b = true) p).

(** The string is empty or ends with a NUL byte. *)
Definition ends_with_nul (p : list Byte.byte) : Prop :=
  p = [] \/ exists q, p = q ++ [Byte.x00].

(** The header block [a: bc, d: (empty)]. *)
Definition example_header_pairs : list (list Byte.byte * list Byte.byte) :=
  [([Byte.x61], [Byte.x62; Byte.x63]); ([Byte.x64], [])].

(** A header block whose first value holds a NUL byte. *)
Definition example_header_pairs_nul : list (list Byte.byte * list Byte.byte) :=
  [([Byte.x61], [Byte.x62; Byte.x00; Byte.x63]); ([Byte.x64], [])].

(** ** Http2Settings and the settings buffer that is shared with JavaScript *)

(** Setting ids of the nghttp2 public header. *)
Definition NGHTTP2_SETTINGS_HEADER_TABLE_SIZE_id : Z := 1.
Definition NGHTTP2_SETTINGS_ENABLE_PUSH_id : Z := 2.
Definition NGHTTP2_SETTINGS_MAX_CONCURRENT_STREAMS_id : Z := 3.
Definition NGHTTP2_SETTINGS_INITIAL_WINDOW_SIZE_id : Z := 4.
Definition NGHTTP2_SETTINGS_MAX_FRAME_SIZE_id : Z := 5.
Definition NGHTTP2_SETTINGS_MAX_HEADER_LIST_SIZE_id : Z := 6.

(** The indices into the settings buffer (node_http2_state.h) and the
    default values (node_http2.h). *)
Class SettingsBuffer : Type := {
  IDX_SETTINGS_HEADER_TABLE_SIZE : Z;
  IDX_SETTINGS_ENABLE_PUSH : Z;
  IDX_SETTINGS_INITIAL_WINDOW_SIZE : Z;
  IDX_SETTINGS_MAX_FRAME_SIZE : Z;
  IDX_SETTINGS_MAX_CONCURRENT_STREAMS : Z;
  IDX_SETTINGS_MAX_HEADER_LIST_SIZE : Z;
  IDX_SETTINGS_COUNT : Z;
  DEFAULT_SETTINGS_HEADER_TABLE_SIZE : Z;
  DEFAULT_SETTINGS_ENABLE_PUSH : Z;
  DEFAULT_SETTINGS_INITIAL_WINDOW_SIZE : Z;
  DEFAULT_SETTINGS_MAX_FRAME_SIZE : Z;
  DEFAULT_SETTINGS_MAX_HEADER_LIST_SIZE : Z;
}.

(** An [AliasedBuffer<uint32_t, Uint32Array>] is a [gmap Z Z]: the
    elements that were written; the others hold 0. *)
Definition buffer_get (buffer : gmap Z Z) (i : Z) : Z := default 0 (buffer !! i).

Definition buffer_set (i : Z) (v : Z) (buffer : gmap Z Z) : gmap Z Z :=
  <[i := to_uint32 v]> buffer.

Section Settings.
Context {indices : SettingsBuffer}.

(** One use of the macro GRABSETTING. *)
Definition GRABSETTING (buffer : gmap Z Z) (flags : Z) (idx id : Z)
    (entries : list (Z * N)) : list (Z * N) :=
  if negb (Z.land flags (to_uint32 (Z.shiftl 1 idx)) =? 0)
  then entries ++ [(id, Z.to_N (buffer_get buffer idx))]
  else entries.

(** [Http2Settings::Init]: the entries, in the order in which they are
    written; [count_] is their number. *)
Definition Http2Settings_Init (buffer : gmap Z Z) : list (Z * N) :=
  let flags := buffer_get buffer IDX_SETTINGS_COUNT in
  let entries := [] in
  let entries := GRABSETTING buffer flags IDX_SETTINGS_HEADER_TABLE_SIZE
                   NGHTTP2_SETTINGS_HEADER_TABLE_SIZE_id entries in
  let entries := GRABSETTING buffer flags IDX_SETTINGS_MAX_CONCURRENT_STREAMS
                   NGHTTP2_SETTINGS_MAX_CONCURRENT_STREAMS_id entries in
  let entries := GRABSETTING buffer flags IDX_SETTINGS_MAX_FRAME_SIZE
                   NGHTTP2_SETTINGS_MAX_FRAME_SIZE_id entries in
  let entries := GRABSETTING buffer flags IDX_SETTINGS_INITIAL_WINDOW_SIZE
                   NGHTTP2_SETTINGS_INITIAL_WINDOW_SIZE_id entries in
  let entries := GRABSETTING buffer flags IDX_SETTINGS_MAX_HEADER_LIST_SIZE
                   NGHTTP2_SETTINGS_MAX_HEADER_LIST_SIZE_id entries in
  let entries := GRABSETTING buffer flags IDX_SETTINGS_ENABLE_PUSH
                   NGHTTP2_SETTINGS_ENABLE_PUSH_id entries in
  entries.

(** [Http2Settings::RefreshDefaults]. *)
Definition Http2Settings_RefreshDefaults (buffer : gmap Z Z) : gmap Z Z :=
  let buffer := buffer_set IDX_SETTINGS_HEADER_TABLE_SIZE
                  DEFAULT_SETTINGS_HEADER_TABLE_SIZE buffer in
  let buffer := buffer_set IDX_SETTINGS_ENABLE_PUSH DEFAULT_SETTINGS_ENABLE_PUSH buffer in
  let buffer := buffer_set IDX_SETTINGS_INITIAL_WINDOW_SIZE
                  DEFAULT_SETTINGS_INITIAL_WINDOW_SIZE buffer in
  let buffer := buffer_set IDX_SETTINGS_MAX_FRAME_SIZE
                  DEFAULT_SETTINGS_MAX_FRAME_SIZE buffer in
  let buffer := buffer_set IDX_SETTINGS_MAX_HEADER_LIST_SIZE
                  DEFAULT_SETTINGS_MAX_HEADER_LIST_SIZE buffer in
  buffer_set IDX_SETTINGS_COUNT
    (Z.lor (Z.lor (Z.lor (Z.lor
       (Z.shiftl 1 IDX_SETTINGS_HEADER_TABLE_SIZE)
       (Z.shiftl 1 IDX_SETTINGS_ENABLE_PUSH))
       (Z.shiftl 1 IDX_SETTINGS_INITIAL_WINDOW_SIZE))
       (Z.shiftl 1 IDX_SETTINGS_MAX_FRAME_SIZE))
       (Z.shiftl 1 IDX_SETTINGS_MAX_HEADER_LIST_SIZE))
    buffer.

(** The indices of the six settings are bit positions of a [uint32_t]. *)
Definition indices_in_range : Prop :=
  Forall (fun i => 0 <= i < 32)
    [IDX_SETTINGS_HEADER_TABLE_SIZE; IDX_SETTINGS_ENABLE_PUSH;
     IDX_SETTINGS_INITIAL_WINDOW_SIZE; IDX_SETTINGS_MAX_FRAME_SIZE;
     IDX_SETTINGS_MAX_CONCURRENT_STREAMS; IDX_SETTINGS_MAX_HEADER_LIST_SIZE].

(** The indices are the members of an enumeration: no two are the same. *)
Definition indices_distinct : Prop :=
  NoDup [IDX_SETTINGS_HEADER_TABLE_SIZE; IDX_SETTINGS_ENABLE_PUSH;
         IDX_SETTINGS_INITIAL_WINDOW_SIZE; IDX_SETTINGS_MAX_FRAME_SIZE;
         IDX_SETTINGS_MAX_CONCURRENT_STREAMS; IDX_SETTINGS_MAX_HEADER_LIST_SIZE;
         IDX_SETTINGS_COUNT].

End Settings.

(** The indices and the defaults of an example build. *)
Definition node_settings_buffer : SettingsBuffer := {|
  IDX_SETTINGS_HEADER_TABLE_SIZE := 0;
  IDX_SETTINGS_ENABLE_PUSH := 1;
  IDX_SETTINGS_INITIAL_WINDOW_SIZE := 2;
  IDX_SETTINGS_MAX_FRAME_SIZE := 3;
  IDX_SETTINGS_MAX_CONCURRENT_STREAMS := 4;
  IDX_SETTINGS_MAX_HEADER_LIST_SIZE := 5;
  IDX_SETTINGS_COUNT := 6;
  DEFAULT_SETTINGS_HEADER_TABLE_SIZE := 4096;
  DEFAULT_SETTINGS_ENABLE_PUSH := 1;
  DEFAULT_SETTINGS_INITIAL_WINDOW_SIZE := 65535;
  DEFAULT_SETTINGS_MAX_FRAME_SIZE := 16384;
  DEFAULT_SETTINGS_MAX_HEADER_LIST_SIZE := 65535;
|}.

(** A settings buffer in which JavaScript has set the header table size
    and the maximum header list size. *)
Definition example_settings_buffer : gmap Z Z :=
  <[6 := 33]> (<[0 := 8192]> (<[5 := 1000]> (<[3 := 32768]> ∅))).

(** ** The provider of the outbound DATA frames *)

(** The bytes that a list of writes holds, and its request wraps. *)
Definition queue_bytes (queue : list nghttp2_stream_write) : N :=
  foldr (fun wr acc => (len (buf wr) + acc)%N) 0%N queue.

Arguments queue_bytes : simpl never.

Definition queue_wraps (queue : list nghttp2_stream_write) : list WriteWrap :=
  omap req_wrap queue.

(** [available_outbound_length_] is the number of bytes in the queue. *)
Definition queue_consistent (st : Http2Stream) : Prop :=
  available_outbound_length_ st = queue_bytes (queue_ st).

(** The empty chunks at the head of a queue, and what follows them. *)
Fixpoint empty_chunks (queue : list nghttp2_stream_write) : list nghttp2_stream_write :=
  match queue with
  | [] => []
  | front :: rest =>
      if (len (buf front) =? 0)%N then front :: empty_chunks rest else []
  end.

Fixpoint after_empty_chunks (queue : list nghttp2_stream_write)
  : list nghttp2_stream_write :=
  match queue with
  | [] => []
  | front :: rest =>
      if (len (buf front) =? 0)%N then after_empty_chunks rest else queue
  end.

(** The world in which the table holds [st] under the handle [id]. *)
Definition with_stream {C T : Type} (id : Z) (st : Http2Stream) (w : World C T)
  : World C T :=
  set_session (set_streams (<[id := st]> (streams_ (session w))) (session w)) w.

(** The stream after OnRead has promised [amount] bytes of its queue, and
    the world that OnRead leaves then: the empty chunks at the head of the
    queue are completed, and the memory counter of the session goes down by
    [amount]. *)
Definition after_OnRead (amount : N) (st : Http2Stream) : Http2Stream :=
  set_available_outbound_length (available_outbound_length_ st - amount)%N
    (set_queue (after_empty_chunks (queue_ st)) st).

Definition OnRead_world {C T : Type} (id : Z) (st : Http2Stream) (amount : N)
    (w : World C T) : World C T :=
  let w1 := set_js_calls (js_calls w ++ completions (empty_chunks (queue_ st)) 0)
              (with_stream id (after_OnRead amount st) w) in
  set_session
    (set_current_session_memory
       (current_session_memory_ (session w) - Z.of_N amount) (session w1)) w1.

(** What OnSendData appends to the outgoing buffers for a DATA frame that
    carries the writes [moved] and [padlen] bytes of padding. *)
Definition data_frame_buffers (moved : list nghttp2_stream_write) (padlen : N)
  : list nghttp2_stream_write :=
  [{| req_wrap := None; buf := uv_buf_init nullptr 9 |}] ++
  (if (0 <? padlen)%N
   then [{| req_wrap := None; buf := uv_buf_init nullptr 1 |}] else []) ++
  moved ++
  (if (0 <? padlen)%N
   then [{| req_wrap := None; buf := uv_buf_init zero_bytes_256 (padlen - 1)%N |}]
   else []).

(** A session whose stream 1 has queued an empty chunk and ten bytes. *)
Definition world_with_queued_data : World ScriptedCodec bool :=
  example_world
    (set_current_session_memory 10
       (example_session_with
          (set_available_outbound_length 10
             (set_queue
                [{| req_wrap := Some (example_wrap 1);
                    buf := uv_buf_init (address 900) 0 |};
                 {| req_wrap := Some (example_wrap 2); buf := example_buf |}]
                (example_stream 1))) 10000))
    (example_codec 10 []) true.

(** A session whose stream 1 is shut down for writing, has announced
    trailers, and has an empty chunk left in its queue. *)
Definition world_at_end_of_data : World ScriptedCodec bool :=
  example_world
    (example_session_with
       (set_flag_trailers true
          (set_flag_shut true
             (set_queue
                [{| req_wrap := Some (example_wrap 1);
                    buf := uv_buf_init (address 900) 0 |}]
                (example_stream 1)))) 10000)
    (example_codec 10 []) true.

(** ** HandleHeadersFrame: the array of names and values for JavaScript *)

(** The inner loop: it copies pairs into [argv] while headers are left and
    [argv] has room for another pair; [room] is the number of pairs that
    still fit.  The result is [argv] and the headers that are left. *)
Fixpoint HandleHeadersFrame_fill (room : nat) (headers : list nghttp2_header)
    (argv : list nghttp2_rcbuf) : list nghttp2_rcbuf * list nghttp2_header :=
  match room, headers with
  | S room', item :: headers' =>
      HandleHeadersFrame_fill room' headers' (argv ++ [name item; value item])
  | _, _ => (argv, headers)
  end.

(** The outer loop: [headers] are the headers from index [n] on, [pushes]
    the calls of [Array.prototype.push] on the holder that were made, each
    with its arguments.  [max] is NODE_PUSH_VAL_TO_ARRAY_MAX, so that
    [argv] has room for [max] pairs.  [None] when the fuel runs out. *)
Fixpoint HandleHeadersFrame_loop (fuel : nat) (max : nat)
    (headers : list nghttp2_header) (pushes : list (list nghttp2_rcbuf))
  : option (list (list nghttp2_rcbuf)) :=
  match headers with
  | [] => Some pushes
  | _ :: _ =>
      match fuel with
      | O => None
      | S fuel' =>
          let '(argv, rest) := HandleHeadersFrame_fill max headers [] in
          let j := (length argv / 2)%nat in
          HandleHeadersFrame_loop fuel' max rest
            (if (0 <? j)%nat then pushes ++ [argv] else pushes)
      end
  end.

(** The calls of push that HandleHeadersFrame makes for the headers that
    the stream has accumulated. *)
Definition HandleHeadersFrame_pushes (max : nat) (headers : list nghttp2_header)
  : option (list (list nghttp2_rcbuf)) :=
  HandleHeadersFrame_loop (length headers) max headers [].

(** The array [name1, value1, name2, value2, ...]. *)
Definition names_and_values (headers : list nghttp2_header) : list nghttp2_rcbuf :=
  flat_map (fun item => [name item; value item]) headers.

(** ** MemoryAllocatorInfo: the allocator that the session hands to nghttp2 *)

Definition sizeof_size_t : Z := 8.

(** The member [current_nghttp2_memory_] of the session, and the blocks
    that the allocator has handed out and not freed yet: the address at
    which a block starts, and the [size_t] that is stored there. *)
Record Http2Memory : Type := {
  current_nghttp2_memory_ : Z;
  blocks : gmap Z Z;
}.

(** How a function of the allocator ends: it returns, a CHECK fails, or it
    is given a pointer that the allocator has not handed out. *)
Inductive MemResult (A : Type) : Type :=
| mem_ok (a : A) (m : Http2Memory)
| mem_check_failed
| mem_invalid_pointer.

Arguments mem_ok {A} a m.
Arguments mem_check_failed {A}.
Arguments mem_invalid_pointer {A}.

(** What the [realloc] of the system answers when it is asked for a block:
    nullptr, or the address of the block and the word that a fresh block
    starts with (which is indeterminate). *)
Definition realloc_answer : Type := option (Z * Z).

(** [UncheckedRealloc(pointer, n)] on the blocks.  For [n = 0] the block is
    freed and nullptr is returned (H2Free checks that it is).  Otherwise
    the system is asked: when it answers nullptr the old block stays as it
    is; when it answers with a block, the old block is gone and the new one
    starts with the word that the old one started with. *)
Definition UncheckedRealloc (answer : realloc_answer) (pointer : option Z) (n : Z)
    (bs : gmap Z Z) : option Z * gmap Z Z :=
  let freed := match pointer with Some p => delete p bs | None => bs end in
  if n =? 0 then (None, freed)
  else
    match answer with
    | None => (None, bs)
    | Some (q, fresh_word) =>
        let word := match pointer with
                    | Some p => default fresh_word (bs !! p)
                    | None => fresh_word
                    end in
        (Some q, <[q := word]> freed)
    end.

(** [H2Realloc(ptr, size, user_data)]; the arithmetic is that of
    [size_t]. *)
Definition H2Realloc (answer : realloc_answer) (ptr : option Z) (size : Z)
    (m : Http2Memory) : MemResult (option Z) :=
  let size := if 0 <? size then (size + sizeof_size_t) mod size_t_max else size in
  let original_ptr := (fun p => p - sizeof_size_t) <$> ptr in
  match (match original_ptr with
         | Some o => blocks m !! o
         | None => Some 0
         end) with
  | None => mem_invalid_pointer
  | Some previous_size =>
      if bool_decide (is_Some ptr) && (previous_size =? 0) then
        let '(ret, bs) := UncheckedRealloc answer original_ptr size (blocks m) in
        mem_ok ((fun r => r + sizeof_size_t) <$> ret)
          {| current_nghttp2_memory_ := current_nghttp2_memory_ m; blocks := bs |}
      else if negb (previous_size <=? current_nghttp2_memory_ m) then mem_check_failed
      else
        let '(mem, bs) := UncheckedRealloc answer original_ptr size (blocks m) in
        match mem with
        | Some q =>
            mem_ok (Some (q + sizeof_size_t))
              {| current_nghttp2_memory_ :=
                   (current_nghttp2_memory_ m + (size - previous_size) mod size_t_max)
                     mod size_t_max;
                 blocks := <[q := size]> bs |}
        | None =>
            if size =? 0 then
              mem_ok None
                {| current_nghttp2_memory_ :=
                     (current_nghttp2_memory_ m - previous_size) mod size_t_max;
                   blocks := bs |}
            else
              mem_ok None
                {| current_nghttp2_memory_ := current_nghttp2_memory_ m; blocks := bs |}
        end
  end.

Definition H2Malloc (answer : realloc_answer) (size : Z) (m : Http2Memory)
  : MemResult (option Z) :=
  H2Realloc answer None size m.

Definition H2Free (ptr : option Z) (m : Http2Memory) : MemResult unit :=
  match ptr with
  | None => mem_ok tt m
  | Some _ =>
      match H2Realloc None ptr 0 m with
      | mem_ok result m' =>
          match result with
          | None => mem_ok tt m'
          | Some _ => mem_check_failed
          end
      | mem_check_failed => mem_check_failed
      | mem_invalid_pointer => mem_invalid_pointer
      end
  end.

Definition StopTracking (ptr : Z) (m : Http2Memory) : MemResult unit :=
  let original_ptr := ptr - sizeof_size_t in
  match blocks m !! original_ptr with
  | None => mem_invalid_pointer
  | Some tracked =>
      mem_ok tt
        {| current_nghttp2_memory_ :=
             (current_nghttp2_memory_ m - tracked) mod size_t_max;
           blocks := <[original_ptr := 0]> (blocks m) |}
  end.

Section Calloc.

(** [MultiplyWithOverflowCheck] of util-inl.h: the product, or [None] when
    its CHECK fails. *)
Variable MultiplyWithOverflowCheck : Z -> Z -> option Z.

(** [H2Calloc]; the [memset] fills the bytes behind the stored size, which
    are not part of the embedding. *)
Definition H2Calloc (answer : realloc_answer) (nmemb size : Z) (m : Http2Memory)
  : MemResult (option Z) :=
  match MultiplyWithOverflowCheck nmemb size with
  | None => mem_check_failed
  | Some real_size => H2Malloc answer real_size m
  end.

(** The calls that nghttp2 and the session make. *)
Inductive mem_op : Type :=
| op_malloc (answer : realloc_answer) (size : Z)
| op_calloc (answer : realloc_answer) (nmemb size : Z)
| op_realloc (answer : realloc_answer) (ptr : option Z) (size : Z)
| op_free (ptr : option Z)
| op_stop_tracking (ptr : Z).

Definition forget {A : Type} (r : MemResult A) : MemResult unit :=
  match r with
  | mem_ok _ m => mem_ok tt m
  | mem_check_failed => mem_check_failed
  | mem_invalid_pointer => mem_invalid_pointer
  end.

Definition run_op (op : mem_op) (m : Http2Memory) : MemResult unit :=
  match op with
  | op_malloc answer size => forget (H2Malloc answer size m)
  | op_calloc answer nmemb size => forget (H2Calloc answer nmemb size m)
  | op_realloc answer ptr size => forget (H2Realloc answer ptr size m)
  | op_free ptr => H2Free ptr m
  | op_stop_tracking ptr => StopTracking ptr m
  end.

Fixpoint run_ops (ops : list mem_op) (m : Http2Memory) : MemResult unit :=
  match ops with
  | [] => mem_ok tt m
  | op :: ops' =>
      match run_op op m with
      | mem_ok _ m' => run_ops ops' m'
      | mem_check_failed => mem_check_failed
      | mem_invalid_pointer => mem_invalid_pointer
      end
  end.

(** The sum of the sizes that are stored in the blocks. *)
Definition tracked_bytes (bs : gmap Z Z) : Z :=
  map_fold (fun _ tracked acc => tracked + acc) 0 bs.

(** The counter of the session is the sum of the stored sizes. *)
Definition accounted (m : Http2Memory) : Prop :=
  current_nghttp2_memory_ m = tracked_bytes (blocks m) /\
  map_Forall (fun _ tracked => 0 <= tracked) (blocks m) /\
  tracked_bytes (blocks m) < size_t_max.

(** [ptr] is nullptr or was handed out by the allocator and not freed. *)
Definition valid_pointer (ptr : option Z) (m : Http2Memory) : Prop :=
  match ptr with
  | None => True
  | Some p => is_Some (blocks m !! (p - sizeof_size_t))
  end.

(** A request for [size] bytes whose size fits a [size_t] together with
    the stored size, and an answer of the system that is possible: the
    block that it hands out is not one of the other blocks, and it fits the
    address space together with the blocks that are tracked. *)
Definition valid_request (answer : realloc_answer) (ptr : option Z) (size : Z)
    (m : Http2Memory) : Prop :=
  0 <= size /\ size + sizeof_size_t < size_t_max /\
  valid_pointer ptr m /\
  match answer with
  | None => True
  | Some (q, _) =>
      match ptr with
      | Some p => delete (p - sizeof_size_t) (blocks m) !! q = None
      | None => blocks m !! q = None
      end /\
      tracked_bytes (blocks m) + size + sizeof_size_t < size_t_max
  end.

Definition valid_op (op : mem_op) (m : Http2Memory) : Prop :=
  match op with
  | op_malloc answer size => valid_request answer None size m
  | op_calloc answer nmemb size =>
      exists real_size,
        MultiplyWithOverflowCheck nmemb size = Some real_size /\
        valid_request answer None real_size m
  | op_realloc answer ptr size => valid_request answer ptr size m
  | op_free ptr => valid_pointer ptr m
  | op_stop_tracking ptr => valid_pointer (Some ptr) m
  end.

(** Every call is valid in the state in which it is made. *)
Fixpoint valid_ops (ops : list mem_op) (m : Http2Memory) : Prop :=
  match ops with
  | [] => True
  | op :: ops' =>
      valid_op op m /\
      forall m', run_op op m = mem_ok tt m' -> valid_ops ops' m'
  end.

End Calloc.

(** The memory of a session that nghttp2 has not used yet. *)
Definition no_memory : Http2Memory :=
  {| current_nghttp2_memory_ := 0; blocks := ∅ |}.

(** A multiplication that aborts when the product does not fit. *)
Definition example_multiply (a b : Z) : option Z :=
  if a * b <? size_t_max then Some (a * b) else None.

(** nghttp2 allocates two blocks, lets one grow, hands the other to
    JavaScript and frees both. *)
Definition example_mem_ops : list mem_op :=
  [op_malloc (Some (1000, 7)) 100;
   op_calloc (Some (2000, 9)) 4 10;
   op_realloc (Some (3000, 1)) (Some 1008) 200;
   op_stop_tracking 2008;
   op_free (Some 3008);
   op_free (Some 2008)].

(** ** The end of a stream *)

(** The number of references that are held to a buffer of the codec. *)
Definition rcbuf_count {C T : Type} (w : World C T) (id : nat) : N :=
  default 0%N (rcbuf_refs w !! id).

(** The number of references to the buffer [k] that the headers [hs] of a
    stream hold. *)
Fixpoint held (k : nat) (hs : list nghttp2_header) : N :=
  match hs with
  | [] => 0
  | h :: hs' =>
      (if (rcbuf_id (name h) =? k)%nat then 1 else 0) +
      (if (rcbuf_id (value h) =? k)%nat then 1 else 0) + held k hs'
  end%N.

Section StreamLife.

Context {C T : Type}.
Context {codec : Nghttp2 C} {transport : StreamResource T}.
Context {header : Http2Header}.
Variable onstreamclose : Z -> Z -> @M C T unit.

(** The life of a stream that is never handed to JavaScript: the peer
    opens it, header pairs arrive, the codec closes it, and the event loop
    takes its next turn. *)
Definition stream_life (id category : Z)
    (pairs : list (nghttp2_rcbuf * nghttp2_rcbuf * Z)) (code : Z) : @M C T unit :=
  OnBeginHeadersCallback id category ;;
  AddHeaders id pairs ;;
  OnStreamClose onstreamclose false id code ;;
  run_immediates.

End StreamLife.

(** ** Inbound data: the chunks of DATA frames and the flow control of a stream *)

(** The reading side of a stream: whether it is destroyed, the two bits of
    [flags_] that ReadStart and ReadStop change, the bytes that went to the
    listener while the stream was not reading, and
    [statistics_.received_bytes]. *)
Record InboundStream : Type := {
  in_destroyed : bool;
  NGHTTP2_STREAM_FLAG_READ_START : bool;
  NGHTTP2_STREAM_FLAG_READ_PAUSED : bool;
  inbound_consumed_data_while_paused_ : Z;
  received_bytes : Z;
}.

(** One call [EmitRead(avail, buf)] of a stream; [read_data] is where
    [data] pointed when the call was made. *)
Record ReadCall : Type := {
  read_stream : Z;
  read_nread : Z;
  read_buf : uv_buf_t;
  read_data : Z;
}.

(** The streams, and what nghttp2 and the listeners have been told so far:
    the sizes given to [nghttp2_session_consume_connection], the streams and
    sizes given to [nghttp2_session_consume_stream], the calls of
    EmitRead. *)
Record Inbound : Type := {
  in_streams : gmap Z InboundStream;
  consume_connection_calls : list Z;
  consume_stream_calls : list (Z * Z);
  read_calls : list ReadCall;
}.

(** [buf.len], as a function of the buffer. *)
Definition buf_len (b : uv_buf_t) : N := len b.

(** What a listener does with a stream while it is given data. *)
Inductive read_cmd : Type :=
| cmd_ReadStart (id : Z)
| cmd_ReadStop (id : Z).

Definition cmd_id (c : read_cmd) : Z :=
  match c with
  | cmd_ReadStart id => id
  | cmd_ReadStop id => id
  end.

(** [Http2StreamListener::OnStreamAlloc], the listener that a stream
    starts with. *)
Definition Http2StreamListener_OnStreamAlloc (size : Z) : uv_buf_t :=
  uv_buf_init nullptr (Z.to_N size).

Section Inbound.

(** [IsReading] is defined in the header; the result of
    [nghttp2_session_consume_connection] is up to nghttp2.  [EmitAlloc] and
    [listener] are the listener of a stream: the buffer that it hands out
    when it is asked for one of a size, and the calls of ReadStart and
    ReadStop that it makes when it is given data. *)
Variable IsReading : InboundStream -> bool.
Variable nghttp2_session_consume_connection : Z -> Z.
Variable EmitAlloc : Z -> Inbound -> Z -> uv_buf_t.
Variable listener : Z -> Inbound -> Z -> uv_buf_t -> list read_cmd.

(** [Http2Stream::ReadStart] of the stream [id].  (Its Http2Scope acts on
    the sending side only.) *)
Definition ReadStart (id : Z) (s : Inbound) : Result (Z * Inbound) :=
  match in_streams s !! id with
  | None => Crash
  | Some st =>
      if in_destroyed st then Crash
      else
        Ok (0,
            {| in_streams :=
                 <[id := {| in_destroyed := in_destroyed st;
                            NGHTTP2_STREAM_FLAG_READ_START := true;
                            NGHTTP2_STREAM_FLAG_READ_PAUSED := false;
                            inbound_consumed_data_while_paused_ := 0;
                            received_bytes := received_bytes st |}]> (in_streams s);
               consume_connection_calls := consume_connection_calls s;
               consume_stream_calls :=
                 consume_stream_calls s ++ [(id, inbound_consumed_data_while_paused_ st)];
               read_calls := read_calls s |})
  end.

(** [Http2Stream::ReadStop] of the stream [id]. *)
Definition ReadStop (id : Z) (s : Inbound) : Result (Z * Inbound) :=
  match in_streams s !! id with
  | None => Crash
  | Some st =>
      if in_destroyed st then Crash
      else if negb (IsReading st) then Ok (0, s)
      else
        Ok (0,
            {| in_streams :=
                 <[id := {| in_destroyed := in_destroyed st;
                            NGHTTP2_STREAM_FLAG_READ_START := NGHTTP2_STREAM_FLAG_READ_START st;
                            NGHTTP2_STREAM_FLAG_READ_PAUSED := true;
                            inbound_consumed_data_while_paused_ :=
                              inbound_consumed_data_while_paused_ st;
                            received_bytes := received_bytes st |}]> (in_streams s);
               consume_connection_calls := consume_connection_calls s;
               consume_stream_calls := consume_stream_calls s;
               read_calls := read_calls s |})
  end.

Definition run_cmd (c : read_cmd) (s : Inbound) : Result (Z * Inbound) :=
  match c with
  | cmd_ReadStart id => ReadStart id s
  | cmd_ReadStop id => ReadStop id s
  end.

Fixpoint run_cmds (cmds : list read_cmd) (s : Inbound) : Result Inbound :=
  match cmds with
  | [] => Ok s
  | c :: cmds' =>
      match run_cmd c s with
      | Ok (_, s') => run_cmds cmds' s'
      | Crash => Crash
      | OutOfFuel => OutOfFuel
      end
  end.

(** [EmitRead(nread, buf)] of the stream [id]: the listener is given the
    data, and does what it does. *)
Definition EmitRead (id nread : Z) (buf : uv_buf_t) (data : Z) (s : Inbound)
  : Result Inbound :=
  let s1 := {| in_streams := in_streams s;
               consume_connection_calls := consume_connection_calls s;
               consume_stream_calls := consume_stream_calls s;
               read_calls := read_calls s ++
                 [{| read_stream := id; read_nread := nread;
                     read_buf := buf; read_data := data |}] |} in
  run_cmds (listener id s1 nread buf) s1.

(** The loop of OnDataChunkReceived; [data] and [len] are the variables of
    the source, [OutOfFuel] is a loop that has not ended after [fuel]
    rounds.  The bytes themselves are not kept: the call of EmitRead records
    where they came from, be they copied into the buffer of the listener or
    not. *)
Fixpoint OnDataChunkReceived_loop (fuel : nat) (id data len : Z) (s : Inbound)
  : Result (Z * Inbound) :=
  match fuel with
  | O => OutOfFuel
  | S fuel' =>
      let buf := EmitAlloc id s len in
      let avail := to_ssize_t len in
      let avail := if to_ssize_t (Z.of_N (buf_len buf)) <? avail
                   then to_ssize_t (Z.of_N (buf_len buf)) else avail in
      let buf := match base buf with
                 | nullptr => uv_buf_init (address data) (buf_len buf)
                 | _ => buf
                 end in
      let data' := data + avail in
      let len' := (len - avail) mod size_t_max in
      match EmitRead id avail buf data s with
      | Ok s1 =>
          match in_streams s1 !! id with
          | None => Crash
          | Some st =>
              let s2 :=
                if IsReading st then
                  {| in_streams := in_streams s1;
                     consume_connection_calls := consume_connection_calls s1;
                     consume_stream_calls :=
                       consume_stream_calls s1 ++ [(id, to_size_t avail)];
                     read_calls := read_calls s1 |}
                else
                  {| in_streams :=
                       <[id := {| in_destroyed := in_destroyed st;
                                  NGHTTP2_STREAM_FLAG_READ_START :=
                                    NGHTTP2_STREAM_FLAG_READ_START st;
                                  NGHTTP2_STREAM_FLAG_READ_PAUSED :=
                                    NGHTTP2_STREAM_FLAG_READ_PAUSED st;
                                  inbound_consumed_data_while_paused_ :=
                                    (inbound_consumed_data_while_paused_ st + avail)
                                      mod size_t_max;
                                  received_bytes := received_bytes st |}]>
                         (in_streams s1);
                     consume_connection_calls := consume_connection_calls s1;
                     consume_stream_calls := consume_stream_calls s1;
                     read_calls := read_calls s1 |} in
              if len' =? 0 then Ok (0, s2)
              else OnDataChunkReceived_loop fuel' id data' len' s2
          end
      | Crash => Crash
      | OutOfFuel => OutOfFuel
      end
  end.

(** [Http2Session::OnDataChunkReceived(handle, flags, id, data, len,
    user_data)]. *)
Definition OnDataChunkReceived (fuel : nat) (id data len : Z) (s : Inbound)
  : Result (Z * Inbound) :=
  if 0 <? len then
    if nghttp2_session_consume_connection len =? 0 then
      let s := {| in_streams := in_streams s;
                  consume_connection_calls := consume_connection_calls s ++ [len];
                  consume_stream_calls := consume_stream_calls s;
                  read_calls := read_calls s |} in
      match in_streams s !! id with
      | None => Crash
      | Some st =>
          if in_destroyed st then Ok (0, s)
          else
            OnDataChunkReceived_loop fuel id data len
              {| in_streams :=
                   <[id := {| in_destroyed := in_destroyed st;
                              NGHTTP2_STREAM_FLAG_READ_START :=
                                NGHTTP2_STREAM_FLAG_READ_START st;
                              NGHTTP2_STREAM_FLAG_READ_PAUSED :=
                                NGHTTP2_STREAM_FLAG_READ_PAUSED st;
                              inbound_consumed_data_while_paused_ :=
                                inbound_consumed_data_while_paused_ st;
                              received_bytes :=
                                (received_bytes st + len) mod 2 ^ 64 |}]>
                     (in_streams s);
                 consume_connection_calls := consume_connection_calls s;
                 consume_stream_calls := consume_stream_calls s;
                 read_calls := read_calls s |}
      end
    else Crash
  else Ok (0, s).

(** What happens to the reading side of a session: a chunk of a DATA frame
    arrives for a stream, or the owner of a stream starts or stops
    reading. *)
Inductive inbound_op : Type :=
| op_chunk (id data len : Z)
| op_ReadStart (id : Z)
| op_ReadStop (id : Z).

Definition op_id (op : inbound_op) : Z :=
  match op with
  | op_chunk id _ _ => id
  | op_ReadStart id => id
  | op_ReadStop id => id
  end.

Definition run_inbound_op (op : inbound_op) (s : Inbound) : Result (Z * Inbound) :=
  match op with
  | op_chunk id data len => OnDataChunkReceived (Z.to_nat len) id data len s
  | op_ReadStart id => ReadStart id s
  | op_ReadStop id => ReadStop id s
  end.

Fixpoint run_inbound_ops (ops : list inbound_op) (s : Inbound) : Result Inbound :=
  match ops with
  | [] => Ok s
  | op :: ops' =>
      match run_inbound_op op s with
      | Ok (_, s') => run_inbound_ops ops' s'
      | Crash => Crash
      | OutOfFuel => OutOfFuel
      end
  end.

End Inbound.

(** The stream is in the table and not destroyed. *)
Definition live (s : Inbound) (id : Z) : bool :=
  match in_streams s !! id with
  | Some st => negb (in_destroyed st)
  | None => false
  end.

(** The bytes of a stream that nghttp2 has been told of. *)
Definition consumed (id : Z) (calls : list (Z * Z)) : Z :=
  foldr (fun c acc => if fst c =? id then snd c + acc else acc) 0 calls.

(** The bytes of a stream that wait for ReadStart. *)
Definition parked (id : Z) (s : Inbound) : Z :=
  match in_streams s !! id with
  | Some st => inbound_consumed_data_while_paused_ st
  | None => 0
  end.

Definition credit (id : Z) (s : Inbound) : Z :=
  consumed id (consume_stream_calls s) + parked id s.

Definition received (id : Z) (s : Inbound) : Z :=
  match in_streams s !! id with
  | Some st => received_bytes st
  | None => 0
  end.

(** No size is negative. *)
Definition inbound_ok (s : Inbound) : Prop :=
  map_Forall (fun _ st => 0 <= inbound_consumed_data_while_paused_ st) (in_streams s) /\
  Forall (fun c => 0 <= snd c) (consume_stream_calls s).

(** The calls of EmitRead hand over the bytes from [data] to [stop], in
    their order and each once, and none is given more than its buffer
    holds. *)
Fixpoint contiguous (id data : Z) (reads : list ReadCall) (stop : Z) : Prop :=
  match reads with
  | [] => data = stop
  | r :: reads' =>
      read_stream r = id /\ read_data r = data /\
      0 < read_nread r <= Z.of_N (buf_len (read_buf r)) /\
      base (read_buf r) <> nullptr /\
      contiguous id (data + read_nread r) reads' stop
  end.

(** The bytes of the chunks that arrive for a stream. *)
Definition chunk_bytes (id : Z) (ops : list inbound_op) : Z :=
  foldr (fun op acc =>
           match op with
           | op_chunk id' _ len => if id' =? id then len + acc else acc
           | _ => acc
           end) 0 ops.

Definition valid_inbound_op (consume_connection : Z -> Z) (s : Inbound)
    (op : inbound_op) : Prop :=
  live s (op_id op) = true /\
  match op with
  | op_chunk _ _ len => 0 <= len < 2 ^ 63 /\ consume_connection len = 0
  | _ => True
  end.

(** A listener with buffers of four bytes of its own, which stops the
    reading of the stream when it is given data for the second time; two
    streams that are reading; chunks for both, with a ReadStop in
    between. *)
Definition example_IsReading (st : InboundStream) : bool :=
  NGHTTP2_STREAM_FLAG_READ_START st && negb (NGHTTP2_STREAM_FLAG_READ_PAUSED st).

Definition example_EmitAlloc (id : Z) (s : Inbound) (suggested : Z) : uv_buf_t :=
  uv_buf_init (address 5000) 4.

Definition example_listener (id : Z) (s : Inbound) (nread : Z) (buf : uv_buf_t)
  : list read_cmd :=
  if (length (read_calls s) =? 2)%nat then [cmd_ReadStop id] else [].

Definition example_inbound_stream : InboundStream :=
  {| in_destroyed := false;
     NGHTTP2_STREAM_FLAG_READ_START := true;
     NGHTTP2_STREAM_FLAG_READ_PAUSED := false;
     inbound_consumed_data_while_paused_ := 0;
     received_bytes := 0 |}.

Definition example_inbound : Inbound :=
  {| in_streams := <[1 := example_inbound_stream]> (<[3 := example_inbound_stream]> ∅);
     consume_connection_calls := [];
     consume_stream_calls := [];
     read_calls := [] |}.

Definition example_inbound_ops : list inbound_op :=
  [op_chunk 1 1000 10; op_ReadStop 3; op_chunk 3 2000 5; op_chunk 1 1010 3].

(** ** SendPendingData: from the codec to the socket *)

(** The outgoing buffers that SendPendingData makes of the frames that
    nghttp2 serializes itself: copies in the storage of the session. *)
Definition frame_buffers (frames : list positive) : list nghttp2_stream_write :=
  map (fun n => {| req_wrap := None; buf := uv_buf_init nullptr (Npos n) |}) frames.

(** What nghttp2 does in one flush: it serializes frames of its own, then
    asks the provider of a stream for up to [length] bytes and sends a DATA
    frame with the [amount] bytes that the provider has promised. *)
Definition flush_events (frames : list positive) (id : Z) (length amount padlen : N)
  : list mem_send_event :=
  map mem_send_frame frames ++
    [mem_send_read id length; mem_send_data id amount padlen].

Definition flush_buffers (frames : list positive)
    (moved : list nghttp2_stream_write) (padlen : N) : list nghttp2_stream_write :=
  frame_buffers frames ++ data_frame_buffers moved padlen.

(** The lengths of the buffers that go to [Write] of the i/o stream. *)
Definition buffer_sizes (l : list nghttp2_stream_write) : list N :=
  map (fun wr => len (buf wr)) l.

(** A session whose stream 1 has queued an empty chunk and ten bytes, and
    whose codec will serialize a frame of 13 bytes, ask the provider of the
    stream for up to 16384 bytes and send a DATA frame with the ten bytes. *)
Definition world_before_flush (later : bool) : World ScriptedCodec bool :=
  example_world
    (set_current_session_memory 10
       (example_session_with
          (set_available_outbound_length 10
             (set_queue
                [{| req_wrap := Some (example_wrap 1);
                    buf := uv_buf_init (address 900) 0 |};
                 {| req_wrap := Some (example_wrap 2); buf := example_buf |}]
                (example_stream 1))) 10000))
    (example_codec 10 [flush_events [13%positive] 1 16384 10 0]) later.

(** * Proofs *)

(** The primitives of the monad are unfolded. *)
Ltac run :=
  cbv beta iota delta
    [bind ret this update CHECK when call want_write want_read MakeCallback
     SetImmediate FindStream deref store get_local_settings HasHttp2Observer
     IncrementCurrentSessionMemory DecrementCurrentSessionMemory].

(** ** The rules of the two predicates, and the footprint of a flush *)

Section LogicLemmas.
Context {C T : Type} {codec : Nghttp2 C} {transport : StreamResource T}.
Context {header : Http2Header}.
Implicit Types (w : World C T) (s : Http2Session).

Local Abbreviation fp := (@fp C T _).
Local Abbreviation dp := (@dp C T _).
Local Abbreviation dpp := (@dpp C T).

Lemma appended_refl {A : Type} (P : A -> Prop) (l : list A) : appended P l l.
Proof. exists []. split; [by rewrite app_nil_r | constructor]. Qed.

Lemma appended_trans {A : Type} (P : A -> Prop) (l1 l2 l3 : list A) :
  appended P l1 l2 -> appended P l2 l3 -> appended P l1 l3.
Proof.
  intros (d1 & -> & H1) (d2 & -> & H2). exists (d1 ++ d2).
  split; [by rewrite app_assoc | by apply Forall_app].
Qed.

Lemma appended_snoc {A : Type} (P : A -> Prop) (l : list A) (x : A) :
  P x -> appended P l (l ++ [x]).
Proof. intros H. exists [x]. split; [done | by repeat constructor]. Qed.

Lemma flushed_refl w : flushed w w.
Proof. constructor; auto using appended_refl. Qed.

Lemma flushed_trans w1 w2 w3 : flushed w1 w2 -> flushed w2 w3 -> flushed w1 w3.
Proof.
  intros H12 H23.
  pose proof (flushed_pending _ _ H12) as P12.
  pose proof (flushed_pending _ _ H23) as P23.
  destruct H12, H23. constructor; try congruence; eauto using appended_trans.
  destruct P23 as [E | E]; [rewrite E; assumption | by right].
Qed.

(** *** The rules of [wp] *)

Lemma wp_ret {A : Type} (a : A) (Q : A -> World C T -> Prop) w :
  Q a w -> wp (ret a) Q w.
Proof. done. Qed.

Lemma wp_bind {A B : Type} (m : M A) (k : A -> M B) (Q : B -> World C T -> Prop) w :
  wp m (fun a w' => wp (k a) Q w') w -> wp (bind m k) Q w.
Proof. unfold wp, bind. destruct (m w) as [[a w'] | |]; done. Qed.

Lemma wp_mono {A : Type} (m : M A) (Q Q' : A -> World C T -> Prop) w :
  wp m Q w -> (forall a w', Q a w' -> Q' a w') -> wp m Q' w.
Proof. unfold wp. destruct (m w) as [[a w'] | |]; auto. Qed.


Lemma wp_Ok {A : Type} (m : M A) (Q : A -> World C T -> Prop) w a w' :
  wp m Q w -> m w = Ok (a, w') -> Q a w'.
Proof. unfold wp. intros H E. by rewrite E in H. Qed.

Lemma returns_bind {A B : Type} (m : M A) (k : A -> M B)
    (Q : B -> World C T -> Prop) w :
  returns m (fun a w' => returns (k a) Q w') w -> returns (bind m k) Q w.
Proof. unfold returns, bind. destruct (m w) as [[a w'] | |]; done. Qed.

Lemma returns_mono {A : Type} (m : M A) (Q Q' : A -> World C T -> Prop) w :
  returns m Q w -> (forall a w', Q a w' -> Q' a w') -> returns m Q' w.
Proof. unfold returns. destruct (m w) as [[a w'] | |]; auto. Qed.

Lemma returns_Ok {A : Type} (m : M A) (Q : A -> World C T -> Prop) w :
  returns m Q w -> exists a w', m w = Ok (a, w') /\ Q a w'.
Proof. unfold returns. destruct (m w) as [[a w'] | |]; [eauto | done | done]. Qed.

Lemma wp_returns {A : Type} (m : M A) (Q : A -> World C T -> Prop) w :
  wp m Q w -> (exists a w', m w = Ok (a, w')) -> returns m Q w.
Proof. unfold wp, returns. intros H (a & w' & E). by rewrite E in *. Qed.

Lemma returns_wp {A : Type} (m : M A) (Q : A -> World C T -> Prop) w :
  returns m Q w -> wp m Q w.
Proof. unfold returns, wp. destruct (m w) as [[a w'] | |]; done. Qed.

Lemma wp_CHECK (b : bool) (Q : unit -> World C T -> Prop) w :
  (b = true -> Q tt w) -> wp (CHECK b) Q w.
Proof. unfold wp, CHECK. destruct b; auto. Qed.

Lemma wp_when (b : bool) (m : M unit) (Q : unit -> World C T -> Prop) w :
  (b = true -> wp m Q w) -> (b = false -> Q tt w) -> wp (when b m) Q w.
Proof.
  destruct b; simpl; intros H1 H2; [apply H1 | apply wp_ret, H2]; reflexivity.
Qed.

Lemma wp_this (Q : Http2Session -> World C T -> Prop) w :
  Q (session w) w -> wp this Q w.
Proof. done. Qed.

Lemma wp_update (f : Http2Session -> Http2Session) (Q : unit -> World C T -> Prop) w :
  Q tt (set_session (f (session w)) w) -> wp (update f) Q w.
Proof. done. Qed.


(** *** Methods that stay within the footprint of a flush *)

Lemma fp_ret {A : Type} (a : A) : fp (ret a).
Proof. intros w. apply flushed_refl. Qed.

Lemma wp_fp_bind {A B : Type} (m : M A) (k : A -> M B) w :
  wp m (fun a w' => flushed w w' /\ wp (k a) (fun _ w'' => flushed w' w'') w') w ->
  wp (bind m k) (fun _ w' => flushed w w') w.
Proof.
  intros H. apply wp_bind. eapply wp_mono; [exact H |].
  intros a w' [H1 H2]. eapply wp_mono; [exact H2 |].
  intros b w'' H3. eauto using flushed_trans.
Qed.

Lemma fp_bind {A B : Type} (m : M A) (k : A -> M B) :
  fp m -> (forall a, fp (k a)) -> fp (bind m k).
Proof.
  intros Hm Hk w. apply wp_fp_bind. eapply wp_mono; [apply Hm |].
  intros a w' H. split; [done | apply Hk].
Qed.

Lemma fp_when (b : bool) (m : M unit) : fp m -> fp (when b m).
Proof. destruct b; [done | intros _; apply fp_ret]. Qed.

Lemma fp_CHECK (b : bool) : fp (CHECK b).
Proof. intros w. apply wp_CHECK. intros _. apply flushed_refl. Qed.

Lemma fp_this : fp this.
Proof. intros w. apply flushed_refl. Qed.

Lemma fp_for_each {A : Type} (l : list A) (f : A -> M unit) :
  (forall x, fp (f x)) -> fp (for_each l f).
Proof.
  intros Hf. induction l as [| x l IH]; simpl.
  - apply fp_ret.
  - apply fp_bind; [apply Hf | intros _; apply IH].
Qed.

Ltac fp_prim :=
  let w := fresh "w" in
  intros w; unfold wp; cbn;
  constructor; cbn;
  auto using appended_refl; try (apply appended_snoc; exact I).

Lemma fp_set_WRITE_SCHEDULED b : fp (update (set_WRITE_SCHEDULED b)).
Proof. fp_prim. Qed.

Lemma fp_set_SENDING b : fp (update (set_SENDING b)).
Proof. fp_prim. Qed.

Lemma fp_set_HAS_SCOPE_bracket {A : Type} (body : M A) :
  fp body ->
  forall w, SESSION_STATE_HAS_SCOPE (session w) = false ->
  wp (update (set_HAS_SCOPE true) ;; r <- body ;; update (set_HAS_SCOPE false) ;; ret r)
     (fun _ w' => flushed w w') w.
Proof.
  intros Hb w Hs. unfold wp, bind, update. cbn.
  specialize (Hb (set_session (set_HAS_SCOPE true (session w)) w)).
  unfold wp in Hb.
  destruct (body _) as [[a w'] | |]; [| done | done].
  cbn. destruct Hb. cbn in *. constructor; cbn; auto.
Qed.

(** *** The footprint of the methods of the outbound pipeline *)

Lemma fp_CopyDataIntoOutgoing n : fp (CopyDataIntoOutgoing n).
Proof. fp_prim. Qed.

Lemma fp_push_outgoing wr : fp (push_outgoing wr).
Proof. fp_prim. Qed.

Lemma fp_set_outgoing l n : fp (update (set_outgoing l n)).
Proof. fp_prim. Qed.

Lemma fp_set_pending_nil : fp (update (set_pending_rst_streams [])).
Proof. fp_prim. Qed.

Lemma fp_mem_send : fp mem_send.
Proof.
  intros w. unfold wp, mem_send.
  destruct (nghttp2_session_mem_send (nghttp2 w)) as [[evs r] c'].
  constructor; cbn; auto using appended_refl.
Qed.

Lemma fp_want_write : fp want_write.
Proof. intros w. apply flushed_refl. Qed.

Lemma fp_want_read : fp want_read.
Proof. intros w. apply flushed_refl. Qed.

Lemma fp_stream_ReadStop : fp stream_ReadStop.
Proof. fp_prim. Qed.

Lemma fp_stream_Write bufs : fp (stream_Write bufs).
Proof.
  intros w. unfold wp, stream_Write.
  destruct (StreamBase_Write bufs (io w)) as [res t].
  constructor; cbn; auto using appended_refl.
Qed.

Lemma fp_WriteWrap_Done wrap status : fp (MakeCallback (WriteWrap_Done wrap status)).
Proof. fp_prim. Qed.

Lemma fp_SetImmediate_SendPendingData : fp (SetImmediate ImmSendPendingData).
Proof. fp_prim. Qed.

Lemma fp_call_rst_stream id code : fp (call (nghttp2_submit_rst_stream id code)).
Proof.
  intros w. unfold wp, call.
  destruct (nghttp2_submit _ (nghttp2 w)) as [r c'].
  constructor; cbn; auto using appended_refl.
  apply appended_snoc. exact I.
Qed.

Lemma fp_FindStream id : fp (FindStream id).
Proof. intros w. apply flushed_refl. Qed.

Lemma fp_deref id : fp (deref id).
Proof.
  intros w. cbv beta iota delta [wp deref bind FindStream this ret].
  destruct (streams_ (session w) !! id); [apply flushed_refl | done].
Qed.

Lemma fp_MaybeScheduleWrite : fp MaybeScheduleWrite.
Proof.
  unfold MaybeScheduleWrite.
  apply fp_bind; [apply fp_this | intros s].
  apply fp_bind; [apply fp_CHECK | intros _].
  apply fp_bind; [apply fp_want_write | intros wants].
  apply fp_when.
  apply fp_bind; [apply fp_set_WRITE_SCHEDULED | intros _].
  apply fp_SetImmediate_SendPendingData.
Qed.

Lemma fp_Http2Scope {A : Type} (body : M A) : fp body -> fp (Http2Scope body).
Proof.
  intros Hb w. unfold Http2Scope. apply wp_bind, wp_this.
  destruct (SESSION_STATE_HAS_SCOPE (session w) || SESSION_STATE_WRITE_SCHEDULED (session w))
    eqn:E; [apply Hb |].
  apply orb_false_elim in E as [E1 E2].
  apply wp_bind, wp_update.
  apply wp_bind. eapply wp_mono; [apply Hb |]. intros a w1 H1.
  apply wp_bind, wp_update.
  apply wp_bind. eapply wp_mono; [apply fp_MaybeScheduleWrite |]. intros u w2 H2.
  apply wp_ret.
  pose proof (flushed_pending _ _ H1) as P1.
  pose proof (flushed_pending _ _ H2) as P2.
  destruct H1, H2. cbn in *.
  constructor; try congruence; eauto using appended_trans.
  destruct P2 as [E | E]; rewrite E; [assumption | by right].
Qed.

Lemma fp_FlushRstStream id : fp (FlushRstStream id).
Proof.
  unfold FlushRstStream.
  apply fp_bind; [apply fp_deref | intros st].
  destruct (IsDestroyed st); [apply fp_ret |].
  apply fp_Http2Scope.
  apply fp_bind; [apply fp_call_rst_stream | intros r]. apply fp_CHECK.
Qed.

Lemma fp_WriteWrap_Done_all l status : fp (WriteWrap_Done_all l status).
Proof.
  apply fp_for_each. intros wr.
  destruct (req_wrap wr); [apply fp_WriteWrap_Done | apply fp_ret].
Qed.

Lemma set_queue_idemp q q' st : set_queue q (set_queue q' st) = set_queue q st.
Proof. reflexivity. Qed.

Lemma fp_store_queue id st q w :
  streams_ (session w) !! id = Some st ->
  wp (store id (set_queue q st)) (fun _ w' => flushed w w') w.
Proof.
  intros Hst. unfold wp, store, update. cbn.
  constructor; cbn; auto using appended_refl.
  rewrite fmap_insert, set_queue_idemp. apply insert_id.
  rewrite lookup_fmap, Hst. reflexivity.
Qed.

Lemma wp_deref id (Q : Http2Stream -> World C T -> Prop) w :
  (forall st, streams_ (session w) !! id = Some st -> Q st w) ->
  wp (deref id) Q w.
Proof.
  intros H. cbv beta iota delta [wp deref bind FindStream this ret].
  destruct (streams_ (session w) !! id); [by apply H | done].
Qed.

Lemma wp_GetStream id (Q : Http2Stream -> World C T -> Prop) w :
  (forall st, streams_ (session w) !! id = Some st -> id_ st = id -> Q st w) ->
  wp (GetStream id) Q w.
Proof.
  intros H. unfold GetStream. apply wp_bind, wp_deref. intros st Hst.
  apply wp_bind, wp_CHECK. intros E. apply wp_ret, H; [done |].
  apply Z.eqb_eq in E. done.
Qed.

Lemma wp_fp_seq {A B : Type} (m : M A) (k : A -> M B)
    (Q : B -> World C T -> Prop) w0 w :
  fp m -> flushed w0 w ->
  (forall a w', flushed w0 w' -> wp (k a) Q w') ->
  wp (bind m k) Q w.
Proof.
  intros Hm H0 Hk. apply wp_bind. eapply wp_mono; [apply Hm |].
  intros a w' H. apply Hk. eauto using flushed_trans.
Qed.

Lemma wp_fp_last {A : Type} (m : M A) w0 w :
  fp m -> flushed w0 w -> wp m (fun _ w'' => flushed w0 w'') w.
Proof.
  intros Hm H0. eapply wp_mono; [apply Hm |].
  intros a w' H. eauto using flushed_trans.
Qed.

Lemma flushed_lookup w w' id st :
  flushed w w' -> streams_ (session w) !! id = Some st ->
  exists st', streams_ (session w') !! id = Some st' /\ set_queue [] st' = set_queue [] st.
Proof.
  intros [Hs _ _ _ _ _ _ _ _ _ _ _ _ _ _ _ _] Hst.
  apply (f_equal (fun m => m !! id)) in Hs. rewrite !lookup_fmap, Hst in Hs.
  destruct (streams_ (session w') !! id) as [st' |]; [| done].
  exists st'. split; [done |].
  change (Some (set_queue [] st') = Some (set_queue [] st)) in Hs.
  congruence.
Qed.

Lemma fp_store_queue' id st q w0 w :
  flushed w0 w -> streams_ (session w0) !! id = Some st ->
  wp (store id (set_queue q st)) (fun _ w' => flushed w0 w') w.
Proof.
  intros H0 Hst.
  destruct (flushed_lookup _ _ _ _ H0 Hst) as (st' & Hst' & E).
  unfold wp, store, update. cbn.
  pose proof (flushed_streams _ _ H0) as Hs.
  destruct H0. constructor; cbn; auto.
  rewrite fmap_insert, set_queue_idemp, <- Hs. apply insert_id.
  rewrite lookup_fmap, Hst'. exact (f_equal Some E).
Qed.

Lemma fp_OnSendData id length padlen : fp (OnSendData id length padlen).
Proof.
  intros w. unfold OnSendData.
  apply wp_bind, wp_GetStream. intros st Hst _.
  apply wp_fp_seq with (w0 := w); [apply fp_CopyDataIntoOutgoing | apply flushed_refl |].
  intros u1 w1 H1.
  apply wp_fp_seq with (w0 := w); [| done |].
  { apply fp_when. apply fp_bind; [apply fp_CHECK | intros u; apply fp_CopyDataIntoOutgoing]. }
  intros u2 w2 H2.
  apply wp_bind.
  destruct (OnSendData_loop (queue_ st) length) as [[moved rest] |]; [| done].
  apply wp_bind. eapply wp_mono.
  { apply wp_fp_last; [| exact H2]. apply fp_for_each. intros wr. apply fp_push_outgoing. }
  intros u3 w3 H3. eapply wp_mono; [apply (fp_store_queue' id st rest w w3 H3 Hst) |].
  intros u4 w4 H4. apply wp_fp_last; [| done].
  apply fp_when, fp_push_outgoing.
Qed.

Lemma fp_MaybeStopReading : fp MaybeStopReading.
Proof.
  apply fp_bind; [apply fp_want_read | intros wants].
  apply fp_when, fp_stream_ReadStop.
Qed.

(** *** The footprint of a flush *)

Lemma appended_impl {A : Type} (P Q : A -> Prop) (l l' : list A) :
  (forall x, P x -> Q x) -> appended P l l' -> appended Q l l'.
Proof.
  intros H (d & E & F). exists d. split; [done |].
  eapply Forall_impl; [exact F | exact H].
Qed.

Lemma stream_drained_refl st : stream_drained st st.
Proof. by constructor. Qed.

Lemma stream_drained_trans st1 st2 st3 :
  stream_drained st1 st2 -> stream_drained st2 st3 -> stream_drained st1 st3.
Proof.
  intros [A1 A2 A3 A4 A5 A6 A7 A8 A9 A10] [B1 B2 B3 B4 B5 B6 B7 B8 B9 B10].
  constructor; try congruence; auto.
  intros H3. destruct (B10 H3) as [C1 C2].
  destruct (NGHTTP2_STREAM_FLAG_CLOSED st2) eqn:E2.
  - specialize (B8 eq_refl). congruence.
  - destruct (A10 eq_refl) as [D1 D2]. split; congruence.
Qed.

Lemma drained_refl w : drained w w.
Proof.
  constructor; auto using appended_refl; try lia.
  intros id st st' H1 H2. rewrite H1 in H2. injection H2 as <-.
  apply stream_drained_refl.
Qed.

Lemma drained_trans w1 w2 w3 : drained w1 w2 -> drained w2 w3 -> drained w1 w3.
Proof.
  intros H12 H23.
  pose proof (drained_pending _ _ H12) as P12.
  pose proof (drained_pending _ _ H23) as P23.
  pose proof (drained_streams _ _ H12) as S12.
  pose proof (drained_streams _ _ H23) as S23.
  pose proof (drained_dom _ _ H12) as D12.
  pose proof (drained_memory _ _ H12) as M12.
  pose proof (drained_memory _ _ H23) as M23.
  destruct H12, H23. constructor; try congruence; eauto using appended_trans.
  - intros id st st' H1 H3.
    assert (is_Some (streams_ (session w2) !! id)) as [st2 H2].
    { apply elem_of_dom. rewrite D12. apply elem_of_dom. by exists st. }
    eapply stream_drained_trans; eauto.
  - destruct P23 as [E | E]; [rewrite E; assumption | by right].
  - lia.
Qed.

(** The methods around a drain stay within the footprint of a flush. *)
Lemma flushed_drained w w' : flushed w w' -> drained w w'.
Proof.
  intros H.
  pose proof (flushed_streams _ _ H) as Hs.
  pose proof (flushed_memory _ _ H) as Hm.
  destruct H. constructor; auto.
  - apply (f_equal dom) in Hs. by rewrite !dom_fmap_L in Hs.
  - intros id st st' H1 H2.
    apply (f_equal (fun m => m !! id)) in Hs.
    rewrite !lookup_fmap, H1, H2 in Hs. cbn in Hs. injection Hs. intros.
    constructor; try congruence. intros _. split; congruence.
  - lia.
  - eapply appended_impl; [| eassumption]. by intros [].
  - eapply appended_impl; [| eassumption]. by intros [].
Qed.

Lemma dp_of_fp {A : Type} (m : M A) : fp m -> dp m.
Proof.
  intros H w. eapply wp_mono; [apply H |]. intros a w'. apply flushed_drained.
Qed.

Lemma dp_ret {A : Type} (a : A) : dp (ret a).
Proof. intros w. apply drained_refl. Qed.

Lemma dp_bind {A B : Type} (m : M A) (k : A -> M B) :
  dp m -> (forall a, dp (k a)) -> dp (bind m k).
Proof.
  intros Hm Hk w. apply wp_bind. eapply wp_mono; [apply Hm |].
  intros a w' H. eapply wp_mono; [apply Hk |].
  intros b w'' H'. exact (drained_trans _ _ _ H H').
Qed.

Lemma dp_when (b : bool) (m : M unit) : dp m -> dp (when b m).
Proof. destruct b; [done | intros _; apply dp_ret]. Qed.

Lemma dp_for_each {A : Type} (l : list A) (f : A -> M unit) :
  (forall x, dp (f x)) -> dp (for_each l f).
Proof.
  intros Hf. induction l as [| x l IH]; simpl.
  - apply dp_ret.
  - apply dp_bind; [apply Hf | intros _; apply IH].
Qed.

Lemma wp_dp_seq {A B : Type} (m : M A) (k : A -> M B)
    (Q : B -> World C T -> Prop) w0 w :
  dp m -> drained w0 w ->
  (forall a w', drained w0 w' -> wp (k a) Q w') ->
  wp (bind m k) Q w.
Proof.
  intros Hm H0 Hk. apply wp_bind. eapply wp_mono; [apply Hm |].
  intros a w' H. apply Hk. eauto using drained_trans.
Qed.

Lemma wp_dp_last {A : Type} (m : M A) w0 w :
  dp m -> drained w0 w -> wp m (fun _ w'' => drained w0 w'') w.
Proof.
  intros Hm H0. eapply wp_mono; [apply Hm |].
  intros a w' H. eauto using drained_trans.
Qed.

Lemma dp_MakeCallback c : is_drain_call c -> dp (MakeCallback c).
Proof.
  intros H w. unfold wp, MakeCallback.
  constructor; cbn; auto using appended_refl; try lia.
  - intros id st st' H1 H2. rewrite H1 in H2. injection H2 as <-.
    apply stream_drained_refl.
  - by apply appended_snoc.
Qed.

Lemma dp_SetImmediate i : is_drain_task i -> dp (SetImmediate i).
Proof.
  intros H w. unfold wp, SetImmediate.
  constructor; cbn; auto using appended_refl; try lia.
  - intros id st st' H1 H2. rewrite H1 in H2. injection H2 as <-.
    apply stream_drained_refl.
  - by apply appended_snoc.
Qed.

Lemma wp_store_drained id st st' w :
  streams_ (session w) !! id = Some st ->
  stream_drained st st' ->
  wp (store id st') (fun _ w' => drained w w') w.
Proof.
  intros Hst Hd. unfold wp, store, update. cbn.
  constructor; cbn; auto using appended_refl; try lia.
  - apply dom_insert_lookup_L. by exists st.
  - intros i s1 s2 H1 H2. destruct (decide (i = id)) as [-> | Hne].
    + rewrite lookup_insert_eq in H2. injection H2 as <-.
      rewrite Hst in H1. by injection H1 as <-.
    + rewrite lookup_insert_ne in H2 by done. rewrite H1 in H2.
      injection H2 as <-. apply stream_drained_refl.
Qed.

Lemma dp_DecrementCurrentSessionMemory (amount : N) :
  dp (DecrementCurrentSessionMemory (Z.of_N amount)).
Proof.
  intros w. unfold wp, DecrementCurrentSessionMemory, update. cbn.
  constructor; cbn; auto using appended_refl; try lia.
  intros id st st' H1 H2. rewrite H1 in H2. injection H2 as <-.
  apply stream_drained_refl.
Qed.

Lemma dp_deref id : dp (deref id).
Proof. apply dp_of_fp, fp_deref. Qed.

Lemma dp_CHECK (b : bool) : dp (CHECK b).
Proof. apply dp_of_fp, fp_CHECK. Qed.

Lemma dp_OnRead_empty_chunks id n : dp (OnRead_empty_chunks id n).
Proof.
  induction n as [| n IH]; [apply dp_ret |].
  intros w. cbn [OnRead_empty_chunks]. apply wp_bind, wp_deref. intros st Hst.
  destruct (queue_ st) as [| front rest]; [apply dp_ret |].
  destruct (negb (len (buf front) =? 0)%N); [apply dp_ret |].
  apply wp_bind. eapply wp_mono.
  { apply (wp_store_drained id st); [exact Hst | by constructor]. }
  intros u w1 H1. apply wp_dp_last; [| exact H1].
  apply dp_bind; [| intros _; apply IH].
  destruct (req_wrap front); [by apply dp_MakeCallback | apply dp_ret].
Qed.

Lemma dp_DecrementAvailableOutboundLength id amount :
  dp (DecrementAvailableOutboundLength id amount).
Proof.
  intros w. unfold DecrementAvailableOutboundLength.
  apply wp_bind, wp_deref. intros st Hst.
  apply wp_bind. eapply wp_mono.
  { apply (wp_store_drained id st); [exact Hst | by constructor]. }
  intros u w1 H1. apply wp_dp_last; [| exact H1].
  apply dp_DecrementCurrentSessionMemory.
Qed.

Lemma dp_OnTrailers id : dp (OnTrailers recorded_ontrailers id).
Proof.
  intros w. unfold OnTrailers.
  apply wp_bind, wp_deref. intros st Hst.
  apply wp_bind, wp_CHECK. intros _.
  apply wp_bind. eapply wp_mono.
  { apply (wp_store_drained id st); [exact Hst | by constructor]. }
  intros u w1 H1. apply wp_dp_last; [| exact H1].
  by apply dp_MakeCallback.
Qed.

Lemma dpp_of_dp {A : Type} (m : M A) : dp m -> dpp m.
Proof.
  intros H w. specialize (H w). unfold wp in H.
  by destruct (m w) as [[a w'] | |].
Qed.

Lemma dpp_bind {A B : Type} (m : M A) (k : A -> M B) :
  dpp m -> (forall a, dpp (k a)) -> dpp (bind m k).
Proof.
  intros Hm Hk w. unfold bind. specialize (Hm w).
  destruct (m w) as [[a w1] | |]; [| done | done].
  specialize (Hk a w1). destruct (k a w1) as [[b w2] | |]; [| done | done].
  eauto using drained_trans.
Qed.

Lemma dpp_OnRead id size flags :
  dpp (OnRead recorded_EmitWantsWrite recorded_ontrailers 1 id size flags).
Proof.
  cbn [OnRead].
  apply dpp_bind; [apply dpp_of_dp, dp_of_fp |].
  { intros w. apply wp_GetStream. intros st _ _. apply flushed_refl. }
  intros stream.
  apply dpp_bind; [apply dpp_of_dp, dp_CHECK | intros _].
  apply dpp_bind; [apply dpp_of_dp, dp_OnRead_empty_chunks | intros _].
  apply dpp_bind; [apply dpp_of_dp, dp_deref | intros stream1].
  apply dpp_bind.
  { apply dpp_of_dp.
    destruct (negb (List.length (queue_ stream1) =? 0)%nat); [| apply dp_ret].
    destruct (0 <? N.min (available_outbound_length_ stream1) size)%N;
      [| apply dp_ret].
    apply dp_bind; [apply dp_DecrementAvailableOutboundLength | intros _].
    apply dp_ret. }
  intros r. cbv zeta.
  apply dpp_bind; [apply dpp_of_dp, dp_deref | intros stream2].
  destruct ((fst r =? 0)%N && IsWritable stream2).
  - apply dpp_bind; [apply dpp_of_dp, dp_CHECK | intros _].
    apply dpp_bind; [apply dpp_of_dp; by apply dp_MakeCallback | intros _].
    apply dpp_bind; [apply dpp_of_dp, dp_deref | intros stream3].
    destruct ((0 <? available_outbound_length_ stream3)%N || negb (IsWritable stream3));
      [done | apply dpp_of_dp, dp_ret].
  - apply dpp_bind; [apply dpp_of_dp, dp_deref | intros stream3].
    apply dpp_bind; [| intros f; apply dpp_of_dp, dp_ret].
    apply dpp_of_dp.
    destruct ((List.length (queue_ stream3) =? 0)%nat && negb (IsWritable stream3));
      [| apply dp_ret].
    destruct (HasTrailers stream3); [| apply dp_ret].
    apply dp_bind; [apply dp_OnTrailers | intros _; apply dp_ret].
Qed.

Lemma dp_provider_read id size : dp (provider_read id size).
Proof.
  intros w. unfold wp, provider_read.
  pose proof (dpp_OnRead id size 0 w) as H.
  by destruct (OnRead _ _ 1 id size 0 w) as [[a w'] | |].
Qed.

(** A restart of OnRead in a drain is a recursion without end: the listener
    has left the stream as it was, so that the next round finds nothing
    queued, bytes counted as available and a writable stream, as the round
    before it, and restarts again. *)
Lemma restarting_OutOfFuel id size flags (n : nat) : forall w,
  restarting id w ->
  OnRead recorded_EmitWantsWrite recorded_ontrailers n id size flags w = OutOfFuel.
Proof.
  induction n as [| n IH]; intros w (st & Hst & Hid & Hq & Ha & Hw); [done |].
  cbn [OnRead]. unfold GetStream, recorded_EmitWantsWrite. run.
  assert (Ha' : (0 <? available_outbound_length_ st)%N = true) by by apply N.ltb_lt.
  repeat (progress (rewrite ?Hst, ?Hq, ?Hw, ?Hid, ?Z.eqb_refl, ?Ha'; cbn)).
  apply IH. exists st. by repeat split.
Qed.

Lemma dp_FlushRstStream id : dp (FlushRstStream id).
Proof. apply dp_of_fp, fp_FlushRstStream. Qed.

(** Destroy marks a stream that was closed. *)
Lemma wp_Destroy_closed id w :
  (forall st, streams_ (session w) !! id = Some st ->
              NGHTTP2_STREAM_FLAG_CLOSED st = true) ->
  wp (Destroy id) (fun _ w' => drained w w') w.
Proof.
  intros Hc. unfold Destroy.
  apply wp_bind, wp_deref. intros st Hst.
  destruct (IsDestroyed st); [apply dp_ret |].
  apply wp_bind, wp_this. apply wp_bind.
  eapply wp_mono; [apply fp_when, fp_FlushRstStream |].
  intros u w1 H1. apply wp_bind, wp_deref. intros st1 Hst1.
  destruct (flushed_lookup _ _ _ _ H1 Hst) as (st1' & Hst1' & E1).
  rewrite Hst1 in Hst1'. injection Hst1' as <-.
  assert (Hc1 : NGHTTP2_STREAM_FLAG_CLOSED st1 = true).
  { change (NGHTTP2_STREAM_FLAG_CLOSED (set_queue [] st1) = true).
    rewrite E1. cbn. by apply Hc. }
  apply flushed_drained in H1.
  apply wp_bind. eapply wp_mono.
  { apply (wp_store_drained id st1); [exact Hst1 |].
    constructor; cbn; auto. congruence. }
  intros u2 w2 H2.
  pose proof (drained_trans _ _ _ H1 H2) as H02.
  apply wp_dp_seq with (w0 := w); [by apply dp_SetImmediate | done |].
  intros u3 w3 H3. apply wp_dp_last; [| done].
  unfold Http2Stream_EmitStatistics.
  apply dp_bind; [apply dp_of_fp; intros w'; apply flushed_refl | intros observed].
  apply dp_when. by apply dp_SetImmediate.
Qed.

Lemma dp_OnStreamClose has_onstreamclose id code :
  dp (OnStreamClose recorded_onstreamclose has_onstreamclose id code).
Proof.
  intros w. unfold OnStreamClose.
  apply wp_bind. unfold wp at 1, FindStream. run.
  destruct (streams_ (session w) !! id) as [st |] eqn:Hst; [| apply dp_ret].
  destruct (IsDestroyed st) eqn:Hd; [apply dp_ret |]. cbn [negb].
  apply wp_bind. unfold Http2Stream_Close.
  apply wp_bind, wp_deref. intros st0 Hst0.
  rewrite Hst in Hst0. injection Hst0 as <-.
  apply wp_bind, wp_CHECK. intros _.
  pose proof (wp_store_drained id st (set_code code (set_flag_closed true st)) w Hst)
    as H1.
  unfold wp at 1. unfold wp in H1. unfold store, update in *. cbn in H1 |- *.
  set (w1 := set_session _ w) in *.
  assert (Hd1 : drained w w1) by (apply H1; constructor; cbn; auto; done).
  assert (Hc1 : forall st1, streams_ (session w1) !! id = Some st1 ->
                            NGHTTP2_STREAM_FLAG_CLOSED st1 = true).
  { intros st1. unfold w1. cbn. rewrite lookup_insert_eq. by intros [= <-]. }
  clearbody w1. clear H1.
  apply wp_bind. eapply wp_mono.
  { destruct has_onstreamclose.
    - apply wp_dp_last; [by apply dp_MakeCallback | exact Hd1].
    - eapply wp_mono; [apply (wp_Destroy_closed id w1 Hc1) |].
      intros u2 w2 H2. eauto using drained_trans. }
  intros u2 w2 H2. by apply wp_ret.
Qed.

Lemma dp_OnFrameNotSent id type error_code : dp (OnFrameNotSent id type error_code).
Proof.
  unfold OnFrameNotSent.
  apply dp_bind; [| intros _; apply dp_ret].
  apply dp_when. by apply dp_MakeCallback.
Qed.

Lemma dp_OnSelectPadding_callback hd_length maxPayloadLen :
  dp (OnSelectPadding_callback hd_length maxPayloadLen).
Proof.
  unfold OnSelectPadding_callback.
  apply dp_bind; [apply dp_of_fp, fp_this | intros s].
  destruct (padding_strategy_ s); try apply dp_ret.
  apply dp_when. by apply dp_MakeCallback.
Qed.

Lemma dp_on_mem_send_event ev : dp (on_mem_send_event ev).
Proof.
  destruct ev; cbn [on_mem_send_event].
  - apply dp_of_fp, fp_CopyDataIntoOutgoing.
  - apply dp_provider_read.
  - apply dp_OnSelectPadding_callback.
  - apply dp_of_fp, fp_OnSendData.
  - apply dp_bind; [apply dp_OnStreamClose | intros _; apply dp_ret].
  - apply dp_bind; [apply dp_OnFrameNotSent | intros _; apply dp_ret].
Qed.

(** ClearOutgoing calls SendPendingData only when there are deferred
    resets, and after it has emptied their list. *)
Lemma wp_ClearOutgoing_body (X : M Z) status w :
  (pending_rst_streams_ (session w) <> [] ->
   forall w1, pending_rst_streams_ (session w1) = [] ->
              wp X (fun _ w' => drained w1 w') w1) ->
  wp (ClearOutgoing_body X status) (fun _ w' => drained w w') w.
Proof.
  intros HX. unfold ClearOutgoing_body.
  apply wp_fp_seq with (w0 := w); [apply fp_this | apply flushed_refl |]. intros s w1 H1.
  apply wp_fp_seq with (w0 := w); [apply fp_CHECK | done |]. intros u2 w2 H2.
  apply wp_fp_seq with (w0 := w); [apply fp_set_SENDING | done |]. intros u3 w3 H3.
  apply wp_fp_seq with (w0 := w); [apply fp_this | done |]. intros s4 w4 H4.
  apply wp_fp_seq with (w0 := w); [| done |].
  { apply fp_when. apply fp_bind; [apply fp_set_outgoing | intros u].
    apply fp_WriteWrap_Done_all. }
  intros u5 w5 H5.
  apply wp_bind, wp_this.
  apply wp_when; [intros Hne | intros _; by apply flushed_drained].
  assert (Hw : pending_rst_streams_ (session w) <> []).
  { destruct H5 as [_ _ _ [E | E] _ _ _ _ _ _ _ _ _ _ _ _ _];
      rewrite E in Hne; [| done].
    intros E'. by rewrite E' in Hne. }
  apply wp_bind, wp_update.
  apply wp_bind. eapply wp_mono; [apply (HX Hw); reflexivity |].
  intros r w6 H6.
  assert (H06 : drained w w6).
  { eapply drained_trans; [| exact H6]. apply flushed_drained.
    eapply flushed_trans; [exact H5 |].
    constructor; cbn; auto using appended_refl. }
  apply wp_dp_last; [| done].
  apply dp_for_each. intros stream_id. apply dp_of_fp.
  apply fp_bind; [apply fp_FindStream | intros [st |]];
    [apply fp_FlushRstStream | apply fp_ret].
Qed.

(** SendPendingData stays within the footprint when the ClearOutgoing that
    it calls does. *)
Lemma wp_SendPendingData_body (CO : Z -> M unit) w :
  (forall status w1, drained w w1 -> wp (CO status) (fun _ w' => drained w1 w') w1) ->
  wp (SendPendingData_body CO)
     (fun r w' => drained w w' /\ r = SendPendingData_result (session w)) w.
Proof.
  intros HCO.
  assert (HCO' : forall status w1, drained w w1 ->
                   wp (CO status) (fun _ w' => drained w w') w1).
  { intros status w1 H1. eapply wp_mono; [by apply HCO |].
    intros u w2 H2. eauto using drained_trans. }
  clear HCO. unfold SendPendingData_body, SendPendingData_result.
  apply wp_bind, wp_this.
  destruct (Http2Session_IsDestroyed (session w));
    [apply wp_ret; split; [apply drained_refl | done] |].
  apply wp_bind, wp_update. apply wp_bind, wp_this. cbn.
  set (w1 := set_session (set_WRITE_SCHEDULED false (session w)) w).
  assert (H1 : drained w w1).
  { apply flushed_drained. constructor; cbn; auto using appended_refl. }
  clearbody w1.
  destruct (SESSION_STATE_SENDING (session w)); [by apply wp_ret |].
  apply wp_dp_seq with (w0 := w); [apply dp_of_fp, fp_set_SENDING | done |].
  intros u3 w3 H3.
  apply wp_dp_seq with (w0 := w); [apply dp_of_fp, fp_this | done |]. intros s4 w4 H4.
  apply wp_dp_seq with (w0 := w); [apply dp_CHECK | done |]. intros u5 w5 H5.
  apply wp_dp_seq with (w0 := w); [apply dp_CHECK | done |]. intros u6 w6 H6.
  apply wp_dp_seq with (w0 := w); [apply dp_of_fp, fp_mem_send | done |].
  intros sent w7 H7.
  apply wp_dp_seq with (w0 := w); [| done |].
  { apply dp_for_each. intros ev. apply dp_on_mem_send_event. }
  intros u8 w8 H8.
  apply wp_dp_seq with (w0 := w); [apply dp_CHECK | done |]. intros u9 w9 H9.
  apply wp_dp_seq with (w0 := w); [apply dp_of_fp, fp_this | done |].
  intros s10 w10 H10.
  destruct (negb (stream_ s10)).
  { apply wp_bind. eapply wp_mono; [by apply HCO' |].
    intros u w11 H11. by apply wp_ret. }
  destruct (length (outgoing_buffers_ s10) =? 0)%nat.
  { apply wp_bind. eapply wp_mono; [by apply HCO' |].
    intros u w11 H11. by apply wp_ret. }
  apply wp_dp_seq with (w0 := w); [apply dp_of_fp, fp_stream_Write | done |].
  intros res w11 H11.
  apply wp_bind. eapply wp_mono.
  { apply wp_when; [intros _; by apply HCO' | intros _; exact H11]. }
  intros u12 w12 H12.
  apply wp_dp_seq with (w0 := w); [apply dp_of_fp, fp_MaybeStopReading | done |].
  intros u13 w13 H13.
  by apply wp_ret.
Qed.

Lemma drained_pending_nil w w' :
  drained w w' -> pending_rst_streams_ (session w) = [] ->
  pending_rst_streams_ (session w') = [].
Proof. intros H E. destruct (drained_pending _ _ H); congruence. Qed.

Lemma wp_SendPendingData_fuel_1 w :
  pending_rst_streams_ (session w) = [] ->
  wp (SendPendingData_fuel 1)
     (fun r w' => drained w w' /\ r = SendPendingData_result (session w)) w.
Proof.
  intros Hp. apply wp_SendPendingData_body. intros status w1 H1.
  apply wp_ClearOutgoing_body. intros Hne.
  by rewrite (drained_pending_nil _ _ H1 Hp) in Hne.
Qed.

Lemma wp_SendPendingData_fuel (n : nat) w :
  wp (SendPendingData_fuel (S (S n)))
     (fun r w' => drained w w' /\ r = SendPendingData_result (session w)) w.
Proof.
  revert w. induction n as [| n IH]; intros w.
  - apply wp_SendPendingData_body. intros status w1 H1.
    apply wp_ClearOutgoing_body. intros _ w2 Hp.
    eapply wp_mono; [by apply wp_SendPendingData_fuel_1 |]. by intros r w' [H _].
  - apply wp_SendPendingData_body. intros status w1 H1.
    apply wp_ClearOutgoing_body. intros _ w2 Hp.
    eapply wp_mono; [apply IH |]. by intros r w' [H _].
Qed.

Lemma wp_SendPendingData w :
  wp SendPendingData
     (fun r w' => drained w w' /\ r = SendPendingData_result (session w)) w.
Proof. apply (wp_SendPendingData_fuel 0). Qed.

Lemma dp_SendPendingData : dp SendPendingData.
Proof.
  intros w. eapply wp_mono; [apply wp_SendPendingData |]. by intros r w' [H _].
Qed.

Lemma dp_ClearOutgoing status : dp (ClearOutgoing status).
Proof.
  intros w. apply wp_ClearOutgoing_body. intros _ w1 _. apply dp_SendPendingData.
Qed.

End LogicLemmas.

(** ** SendPendingData has fuel enough *)

Section FuelLemmas.
Context {C T : Type} {codec : Nghttp2 C} {transport : StreamResource T}.
Context {header : Http2Header}.
Implicit Types (w : World C T) (s : Http2Session).

Lemma approx_refl {A : Type} (m : @M C T A) : approx m m.
Proof. by intros w _. Qed.

Lemma approx_bind {A B : Type} (m m' : @M C T A) (k k' : A -> M B) :
  approx m m' -> (forall a, approx (k a) (k' a)) -> approx (bind m k) (bind m' k').
Proof.
  intros Hm Hk w. unfold bind. intros H.
  destruct (m w) as [[a w1] | |] eqn:E.
  - rewrite Hm, E by (rewrite E; done). by apply Hk.
  - rewrite Hm, E by (rewrite E; done). done.
  - done.
Qed.

Lemma approx_when (b : bool) (m m' : @M C T unit) :
  approx m m' -> approx (when b m) (when b m').
Proof. destruct b; [done | intros _; apply approx_refl]. Qed.

Lemma ClearOutgoing_body_mono (X Y : @M C T Z) status :
  approx X Y -> approx (ClearOutgoing_body X status) (ClearOutgoing_body Y status).
Proof.
  intros HXY. unfold ClearOutgoing_body.
  repeat (apply approx_bind; [apply approx_refl | intros ?]).
  apply approx_when.
  apply approx_bind; [apply approx_refl | intros ?].
  apply approx_bind; [exact HXY | intros ?]. apply approx_refl.
Qed.

Lemma SendPendingData_body_mono (X Y : Z -> @M C T unit) :
  (forall status, approx (X status) (Y status)) ->
  approx (SendPendingData_body X) (SendPendingData_body Y).
Proof.
  intros HXY. unfold SendPendingData_body.
  apply approx_bind; [apply approx_refl | intros s0].
  destruct (Http2Session_IsDestroyed s0); [apply approx_refl |].
  apply approx_bind; [apply approx_refl | intros ?].
  apply approx_bind; [apply approx_refl | intros s1].
  destruct (SESSION_STATE_SENDING s1); [apply approx_refl |].
  do 7 (apply approx_bind; [apply approx_refl | intros ?]).
  apply approx_bind; [apply approx_refl | intros s2].
  destruct (negb (stream_ s2)).
  { apply approx_bind; [apply HXY | intros ?]. apply approx_refl. }
  destruct (length (outgoing_buffers_ s2) =? 0)%nat.
  { apply approx_bind; [apply HXY | intros ?]. apply approx_refl. }
  apply approx_bind; [apply approx_refl | intros res].
  apply approx_bind; [| intros ?; apply approx_refl].
  apply approx_when, HXY.
Qed.

Lemma SendPendingData_fuel_mono (n : nat) :
  approx (SendPendingData_fuel n) (SendPendingData_fuel (S n)).
Proof.
  induction n as [| n IH].
  - intros w H. done.
  - change (approx (SendPendingData_body (ClearOutgoing_body (SendPendingData_fuel n)))
              (SendPendingData_body (ClearOutgoing_body (SendPendingData_fuel (S n))))).
    apply SendPendingData_body_mono. intros status.
    by apply ClearOutgoing_body_mono.
Qed.

Lemma wp_not_OutOfFuel {A : Type} (m : M A) (Q : A -> World C T -> Prop) w :
  wp m Q w -> m w <> OutOfFuel.
Proof. unfold wp. by destruct (m w). Qed.

(** Two unfoldings of the recursion are enough, whatever the world. *)
Lemma SendPendingData_fuel_enough (n : nat) w :
  SendPendingData_fuel (S (S n)) w = SendPendingData w.
Proof.
  induction n as [| n IH]; [done |].
  rewrite <- IH. apply SendPendingData_fuel_mono.
  rewrite IH. eapply wp_not_OutOfFuel, dp_SendPendingData.
Qed.

Lemma SendPendingData_terminates w : SendPendingData w <> OutOfFuel.
Proof. eapply wp_not_OutOfFuel, dp_SendPendingData. Qed.

(** SendPendingData is the method of the source: its body, with the
    ClearOutgoing that calls it back. *)
Lemma SendPendingData_unfold w :
  SendPendingData w = SendPendingData_body ClearOutgoing w.
Proof.
  symmetry.
  change (SendPendingData_body (ClearOutgoing_body (SendPendingData_fuel 2)) w =
          SendPendingData_body (ClearOutgoing_body (SendPendingData_fuel 1)) w).
  apply SendPendingData_body_mono.
  - intros status. apply ClearOutgoing_body_mono, SendPendingData_fuel_mono.
  - apply SendPendingData_terminates.
Qed.

(** OnRead runs out of fuel only at a restart. *)
Lemma OutOfFuel_bind {A : Type} id size (n : nat) (m : M A) (k k' : A -> M (Z * Z)) w :
  wp m (fun a w1 =>
          k a w1 = OutOfFuel ->
          exists w' flags',
            restarting id w' /\
            k' a w1 =
              OnRead recorded_EmitWantsWrite recorded_ontrailers n id size flags' w') w ->
  bind m k w = OutOfFuel ->
  exists w' flags',
    restarting id w' /\
    bind m k' w =
      OnRead recorded_EmitWantsWrite recorded_ontrailers n id size flags' w'.
Proof.
  unfold wp, bind. destruct (m w) as [[a w'] | |]; [done | done | done].
Qed.

Lemma OnRead_restart id size flags (n : nat) w :
  OnRead recorded_EmitWantsWrite recorded_ontrailers 1 id size flags w = OutOfFuel ->
  exists w' flags',
    restarting id w' /\
    OnRead recorded_EmitWantsWrite recorded_ontrailers (S n) id size flags w =
      OnRead recorded_EmitWantsWrite recorded_ontrailers n id size flags' w'.
Proof.
  cbn [OnRead].
  apply OutOfFuel_bind, wp_GetStream. intros st Hst Hid.
  apply OutOfFuel_bind, wp_CHECK. intros _.
  apply OutOfFuel_bind. eapply wp_mono; [apply dp_OnRead_empty_chunks |].
  intros u1 w1 H1. cbv beta in H1.
  apply OutOfFuel_bind, wp_deref. intros st1 Hst1.
  apply OutOfFuel_bind.
  eapply wp_mono with (Q := fun _ w2 => drained w w2).
  { destruct (negb (List.length (queue_ st1) =? 0)%nat); [| by apply wp_ret].
    destruct (0 <? N.min (available_outbound_length_ st1) size)%N;
      [| by apply wp_ret].
    apply wp_bind. eapply wp_mono; [apply dp_DecrementAvailableOutboundLength |].
    intros u2 w2 H2. apply wp_ret. exact (drained_trans _ _ _ H1 H2). }
  intros r w2 H2. cbv zeta.
  apply OutOfFuel_bind, wp_deref. intros st2 Hst2.
  destruct ((fst r =? 0)%N && IsWritable st2) eqn:Eb.
  - apply andb_true_iff in Eb as [_ Ew].
    apply OutOfFuel_bind, wp_CHECK. intros Hq.
    apply OutOfFuel_bind. unfold wp, recorded_EmitWantsWrite, MakeCallback.
    apply OutOfFuel_bind, wp_deref. cbn [session set_js_calls]. intros st3 Hst3.
    rewrite Hst2 in Hst3. injection Hst3 as <-. rewrite Ew, orb_false_r.
    destruct (0 <? available_outbound_length_ st2)%N eqn:Ea; [| done].
    intros _. eexists _, _. split; [| reflexivity].
    exists st2. split; [done |].
    pose proof (drained_streams _ _ H2 id st st2 Hst Hst2) as Hs.
    split; [by rewrite (drained_id _ _ Hs) |].
    split; [apply Nat.eqb_eq in Hq; by destruct (queue_ st2) |].
    split; [by apply N.ltb_lt | done].
  - intros H. exfalso. revert H. apply (wp_not_OutOfFuel _ (fun _ _ => True)).
    apply wp_bind, wp_deref. intros st3 _.
    apply wp_bind. eapply wp_mono with (Q := fun _ _ => True); [| by intros; apply wp_ret].
    destruct ((List.length (queue_ st3) =? 0)%nat && negb (IsWritable st3));
      [| by apply wp_ret].
    destruct (HasTrailers st3); [| by apply wp_ret].
    apply wp_bind. eapply wp_mono; [apply dp_OnTrailers |].
    intros u3 w3 _. by apply wp_ret.
Qed.

(** A restart of OnRead after a listener that has left the stream as it
    was is followed by another restart: however often the method may
    restart, it does not return. *)
Lemma OnRead_restarts_without_end id size flags w :
  OnRead recorded_EmitWantsWrite recorded_ontrailers 1 id size flags w = OutOfFuel ->
  forall fuel,
    OnRead recorded_EmitWantsWrite recorded_ontrailers fuel id size flags w = OutOfFuel.
Proof.
  intros H [| n]; [done |].
  destruct (OnRead_restart id size flags n w H) as (w' & flags' & Hr & ->).
  by apply restarting_OutOfFuel.
Qed.

End FuelLemmas.

(** ** SubmitRstStream: deferred or at once *)

Section Reset.
Context {C T : Type} {codec : Nghttp2 C} {transport : StreamResource T}.
Context {header : Http2Header}.
Implicit Types (w : World C T) (s : Http2Session).









Lemma flushed_stream_kept w w' id st :
  flushed w w' -> streams_ (session w) !! id = Some st ->
  exists st', streams_ (session w') !! id = Some st' /\
              IsDestroyed st' = IsDestroyed st /\ code_ st' = code_ st /\
              NGHTTP2_STREAM_FLAG_CLOSED st' = NGHTTP2_STREAM_FLAG_CLOSED st.
Proof.
  intros Hf Hst. destruct (flushed_lookup _ _ _ _ Hf Hst) as (st' & Hst' & E).
  exists st'. split; [done |].
  change (NGHTTP2_STREAM_FLAG_DESTROYED (set_queue [] st') =
          NGHTTP2_STREAM_FLAG_DESTROYED (set_queue [] st) /\
          code_ (set_queue [] st') = code_ (set_queue [] st) /\
          NGHTTP2_STREAM_FLAG_CLOSED (set_queue [] st') =
          NGHTTP2_STREAM_FLAG_CLOSED (set_queue [] st)).
  by rewrite E.
Qed.



End Reset.

(** ** The deferred resets are submitted when the write ends *)

Section Deferred.
Context {C T : Type} {codec : Nghttp2 C} {transport : StreamResource T}.
Context {header : Http2Header}.
Implicit Types (w : World C T) (s : Http2Session).

Local Abbreviation fp := (@fp C T _).

Lemma fp_flush_deferred stream_id : fp (flush_deferred stream_id).
Proof.
  apply fp_bind; [apply fp_FindStream | intros [st |]];
    [apply fp_FlushRstStream | apply fp_ret].
Qed.







End Deferred.

(** ** Ping and settings waiters *)

Section Waiters.
Context {C T : Type} {codec : Nghttp2 C} {transport : StreamResource T}.
Context {header : Http2Header}.
Implicit Types (w : World C T) (s : Http2Session).

Lemma Ping_refused w ping payload :
  N.of_nat (length (outstanding_pings_ (session w))) = max_outstanding_pings_ (session w) ->
  Ping ping payload w =
    Ok (false, set_js_calls (js_calls w ++ [ondone_ping ping false None]) w).
Proof.
  intros H. unfold Ping, AddPing, Http2Ping_Done. run.
  rewrite H, N.eqb_refl. reflexivity.
Qed.

Lemma Settings_refused w settings :
  N.of_nat (length (outstanding_settings_ (session w))) =
    max_outstanding_settings_ (session w) ->
  Settings settings w =
    Ok (false, set_js_calls (js_calls w ++ [ondone_settings settings false]) w).
Proof.
  intros H. unfold Settings, AddSettings, Http2Settings_Done. run.
  rewrite H, N.eqb_refl. reflexivity.
Qed.

Lemma Ping_accepted w ping payload :
  N.of_nat (length (outstanding_pings_ (session w))) <> max_outstanding_pings_ (session w) ->
  fst (nghttp2_submit (nghttp2_submit_ping payload) (nghttp2 w)) = 0 ->
  exists w',
    Ping ping payload w = Ok (true, w') /\
    outstanding_pings_ (session w') = outstanding_pings_ (session w) ++ [ping] /\
    max_outstanding_pings_ (session w') = max_outstanding_pings_ (session w) /\
    nghttp2_calls w' = nghttp2_calls w ++ [nghttp2_submit_ping payload] /\
    js_calls w' = js_calls w.
Proof.
  intros H Hc. apply N.eqb_neq in H.
  unfold Ping, AddPing, Http2Ping_Send, Http2Scope, MaybeScheduleWrite. run.
  rewrite H. cbn.
  destruct (nghttp2_submit _ (nghttp2 w)) as [r c'] eqn:E. cbn in Hc. subst r.
  destruct (SESSION_STATE_HAS_SCOPE (session w)); cbn.
  { rewrite E. cbn. eexists. split; [reflexivity |]. cbn. auto. }
  destruct (SESSION_STATE_WRITE_SCHEDULED (session w)) eqn:Ew; cbn.
  { rewrite E. cbn. eexists. split; [reflexivity |]. cbn. auto. }
  rewrite E. cbn. rewrite Ew. cbn.
  destruct (nghttp2_session_want_write c'); cbn;
    (eexists; split; [reflexivity |]; cbn; auto).
Qed.

(** C4.  A ping (a settings frame) submitted while its queue of waiters
    holds the configured maximum is refused at once: the binding returns
    false, and the codec is neither called nor changed.  With a maximum of
    two outstanding pings and an empty queue, of three pings in a row the
    first two are submitted to the codec and the third is refused without
    reaching it. *)
Theorem waiter_queue_full_is_refused_before_the_codec w :
  (forall ping payload,
     N.of_nat (length (outstanding_pings_ (session w))) =
       max_outstanding_pings_ (session w) ->
     exists w',
       Ping ping payload w = Ok (false, w') /\
       nghttp2 w' = nghttp2 w /\ nghttp2_calls w' = nghttp2_calls w) /\
  (forall settings,
     N.of_nat (length (outstanding_settings_ (session w))) =
       max_outstanding_settings_ (session w) ->
     exists w',
       Settings settings w = Ok (false, w') /\
       nghttp2 w' = nghttp2 w /\ nghttp2_calls w' = nghttp2_calls w) /\
  (forall p1 p2 p3 payload1 payload2 payload3,
     outstanding_pings_ (session w) = [] ->
     max_outstanding_pings_ (session w) = 2%N ->
     (forall c payload, fst (nghttp2_submit (nghttp2_submit_ping payload) c) = 0) ->
     exists w',
       (a <- Ping p1 payload1 ;; b <- Ping p2 payload2 ;;
        c <- Ping p3 payload3 ;; ret [a; b; c]) w = Ok ([true; true; false], w') /\
       nghttp2_calls w' =
         nghttp2_calls w ++ [nghttp2_submit_ping payload1; nghttp2_submit_ping payload2]).
Proof.
  split; [| split].
  - intros ping payload H. rewrite (Ping_refused _ _ _ H). eauto.
  - intros settings H. rewrite (Settings_refused _ _ H). eauto.
  - intros p1 p2 p3 payload1 payload2 payload3 He Hm Hc.
    destruct (Ping_accepted w p1 payload1) as (w1 & E1 & Q1 & M1 & C1 & _);
      [rewrite He, Hm; done | apply Hc |].
    destruct (Ping_accepted w1 p2 payload2) as (w2 & E2 & Q2 & M2 & C2 & _);
      [rewrite Q1, M1, He, Hm; done | apply Hc |].
    assert (E3 : Ping p3 payload3 w2 =
                 Ok (false, set_js_calls (js_calls w2 ++ [ondone_ping p3 false None]) w2)).
    { apply Ping_refused. rewrite Q2, M2, Q1, M1, He, Hm. reflexivity. }
    eexists. unfold bind at 1. rewrite E1. unfold bind at 1. rewrite E2.
    unfold bind at 1. rewrite E3. split; [reflexivity |].
    cbn. rewrite C2, C1, <- app_assoc. reflexivity.
Qed.

Lemma PopPing_front w ping rest :
  outstanding_pings_ (session w) = ping :: rest ->
  PopPing w =
    Ok (Some ping,
        set_session
          (set_current_session_memory
             (current_session_memory_ (session w) - sizeof_Http2Ping)
             (set_outstanding_pings rest (session w))) w).
Proof. intros H. unfold PopPing. run. rewrite H. reflexivity. Qed.

Lemma PopSettings_front w settings rest :
  outstanding_settings_ (session w) = settings :: rest ->
  PopSettings w =
    Ok (Some settings,
        set_session
          (set_current_session_memory
             (current_session_memory_ (session w) - sizeof_Http2Settings)
             (set_outstanding_settings rest (session w))) w).
Proof. intros H. unfold PopSettings. run. rewrite H. reflexivity. Qed.

(** C5.  An acknowledgment of a PING or of a SETTINGS frame that finds the
    queue of waiters empty makes the session report the protocol error
    NGHTTP2_ERR_PROTO to JavaScript; one that finds a waiter takes the front
    waiter off the queue and completes it as acknowledged. *)
Theorem unsolicited_ack_is_a_session_error w (frame : nghttp2_frame) :
  Z.land (hd_flags frame) NGHTTP2_FLAG_ACK <> 0 ->
  (outstanding_pings_ (session w) = [] ->
   HandlePingFrame frame w =
     Ok (tt, set_js_calls (js_calls w ++ [onerror NGHTTP2_ERR_PROTO]) w)) /\
  (forall ping rest,
     outstanding_pings_ (session w) = ping :: rest ->
     exists w',
       HandlePingFrame frame w = Ok (tt, w') /\
       outstanding_pings_ (session w') = rest /\
       js_calls w' =
         js_calls w ++ [ondone_ping ping true (Some (ping_opaque_data frame))]) /\
  (outstanding_settings_ (session w) = [] ->
   HandleSettingsFrame frame w =
     Ok (tt, set_js_calls (js_calls w ++ [onerror NGHTTP2_ERR_PROTO]) w)) /\
  (forall settings rest,
     outstanding_settings_ (session w) = settings :: rest ->
     exists w',
       HandleSettingsFrame frame w = Ok (tt, w') /\
       outstanding_settings_ (session w') = rest /\
       js_calls w' = js_calls w ++ [ondone_settings settings true]).
Proof.
  intros Hack. apply Z.eqb_neq in Hack.
  unfold HandlePingFrame, HandleSettingsFrame. rewrite Hack. cbn.
  repeat split.
  - intros He. unfold bind, PopPing, bind, this. rewrite He. reflexivity.
  - intros ping rest He. unfold bind at 1. rewrite (PopPing_front _ _ _ He).
    eexists. split; [reflexivity |]. cbn. auto.
  - intros He. unfold bind, PopSettings, bind, this. rewrite He. reflexivity.
  - intros settings rest He. unfold bind at 1. rewrite (PopSettings_front _ _ _ He).
    eexists. split; [reflexivity |]. cbn. auto.
Qed.

End Waiters.

(** ** The limits on the headers of a stream *)

Section Headers.
Context {C T : Type} {codec : Nghttp2 C} {transport : StreamResource T}.
Context {header : Http2Header}.
Implicit Types (w : World C T) (s : Http2Session).

Lemma AddHeader_refused w id st name value flags :
  streams_ (session w) !! id = Some st ->
  IsDestroyed st = false ->
  AddHeader_refuses (session w) st name value = true ->
  AddHeader id name value flags w = Ok (false, w).
Proof.
  intros Hst Hd Hr. unfold AddHeader. run. rewrite Hst, Hd. cbn.
  unfold AddHeader_refuses in Hr. rewrite Hr. reflexivity.
Qed.





Lemma flushed_stream_reset w1 w' :
  flushed w1 w' ->
  SESSION_STATE_CLOSING (session w') = SESSION_STATE_CLOSING (session w1) /\
  SESSION_STATE_CLOSED (session w') = SESSION_STATE_CLOSED (session w1) /\
  dom (streams_ (session w')) = dom (streams_ (session w1)).
Proof.
  intros [Hs _ _ _ _ Hc1 Hc2 _ _ _ _ _ _ _ _ _ _]. repeat split; [done | done |].
  apply (f_equal dom) in Hs. by rewrite !dom_fmap_L in Hs.
Qed.






End Headers.

(** ** DoWrite *)

Section Writes.
Context {C T : Type} {codec : Nghttp2 C} {transport : StreamResource T}.
Context {header : Http2Header}.
Implicit Types (w : World C T) (s : Http2Session).

Lemma with_writes_cons req_wrap b bufs st :
  with_writes req_wrap bufs
    (set_available_outbound_length (available_outbound_length_ st + len b)%N
       (set_queue
          (queue_ st ++
             [{| req_wrap := match bufs with [] => Some req_wrap | _ => None end;
                 buf := b |}]) st)) =
  with_writes req_wrap (b :: bufs) st.
Proof.
  unfold with_writes, set_available_outbound_length, set_queue, total_len.
  cbn. f_equal; [by rewrite <- app_assoc | lia].
Qed.

Lemma DoWrite_loop_spec req_wrap bufs : forall w id st,
  streams_ (session w) !! id = Some st ->
  exists w',
    DoWrite_loop id req_wrap bufs w = Ok (tt, w') /\
    streams_ (session w') !! id = Some (with_writes req_wrap bufs st) /\
    current_session_memory_ (session w') =
      current_session_memory_ (session w) + Z.of_N (total_len bufs) /\
    same_but_stream id w w'.
Proof.
  induction bufs as [| b bufs IH]; intros w id st Hst.
  - exists w. cbn. unfold with_writes. cbn. rewrite app_nil_r, N.add_0_r.
    split; [reflexivity |]. split; [by destruct st |]. split; [lia |].
    by repeat split.
  - cbn [DoWrite_loop]. run. rewrite Hst. cbn. rewrite lookup_insert_eq. cbn.
    match goal with |- context [DoWrite_loop id req_wrap bufs ?w1] =>
      destruct (IH w1 id
                  (set_available_outbound_length
                     (available_outbound_length_ st + len b)%N
                     (set_queue
                        (queue_ st ++
                           [{| req_wrap := match bufs with [] => Some req_wrap | _ => None end;
                               buf := b |}]) st)))
        as (w' & E & Hst' & Hm & H1 & H2 & H3 & H4)
    end.
    { cbn. apply lookup_insert_eq. }
    exists w'. rewrite E. split; [reflexivity |].
    rewrite Hst', with_writes_cons. split; [reflexivity |].
    split; [rewrite Hm; unfold total_len; cbn; lia |].
    cbn in *. repeat split; try tauto.
    intros j Hj. rewrite H3 by done. by rewrite !lookup_insert_ne.
Qed.

Lemma DoWrite_body_spec w id st req_wrap bufs :
  streams_ (session w) !! id = Some st ->
  IsWritable st = true ->
  IsDestroyed st = false ->
  fst (nghttp2_submit (nghttp2_session_resume_data id) (nghttp2 w)) <> NGHTTP2_ERR_NOMEM ->
  returns
     (st <- deref id ;;
      if negb (IsWritable st) || IsDestroyed st then
        MakeCallback (WriteWrap_Done req_wrap UV_EOF) ;;
        ret 0
      else
        DoWrite_loop id req_wrap bufs ;;
        r <- call (nghttp2_session_resume_data id) ;;
        CHECK (negb (r =? NGHTTP2_ERR_NOMEM)) ;;
        ret 0)
     (fun r w' =>
        r = 0 /\
        streams_ (session w') !! id = Some (with_writes req_wrap bufs st) /\
        current_session_memory_ (session w') =
          current_session_memory_ (session w) + Z.of_N (total_len bufs) /\
        SESSION_STATE_HAS_SCOPE (session w') = SESSION_STATE_HAS_SCOPE (session w) /\
        SESSION_STATE_WRITE_SCHEDULED (session w') =
          SESSION_STATE_WRITE_SCHEDULED (session w) /\
        nghttp2_calls w' = nghttp2_calls w ++ [nghttp2_session_resume_data id] /\
        immediates w' = immediates w) w.
Proof.
  intros Hst Hw Hd Hc.
  apply returns_bind. cbv beta iota delta [returns deref bind FindStream this ret].
  rewrite Hst, Hw, Hd. cbn [negb orb].
  destruct (DoWrite_loop_spec req_wrap bufs w id st Hst)
    as (w1 & E & Hst1 & Hm & H1 & H2 & H3 & H4 & H5 & H6 & H7).
  rewrite E. run. rewrite H4.
  destruct (nghttp2_submit _ (nghttp2 w)) as [r c'].
  apply Z.eqb_neq in Hc. cbn in Hc. rewrite Hc. cbn.
  rewrite H5, H6. auto 10.
Qed.

(** C8, as the code has it.  On a stream that is writable and not
    destroyed, and with a codec that does not run out of memory, DoWrite
    returns 0; it has appended the buffers to the queue of the stream, the
    request wrap going with the last one, and added their total length to
    [available_outbound_length_] and to the memory counter of the session.
    It resumes the stream in the codec on every call, whatever the queue held
    before; a write is scheduled when the scope of the call is the outermost
    one, no write is scheduled yet and the codec wants to write. *)
Theorem DoWrite_enqueues_and_resumes w id st req_wrap bufs :
  streams_ (session w) !! id = Some st ->
  IsWritable st = true ->
  IsDestroyed st = false ->
  fst (nghttp2_submit (nghttp2_session_resume_data id) (nghttp2 w)) <> NGHTTP2_ERR_NOMEM ->
  exists w',
    DoWrite id req_wrap bufs w = Ok (0, w') /\
    streams_ (session w') !! id = Some (with_writes req_wrap bufs st) /\
    available_outbound_length_ (with_writes req_wrap bufs st) =
      (available_outbound_length_ st + total_len bufs)%N /\
    queue_ (with_writes req_wrap bufs st) = queue_ st ++ DoWrite_writes req_wrap bufs /\
    current_session_memory_ (session w') =
      current_session_memory_ (session w) + Z.of_N (total_len bufs) /\
    nghttp2_calls w' = nghttp2_calls w ++ [nghttp2_session_resume_data id] /\
    immediates w' =
      immediates w ++
        (if SESSION_STATE_HAS_SCOPE (session w)
            || SESSION_STATE_WRITE_SCHEDULED (session w)
         then []
         else if nghttp2_session_want_write (nghttp2 w')
              then [ImmSendPendingData] else []).
Proof.
  intros Hst Hw Hd Hc.
  enough (H : returns (DoWrite id req_wrap bufs)
                (fun r w' =>
                   r = 0 /\
                   streams_ (session w') !! id = Some (with_writes req_wrap bufs st) /\
                   current_session_memory_ (session w') =
                     current_session_memory_ (session w) + Z.of_N (total_len bufs) /\
                   nghttp2_calls w' = nghttp2_calls w ++ [nghttp2_session_resume_data id] /\
                   immediates w' =
                     immediates w ++
                       (if SESSION_STATE_HAS_SCOPE (session w)
                           || SESSION_STATE_WRITE_SCHEDULED (session w)
                        then []
                        else if nghttp2_session_want_write (nghttp2 w')
                             then [ImmSendPendingData] else [])) w).
  { apply returns_Ok in H as (r & w' & E & -> & H1 & H2 & H3 & H4).
    exists w'. repeat split; done. }
  unfold DoWrite, Http2Scope.
  apply returns_bind. unfold returns at 1, this.
  destruct (SESSION_STATE_HAS_SCOPE (session w) || SESSION_STATE_WRITE_SCHEDULED (session w))
    eqn:Eflags.
  - eapply returns_mono; [by apply (DoWrite_body_spec w id st) |].
    intros r w' (-> & H1 & H2 & _ & _ & H3 & H4).
    rewrite H4, app_nil_r. auto.
  - apply orb_false_elim in Eflags as [E1 E2].
    apply returns_bind. unfold returns at 1, update. apply returns_bind.
    eapply returns_mono; [by apply (DoWrite_body_spec _ id st) |].
    intros r w1 (-> & H1 & H2 & H3 & H4 & H5 & H6). cbn in *.
    apply returns_bind. unfold returns at 1, update.
    unfold returns, MaybeScheduleWrite. run. cbn. rewrite H4, E2. cbn.
    destruct (nghttp2_session_want_write (nghttp2 w1)) eqn:Ew; cbn;
      rewrite ?Ew, ?H6, ?app_nil_r; auto 10.
Qed.

End Writes.

(** ** New streams: SubmitRequest and OnBeginHeadersCallback *)

Section NewStreams.
Context {C T : Type} {codec : Nghttp2 C} {transport : StreamResource T}.
Context {header : Http2Header}.
Implicit Types (w : World C T) (s : Http2Session).

Lemma wp_Http2Scope_call_streams (c : nghttp2_call) (b : Z -> bool) w :
  wp (Http2Scope (r <- call c ;; CHECK (b r)))
     (fun _ w' => streams_ (session w') = streams_ (session w)) w.
Proof.
  unfold wp, Http2Scope, MaybeScheduleWrite. run.
  destruct (nghttp2_submit c (nghttp2 w)) as [r c'] eqn:E.
  destruct (SESSION_STATE_HAS_SCOPE (session w)); cbn.
  { rewrite E. cbn. by destruct (b r). }
  destruct (SESSION_STATE_WRITE_SCHEDULED (session w)) eqn:Ew; cbn.
  { rewrite E. cbn. by destruct (b r). }
  rewrite E. cbn. destruct (b r); [| done]. cbn. rewrite Ew. cbn.
  by destruct (nghttp2_session_want_write c').
Qed.

Lemma wp_DoShutdown st w :
  wp (DoShutdown st)
     (fun r w' => id_ (fst r) = id_ st /\ streams_ (session w') = streams_ (session w)) w.
Proof.
  unfold DoShutdown. destruct (IsDestroyed st); [by apply wp_ret |].
  apply wp_bind. eapply wp_mono; [apply wp_Http2Scope_call_streams |].
  intros u w1 H1. unfold wp. run. cbn. done.
Qed.

Lemma wp_new_Http2Stream id category options w :
  wp (new_Http2Stream id category options)
     (fun st w' =>
        id_ st = id /\ streams_ (session w') = <[id := st]> (streams_ (session w))) w.
Proof.
  unfold new_Http2Stream.
  apply wp_bind, wp_this. apply wp_bind. unfold wp at 1, get_local_settings.
  apply wp_bind.
  destruct (STREAM_OPTION_EMPTY_PAYLOAD options).
  - apply wp_bind. eapply wp_mono; [apply wp_DoShutdown |].
    intros [st' r] w1 [Hid Hs]. apply wp_ret. cbn in *.
    unfold wp, AddStream. run. cbn. rewrite Hs, Hid. done.
  - apply wp_ret. unfold wp, AddStream. run. cbn. done.
Qed.

(** Without option bits the constructor cannot fail. *)
Lemma new_Http2Stream_no_options id category w :
  exists st w',
    new_Http2Stream id category no_options w = Ok (st, w') /\
    streams_ (session w') = <[id := st]> (streams_ (session w)) /\
    nghttp2 w' = nghttp2 w /\ nghttp2_calls w' = nghttp2_calls w.
Proof.
  unfold new_Http2Stream, AddStream. run. cbn.
  eexists _, _. split; [reflexivity |]. cbn. auto.
Qed.

Lemma wp_SubmitRequest_body len options w :
  wp (r <- call (nghttp2_submit_request len (STREAM_OPTION_EMPTY_PAYLOAD options)) ;;
      CHECK (negb (r =? NGHTTP2_ERR_NOMEM)) ;;
      if 0 <? r then
        stream <- new_Http2Stream r NGHTTP2_HCAT_HEADERS options ;;
        ret (Some stream, r)
      else ret (None, r))
     (fun res w' =>
        snd res =
          fst (nghttp2_submit
                 (nghttp2_submit_request len (STREAM_OPTION_EMPTY_PAYLOAD options))
                 (nghttp2 w)) /\
        if 0 <? snd res
        then exists st, fst res = Some st /\ id_ st = snd res /\
                        streams_ (session w') = <[snd res := st]> (streams_ (session w))
        else fst res = None /\ streams_ (session w') = streams_ (session w)) w.
Proof.
  apply wp_bind. unfold wp at 1, call.
  destruct (nghttp2_submit _ (nghttp2 w)) as [r c'].
  apply wp_bind, wp_CHECK. intros _. cbn.
  destruct (0 <? r) eqn:Er.
  - apply wp_bind. eapply wp_mono; [apply wp_new_Http2Stream |].
    intros st w1 [Hid Hs]. apply wp_ret. cbn. rewrite Er. eauto.
  - apply wp_ret. cbn. rewrite Er. auto.
Qed.

Lemma wp_Http2Scope_streams {A : Type} (body : M A) (Q : A -> World C T -> Prop) w :
  (forall w1,
     streams_ (session w1) = streams_ (session w) -> nghttp2 w1 = nghttp2 w ->
     wp body
        (fun a w2 =>
           forall w3, streams_ (session w3) = streams_ (session w2) -> Q a w3) w1) ->
  wp (Http2Scope body) Q w.
Proof.
  intros Hb. unfold Http2Scope. apply wp_bind, wp_this.
  destruct (_ || _).
  - eapply wp_mono; [by apply Hb |]. intros a w2 H. by apply H.
  - apply wp_bind, wp_update. apply wp_bind.
    eapply wp_mono; [by apply Hb |]. intros a w2 H.
    apply wp_bind, wp_update.
    unfold wp, MaybeScheduleWrite. run. cbn.
    destruct (negb (SESSION_STATE_WRITE_SCHEDULED (session w2))); [| done]. cbn.
    destruct (nghttp2_session_want_write (nghttp2 w2)); cbn; by apply H.
Qed.

Lemma wp_SubmitRequest len options w :
  wp (SubmitRequest len options)
     (fun res w' =>
        snd res =
          fst (nghttp2_submit
                 (nghttp2_submit_request len (STREAM_OPTION_EMPTY_PAYLOAD options))
                 (nghttp2 w)) /\
        if 0 <? snd res
        then exists st, fst res = Some st /\ id_ st = snd res /\
                        streams_ (session w') = <[snd res := st]> (streams_ (session w))
        else fst res = None /\ streams_ (session w') = streams_ (session w)) w.
Proof.
  unfold SubmitRequest. apply wp_Http2Scope_streams. intros w1 Hs Hc.
  eapply wp_mono; [apply wp_SubmitRequest_body |].
  intros res w2 [Hr H] w3 H3. rewrite Hc in Hr. split; [done |].
  rewrite H3, <- Hs. exact H.
Qed.

(** Without the option for an empty payload, SubmitRequest returns
    whenever the codec has memory for the request. *)
Lemma SubmitRequest_returns len options w :
  STREAM_OPTION_EMPTY_PAYLOAD options = false ->
  fst (nghttp2_submit (nghttp2_submit_request len false) (nghttp2 w)) <> NGHTTP2_ERR_NOMEM ->
  exists res w', SubmitRequest len options w = Ok (res, w').
Proof.
  intros Ho Hc. apply Z.eqb_neq in Hc.
  unfold SubmitRequest, Http2Scope, MaybeScheduleWrite, new_Http2Stream, AddStream.
  rewrite Ho. run.
  destruct (SESSION_STATE_HAS_SCOPE (session w)); cbn;
    [| destruct (SESSION_STATE_WRITE_SCHEDULED (session w)) eqn:Ew; cbn];
    destruct (nghttp2_submit _ (nghttp2 w)) as [r c']; cbn in Hc |- *;
    rewrite Hc; cbn; destruct (0 <? r); cbn; eauto;
    rewrite Ew; cbn; destruct (nghttp2_session_want_write c'); cbn; eauto.
Qed.

Lemma CanAddStream_eq w :
  CanAddStream w =
    Ok ((N.of_nat (size (streams_ (session w))) <? stream_limit w)%N
        && IsAvailableSessionMemory (session w) sizeof_Http2Stream, w).
Proof. reflexivity. Qed.

(** A stream that the peer opens is accepted by CanAddStream or refused
    with a reset. *)
Lemma OnBeginHeadersCallback_new w id category :
  streams_ (session w) !! id = None ->
  if (N.of_nat (size (streams_ (session w))) <? stream_limit w)%N
     && IsAvailableSessionMemory (session w) sizeof_Http2Stream
  then
    exists st w',
      OnBeginHeadersCallback id category w = Ok (0, w') /\
      streams_ (session w') = <[id := st]> (streams_ (session w)) /\
      nghttp2 w' = nghttp2 w /\ nghttp2_calls w' = nghttp2_calls w
  else
    exists w',
      OnBeginHeadersCallback id category w =
        Ok (NGHTTP2_ERR_TEMPORAL_CALLBACK_FAILURE, w') /\
      streams_ (session w') = streams_ (session w) /\
      nghttp2 w' =
        snd (nghttp2_submit (nghttp2_submit_rst_stream id NGHTTP2_ENHANCE_YOUR_CALM)
               (nghttp2 w)) /\
      nghttp2_calls w' =
        nghttp2_calls w ++ [nghttp2_submit_rst_stream id NGHTTP2_ENHANCE_YOUR_CALM].
Proof.
  intros Hn. unfold OnBeginHeadersCallback.
  unfold bind at 1, FindStream. run. rewrite Hn.
  rewrite CanAddStream_eq.
  destruct (_ && _); cbv beta iota delta [negb].
  - destruct (new_Http2Stream_no_options id category w) as (st & w' & E & H1 & H2 & H3).
    rewrite E. eauto 10.
  - destruct (nghttp2_submit _ (nghttp2 w)) as [r c']. cbn. eauto.
Qed.

Lemma OnBeginHeadersCallback_known w id category st :
  streams_ (session w) !! id = Some st ->
  exists w',
    OnBeginHeadersCallback id category w = Ok (0, w') /\
    size (streams_ (session w')) = size (streams_ (session w)) /\
    nghttp2 w' = nghttp2 w.
Proof.
  intros Hst. unfold OnBeginHeadersCallback.
  unfold bind at 1, FindStream. run. rewrite Hst.
  destruct (IsDestroyed st) eqn:Hd; cbn.
  - eauto.
  - unfold StartHeaders. run. rewrite Hst, Hd. cbn.
    eexists. split; [reflexivity |]. cbn. split; [| done].
    rewrite <- (map_size_fmap (fun _ => tt)), fmap_insert, insert_id, map_size_fmap;
      [done |].
    by rewrite lookup_fmap, Hst.
Qed.

Lemma OnBeginHeaders_all_within_limit frames :
  (forall (c : C) id code,
     nghttp2_session_get_local_settings
       (snd (nghttp2_submit (nghttp2_submit_rst_stream id code) c))
       NGHTTP2_SETTINGS_MAX_CONCURRENT_STREAMS =
     nghttp2_session_get_local_settings c NGHTTP2_SETTINGS_MAX_CONCURRENT_STREAMS) ->
  forall w,
    within_stream_limit w ->
    exists rs w',
      OnBeginHeaders_all frames w = Ok (rs, w') /\
      within_stream_limit w' /\ stream_limit w' = stream_limit w.
Proof.
  intros Hset. induction frames as [| [id category] frames IH]; intros w Hw.
  - exists [], w. done.
  - cbn [OnBeginHeaders_all]. unfold bind at 1.
    assert (Hstep : exists r w1, OnBeginHeadersCallback id category w = Ok (r, w1) /\
                      within_stream_limit w1 /\ stream_limit w1 = stream_limit w).
    { destruct (streams_ (session w) !! id) as [st |] eqn:Hst.
      - destruct (OnBeginHeadersCallback_known w id category st Hst)
          as (w1 & E & Hs & Hc).
        exists 0, w1. unfold within_stream_limit, stream_limit in *.
        rewrite Hs, Hc. auto.
      - pose proof (OnBeginHeadersCallback_new w id category Hst) as H.
        destruct (N.of_nat (size (streams_ (session w))) <? stream_limit w)%N eqn:Hlt;
          cbn in H.
        + destruct (IsAvailableSessionMemory (session w) sizeof_Http2Stream).
          * destruct H as (st & w1 & E & Hs & Hc & _). exists 0, w1.
            apply N.ltb_lt in Hlt.
            unfold within_stream_limit, stream_limit in *.
            rewrite Hs, Hc, map_size_insert_None by done. split; [done |]. lia.
          * destruct H as (w1 & E & Hs & Hc & _). eexists _, w1.
            unfold within_stream_limit, stream_limit in *.
            rewrite Hs, Hc, Hset. eauto.
        + destruct H as (w1 & E & Hs & Hc & _). eexists _, w1.
          unfold within_stream_limit, stream_limit in *.
          rewrite Hs, Hc, Hset. eauto. }
    destruct Hstep as (r & w1 & E & Hw1 & Hl1). rewrite E.
    destruct (IH w1 Hw1) as (rs & w' & E' & Hw' & Hl').
    exists (r :: rs), w'. unfold bind. rewrite E'.
    split; [reflexivity |]. split; [done | congruence].
Qed.

(** C1, as the code has it.  SubmitRequest makes no admission test of its
    own: unless a CHECK aborts the process (the codec is out of memory), it
    registers a stream whenever the codec answers with a positive stream id,
    and is refused only when the codec answers otherwise; a request with a
    payload returns whenever the codec has memory for it.  The
    test CanAddStream guards the streams that the peer opens: a new one is
    registered only while the table is smaller than the smaller of
    [streams_.max_size()] and the local MAX_CONCURRENT_STREAMS and the memory
    check passes, and is refused with RST_STREAM(ENHANCE_YOUR_CALM)
    otherwise; so for every sequence of begin-headers events, as long as a
    reset does not change that setting of the codec, the table stays within
    the bound. *)
Theorem CanAddStream_guards_peer_streams w :
  (forall len options,
     wp (SubmitRequest len options)
        (fun res w' =>
           snd res =
             fst (nghttp2_submit
                    (nghttp2_submit_request len (STREAM_OPTION_EMPTY_PAYLOAD options))
                    (nghttp2 w)) /\
           if 0 <? snd res
           then exists st, fst res = Some st /\ id_ st = snd res /\
                           streams_ (session w') = <[snd res := st]> (streams_ (session w))
           else fst res = None /\ streams_ (session w') = streams_ (session w)) w) /\
  (forall len options,
     STREAM_OPTION_EMPTY_PAYLOAD options = false ->
     fst (nghttp2_submit (nghttp2_submit_request len false) (nghttp2 w)) <> NGHTTP2_ERR_NOMEM ->
     exists res w', SubmitRequest len options w = Ok (res, w')) /\
  (forall id category,
     streams_ (session w) !! id = None ->
     if (N.of_nat (size (streams_ (session w))) <? stream_limit w)%N
        && IsAvailableSessionMemory (session w) sizeof_Http2Stream
     then
       exists st w',
         OnBeginHeadersCallback id category w = Ok (0, w') /\
         streams_ (session w') = <[id := st]> (streams_ (session w)) /\
         nghttp2 w' = nghttp2 w /\ nghttp2_calls w' = nghttp2_calls w
     else
       exists w',
         OnBeginHeadersCallback id category w =
           Ok (NGHTTP2_ERR_TEMPORAL_CALLBACK_FAILURE, w') /\
         streams_ (session w') = streams_ (session w) /\
         nghttp2 w' =
           snd (nghttp2_submit (nghttp2_submit_rst_stream id NGHTTP2_ENHANCE_YOUR_CALM)
                  (nghttp2 w)) /\
         nghttp2_calls w' =
           nghttp2_calls w ++ [nghttp2_submit_rst_stream id NGHTTP2_ENHANCE_YOUR_CALM]) /\
  ((forall (c : C) id code,
      nghttp2_session_get_local_settings
        (snd (nghttp2_submit (nghttp2_submit_rst_stream id code) c))
        NGHTTP2_SETTINGS_MAX_CONCURRENT_STREAMS =
      nghttp2_session_get_local_settings c NGHTTP2_SETTINGS_MAX_CONCURRENT_STREAMS) ->
   within_stream_limit w ->
   forall frames,
     exists rs w',
       OnBeginHeaders_all frames w = Ok (rs, w') /\
       within_stream_limit w' /\ stream_limit w' = stream_limit w).
Proof.
  split; [| split; [| split]].
  - intros len options. apply wp_SubmitRequest.
  - intros len options. apply SubmitRequest_returns.
  - intros id category. apply OnBeginHeadersCallback_new.
  - intros Hset Hw frames. by apply OnBeginHeaders_all_within_limit.
Qed.

End NewStreams.

(** ** Close *)

Section Closing.
Context {C T : Type} {codec : Nghttp2 C} {transport : StreamResource T}.
Context {header : Http2Header}.
Implicit Types (w : World C T) (s : Http2Session).









End Closing.

(** ** Destroy and the deletion of a stream *)

Section Destruction.
Context {C T : Type} {codec : Nghttp2 C} {transport : StreamResource T}.
Context {header : Http2Header}.
Implicit Types (w : World C T) (s : Http2Session).

Local Abbreviation fp := (@fp C T _).

Lemma WriteWrap_Done_all_spec l status : forall w,
  WriteWrap_Done_all l status w =
    Ok (tt, set_js_calls (js_calls w ++ completions l status) w).
Proof.
  unfold WriteWrap_Done_all.
  induction l as [| wr l IH]; intros w; cbn [for_each].
  - unfold ret. cbn. rewrite app_nil_r. by destruct w.
  - unfold bind. destruct (req_wrap wr) as [wrap |] eqn:E.
    + unfold MakeCallback. rewrite IH. cbn. rewrite E. cbn.
      by rewrite <- app_assoc.
    + unfold ret. rewrite IH. cbn. by rewrite E.
Qed.

Lemma decref_all_spec (hs : list nghttp2_header) : forall w,
  exists refs,
    for_each hs release_header w = Ok (tt, set_rcbuf_refs refs w).
Proof.
  induction hs as [| h hs IH]; intros w; cbn [for_each].
  - exists (rcbuf_refs w). by destruct w.
  - assert (Hf : exists refs, release_header h w = Ok (tt, set_rcbuf_refs refs w)).
    { unfold release_header, bind, nghttp2_rcbuf_decref. eexists. reflexivity. }
    destruct Hf as (r1 & E1).
    unfold bind at 1. rewrite E1.
    destruct (IH (set_rcbuf_refs r1 w)) as (refs & E). rewrite E. by exists refs.
Qed.

(** The task that Destroy queued deletes the stream exactly when no
    buffer on the socket carries a write request of the stream. *)
Lemma Destroy_immediate_spec w id st :
  streams_ (session w) !! id = Some st ->
  id_ st = id ->
  exists w',
    Destroy_immediate id w = Ok (tt, w') /\
    js_calls w' = js_calls w ++ completions (queue_ st) UV_ECANCELED /\
    outgoing_buffers_ (session w') = outgoing_buffers_ (session w) /\
    streams_ (session w') !! id =
      if HasWritesOnSocketForStream (session w) id
      then Some (set_queue [] st) else None.
Proof.
  intros Hst Hid. unfold Destroy_immediate. run. rewrite Hst.
  rewrite WriteWrap_Done_all_spec. cbn [session set_js_calls set_session].
  change (HasWritesOnSocketForStream _ id) with (HasWritesOnSocketForStream (session w) id).
  destruct (HasWritesOnSocketForStream (session w) id); cbn [negb].
  - eexists. split; [reflexivity |]. cbn. rewrite lookup_insert_eq. done.
  - unfold delete_stream. run. cbn [session set_js_calls set_session streams_ set_streams
      set_session_members]. rewrite lookup_insert_eq.
    match goal with |- context [for_each ?hs ?f ?w1] =>
      destruct (decref_all_spec hs w1) as (refs & E)
    end.
    rewrite E. unfold RemoveStream. run.
    cbn [session set_js_calls set_session streams_ set_streams set_session_members
         set_rcbuf_refs].
    destruct (size _ =? 0)%nat eqn:Es.
    { apply Nat.eqb_eq, map_size_empty_iff in Es.
      apply (f_equal (fun m => m !! id)) in Es.
      by rewrite lookup_insert_eq, lookup_empty in Es. }
    eexists. split; [reflexivity |]. cbn. rewrite Hid, lookup_delete_eq. done.
Qed.

(** Destroy marks the stream and queues the task; the table still holds
    the stream when Destroy returns. *)
Lemma wp_Destroy w id st :
  streams_ (session w) !! id = Some st ->
  IsDestroyed st = false ->
  wp (Destroy id)
     (fun _ w' =>
        (exists st', streams_ (session w') !! id = Some st' /\ IsDestroyed st' = true) /\
        exists d1 d2,
          immediates w' = immediates w ++ d1 ++ [ImmStreamDestroy id] ++ d2) w.
Proof.
  intros Hst Hd. unfold Destroy.
  apply wp_bind, wp_deref. intros st0 Hst0. rewrite Hst in Hst0. injection Hst0 as <-.
  rewrite Hd. apply wp_bind, wp_this. apply wp_bind.
  eapply wp_mono with (Q := fun _ w1 => flushed w w1).
  { apply fp_when, fp_FlushRstStream. }
  intros u w1 H1. cbv beta in H1.
  destruct (flushed_stream_kept _ _ _ _ H1 Hst) as (st1 & Hst1 & Hd1 & _).
  destruct H1 as [_ _ _ _ _ _ _ _ _ _ _ _ _ _ (d1 & Ed1 & _) _ _].
  unfold wp, Http2Stream_EmitStatistics. run. rewrite Hst1. cbn.
  destruct (http2_observer w1); cbn; rewrite lookup_insert_eq.
  - split; [eauto |]. exists d1, [ImmStreamStatistics id].
    rewrite Ed1, <- !app_assoc. done.
  - split; [eauto |]. exists d1, []. rewrite Ed1, <- !app_assoc. done.
Qed.

(** ClearOutgoing completes every write request that was on the socket. *)
Lemma Destroy_returns w id st :
  streams_ (session w) !! id = Some st ->
  IsDestroyed st = false ->
  HasPendingRstStream (session w) id = false ->
  exists w', Destroy id w = Ok (tt, w').
Proof.
  intros Hst Hd Hp. unfold Destroy, Http2Stream_EmitStatistics. run.
  rewrite Hst, Hd. cbn. rewrite Hp. cbn. rewrite Hst. cbn.
  destruct (http2_observer w); cbn; eauto.
Qed.

Lemma wp_ClearOutgoing_completes w status :
  wp (ClearOutgoing status)
     (fun _ w' =>
        exists d,
          js_calls w' =
            js_calls w ++ completions (outgoing_buffers_ (session w)) status ++ d) w.
Proof.
  unfold ClearOutgoing, ClearOutgoing_body.
  apply wp_bind, wp_this. apply wp_bind, wp_CHECK. intros _.
  apply wp_bind, wp_update. apply wp_bind, wp_this.
  set (w1 := set_session (set_SENDING false (session w)) w).
  change (js_calls w) with (js_calls w1).
  change (outgoing_buffers_ (session w)) with (outgoing_buffers_ (session w1)).
  clearbody w1.
  apply wp_bind.
  eapply wp_mono with
    (Q := fun _ w2 =>
            js_calls w2 = js_calls w1 ++ completions (outgoing_buffers_ (session w1)) status).
  { destruct (outgoing_buffers_ (session w1)) as [| wr l] eqn:El.
    - apply wp_ret. cbn. by rewrite app_nil_r.
    - cbn [length Nat.ltb Nat.leb when]. apply wp_bind, wp_update.
      unfold wp. rewrite WriteWrap_Done_all_spec. done. }
  intros u w2 H2. cbv beta in H2.
  eapply wp_mono.
  { apply (dp_bind this); [apply dp_of_fp, fp_this | intros s].
    apply dp_when.
    apply dp_bind; [apply dp_of_fp, fp_set_pending_nil | intros u1].
    apply dp_bind; [apply dp_SendPendingData | intros r].
    apply dp_for_each. intros i. apply dp_of_fp, fp_flush_deferred. }
  intros u3 w3 H3. destruct (drained_js _ _ H3) as (d & Ed & _).
  exists d. rewrite Ed, H2, <- app_assoc. done.
Qed.

(** C6, as the code has it.  Destroy marks the stream as destroyed and
    gives its deletion to SetImmediate: when Destroy returns (it does when
    no reset of the stream is deferred, and otherwise unless a CHECK aborts
    the process) the table still holds the stream.  On the next turn of the
    event loop the task cancels the writes that are still queued on the
    stream, and deletes the stream exactly when no outgoing buffer on the
    socket carries a write request of the stream; otherwise the stream stays
    in the table.  The buffers leave the socket in ClearOutgoing, which
    completes every write request that they carry. *)
Theorem stream_deleted_only_without_writes_on_socket w id st :
  streams_ (session w) !! id = Some st ->
  id_ st = id ->
  (IsDestroyed st = false ->
   wp (Destroy id)
      (fun _ w' =>
         (exists st', streams_ (session w') !! id = Some st' /\ IsDestroyed st' = true) /\
         exists d1 d2,
           immediates w' = immediates w ++ d1 ++ [ImmStreamDestroy id] ++ d2) w) /\
  (IsDestroyed st = false ->
   HasPendingRstStream (session w) id = false ->
   exists w', Destroy id w = Ok (tt, w')) /\
  (exists w',
     run_immediate (ImmStreamDestroy id) w = Ok (tt, w') /\
     js_calls w' = js_calls w ++ completions (queue_ st) UV_ECANCELED /\
     outgoing_buffers_ (session w') = outgoing_buffers_ (session w) /\
     streams_ (session w') !! id =
       if HasWritesOnSocketForStream (session w) id
       then Some (set_queue [] st) else None) /\
  (forall status,
     wp (ClearOutgoing status)
        (fun _ w' =>
           exists d,
             js_calls w' =
               js_calls w ++ completions (outgoing_buffers_ (session w)) status ++ d) w).
Proof.
  intros Hst Hid. split; [| split; [| split]].
  - intros Hd. by apply (wp_Destroy w id st).
  - intros Hd Hp. by apply (Destroy_returns w id st).
  - by apply Destroy_immediate_spec.
  - intros status. apply wp_ClearOutgoing_completes.
Qed.

End Destruction.

(** ** Padding to a multiple of 8 bytes *)

Section Padding.

Lemma size_t_mod_8 (a : Z) : (a mod size_t_max) mod 8 = a mod 8.
Proof. apply Z.mod_mod_divide. exists (2 ^ 61). reflexivity. Qed.

Lemma to_ssize_t_small (n : Z) : n < 2 ^ 63 -> to_ssize_t n = n.
Proof. intros H. unfold to_ssize_t. destruct (Z.ltb_spec n (2 ^ 63)); lia. Qed.

Lemma next_aligned_spec (frameLen : Z) :
  (frameLen + 9) mod 8 <> 0 ->
  frameLen < next_aligned frameLen /\
  (next_aligned frameLen + 9) mod 8 = 0 /\
  (forall q, frameLen < q -> (q + 9) mod 8 = 0 -> next_aligned frameLen <= q).
Proof.
  intros Hr. unfold next_aligned.
  pose proof (Z.mod_pos_bound (frameLen + 9) 8 ltac:(lia)) as Hb.
  repeat split.
  - lia.
  - rewrite (Z.mod_eq (frameLen + 9) 8) by lia.
    replace (frameLen + (8 - (frameLen + 9 - 8 * ((frameLen + 9) / 8))) + 9)
      with (((frameLen + 9) / 8 + 1) * 8) by lia.
    apply Z.mod_mul. lia.
  - intros q Hq Hq0.
    rewrite (Z.mod_eq (q + 9) 8) in Hq0 by lia.
    rewrite (Z.mod_eq (frameLen + 9) 8) in * by lia.
    lia.
Qed.

(** The sums of the source do not wrap around: the padded length is one
    less than a multiple of 8, and so is the largest [size_t]. *)
Lemma OnDWordAlignedPadding_eq (frameLen maxPayloadLen : Z) :
  0 <= frameLen < size_t_max ->
  OnDWordAlignedPadding frameLen maxPayloadLen =
    to_ssize_t (if (frameLen + 9) mod 8 =? 0 then frameLen
                else Z.min maxPayloadLen (next_aligned frameLen)).
Proof.
  intros Hf. unfold OnDWordAlignedPadding. cbv zeta.
  rewrite size_t_mod_8.
  pose proof (Z.mod_pos_bound (frameLen + 9) 8 ltac:(lia)) as Hb.
  destruct (Z.eqb_spec ((frameLen + 9) mod 8) 0) as [Hr | Hr]; [reflexivity |].
  unfold next_aligned.
  pose proof (Z.div_mod (frameLen + 9) 8 ltac:(lia)) as Hq.
  unfold size_t_max in *. change (2 ^ 64) with 18446744073709551616 in *.
  rewrite (Z.mod_small (8 - _)) by lia.
  rewrite (Z.mod_small (frameLen + _)) by lia.
  reflexivity.
Qed.

(** C9.  For all lengths of the type [size_t] with
    [frameLen <= maxPayloadLen], OnDWordAlignedPadding returns, converted to
    its result type [ssize_t], [frameLen] when [frameLen + 9] is a multiple
    of 8 already, and otherwise the smaller of [maxPayloadLen] and the least
    length above [frameLen] that makes the frame, its header of 9 bytes
    included, a multiple of 8.  The conversion changes nothing when
    [maxPayloadLen] is a length that [ssize_t] holds; the frame is then
    aligned whenever the cap of [maxPayloadLen] does not apply. *)
Theorem OnDWordAlignedPadding_aligns (frameLen maxPayloadLen : Z) :
  0 <= frameLen -> frameLen <= maxPayloadLen -> maxPayloadLen < size_t_max ->
  OnDWordAlignedPadding frameLen maxPayloadLen =
    to_ssize_t (if (frameLen + 9) mod 8 =? 0 then frameLen
                else Z.min maxPayloadLen (next_aligned frameLen)) /\
  ((frameLen + 9) mod 8 <> 0 ->
   frameLen < next_aligned frameLen /\
   (next_aligned frameLen + 9) mod 8 = 0 /\
   (forall q, frameLen < q -> (q + 9) mod 8 = 0 -> next_aligned frameLen <= q)) /\
  (maxPayloadLen < 2 ^ 63 ->
   ((frameLen + 9) mod 8 = 0 ->
    OnDWordAlignedPadding frameLen maxPayloadLen = frameLen) /\
   ((frameLen + 9) mod 8 <> 0 ->
    OnDWordAlignedPadding frameLen maxPayloadLen =
      Z.min maxPayloadLen (next_aligned frameLen)) /\
   ((frameLen + 9) mod 8 = 0 \/ next_aligned frameLen <= maxPayloadLen ->
    (OnDWordAlignedPadding frameLen maxPayloadLen + 9) mod 8 = 0)).
Proof.
  intros H0 Hle Hmax.
  rewrite (OnDWordAlignedPadding_eq frameLen maxPayloadLen) by lia.
  split; [reflexivity |]. split; [apply next_aligned_spec |].
  intros Hs.
  destruct (Z.eqb_spec ((frameLen + 9) mod 8) 0) as [Hr | Hr].
  - rewrite to_ssize_t_small by lia. done.
  - destruct (next_aligned_spec _ Hr) as (Hlt & Ha & Hleast).
    rewrite to_ssize_t_small by lia.
    split; [done |]. split; [done |].
    intros [H | H]; [done |]. by rewrite Z.min_r.
Qed.

End Padding.

(** ** The choice of the padding of a frame *)

Section PaddingStrategies.

Lemma to_uint32_small (n : Z) : 0 <= n < 2 ^ 32 -> to_uint32 n = n.
Proof. intros H. unfold to_uint32. by apply Z.mod_small. Qed.

Lemma to_uint32_range (n : Z) : 0 <= to_uint32 n < 2 ^ 32.
Proof. unfold to_uint32. apply Z.mod_pos_bound. lia. Qed.

Lemma to_size_t_small (n : Z) : 0 <= n < 2 ^ 32 -> to_size_t n = n.
Proof.
  intros H. unfold to_size_t, size_t_max. apply Z.mod_small.
  change (2 ^ 64) with 18446744073709551616.
  change (2 ^ 32) with 4294967296 in H. lia.
Qed.

Lemma OnCallbackPadding_range ongetpadding frameLen maxPayloadLen :
  0 <= frameLen -> frameLen <= maxPayloadLen -> maxPayloadLen < 2 ^ 32 ->
  frameLen <= OnCallbackPadding ongetpadding frameLen maxPayloadLen <= maxPayloadLen.
Proof.
  intros H0 Hle Hmax. unfold OnCallbackPadding.
  destruct (Z.eqb_spec frameLen 0) as [-> | Hf]; [lia |].
  rewrite !(to_uint32_small frameLen), !(to_uint32_small maxPayloadLen) by lia.
  lia.
Qed.

(** X1. Whatever the padding strategy of the session and whatever the
    JavaScript callback answers, OnSelectPadding returns a length between
    the length of the frame and the maximum payload length (for a frame
    that fits the maximum payload, lengths below 2^32).  Without a
    strategy the frame keeps its length; the strategy MAX pads every frame
    to the maximum payload length. *)
Theorem OnSelectPadding_within_payload ongetpadding s hd_length maxPayloadLen :
  0 <= hd_length -> hd_length <= maxPayloadLen -> maxPayloadLen < 2 ^ 32 ->
  hd_length <= OnSelectPadding ongetpadding s hd_length maxPayloadLen <= maxPayloadLen /\
  (padding_strategy_ s = PADDING_STRATEGY_NONE ->
   OnSelectPadding ongetpadding s hd_length maxPayloadLen = hd_length) /\
  (padding_strategy_ s = PADDING_STRATEGY_MAX ->
   OnSelectPadding ongetpadding s hd_length maxPayloadLen = maxPayloadLen).
Proof.
  intros H0 Hle Hmax.
  assert (H63 : (2 : Z) ^ 32 < 2 ^ 63) by reflexivity.
  assert (Hs : to_ssize_t hd_length = hd_length).
  { unfold to_ssize_t. destruct (Z.ltb_spec hd_length (2 ^ 63)); lia. }
  assert (Hm : to_ssize_t maxPayloadLen = maxPayloadLen).
  { unfold to_ssize_t. destruct (Z.ltb_spec maxPayloadLen (2 ^ 63)); lia. }
  unfold OnSelectPadding. rewrite Hs, to_size_t_small by lia.
  destruct (padding_strategy_ s).
  - split; [lia |]. split; [done | done].
  - split; [| split; [done | done]].
    pose proof (OnDWordAlignedPadding_eq hd_length maxPayloadLen) as E.
    rewrite E by (unfold size_t_max; change (2 ^ 64) with 18446744073709551616;
                  change (2 ^ 32) with 4294967296 in Hmax; lia).
    destruct (Z.eqb_spec ((hd_length + 9) mod 8) 0) as [Hr | Hr]; [lia |].
    destruct (next_aligned_spec _ Hr) as (Hlt & _).
    unfold to_ssize_t.
    destruct (Z.ltb_spec (Z.min maxPayloadLen (next_aligned hd_length)) (2 ^ 63)); lia.
  - unfold OnMaxFrameSizePadding. rewrite Hm. split; [lia |]. split; [done | done].
  - split; [by apply OnCallbackPadding_range |]. split; [done | done].
Qed.

(** X2. OnCallbackPadding clamps the answer of the JavaScript callback:
    an empty frame is never padded and the callback's answer is ignored; an
    answer between the frame length and the maximum payload length is
    taken as it is; a smaller answer gives the frame length, a larger one
    the maximum payload length; and when the maximum payload length is
    below the frame length the frame length wins. *)
Theorem OnCallbackPadding_clamps ongetpadding frameLen maxPayloadLen :
  0 <= frameLen < 2 ^ 32 -> 0 <= maxPayloadLen < 2 ^ 32 ->
  let answer := to_uint32 (ongetpadding frameLen maxPayloadLen) in
  (frameLen = 0 -> OnCallbackPadding ongetpadding frameLen maxPayloadLen = 0) /\
  (0 < frameLen -> frameLen <= answer <= maxPayloadLen ->
   OnCallbackPadding ongetpadding frameLen maxPayloadLen = answer) /\
  (0 < frameLen -> answer < frameLen ->
   OnCallbackPadding ongetpadding frameLen maxPayloadLen = frameLen) /\
  (0 < frameLen -> frameLen <= maxPayloadLen < answer ->
   OnCallbackPadding ongetpadding frameLen maxPayloadLen = maxPayloadLen) /\
  (maxPayloadLen < frameLen ->
   OnCallbackPadding ongetpadding frameLen maxPayloadLen = frameLen).
Proof.
  intros Hf Hm answer. unfold OnCallbackPadding.
  rewrite !(to_uint32_small frameLen), !(to_uint32_small maxPayloadLen) by lia.
  fold answer.
  destruct (Z.eqb_spec frameLen 0) as [-> | Hz]; repeat split; intros; lia.
Qed.

End PaddingStrategies.

(** ** The Headers class *)

Section HeadersLemmas.

Lemma strlen_field (f rest : list Byte.byte) :
  no_nul f -> strlen (f ++ Byte.x00 :: rest) = Some (length f).
Proof.
  induction 1 as [| b f Hb Hf IH]; cbn; [done |].
  rewrite Hb. cbn in IH. by rewrite IH.
Qed.

Lemma take_field (f rest : list Byte.byte) :
  take (length f) (f ++ Byte.x00 :: rest) = f.
Proof. by rewrite take_app_length. Qed.

Lemma drop_field (f rest : list Byte.byte) :
  drop (length f + 1) (f ++ Byte.x00 :: rest) = rest.
Proof.
  rewrite Nat.add_1_r.
  change (f ++ Byte.x00 :: rest) with (f ++ [Byte.x00] ++ rest).
  rewrite app_assoc.
  replace (S (length f)) with (length (f ++ [Byte.x00]))
    by (rewrite length_app; cbn; lia).
  by rewrite drop_app_length.
Qed.

Lemma length_nul_terminated_pairs pairs :
  (length pairs <= length (nul_terminated (header_fields pairs)))%nat.
Proof.
  induction pairs as [| [name value] pairs IH]; cbn; [lia |].
  unfold nul_terminated, header_fields in *. cbn.
  rewrite <- !app_assoc, !length_app. cbn. lia.
Qed.

(** The loop on well-formed contents: one entry per pair, as long as the
    count allows. *)
Lemma Headers_loop_pairs pairs : forall fuel count_ n nva,
  Forall (fun nv => no_nul (fst nv) /\ no_nul (snd nv)) pairs ->
  (length pairs <= fuel)%nat ->
  (n + length pairs <= count_)%nat ->
  Headers_loop fuel count_ (nul_terminated (header_fields pairs)) n nva =
    constructed {| Headers_count_ := count_; Headers_nva := nva ++ map nv_of pairs |}.
Proof.
  induction pairs as [| [name value] pairs IH]; intros fuel count_ n nva Hn Hf Hc.
  - cbn. destruct fuel; by rewrite app_nil_r.
  - apply Forall_cons in Hn as [[Hname Hvalue] Hn].
    cbn [fst snd] in *.
    change (nul_terminated (header_fields ((name, value) :: pairs)))
      with ((name ++ [Byte.x00]) ++ (value ++ [Byte.x00]) ++
              nul_terminated (header_fields pairs)).
    rewrite <- !app_assoc. cbn [app].
    destruct fuel as [| fuel]; [cbn in Hf; lia |].
    cbn [Headers_loop].
    destruct (name ++ Byte.x00 :: value ++ Byte.x00 :: nul_terminated (header_fields pairs))
      as [| b l] eqn:E; [by destruct name |].
    rewrite <- E. clear E b l.
    cbn in Hc. replace (count_ <=? n)%nat with false
      by (symmetry; apply Nat.leb_gt; lia).
    rewrite strlen_field, drop_field, strlen_field, drop_field, !take_field by done.
    rewrite IH; [| done | cbn in Hf; lia | lia].
    by rewrite <- app_assoc.
Qed.


Lemma is_nul_x00 (b : Byte.byte) : is_nul b = true -> b = Byte.x00.
Proof. by destruct b. Qed.

Lemma count_nul_cons b p :
  count_nul (b :: p) = if is_nul b then S (count_nul p) else count_nul p.
Proof.
  unfold count_nul. rewrite filter_cons.
  destruct (is_nul b) eqn:E; by case_decide.
Qed.

Lemma count_nul_app p q : count_nul (p ++ q) = (count_nul p + count_nul q)%nat.
Proof. unfold count_nul. by rewrite filter_app, length_app. Qed.

Lemma count_nul_no_nul f : no_nul f -> count_nul f = O.
Proof.
  induction 1 as [| b f Hb Hf IH]; [done |].
  by rewrite count_nul_cons, Hb.
Qed.

(** A string with a NUL byte starts with a field. *)
Lemma strlen_Some p :
  (0 < count_nul p)%nat ->
  exists f rest, p = f ++ Byte.x00 :: rest /\ no_nul f.
Proof.
  induction p as [| b p IH]; [cbn; lia |].
  rewrite count_nul_cons. destruct (is_nul b) eqn:E.
  - intros _. exists [], p. apply is_nul_x00 in E as ->. split; [done | constructor].
  - intros H. destruct (IH H) as (f & rest & -> & Hf).
    exists (b :: f), rest. split; [done | by constructor].
Qed.

Lemma ends_with_nul_tail f rest :
  ends_with_nul (f ++ Byte.x00 :: rest) -> ends_with_nul rest.
Proof.
  intros [H | [q Hq]]; [by destruct f |].
  destruct rest as [| b rest _] using rev_ind; [by left |].
  right. exists rest.
  change (f ++ Byte.x00 :: rest ++ [b]) with (f ++ [Byte.x00] ++ rest ++ [b]) in Hq.
  rewrite !app_assoc in Hq. apply app_inj_tail in Hq as [_ ->]. done.
Qed.


Lemma Headers_loop_step fuel count_ p n nva :
  p <> [] ->
  Headers_loop (S fuel) count_ p n nva =
    if (count_ <=? n)%nat
    then constructed {| Headers_count_ := 1; Headers_nva := [zero_header] |}
    else
      match strlen p with
      | None => out_of_bounds
      | Some namelen =>
          let p1 := drop (namelen + 1) p in
          match strlen p1 with
          | None => out_of_bounds
          | Some valuelen =>
              let p2 := drop (valuelen + 1) p1 in
              Headers_loop fuel count_ p2 (S n)
                (nva ++ [{| nv_name := take namelen p;
                            nv_value := take valuelen p1;
                            nv_flags := NGHTTP2_NV_FLAG_NONE |}])
          end
      end.
Proof. by destruct p. Qed.

(** When the contents hold more strings than twice the count, the loop
    ends with the invalid header. *)
Lemma Headers_loop_too_many fuel : forall count_ p n nva,
  ends_with_nul p ->
  (length p <= fuel)%nat ->
  (n <= count_)%nat -> (0 < count_)%nat ->
  (2 * (count_ - n) < count_nul p)%nat ->
  Headers_loop fuel count_ p n nva =
    constructed {| Headers_count_ := 1; Headers_nva := [zero_header] |}.
Proof.
  induction fuel as [| fuel IH]; intros count_ p n nva He Hf Hn Hc Hnul.
  - destruct p; [cbn in Hnul; lia | cbn in Hf; lia].
  - rewrite Headers_loop_step by (intros ->; cbn in Hnul; lia).
    destruct (Nat.leb_spec count_ n) as [Hle | Hlt]; [done |].
    destruct (strlen_Some p) as (name & p1 & E1 & Hname); [lia |].
    rewrite E1 in *. rewrite strlen_field, drop_field by done.
    rewrite count_nul_app, count_nul_cons, (count_nul_no_nul name) in Hnul by done.
    cbn [is_nul] in Hnul.
    destruct (strlen_Some p1) as (value & p2 & E2 & Hvalue); [lia |].
    rewrite E2 in *. cbv zeta. rewrite strlen_field, drop_field by done.
    rewrite count_nul_app, count_nul_cons, (count_nul_no_nul value) in Hnul by done.
    cbn [is_nul] in Hnul.
    apply IH.
    + by do 2 apply ends_with_nul_tail in He.
    + rewrite !length_app in Hf. cbn in Hf. rewrite !length_app in Hf. cbn in Hf. lia.
    + lia.
    + lia.
    + lia.
Qed.

Lemma ends_with_nul_encoded pairs : ends_with_nul (nul_terminated (header_fields pairs)).
Proof.
  destruct pairs as [| nv pairs _] using rev_ind; [by left |].
  right. unfold nul_terminated, header_fields.
  rewrite map_app, concat_app, map_app, concat_app. cbn.
  rewrite !app_nil_r.
  exists (concat (map (fun f => f ++ [Byte.x00]) (concat (map (fun nv0 => [nv0.1; nv0.2]) pairs)))
            ++ (nv.1 ++ [Byte.x00]) ++ nv.2).
  by rewrite <- !app_assoc.
Qed.

Lemma count_nul_encoded pairs :
  (2 * length pairs <= count_nul (nul_terminated (header_fields pairs)))%nat /\
  (Exists (fun nv => ~ no_nul (fst nv) \/ ~ no_nul (snd nv)) pairs ->
   (2 * length pairs < count_nul (nul_terminated (header_fields pairs)))%nat).
Proof.
  assert (Hpos : forall f, ~ no_nul f -> (0 < count_nul f)%nat).
  { intros f Hf. destruct (count_nul f) eqn:E; [| lia].
    exfalso. apply Hf. clear Hf.
    induction f as [| b f IH]; [constructor |].
    rewrite count_nul_cons in E. destruct (is_nul b) eqn:Eb; [done |].
    constructor; [done | by apply IH]. }
  induction pairs as [| [name value] pairs [IH1 IH2]]; [split; [cbn; lia | by inversion 1] |].
  change (nul_terminated (header_fields ((name, value) :: pairs)))
    with ((name ++ [Byte.x00]) ++ (value ++ [Byte.x00]) ++
            nul_terminated (header_fields pairs)).
  rewrite !count_nul_app. cbn [length].
  change (count_nul [Byte.x00]) with 1%nat.
  split; [lia |].
  intros He. apply Exists_cons in He as [[Hn | Hv] | He]; cbn [fst snd] in *.
  - specialize (Hpos _ Hn). lia.
  - specialize (Hpos _ Hv). lia.
  - specialize (IH2 He). lia.
Qed.

Lemma ROUND_UP_bounds (a b : Z) :
  0 <= a -> 0 < b -> a + b < size_t_max ->
  a <= ROUND_UP a b <= a + (b - 1) /\ ROUND_UP a b mod b = 0.
Proof.
  intros Ha Hb Hw. unfold ROUND_UP.
  pose proof (Z.mod_pos_bound a b Hb) as Hm.
  destruct (Z.eqb_spec (a mod b) 0) as [E | E]; cbn [negb].
  - split; [lia | done].
  - rewrite (Z.mod_small (a + b)) by lia.
    rewrite (Z.mod_small (a + b - a mod b)) by lia.
    split; [lia |].
    rewrite (Z.mod_eq a b) by lia.
    replace (a + b - (a - b * (a / b))) with ((a / b + 1) * b) by lia.
    apply Z.mod_mul. lia.
Qed.

(** The bounds CHECK of the constructor holds: the storage was sized for
    the worst alignment. *)
Lemma Headers_new_loop alignof_nv sizeof_nv buf_ header_string header_count :
  0 < alignof_nv -> 0 < sizeof_nv -> 0 <= buf_ ->
  buf_ + (alignof_nv - 1) + Z.of_nat header_count * sizeof_nv
    + Z.of_nat (length header_string) < size_t_max ->
  (0 < header_count)%nat ->
  Headers_new alignof_nv sizeof_nv buf_ header_string header_count =
    Headers_loop (length header_string) header_count header_string 0 [].
Proof.
  intros Ha Hs Hb Hw Hc. unfold Headers_new.
  destruct (Nat.eqb_spec header_count 0) as [E | E]; [lia |].
  destruct (ROUND_UP_bounds buf_ alignof_nv) as [Hr _]; [done | done | nia |].
  destruct (Z.leb_spec
              (ROUND_UP buf_ alignof_nv + Z.of_nat header_count * sizeof_nv +
                 Z.of_nat (length header_string))
              (buf_ + (alignof_nv - 1 + Z.of_nat header_count * sizeof_nv +
                         Z.of_nat (length header_string)))); [done | lia].
Qed.


Lemma strlen_lt p k : strlen p = Some k -> (k < length p)%nat.
Proof.
  revert k. induction p as [| b p IH]; intros k; cbn; [done |].
  destruct (is_nul b); [intros [= <-]; lia |].
  destruct (strlen p) as [k' |]; cbn; [| done].
  intros [= <-]. specialize (IH k' eq_refl). lia.
Qed.

(** The loop ends before its fuel does, and a CHECK is not among its
    ends. *)
Lemma Headers_loop_ends fuel : forall count_ p n nva,
  (length p <= fuel)%nat ->
  Headers_loop fuel count_ p n nva <> no_fuel /\
  Headers_loop fuel count_ p n nva <> check_failed.
Proof.
  induction fuel as [| fuel IH]; intros count_ p n nva Hf.
  - destruct p; [done | cbn in Hf; lia].
  - destruct p as [| b p]; [done |].
    rewrite Headers_loop_step by done.
    destruct (count_ <=? n)%nat; [done |].
    destruct (strlen (b :: p)) as [k |] eqn:E1; [| done].
    apply strlen_lt in E1. cbv zeta.
    destruct (strlen (drop (k + 1) (b :: p))) as [k' |] eqn:E2; [| done].
    apply IH. rewrite !length_drop. cbn in *. lia.
Qed.

(** X3. Round trip of a header block: when JavaScript passes the names
    and values of [n] pairs, none of which holds a NUL byte, each followed
    by a NUL byte, together with the count [n], the Headers object holds
    exactly these [n] pairs, in order, with no flags (the addresses of the
    allocation staying below 2^64). *)
Theorem Headers_round_trip alignof_nv sizeof_nv buf_ pairs :
  0 < alignof_nv -> 0 < sizeof_nv -> 0 <= buf_ ->
  buf_ + (alignof_nv - 1) + Z.of_nat (length pairs) * sizeof_nv
    + Z.of_nat (length (nul_terminated (header_fields pairs))) < size_t_max ->
  Forall (fun nv => no_nul (fst nv) /\ no_nul (snd nv)) pairs ->
  Headers_new alignof_nv sizeof_nv buf_ (nul_terminated (header_fields pairs))
    (length pairs) =
    constructed {| Headers_count_ := length pairs; Headers_nva := map nv_of pairs |}.
Proof.
  intros Ha Hs Hb Hw Hn.
  destruct (decide (pairs = [])) as [-> | Hne]; [reflexivity |].
  rewrite Headers_new_loop by (done || (destruct pairs; [done | cbn; lia])).
  rewrite Headers_loop_pairs; [done | done | apply length_nul_terminated_pairs | lia].
Qed.

(** X4. When some name or value of the block holds a NUL byte, the
    Headers object does not hold the pairs: it holds the single header
    whose name and value are one NUL byte each, which nghttp2 rejects. *)
Theorem Headers_rejects_nul_bytes alignof_nv sizeof_nv buf_ pairs :
  0 < alignof_nv -> 0 < sizeof_nv -> 0 <= buf_ ->
  buf_ + (alignof_nv - 1) + Z.of_nat (length pairs) * sizeof_nv
    + Z.of_nat (length (nul_terminated (header_fields pairs))) < size_t_max ->
  Exists (fun nv => ~ no_nul (fst nv) \/ ~ no_nul (snd nv)) pairs ->
  Headers_new alignof_nv sizeof_nv buf_ (nul_terminated (header_fields pairs))
    (length pairs) =
    constructed {| Headers_count_ := 1; Headers_nva := [zero_header] |}.
Proof.
  intros Ha Hs Hb Hw He.
  assert (Hc : (0 < length pairs)%nat).
  { destruct pairs; [by apply Exists_nil in He | cbn; lia]. }
  rewrite Headers_new_loop by done.
  apply Headers_loop_too_many; [apply ends_with_nul_encoded | done | lia | done |].
  rewrite Nat.sub_0_r. by apply count_nul_encoded.
Qed.

(** X5. For every string and every count the loop of the constructor
    ends within as many turns as the string has bytes, and a CHECK of the
    constructor fails in one case only: a count of 0 with a string that is
    not empty.  The CHECK on the end of the allocation never fails. *)
Theorem Headers_new_checks alignof_nv sizeof_nv buf_ header_string header_count :
  0 < alignof_nv -> 0 < sizeof_nv -> 0 <= buf_ ->
  buf_ + (alignof_nv - 1) + Z.of_nat header_count * sizeof_nv
    + Z.of_nat (length header_string) < size_t_max ->
  Headers_new alignof_nv sizeof_nv buf_ header_string header_count <> no_fuel /\
  (Headers_new alignof_nv sizeof_nv buf_ header_string header_count = check_failed <->
   header_count = O /\ header_string <> []).
Proof.
  intros Ha Hs Hb Hw.
  destruct header_count as [| c].
  - unfold Headers_new. cbn. destruct header_string; cbn.
    + split; [done |]. split; [done | by intros [_ H]].
    + split; [done |]. split; done.
  - rewrite Headers_new_loop by (done || lia).
    destruct (Headers_loop_ends (length header_string) (S c) header_string O [])
      as [H1 H2]; [done |].
    split; [done |]. split; [done | by intros [? _]].
Qed.

(** X6. [ROUND_UP a b] is the least multiple of [b] that is not below
    [a]; it is less than [a + b] (as long as [a + b] does not wrap
    around). *)
Theorem ROUND_UP_least_multiple (a b : Z) :
  0 <= a -> 0 < b -> a + b < size_t_max ->
  a <= ROUND_UP a b < a + b /\
  ROUND_UP a b mod b = 0 /\
  (forall m, a <= m -> m mod b = 0 -> ROUND_UP a b <= m).
Proof.
  intros Ha Hb Hw.
  destruct (ROUND_UP_bounds a b Ha Hb Hw) as [Hr Hm].
  split; [lia |]. split; [done |].
  intros m Ham Hmm.
  apply Z.mod_divide in Hm as [q Hq]; [| lia].
  apply Z.mod_divide in Hmm as [q' Hq']; [| lia].
  rewrite Hq. subst m.
  assert (q <= q' \/ q' + 1 <= q) as [H | H] by lia; nia.
Qed.

End HeadersLemmas.

(** ** The settings buffer *)

Section SettingsLemmas.
Context {indices : SettingsBuffer}.

Lemma flag_bit (flags idx : Z) :
  0 <= idx < 32 ->
  negb (Z.land flags (to_uint32 (Z.shiftl 1 idx)) =? 0) = Z.testbit flags idx.
Proof.
  intros Hi.
  assert (E : to_uint32 (Z.shiftl 1 idx) = Z.shiftl 1 idx).
  { apply to_uint32_small. rewrite Z.shiftl_1_l. split; [lia |].
    apply Z.pow_lt_mono_r; lia. }
  rewrite E.
  destruct (Z.testbit flags idx) eqn:Eb.
  - apply negb_true_iff, Z.eqb_neq. intros H.
    apply (f_equal (fun z => Z.testbit z idx)) in H.
    rewrite Z.land_spec, Eb, Z.shiftl_spec, Z.sub_diag, Z.bits_0 in H by lia. done.
  - apply negb_false_iff, Z.eqb_eq. apply Z.bits_inj'. intros n Hn.
    rewrite Z.land_spec, Z.bits_0, Z.shiftl_spec by lia.
    destruct (Z.eq_dec n idx) as [-> | Hne]; [by rewrite Eb |].
    destruct (Z.ltb_spec n idx).
    + rewrite (Z.testbit_neg_r 1) by lia. apply andb_false_r.
    + replace (Z.testbit 1 (n - idx)) with false; [apply andb_false_r |].
      symmetry. change 1 with (2 ^ 0). apply Z.pow2_bits_false. lia.
Qed.


Lemma testbit_shiftl_1 (i j : Z) :
  0 <= i -> 0 <= j -> Z.testbit (Z.shiftl 1 j) i = (i =? j).
Proof.
  intros Hi Hj. rewrite Z.shiftl_spec by lia.
  destruct (Z.eqb_spec i j) as [-> | Hne]; [by rewrite Z.sub_diag |].
  destruct (Z.ltb_spec i j); [apply Z.testbit_neg_r; lia |].
  change 1 with (2 ^ 0). apply Z.pow2_bits_false. lia.
Qed.

Lemma testbit_to_uint32 (x i : Z) :
  0 <= i < 32 -> Z.testbit (to_uint32 x) i = Z.testbit x i.
Proof. intros Hi. unfold to_uint32. apply Z.mod_pow2_bits_low. lia. Qed.

Lemma GRABSETTING_bit buffer flags idx id entries :
  0 <= idx < 32 ->
  GRABSETTING buffer flags idx id entries =
    if Z.testbit flags idx
    then entries ++ [(id, Z.to_N (buffer_get buffer idx))]
    else entries.
Proof. intros Hi. unfold GRABSETTING. by rewrite flag_bit. Qed.

Lemma GRABSETTING_elem buffer flags idx id entries (i : Z) (v : N) :
  0 <= idx < 32 ->
  (i, v) ∈ GRABSETTING buffer flags idx id entries <->
  (i, v) ∈ entries \/
  (i = id /\ Z.testbit flags idx = true /\ v = Z.to_N (buffer_get buffer idx)).
Proof.
  intros Hi. rewrite GRABSETTING_bit by done.
  destruct (Z.testbit flags idx).
  - rewrite elem_of_app, list_elem_of_singleton. split.
    + intros [H | H]; [by left | right]. by injection H as -> ->.
    + intros [H | (-> & _ & ->)]; [by left | by right].
  - split; [by left |]. by intros [H | (_ & H & _)].
Qed.

Lemma GRABSETTING_ids buffer flags idx id entries ids :
  map fst entries `sublist_of` ids ->
  map fst (GRABSETTING buffer flags idx id entries) `sublist_of` ids ++ [id].
Proof.
  intros H. unfold GRABSETTING.
  destruct (negb _).
  - rewrite map_app. by apply sublist_app.
  - by apply sublist_inserts_r.
Qed.

(** X7. The entries that [Http2Settings::Init] reads out of the settings
    buffer: a setting has an entry exactly when its bit is set in the flags
    word of the buffer, and the entry carries the value that the buffer
    holds for it; no setting has two entries, and there are at most six
    entries. *)
Theorem Http2Settings_Init_entries (buffer : gmap Z Z) :
  indices_in_range ->
  let flags := buffer_get buffer IDX_SETTINGS_COUNT in
  let entries := Http2Settings_Init buffer in
  (length entries <= 6)%nat /\
  NoDup (map fst entries) /\
  Forall (fun '(idx, id) =>
            forall v, (id, v) ∈ entries <->
                      Z.testbit flags idx = true /\ v = Z.to_N (buffer_get buffer idx))
    [(IDX_SETTINGS_HEADER_TABLE_SIZE, NGHTTP2_SETTINGS_HEADER_TABLE_SIZE_id);
     (IDX_SETTINGS_MAX_CONCURRENT_STREAMS, NGHTTP2_SETTINGS_MAX_CONCURRENT_STREAMS_id);
     (IDX_SETTINGS_MAX_FRAME_SIZE, NGHTTP2_SETTINGS_MAX_FRAME_SIZE_id);
     (IDX_SETTINGS_INITIAL_WINDOW_SIZE, NGHTTP2_SETTINGS_INITIAL_WINDOW_SIZE_id);
     (IDX_SETTINGS_MAX_HEADER_LIST_SIZE, NGHTTP2_SETTINGS_MAX_HEADER_LIST_SIZE_id);
     (IDX_SETTINGS_ENABLE_PUSH, NGHTTP2_SETTINGS_ENABLE_PUSH_id)].
Proof.
  intros Hr flags entries. subst entries. fold flags.
  repeat (apply Forall_cons in Hr as [? Hr]).
  assert (Hids : map fst (Http2Settings_Init buffer) `sublist_of`
                 [NGHTTP2_SETTINGS_HEADER_TABLE_SIZE_id;
                  NGHTTP2_SETTINGS_MAX_CONCURRENT_STREAMS_id;
                  NGHTTP2_SETTINGS_MAX_FRAME_SIZE_id;
                  NGHTTP2_SETTINGS_INITIAL_WINDOW_SIZE_id;
                  NGHTTP2_SETTINGS_MAX_HEADER_LIST_SIZE_id;
                  NGHTTP2_SETTINGS_ENABLE_PUSH_id]).
  { unfold Http2Settings_Init.
    apply (GRABSETTING_ids _ _ _ _ _ [_; _; _; _; _]).
    apply (GRABSETTING_ids _ _ _ _ _ [_; _; _; _]).
    apply (GRABSETTING_ids _ _ _ _ _ [_; _; _]).
    apply (GRABSETTING_ids _ _ _ _ _ [_; _]).
    apply (GRABSETTING_ids _ _ _ _ _ [_]).
    apply (GRABSETTING_ids _ _ _ _ _ []). constructor. }
  split; [| split].
  - apply sublist_length in Hids. by rewrite length_map in Hids.
  - eapply sublist_NoDup; [| exact Hids]. by apply (bool_decide_unpack _).
  - unfold Http2Settings_Init.
    rewrite !Forall_cons, Forall_nil. cbv beta iota.
    repeat (split; [intros v; rewrite !GRABSETTING_elem, elem_of_nil by done;
                    unfold NGHTTP2_SETTINGS_HEADER_TABLE_SIZE_id,
                      NGHTTP2_SETTINGS_MAX_CONCURRENT_STREAMS_id,
                      NGHTTP2_SETTINGS_MAX_FRAME_SIZE_id,
                      NGHTTP2_SETTINGS_INITIAL_WINDOW_SIZE_id,
                      NGHTTP2_SETTINGS_MAX_HEADER_LIST_SIZE_id,
                      NGHTTP2_SETTINGS_ENABLE_PUSH_id; intuition congruence |]).
    exact I.
Qed.

Lemma buffer_get_set buffer i v : buffer_get (buffer_set i v buffer) i = to_uint32 v.
Proof. unfold buffer_get, buffer_set. by rewrite lookup_insert_eq. Qed.

Lemma buffer_get_set_ne buffer i j v :
  i <> j -> buffer_get (buffer_set i v buffer) j = buffer_get buffer j.
Proof. intros H. unfold buffer_get, buffer_set. by rewrite lookup_insert_ne. Qed.

(** X8. After [RefreshDefaults], whatever the buffer held before, the
    entries of a new Http2Settings are the five defaults (header table
    size, maximum frame size, initial window size, maximum header list
    size, enable push, in this order): there is no entry for the maximum
    number of concurrent streams. *)
Theorem Http2Settings_Init_after_RefreshDefaults (buffer : gmap Z Z) :
  indices_in_range -> indices_distinct ->
  Http2Settings_Init (Http2Settings_RefreshDefaults buffer) =
    [(NGHTTP2_SETTINGS_HEADER_TABLE_SIZE_id,
      Z.to_N (to_uint32 DEFAULT_SETTINGS_HEADER_TABLE_SIZE));
     (NGHTTP2_SETTINGS_MAX_FRAME_SIZE_id,
      Z.to_N (to_uint32 DEFAULT_SETTINGS_MAX_FRAME_SIZE));
     (NGHTTP2_SETTINGS_INITIAL_WINDOW_SIZE_id,
      Z.to_N (to_uint32 DEFAULT_SETTINGS_INITIAL_WINDOW_SIZE));
     (NGHTTP2_SETTINGS_MAX_HEADER_LIST_SIZE_id,
      Z.to_N (to_uint32 DEFAULT_SETTINGS_MAX_HEADER_LIST_SIZE));
     (NGHTTP2_SETTINGS_ENABLE_PUSH_id,
      Z.to_N (to_uint32 DEFAULT_SETTINGS_ENABLE_PUSH))].
Proof.
  intros Hr Hd.
  repeat (apply Forall_cons in Hr as [? Hr]).
  unfold indices_distinct in Hd.
  rewrite !NoDup_cons, !not_elem_of_cons in Hd. destruct_and!.
  unfold Http2Settings_Init.
  rewrite !GRABSETTING_bit by done.
  unfold Http2Settings_RefreshDefaults. cbv zeta.
  rewrite buffer_get_set.
  rewrite !testbit_to_uint32 by done.
  rewrite !Z.lor_spec, !testbit_shiftl_1 by lia.
  repeat match goal with
         | |- context [?i =? ?i] => rewrite (Z.eqb_refl i)
         | H : ?i <> ?j |- context [?i =? ?j] =>
             rewrite (proj2 (Z.eqb_neq i j) H)
         | H : ?j <> ?i |- context [?i =? ?j] =>
             rewrite (proj2 (Z.eqb_neq i j) (not_eq_sym H))
         end.
  cbn [orb app].
  repeat (rewrite buffer_get_set || rewrite buffer_get_set_ne by congruence).
  reflexivity.
Qed.

End SettingsLemmas.

(** ** The provider of the outbound DATA frames *)

Section OutboundQueue.

Lemma queue_bytes_app q1 q2 :
  queue_bytes (q1 ++ q2) = (queue_bytes q1 + queue_bytes q2)%N.
Proof.
  unfold queue_bytes. induction q1 as [| wr q1 IH]; cbn; [done |]. rewrite IH. lia.
Qed.

Lemma OnSendData_loop_0 queue : OnSendData_loop queue 0 = Some ([], queue).
Proof. by destruct queue. Qed.

Lemma OnSendData_loop_Some queue : forall length moved rest,
  OnSendData_loop queue length = Some (moved, rest) ->
  queue_bytes moved = length /\
  queue_bytes rest = (queue_bytes queue - length)%N /\
  (length <= queue_bytes queue)%N /\
  queue_wraps (moved ++ rest) = queue_wraps queue.
Proof.
  unfold queue_bytes, queue_wraps.
  induction queue as [| wr queue IH]; intros length moved rest.
  - cbn. destruct (N.ltb_spec 0 length); [done |].
    intros [= <- <-]. cbn. repeat split; lia.
  - cbn [OnSendData_loop].
    destruct (N.ltb_spec 0 length) as [Hpos | H0].
    + destruct (N.leb_spec (len (buf wr)) length) as [Hle | Hlt].
      * destruct (OnSendData_loop queue (length - len (buf wr))) as [[m r] |] eqn:E;
          [| done].
        intros [= <- <-]. destruct (IH _ _ _ E) as (H1 & H2 & H3 & H4).
        cbn. rewrite H4. repeat split; lia.
      * intros [= <- <-]. cbn. repeat split; lia.
    + intros [= <- <-]. cbn. repeat split; lia.
Qed.

Lemma OnSendData_loop_None queue : forall length,
  OnSendData_loop queue length = None <-> (queue_bytes queue < length)%N.
Proof.
  unfold queue_bytes.
  induction queue as [| wr queue IH]; intros length.
  - cbn. destruct (N.ltb_spec 0 length); split; (done || lia).
  - cbn [OnSendData_loop foldr].
    destruct (N.ltb_spec 0 length) as [Hpos | H0]; [| split; [done | lia]].
    destruct (N.leb_spec (len (buf wr)) length) as [Hle | Hlt]; [| split; [done | lia]].
    specialize (IH (length - len (buf wr))%N).
    destruct (OnSendData_loop queue (length - len (buf wr))) as [[m r] |].
    + split; [done |]. intros H. exfalso.
      assert (Hn : (foldr (fun wr acc => (len (buf wr) + acc)%N) 0%N queue
                    < length - len (buf wr))%N) by lia.
      by apply IH in Hn.
    + split; [| done]. intros _.
      assert (Hn : (foldr (fun wr acc => (len (buf wr) + acc)%N) 0%N queue
                    < length - len (buf wr))%N) by by apply IH.
      lia.
Qed.

Lemma OnSendData_loop_shape queue : forall length moved rest,
  OnSendData_loop queue length = Some (moved, rest) ->
  exists k : nat,
    (moved = take k queue /\ rest = drop k queue) \/
    (exists wr,
       queue !! k = Some wr /\
       (0 < length - queue_bytes (take k queue) < len (buf wr))%N /\
       moved =
         take k queue ++
           [{| req_wrap := None;
               buf := uv_buf_init (base (buf wr))
                        (length - queue_bytes (take k queue)) |}] /\
       rest =
         {| req_wrap := req_wrap wr;
            buf := {| base := pointer_add (base (buf wr))
                                (length - queue_bytes (take k queue));
                      len := (len (buf wr)
                              - (length - queue_bytes (take k queue)))%N |} |}
           :: drop (S k) queue).
Proof.
  induction queue as [| wr queue IH]; intros length moved rest.
  - cbn. destruct (N.ltb_spec 0 length); [done |].
    intros [= <- <-]. exists 0%nat. by left.
  - cbn [OnSendData_loop].
    destruct (N.ltb_spec 0 length) as [Hpos | H0].
    + destruct (N.leb_spec (len (buf wr)) length) as [Hle | Hlt].
      * destruct (OnSendData_loop queue (length - len (buf wr))) as [[m r] |] eqn:E;
          [| done].
        intros [= <- <-].
        destruct (IH _ _ _ E) as (k & [[-> ->] | (wr' & Hk & Hn & -> & ->)]).
        -- exists (S k). by left.
        -- exists (S k). right. exists wr'. cbn [take drop lookup].
           unfold queue_bytes in *. cbn [foldr].
           rewrite <- !N.sub_add_distr in *.
           split; [done |]. split; [done |]. split; reflexivity.
      * intros [= <- <-]. exists 0%nat. right. exists wr.
        cbn [take drop]. unfold queue_bytes. cbn [foldr].
        rewrite N.sub_0_r. split; [done |]. split; [lia |]. split; reflexivity.
    + intros [= <- <-]. exists 0%nat. by left.
Qed.

(** X9. The loop of OnSendData neither loses nor invents data.  It fails
    (the CHECK on the empty queue) exactly when the queue holds fewer bytes
    than are requested.  Otherwise the writes that it moves to the outgoing
    buffers hold exactly the requested number of bytes, the bytes that stay
    in the queue are the others, and the request wraps of the moved writes
    and of the remaining queue are those of the queue, each once and in
    order.  The writes that are moved are the first writes of the queue,
    whole and with their request wraps, and the others stay in the queue as
    they are; or the first writes of the queue are followed by the first
    bytes of the next write, which is sliced: the slice goes out without a
    request wrap, and the rest of the write stays at the head of the queue
    with the request wrap of the write. *)
Theorem OnSendData_loop_conserves queue length :
  (OnSendData_loop queue length = None <-> (queue_bytes queue < length)%N) /\
  (forall moved rest,
     OnSendData_loop queue length = Some (moved, rest) ->
     queue_bytes moved = length /\
     (queue_bytes moved + queue_bytes rest = queue_bytes queue)%N /\
     queue_wraps (moved ++ rest) = queue_wraps queue /\
     exists k : nat,
       (moved = take k queue /\ rest = drop k queue) \/
       (exists wr,
          queue !! k = Some wr /\
          (0 < length - queue_bytes (take k queue) < len (buf wr))%N /\
          moved =
            take k queue ++
              [{| req_wrap := None;
                  buf := uv_buf_init (base (buf wr))
                           (length - queue_bytes (take k queue)) |}] /\
          rest =
            {| req_wrap := req_wrap wr;
               buf := {| base := pointer_add (base (buf wr))
                                   (length - queue_bytes (take k queue));
                         len := (len (buf wr)
                                 - (length - queue_bytes (take k queue)))%N |} |}
              :: drop (S k) queue)).
Proof.
  split; [apply OnSendData_loop_None |].
  intros moved rest E.
  destruct (OnSendData_loop_Some _ _ _ _ E) as (H1 & H2 & H3 & H4).
  split; [done |]. split; [lia |]. split; [done |].
  by apply OnSendData_loop_shape.
Qed.

End OutboundQueue.

Section ProviderLemmas.
Context {C T : Type} {codec : Nghttp2 C} {transport : StreamResource T}.
Context {header : Http2Header}.
Variable EmitWantsWrite : Z -> N -> @M C T unit.
Variable ontrailers : Z -> @M C T unit.

Lemma set_queue_same st : set_queue (queue_ st) st = st.
Proof. by destruct st. Qed.

Lemma with_stream_same id st (w : World C T) :
  streams_ (session w) !! id = Some st -> with_stream id st w = w.
Proof.
  intros H. unfold with_stream. rewrite insert_id by done.
  destruct w as [s c cs i ics im js rc ob]. by destruct s.
Qed.

Lemma with_stream_twice id st st' (w : World C T) :
  with_stream id st (with_stream id st' w) = with_stream id st w.
Proof. unfold with_stream. cbn. by rewrite insert_insert_eq. Qed.

Lemma lookup_with_stream id st (w : World C T) :
  streams_ (session (with_stream id st w)) !! id = Some st.
Proof. cbn. apply lookup_insert_eq. Qed.

Lemma OnRead_empty_chunks_spec id : forall n q (w : World C T) st,
  streams_ (session w) !! id = Some st ->
  queue_ st = q ->
  (length q <= n)%nat ->
  OnRead_empty_chunks id n w =
    Ok (tt, set_js_calls (js_calls w ++ completions (empty_chunks q) 0)
              (with_stream id (set_queue (after_empty_chunks q) st) w)).
Proof.
  induction n as [| n IH]; intros q w st Hst Hq Hn.
  - destruct q; [| cbn in Hn; lia]. cbn.
    rewrite <- Hq, set_queue_same, with_stream_same, app_nil_r by done.
    by destruct w.
  - cbn [OnRead_empty_chunks]. run. rewrite Hst. cbn. rewrite Hq.
    destruct q as [| front rest].
    + cbn. rewrite <- Hq, set_queue_same, with_stream_same, app_nil_r by done.
      by destruct w.
    + cbn [empty_chunks after_empty_chunks].
      destruct (N.eqb_spec (len (buf front)) 0) as [E0 | Hne]; cbn.
      * unfold completions. cbn [omap list_omap].
        destruct (req_wrap front) as [finished |]; cbn;
          match goal with |- context [OnRead_empty_chunks id n ?w1] =>
            rewrite (IH rest w1 (set_queue rest st));
              [| cbn; apply lookup_insert_eq | done | cbn in Hn; lia]
          end; unfold with_stream, set_js_calls, set_session; cbn;
          rewrite insert_insert_eq, set_queue_idemp, <- ?app_assoc; reflexivity.
      * rewrite <- Hq, set_queue_same, with_stream_same, app_nil_r by done.
        by destruct w.
Qed.

Lemma queue_bytes_after_empty_chunks q :
  queue_bytes (after_empty_chunks q) = queue_bytes q.
Proof.
  unfold queue_bytes. induction q as [| front rest IH]; [done |].
  cbn. destruct (N.eqb_spec (len (buf front)) 0) as [E | E]; [| done].
  rewrite IH. lia.
Qed.

Lemma after_empty_chunks_nil q :
  after_empty_chunks q = [] <-> queue_bytes q = 0%N.
Proof.
  unfold queue_bytes. induction q as [| front rest IH]; [done |].
  cbn. destruct (N.eqb_spec (len (buf front)) 0) as [E | E].
  - rewrite IH. lia.
  - split; [done | lia].
Qed.

Lemma OnRead_data (w : World C T) id st length flags fuel :
  streams_ (session w) !! id = Some st ->
  id_ st = id ->
  queue_consistent st ->
  (0 < length)%N ->
  (0 < available_outbound_length_ st)%N ->
  OnRead EmitWantsWrite ontrailers (S fuel) id length flags w =
    Ok ((Z.of_N (N.min (available_outbound_length_ st) length),
         Z.lor flags NGHTTP2_DATA_FLAG_NO_COPY),
        OnRead_world id st (N.min (available_outbound_length_ st) length) w).
Proof.
  intros Hst Hid Hc Hl Ha.
  cbn [OnRead]. unfold GetStream. run. rewrite Hst. cbn. rewrite Hid, Z.eqb_refl. cbn.
  rewrite Hid, Z.eqb_refl.
  rewrite (OnRead_empty_chunks_spec id _ (queue_ st) w st) by done.
  cbn. rewrite lookup_insert_eq. cbn.
  assert (Hq : after_empty_chunks (queue_ st) <> []).
  { rewrite after_empty_chunks_nil. unfold queue_consistent in Hc. lia. }
  destruct (after_empty_chunks (queue_ st)) as [| front rest] eqn:Eq; [done |].
  cbn [Datatypes.length Nat.eqb negb].
  assert (Hm : (0 <? available_outbound_length_ st `min` length)%N = true).
  { apply N.ltb_lt. lia. }
  rewrite Hm. unfold DecrementAvailableOutboundLength. run. cbn.
  rewrite !lookup_insert_eq. cbn. rewrite !lookup_insert_eq. cbn.
  assert (Hz : (available_outbound_length_ st `min` length =? 0)%N = false).
  { apply N.eqb_neq. lia. }
  rewrite Hz. cbn. rewrite !lookup_insert_eq. cbn.
  unfold OnRead_world, after_OnRead, with_stream, set_js_calls, set_session. cbn.
  rewrite Eq, !insert_insert_eq. reflexivity.
Qed.

Lemma for_each_push_outgoing moved : forall (w : World C T),
  for_each moved push_outgoing w =
    Ok (tt, set_session
              (set_outgoing (outgoing_buffers_ (session w) ++ moved)
                 (outgoing_storage_ (session w)) (session w)) w).
Proof.
  induction moved as [| wr moved IH]; intros w.
  - cbn. rewrite app_nil_r. destruct w as [s c cs i ics im js rc ob]. by destruct s.
  - cbn [for_each]. unfold push_outgoing at 1. run. rewrite IH. cbn.
    by rewrite <- app_assoc.
Qed.

Lemma OnSendData_spec (w : World C T) id st length padlen moved rest :
  streams_ (session w) !! id = Some st ->
  id_ st = id ->
  OnSendData_loop (queue_ st) length = Some (moved, rest) ->
  (padlen <= 256)%N ->
  OnSendData id length padlen w =
    Ok (tt, set_session
              (set_outgoing
                 (outgoing_buffers_ (session w) ++ data_frame_buffers moved padlen)
                 (outgoing_storage_ (session w) + 9 + (if (0 <? padlen)%N then 1 else 0))
                 (session (with_stream id (set_queue rest st) w))) w).
Proof.
  intros Hst Hid Hloop Hpad.
  unfold OnSendData, GetStream, CopyDataIntoOutgoing, data_frame_buffers. run.
  rewrite Hst. cbn. rewrite Hid, Z.eqb_refl. cbn. rewrite Hloop.
  destruct (N.ltb_spec 0 padlen) as [Hp | Hp]; cbn.
  - assert (Hb : (padlen - 1 <? 256)%N = true) by (apply N.ltb_lt; lia).
    rewrite Hb. cbn. rewrite for_each_push_outgoing. cbn.
    unfold push_outgoing. run. cbn. rewrite <- !app_assoc. reflexivity.
  - rewrite for_each_push_outgoing. cbn.
    rewrite app_nil_r, N.add_0_r, <- !app_assoc. reflexivity.
Qed.

Lemma queue_bytes_data_frame_buffers moved padlen :
  queue_bytes (data_frame_buffers moved padlen) = (9 + queue_bytes moved + padlen)%N.
Proof.
  unfold data_frame_buffers. rewrite !queue_bytes_app.
  destruct (N.ltb_spec 0 padlen); unfold queue_bytes; cbn; lia.
Qed.

(** X10. Sending a DATA frame keeps the count of the queued bytes.  On a
    stream whose [available_outbound_length_] is the number of bytes in its
    queue and is positive, OnRead promises [min(available, length)] bytes
    with NGHTTP2_DATA_FLAG_NO_COPY, without asking the listener for more;
    OnSendData for that amount then succeeds, and afterwards
    [available_outbound_length_] is again the number of bytes in the queue.
    The two counters (of the stream and of the session memory) have gone
    down by the amount; the outgoing buffers have grown by one frame of
    [9 + amount + padlen] bytes; the empty chunks at the head of the queue
    were completed with status 0, and no other request wrap was lost. *)
Theorem OnRead_then_OnSendData (w : World C T) id st length padlen fuel :
  streams_ (session w) !! id = Some st ->
  id_ st = id ->
  queue_consistent st ->
  (0 < length)%N ->
  (0 < available_outbound_length_ st)%N ->
  (padlen <= 256)%N ->
  let amount := N.min (available_outbound_length_ st) length in
  exists w1 w2 st2 moved,
    OnRead EmitWantsWrite ontrailers (S fuel) id length 0 w =
      Ok ((Z.of_N amount, NGHTTP2_DATA_FLAG_NO_COPY), w1) /\
    OnSendData id amount padlen w1 = Ok (tt, w2) /\
    streams_ (session w2) !! id = Some st2 /\
    queue_consistent st2 /\
    available_outbound_length_ st2 = (available_outbound_length_ st - amount)%N /\
    current_session_memory_ (session w2) =
      current_session_memory_ (session w) - Z.of_N amount /\
    outgoing_buffers_ (session w2) =
      outgoing_buffers_ (session w) ++ data_frame_buffers moved padlen /\
    queue_bytes (data_frame_buffers moved padlen) = (9 + amount + padlen)%N /\
    queue_wraps (moved ++ queue_ st2) = queue_wraps (after_empty_chunks (queue_ st)) /\
    js_calls w2 = js_calls w ++ completions (empty_chunks (queue_ st)) 0.
Proof.
  intros Hst Hid Hc Hl Ha Hpad amount.
  pose proof (OnRead_data w id st length 0 fuel Hst Hid Hc Hl Ha) as E1.
  fold amount in E1.
  assert (Hle : (amount <= queue_bytes (after_empty_chunks (queue_ st)))%N).
  { rewrite queue_bytes_after_empty_chunks. unfold queue_consistent in Hc. lia. }
  destruct (OnSendData_loop (after_empty_chunks (queue_ st)) amount)
    as [[moved rest] |] eqn:Eloop.
  2: { apply OnSendData_loop_None in Eloop. lia. }
  destruct (OnSendData_loop_Some _ _ _ _ Eloop) as (Hm & Hr & _ & Hw).
  exists (OnRead_world id st amount w).
  eexists. exists (set_queue rest (after_OnRead amount st)), moved.
  split; [exact E1 |].
  split.
  { apply (OnSendData_spec _ id (after_OnRead amount st) amount padlen moved rest);
      [apply lookup_insert_eq | by destruct st | exact Eloop | exact Hpad]. }
  split; [cbn; apply lookup_insert_eq |].
  split.
  { unfold queue_consistent. cbn. rewrite Hr, queue_bytes_after_empty_chunks.
    unfold queue_consistent in Hc. by rewrite Hc. }
  split; [reflexivity |].
  split; [reflexivity |].
  split; [reflexivity |].
  split; [rewrite queue_bytes_data_frame_buffers, Hm; reflexivity |].
  split; [exact Hw | reflexivity].
Qed.

Lemma queue_bytes_DoWrite_writes req_wrap bufs :
  queue_bytes (DoWrite_writes req_wrap bufs) = total_len bufs.
Proof.
  unfold queue_bytes, total_len.
  induction bufs as [| b bufs IH]; [done |]. cbn. by rewrite IH.
Qed.

Lemma with_writes_consistent req_wrap bufs st :
  queue_consistent st -> queue_consistent (with_writes req_wrap bufs st).
Proof.
  unfold queue_consistent, with_writes. cbn. intros ->.
  by rewrite queue_bytes_app, queue_bytes_DoWrite_writes.
Qed.

Lemma DoWrite_body_queued (w : World C T) id st req_wrap bufs :
  streams_ (session w) !! id = Some st ->
  IsWritable st = true ->
  IsDestroyed st = false ->
  fst (nghttp2_submit (nghttp2_session_resume_data id) (nghttp2 w)) <> NGHTTP2_ERR_NOMEM ->
  returns
     (st <- deref id ;;
      if negb (IsWritable st) || IsDestroyed st then
        MakeCallback (WriteWrap_Done req_wrap UV_EOF) ;;
        ret 0
      else
        DoWrite_loop id req_wrap bufs ;;
        r <- call (nghttp2_session_resume_data id) ;;
        CHECK (negb (r =? NGHTTP2_ERR_NOMEM)) ;;
        ret 0)
     (fun r w' =>
        r = 0 /\
        streams_ (session w') !! id = Some (with_writes req_wrap bufs st) /\
        current_session_memory_ (session w') =
          current_session_memory_ (session w) + Z.of_N (total_len bufs) /\
        SESSION_STATE_WRITE_SCHEDULED (session w') =
          SESSION_STATE_WRITE_SCHEDULED (session w) /\
        js_calls w' = js_calls w) w.
Proof.
  intros Hst Hw Hd Hc.
  apply returns_bind. cbv beta iota delta [returns deref bind FindStream this ret].
  rewrite Hst, Hw, Hd. cbn [negb orb].
  destruct (DoWrite_loop_spec req_wrap bufs w id st Hst)
    as (w1 & E & Hst1 & Hm & H1 & H2 & H3 & H4 & H5 & H6 & H7).
  rewrite E. run. rewrite H4.
  destruct (nghttp2_submit _ (nghttp2 w)) as [r c'].
  apply Z.eqb_neq in Hc. cbn in Hc. rewrite Hc. cbn.
  auto 10.
Qed.

(** X12. DoWrite keeps [available_outbound_length_] equal to the number
    of bytes in the queue.  On a stream that is not writable or is
    destroyed it queues nothing: the stream and the memory counter stay as
    they are, the codec is not called, and the request is completed with
    UV_EOF.  Otherwise the writes are appended to the queue and counted. *)
Theorem DoWrite_keeps_the_queue_consistent (w : World C T) id st req_wrap bufs :
  streams_ (session w) !! id = Some st ->
  queue_consistent st ->
  (IsWritable st = true -> IsDestroyed st = false ->
   fst (nghttp2_submit (nghttp2_session_resume_data id) (nghttp2 w))
     <> NGHTTP2_ERR_NOMEM) ->
  returns (DoWrite id req_wrap bufs)
    (fun r w' =>
       r = 0 /\
       exists st',
         streams_ (session w') !! id = Some st' /\
         queue_consistent st' /\
         if negb (IsWritable st) || IsDestroyed st then
           st' = st /\
           current_session_memory_ (session w') = current_session_memory_ (session w) /\
           js_calls w' = js_calls w ++ [WriteWrap_Done req_wrap UV_EOF] /\
           nghttp2_calls w' = nghttp2_calls w
         else
           queue_ st' = queue_ st ++ DoWrite_writes req_wrap bufs /\
           current_session_memory_ (session w') =
             current_session_memory_ (session w) + Z.of_N (total_len bufs) /\
           js_calls w' = js_calls w) w.
Proof.
  intros Hst Hc Hcodec.
  destruct (negb (IsWritable st) || IsDestroyed st) eqn:Hrefused.
  - unfold returns, DoWrite, Http2Scope, MaybeScheduleWrite. run.
    destruct (SESSION_STATE_HAS_SCOPE (session w)
              || SESSION_STATE_WRITE_SCHEDULED (session w)) eqn:Eflags; cbn.
    + rewrite Hst. cbn. rewrite Hrefused. cbn.
      split; [done |]. exists st. by rewrite Hst.
    + apply orb_false_elim in Eflags as [E1 E2].
      rewrite Hst. cbn. rewrite Hrefused. cbn. rewrite E2. cbn.
      destruct (nghttp2_session_want_write (nghttp2 w)); cbn;
        (split; [done |]); exists st; by rewrite Hst.
  - apply orb_false_elim in Hrefused as [Hw Hd].
    apply negb_false_iff in Hw.
    specialize (Hcodec Hw Hd).
    pose proof (with_writes_consistent req_wrap bufs st Hc) as Hc'.
    unfold DoWrite, Http2Scope.
    apply returns_bind. unfold returns at 1, this.
    destruct (SESSION_STATE_HAS_SCOPE (session w)
              || SESSION_STATE_WRITE_SCHEDULED (session w)) eqn:Eflags.
    + eapply returns_mono; [by apply (DoWrite_body_queued w id st) |].
      intros r w' (-> & H1 & H2 & _ & H3).
      split; [done |]. exists (with_writes req_wrap bufs st). auto.
    + apply orb_false_elim in Eflags as [E1 E2].
      apply returns_bind. unfold returns at 1, update. apply returns_bind.
      eapply returns_mono; [by apply (DoWrite_body_queued _ id st) |].
      intros r w1 (-> & H1 & H2 & H4 & H5). cbn in *.
      apply returns_bind. unfold returns at 1, update.
      unfold returns, MaybeScheduleWrite. run. cbn. rewrite H4, E2. cbn.
      destruct (nghttp2_session_want_write (nghttp2 w1)) eqn:Ew; cbn;
        (split; [done |]); exists (with_writes req_wrap bufs st); auto.
Qed.

(** [IsWritable] is a test of the flags of the stream: it does not depend
    on what the queue holds. *)
Hypothesis IsWritable_set_queue :
  forall st q, IsWritable (set_queue q st) = IsWritable st.

(** X11. OnRead on a stream that has no bytes queued.  The empty chunks
    of the queue are completed.  If the stream is not writable any more,
    OnRead returns 0 with NGHTTP2_DATA_FLAG_EOF; if trailers were announced
    it also sets NGHTTP2_DATA_FLAG_NO_END_STREAM, clears the trailers flag
    of the stream and runs the [ontrailers] callback.  If the stream is
    writable and its listener supplies nothing synchronously, OnRead returns
    NGHTTP2_ERR_DEFERRED and sets no flag.  In none of these cases does the
    CHECK on the empty queue fail. *)
Theorem OnRead_at_the_end_of_the_data (w : World C T) id st length fuel :
  streams_ (session w) !! id = Some st ->
  id_ st = id ->
  queue_consistent st ->
  available_outbound_length_ st = 0%N ->
  let w1 := set_js_calls (js_calls w ++ completions (empty_chunks (queue_ st)) 0)
              (with_stream id (set_queue [] st) w) in
  (IsWritable st = false -> HasTrailers st = false ->
   OnRead EmitWantsWrite ontrailers (S fuel) id length 0 w =
     Ok ((0, NGHTTP2_DATA_FLAG_EOF), w1)) /\
  (IsWritable st = false -> HasTrailers st = true -> IsDestroyed st = false ->
   OnRead EmitWantsWrite ontrailers (S fuel) id length 0 w =
     (ontrailers id ;;
      ret (0, Z.lor NGHTTP2_DATA_FLAG_EOF NGHTTP2_DATA_FLAG_NO_END_STREAM))
       (with_stream id (set_flag_trailers false (set_queue [] st)) w1)) /\
  (IsWritable st = true ->
   EmitWantsWrite id length w1 = Ok (tt, w1) ->
   OnRead EmitWantsWrite ontrailers (S fuel) id length 0 w =
     Ok ((NGHTTP2_ERR_DEFERRED, 0), w1)).
Proof.
  intros Hst Hid Hc Ha w1.
  assert (Hq : after_empty_chunks (queue_ st) = []).
  { apply after_empty_chunks_nil. unfold queue_consistent in Hc. lia. }
  assert (Hw1 : streams_ (session w1) !! id = Some (set_queue [] st)).
  { apply lookup_insert_eq. }
  assert (E : OnRead_empty_chunks id (Datatypes.length (queue_ st)) w = Ok (tt, w1)).
  { rewrite (OnRead_empty_chunks_spec id _ (queue_ st) w st) by done. by rewrite Hq. }
  pose proof (IsWritable_set_queue st []) as Hwq.
  assert (Hq0 : queue_ (set_queue [] st) = []) by reflexivity.
  assert (Ha0 : available_outbound_length_ (set_queue [] st) = 0%N) by exact Ha.
  assert (Ht0 : HasTrailers (set_queue [] st) = HasTrailers st) by reflexivity.
  assert (Hd0 : IsDestroyed (set_queue [] st) = IsDestroyed st) by reflexivity.
  assert (Hprefix : forall K : Http2Stream -> World C T -> Result (Z * Z * World C T),
            (stream <- GetStream id ;;
             CHECK (id =? id_ stream) ;;
             OnRead_empty_chunks id (Datatypes.length (queue_ stream)) ;;
             stream <- deref id ;;
             K stream) w = K (set_queue [] st) w1).
  { intros K. unfold GetStream. run. rewrite Hst. cbn.
    rewrite Hid, Z.eqb_refl. cbn. rewrite Hid, Z.eqb_refl, E. by rewrite Hw1. }
  generalize dependent (set_queue [] st).
  intros st0 w1 Hw1 E Hwq Hq0 Ha0 Ht0 Hd0 Hprefix.
  clearbody w1.
  split; [| split].
  - intros Hw Ht. cbn [OnRead]. rewrite Hprefix.
    rewrite Hq0. run. cbn. rewrite Hw1, Hwq, Hw. cbn.
    rewrite Hw1. cbn. rewrite Hq0, Hwq, Hw, Ht0, Ht. reflexivity.
  - intros Hw Ht Hd. cbn [OnRead]. rewrite Hprefix.
    rewrite Hq0. run. cbn. rewrite Hw1, Hwq, Hw. cbn.
    rewrite Hw1. cbn. rewrite Hq0, Hwq, Hw, Ht0, Ht. cbn.
    unfold OnTrailers. run. rewrite Hw1. cbn. rewrite Hd0, Hd. cbn.
    unfold with_stream. cbn.
    by destruct (ontrailers id _) as [[[] w2] | |].
  - intros Hw He. cbn [OnRead]. rewrite Hprefix.
    rewrite Hq0. run. cbn. rewrite Hw1, Hwq, Hw. cbn.
    rewrite Hq0. cbn. rewrite He, Hw1. cbn.
    rewrite Hwq, Hw, Ha0. reflexivity.
Qed.

End ProviderLemmas.

(** ** HandleHeadersFrame: the array of names and values *)

Section HeadersFrame.

Lemma HandleHeadersFrame_fill_spec room : forall headers argv,
  HandleHeadersFrame_fill room headers argv =
    (argv ++ names_and_values (take room headers), drop room headers).
Proof.
  induction room as [| room IH]; intros headers argv.
  - cbn. rewrite app_nil_r. by destruct headers.
  - destruct headers as [| item headers]; cbn; [by rewrite app_nil_r |].
    rewrite IH, <- app_assoc. reflexivity.
Qed.

Lemma length_names_and_values headers :
  length (names_and_values headers) = (2 * length headers)%nat.
Proof.
  unfold names_and_values. induction headers as [| item headers IH]; cbn; [done |].
  rewrite IH. lia.
Qed.

Lemma names_and_values_app h1 h2 :
  names_and_values (h1 ++ h2) = names_and_values h1 ++ names_and_values h2.
Proof. unfold names_and_values. by rewrite flat_map_app. Qed.

Lemma HandleHeadersFrame_loop_spec max : (0 < max)%nat ->
  forall fuel headers pushes,
  (length headers <= fuel)%nat ->
  exists more,
    HandleHeadersFrame_loop fuel max headers pushes = Some (pushes ++ more) /\
    concat more = names_and_values headers /\
    Forall (fun argv => (0 < length argv <= 2 * max)%nat) more /\
    length more = ((length headers + max - 1) / max)%nat.
Proof.
  intros Hmax. induction fuel as [| fuel IH]; intros headers pushes Hfuel.
  - destruct headers; [| cbn in Hfuel; lia].
    exists []. cbn. rewrite app_nil_r. repeat split; [constructor |].
    symmetry. apply Nat.div_small. lia.
  - destruct headers as [| item headers].
    { exists []. cbn. rewrite app_nil_r. repeat split; [constructor |].
      symmetry. apply Nat.div_small. lia. }
    cbn [HandleHeadersFrame_loop].
    rewrite HandleHeadersFrame_fill_spec. cbn [app].
    set (hs := item :: headers).
    assert (Hlen : length (names_and_values (take max hs)) =
                   (2 * (length hs `min` max))%nat).
    { rewrite length_names_and_values, length_take. lia. }
    assert (Hhs : length hs = S (length headers)) by reflexivity.
    clearbody hs.
    assert (Hj : (0 <? length (names_and_values (take max hs)) / 2)%nat = true).
    { apply Nat.ltb_lt. rewrite Hlen, Nat.mul_comm, Nat.div_mul by lia. lia. }
    rewrite Hj.
    destruct (IH (drop max hs) (pushes ++ [names_and_values (take max hs)]))
      as (more & E & Hc & Hf & Hn).
    { rewrite length_drop. cbn in Hfuel. lia. }
    exists (names_and_values (take max hs) :: more).
    rewrite E, <- app_assoc. split; [reflexivity |].
    split; [| split].
    + cbn. rewrite Hc, <- names_and_values_app. by rewrite take_drop.
    + constructor; [| exact Hf]. rewrite Hlen. lia.
    + cbn [length]. rewrite Hn, length_drop.
      destruct (Nat.le_gt_cases (length hs) max) as [Hle | Hgt].
      * replace (length hs - max)%nat with 0%nat by lia.
        rewrite (Nat.div_small (0 + max - 1)) by lia.
        apply (Nat.div_unique _ _ 1 (length hs - 1)); lia.
      * replace (length hs + max - 1)%nat
          with ((length hs - max + max - 1) + 1 * max)%nat by lia.
        rewrite Nat.div_add by lia. lia.
Qed.

(** X13. The loops of HandleHeadersFrame end, whatever the number of
    headers, and the values that they push onto the holder array are the
    names and values of the headers of the stream, alternating and in
    order.  Every call of push carries at least one pair and at most as
    many values as [argv] has room for, and the number of calls is the
    number of headers divided by NODE_PUSH_VAL_TO_ARRAY_MAX, rounded up. *)
Theorem HandleHeadersFrame_lists_every_header (max : nat)
    (headers : list nghttp2_header) :
  (0 < max)%nat ->
  exists pushes,
    HandleHeadersFrame_pushes max headers = Some pushes /\
    concat pushes = names_and_values headers /\
    Forall (fun argv => (0 < length argv <= 2 * max)%nat) pushes /\
    length pushes = ((length headers + max - 1) / max)%nat.
Proof.
  intros Hmax.
  destruct (HandleHeadersFrame_loop_spec max Hmax (length headers) headers [])
    as (more & E & H); [done |].
  exists more. by split.
Qed.

End HeadersFrame.

(** ** The allocator that the session hands to nghttp2 *)

Section Allocator.
Variable MultiplyWithOverflowCheck : Z -> Z -> option Z.

Lemma tracked_bytes_empty : tracked_bytes ∅ = 0.
Proof. unfold tracked_bytes. by rewrite map_fold_empty. Qed.

Lemma tracked_bytes_insert q tracked bs :
  bs !! q = None -> tracked_bytes (<[q := tracked]> bs) = tracked + tracked_bytes bs.
Proof.
  intros H. unfold tracked_bytes. rewrite map_fold_insert_L; [done | | done].
  intros. lia.
Qed.

Lemma tracked_bytes_delete o tracked bs :
  bs !! o = Some tracked -> tracked_bytes bs = tracked + tracked_bytes (delete o bs).
Proof.
  intros H. unfold tracked_bytes. rewrite (map_fold_delete_L _ _ o tracked); [done | | done].
  intros. lia.
Qed.

Lemma tracked_bytes_nonneg bs :
  map_Forall (fun _ tracked => 0 <= tracked) bs -> 0 <= tracked_bytes bs.
Proof.
  unfold tracked_bytes. apply (map_fold_weak_ind (fun r bs' =>
    map_Forall (fun _ tracked => 0 <= tracked) bs' -> 0 <= r)); [done |].
  intros i x m r Hi IH Hall.
  apply map_Forall_insert in Hall as [Hx Hall]; [| done].
  specialize (IH Hall). lia.
Qed.

Lemma mod_size_t_small (n : Z) : 0 <= n < size_t_max -> n mod size_t_max = n.
Proof. apply Z.mod_small. Qed.

Lemma size_t_add_sub (current a b : Z) :
  0 <= current + a - b < size_t_max ->
  (current + (a - b) mod size_t_max) mod size_t_max = current + a - b.
Proof.
  intros H. rewrite Z.add_mod_idemp_r by (unfold size_t_max; lia).
  rewrite <- (mod_size_t_small _ H). f_equal. lia.
Qed.

Lemma accounted_stored_le m o tracked :
  accounted m -> blocks m !! o = Some tracked ->
  0 <= tracked <= current_nghttp2_memory_ m /\
  tracked_bytes (blocks m) = tracked + tracked_bytes (delete o (blocks m)) /\
  0 <= tracked_bytes (delete o (blocks m)).
Proof.
  intros (Hc & Hall & Hlt) Ho.
  pose proof (tracked_bytes_delete _ _ _ Ho) as Hd.
  assert (Hrest : 0 <= tracked_bytes (delete o (blocks m))).
  { apply tracked_bytes_nonneg. intros j x Hj.
    apply lookup_delete_Some in Hj as [_ Hj]. by apply (Hall j). }
  pose proof (Hall o tracked Ho) as H0. cbn in H0. lia.
Qed.

Lemma map_Forall_delete_nonneg o (bs : gmap Z Z) :
  map_Forall (fun _ tracked => 0 <= tracked) bs ->
  map_Forall (fun _ tracked => 0 <= tracked) (delete o bs).
Proof. intros Hall j x Hj. apply lookup_delete_Some in Hj as [_ Hj]. by apply (Hall j). Qed.

Lemma H2Realloc_accounted answer ptr size m :
  accounted m ->
  valid_request answer ptr size m ->
  exists r m',
    H2Realloc answer ptr size m = mem_ok r m' /\
    (size = 0 -> r = None) /\
    accounted m'.
Proof.
  intros Hacc (Hs0 & Hs1 & Hp & Ha).
  pose proof Hacc as (Hc & Hall & Hlt).
  pose proof (tracked_bytes_nonneg _ Hall) as Hnn.
  unfold H2Realloc, UncheckedRealloc, valid_pointer, sizeof_size_t in *.
  set (size' := if 0 <? size then (size + 8) mod size_t_max else size).
  assert (Hsize' : size' = if size =? 0 then 0 else size + 8).
  { subst size'. destruct (Z.ltb_spec 0 size), (Z.eqb_spec size 0); try lia.
    apply mod_size_t_small. lia. }
  clearbody size'.
  destruct ptr as [p |]; cbn [fmap option_fmap option_map].
  - destruct Hp as [previous_size Ho]. rewrite Ho.
    destruct (accounted_stored_le m _ _ Hacc Ho) as (Hprev & Hsum & Hrest).
    rewrite bool_decide_true by done. cbn [andb].
    destruct (Z.eqb_spec previous_size 0) as [-> | Hne].
    + (* the block is not tracked any more *)
      destruct (Z.eqb_spec size' 0) as [Hz | Hz].
      * eexists _, _. split; [reflexivity |].
           split; [intros H0; first [reflexivity | exfalso; rewrite H0 in Hsize'; cbn in Hsize'; lia] |]. repeat split; cbn.
        -- lia.
        -- by apply map_Forall_delete_nonneg.
        -- lia.
      * destruct answer as [[q w] |].
        -- destruct Ha as [Hq Hfits]. cbn.
           eexists _, _. split; [reflexivity |].
           split; [intros H0; first [reflexivity | exfalso; rewrite H0 in Hsize'; cbn in Hsize'; lia] |]. repeat split; cbn.
           ++ rewrite tracked_bytes_insert by done. lia.
           ++ apply map_Forall_insert; [done |]. split; [done |].
              by apply map_Forall_delete_nonneg.
           ++ rewrite tracked_bytes_insert by done. lia.
        -- eexists _, _. split; [reflexivity |].
           split; [intros H0; first [reflexivity | exfalso; rewrite H0 in Hsize'; cbn in Hsize'; lia] |]. done.
    + assert (Hchk : (previous_size <=? current_nghttp2_memory_ m) = true).
      { apply Z.leb_le. lia. }
      rewrite Hchk. cbn [negb].
      destruct (Z.eqb_spec size' 0) as [Hz | Hz].
      * cbn.
        eexists _, _. split; [reflexivity |].
           split; [intros H0; first [reflexivity | exfalso; rewrite H0 in Hsize'; cbn in Hsize'; lia] |]. repeat split; cbn.
        -- rewrite mod_size_t_small by lia. lia.
        -- by apply map_Forall_delete_nonneg.
        -- lia.
      * destruct answer as [[q w] |].
        -- destruct Ha as [Hq Hfits]. cbn.
           assert (Hsz : size' = size + 8) by (destruct (Z.eqb_spec size 0); lia).
           rewrite insert_insert_eq.
           eexists _, _. split; [reflexivity |].
           split; [intros H0; first [reflexivity | exfalso; rewrite H0 in Hsize'; cbn in Hsize'; lia] |]. repeat split; cbn.
           ++ rewrite tracked_bytes_insert by done.
              replace (current_nghttp2_memory_ m + (size' - previous_size) mod size_t_max)
                with (current_nghttp2_memory_ m + (size' - previous_size) mod size_t_max)
                by done.
              rewrite size_t_add_sub by lia. lia.
           ++ apply map_Forall_insert; [done |]. split; [lia |].
              by apply map_Forall_delete_nonneg.
           ++ rewrite tracked_bytes_insert by done. lia.
        -- destruct (Z.eqb_spec size' 0); [done |].
           eexists _, _. split; [reflexivity |].
           split; [intros H0; first [reflexivity | exfalso; rewrite H0 in Hsize'; cbn in Hsize'; lia] |]. done.
  - assert (Hchk : (0 <=? current_nghttp2_memory_ m) = true) by (apply Z.leb_le; lia).
    rewrite Hchk. cbn [negb andb].
    rewrite bool_decide_false by (by intros [? ?]). cbn [andb].
    destruct (Z.eqb_spec size' 0) as [Hz | Hz].
    + cbn.
      eexists _, _. split; [reflexivity |].
           split; [intros H0; first [reflexivity | exfalso; rewrite H0 in Hsize'; cbn in Hsize'; lia] |]. repeat split; cbn; [| done | done].
      rewrite Z.sub_0_r, mod_size_t_small by lia. done.
    + destruct answer as [[q w] |].
      * destruct Ha as [Hq Hfits]. cbn.
        assert (Hsz : size' = size + 8) by (destruct (Z.eqb_spec size 0); lia).
        rewrite insert_insert_eq.
        eexists _, _. split; [reflexivity |].
           split; [intros H0; first [reflexivity | exfalso; rewrite H0 in Hsize'; cbn in Hsize'; lia] |]. repeat split; cbn.
        -- rewrite tracked_bytes_insert by done.
           rewrite size_t_add_sub by lia. lia.
        -- apply map_Forall_insert; [done |]. split; [lia | done].
        -- rewrite tracked_bytes_insert by done. lia.
      * destruct (Z.eqb_spec size' 0); [done |].
        eexists _, _. split; [reflexivity |].
           split; [intros H0; first [reflexivity | exfalso; rewrite H0 in Hsize'; cbn in Hsize'; lia] |]. done.
Qed.

Lemma H2Free_accounted ptr m :
  accounted m -> valid_pointer ptr m ->
  exists m', H2Free ptr m = mem_ok tt m' /\ accounted m'.
Proof.
  intros Hacc Hp. destruct ptr as [p |]; [| by exists m].
  destruct (H2Realloc_accounted None (Some p) 0 m Hacc) as (r & m' & E & Hr & Hacc').
  { unfold valid_request, sizeof_size_t, size_t_max. repeat split; (done || lia). }
  unfold H2Free. rewrite E, Hr by done. by exists m'.
Qed.

Lemma StopTracking_accounted ptr m :
  accounted m -> valid_pointer (Some ptr) m ->
  exists m', StopTracking ptr m = mem_ok tt m' /\ accounted m'.
Proof.
  intros Hacc [tracked Ho]. unfold StopTracking. rewrite Ho.
  destruct (accounted_stored_le m _ _ Hacc Ho) as (Hprev & Hsum & Hrest).
  destruct Hacc as (Hc & Hall & Hlt).
  eexists. split; [reflexivity |].
  assert (E : tracked_bytes (<[ptr - sizeof_size_t := 0]> (blocks m)) =
              tracked_bytes (delete (ptr - sizeof_size_t) (blocks m))).
  { rewrite <- insert_delete_eq, tracked_bytes_insert by apply lookup_delete_eq. lia. }
  repeat split; cbn.
  - rewrite E, mod_size_t_small by lia. lia.
  - apply map_Forall_insert_2; [done | done].
  - rewrite E. lia.
Qed.

Lemma run_op_accounted op m :
  accounted m -> valid_op MultiplyWithOverflowCheck op m ->
  exists m', run_op MultiplyWithOverflowCheck op m = mem_ok tt m' /\ accounted m'.
Proof.
  intros Hacc Hv. destruct op as [answer size | answer nmemb size | answer ptr size
                                  | ptr | ptr]; cbn [run_op valid_op] in *.
  - destruct (H2Realloc_accounted answer None size m Hacc Hv) as (r & m' & E & _ & H).
    unfold H2Malloc. rewrite E. by exists m'.
  - destruct Hv as (real_size & Er & Hv).
    destruct (H2Realloc_accounted answer None real_size m Hacc Hv) as (r & m' & E & _ & H).
    unfold H2Calloc, H2Malloc. rewrite Er, E. by exists m'.
  - destruct (H2Realloc_accounted answer ptr size m Hacc Hv) as (r & m' & E & _ & H).
    rewrite E. by exists m'.
  - by apply H2Free_accounted.
  - by apply StopTracking_accounted.
Qed.

(** X14. The counter [current_nghttp2_memory_] is the sum of the sizes
    that are stored in the blocks which the allocator has handed out and
    not freed, and that it still tracks.  This holds after every sequence
    of calls of H2Malloc, H2Calloc, H2Realloc, H2Free and StopTracking in
    which the pointers are ones that the allocator handed out, and no CHECK
    of the allocator fails on the way.  So when every block has been freed,
    the counter is 0, as the destructor of the session checks. *)
Theorem allocator_accounts_for_every_block (ops : list mem_op) (m : Http2Memory) :
  accounted m ->
  valid_ops MultiplyWithOverflowCheck ops m ->
  exists m',
    run_ops MultiplyWithOverflowCheck ops m = mem_ok tt m' /\
    current_nghttp2_memory_ m' = tracked_bytes (blocks m') /\
    (blocks m' = ∅ -> current_nghttp2_memory_ m' = 0).
Proof.
  revert m. induction ops as [| op ops IH]; intros m Hacc Hv.
  - exists m. destruct Hacc as (Hc & _). split; [done |]. split; [done |].
    intros He. by rewrite Hc, He, tracked_bytes_empty.
  - destruct Hv as [Hop Hrest].
    destruct (run_op_accounted op m Hacc Hop) as (m1 & E & Hacc1).
    cbn [run_ops]. rewrite E. apply IH; [done |]. by apply Hrest.
Qed.

Lemma accounted_range m :
  accounted m -> 0 <= current_nghttp2_memory_ m < size_t_max.
Proof.
  intros (Hc & Hall & Hlt). pose proof (tracked_bytes_nonneg _ Hall). lia.
Qed.

(** X15. H2Malloc of [size > 0] bytes that succeeds returns the address
    behind the stored size and adds [size + sizeof(size_t)] to the counter;
    H2Free of that pointer takes the same amount off again and leaves the
    blocks as they were.  After StopTracking of the pointer the counter is
    back already, and H2Free of the pointer does not take the amount off a
    second time.  H2Malloc that fails, and H2Malloc of 0 bytes, return
    nullptr and change nothing. *)
Theorem H2Malloc_then_H2Free (m : Http2Memory) (size q word : Z) :
  accounted m ->
  0 < size ->
  size + sizeof_size_t < size_t_max ->
  blocks m !! q = None ->
  tracked_bytes (blocks m) + size + sizeof_size_t < size_t_max ->
  H2Malloc None size m = mem_ok None m /\
  H2Malloc (Some (q, word)) 0 m = mem_ok None m /\
  exists m1,
    H2Malloc (Some (q, word)) size m = mem_ok (Some (q + sizeof_size_t)) m1 /\
    current_nghttp2_memory_ m1 = current_nghttp2_memory_ m + size + sizeof_size_t /\
    blocks m1 !! q = Some (size + sizeof_size_t) /\
    (exists m2,
       H2Free (Some (q + sizeof_size_t)) m1 = mem_ok tt m2 /\
       current_nghttp2_memory_ m2 = current_nghttp2_memory_ m /\
       blocks m2 = blocks m) /\
    (exists m3 m4,
       StopTracking (q + sizeof_size_t) m1 = mem_ok tt m3 /\
       current_nghttp2_memory_ m3 = current_nghttp2_memory_ m /\
       H2Free (Some (q + sizeof_size_t)) m3 = mem_ok tt m4 /\
       current_nghttp2_memory_ m4 = current_nghttp2_memory_ m /\
       blocks m4 = blocks m).
Proof.
  intros Hacc Hs Hw Hq Hfits.
  pose proof (accounted_range m Hacc) as Hr.
  pose proof Hacc as (Hc & _ & _).
  unfold sizeof_size_t in *.
  assert (Hchk : (0 <=? current_nghttp2_memory_ m) = true) by (apply Z.leb_le; lia).
  assert (Hpos : (0 <? size) = true) by (apply Z.ltb_lt; lia).
  assert (Hmod : (size + 8) mod size_t_max = size + 8) by (apply mod_size_t_small; lia).
  assert (Hnz : (size + 8 =? 0) = false) by (apply Z.eqb_neq; lia).
  split; [| split].
  { unfold H2Malloc, H2Realloc, UncheckedRealloc, sizeof_size_t. cbn.
    rewrite Hchk, Hpos, Hmod, Hnz. cbn. by destruct m. }
  { unfold H2Malloc, H2Realloc, UncheckedRealloc, sizeof_size_t. cbn.
    rewrite Hchk. cbn. rewrite Z.sub_0_r, mod_size_t_small by done. by destruct m. }
  exists {| current_nghttp2_memory_ := current_nghttp2_memory_ m + size + 8;
            blocks := <[q := size + 8]> (blocks m) |}.
  split.
  { unfold H2Malloc, H2Realloc, UncheckedRealloc, sizeof_size_t. cbn.
    rewrite Hchk, Hpos, Hmod, Hnz. cbn. rewrite insert_insert_eq.
    f_equal. f_equal. rewrite size_t_add_sub by lia. lia. }
  cbn [current_nghttp2_memory_ blocks].
  split; [reflexivity |].
  split; [apply lookup_insert_eq |].
  split.
  - eexists. split.
    { unfold H2Free, H2Realloc, UncheckedRealloc, sizeof_size_t. cbn.
      rewrite Z.add_simpl_r, lookup_insert_eq. cbn.
      rewrite ?bool_decide_true by done. cbn. rewrite Hnz. cbn.
      assert (Hle : (size + 8 <=? current_nghttp2_memory_ m + size + 8) = true)
        by (apply Z.leb_le; lia).
      rewrite Hle. cbn. reflexivity. }
    cbn. split; [rewrite mod_size_t_small by lia; lia |].
    rewrite delete_insert_eq. by apply delete_id.
  - eexists _, _. split.
    { unfold StopTracking, sizeof_size_t. cbn.
      rewrite Z.add_simpl_r, lookup_insert_eq. reflexivity. }
    cbn. split; [rewrite mod_size_t_small by lia; lia |].
    split.
    { unfold H2Free, H2Realloc, UncheckedRealloc, sizeof_size_t. cbn.
      rewrite Z.add_simpl_r, lookup_insert_eq. cbn.
      rewrite ?bool_decide_true by done. cbn. reflexivity. }
    cbn. split; [rewrite mod_size_t_small by lia; lia |].
    rewrite delete_insert_eq, delete_insert_eq. by apply delete_id.
Qed.

End Allocator.

(** ** Destroy and Close, called again *)

Section Again.
Context {C T : Type} {codec : Nghttp2 C} {transport : StreamResource T}.
Context {header : Http2Header}.

Local Abbreviation fp := (@fp C T _).

Lemma Destroy_again (w w1 : World C T) id :
  Destroy id w = Ok (tt, w1) -> Destroy id w1 = Ok (tt, w1).
Proof.
  intros E.
  destruct (streams_ (session w) !! id) as [st |] eqn:Hst.
  2: { unfold Destroy in E. revert E. run. by rewrite Hst. }
  destruct (IsDestroyed st) eqn:Hd.
  - assert (w1 = w) as ->.
    { unfold Destroy in E. revert E. run. rewrite Hst. cbn. rewrite Hd. congruence. }
    exact E.
  - pose proof (wp_Destroy w id st Hst Hd) as H.
    apply (wp_Ok _ _ _ _ _ H) in E as [(st' & Hst' & Hd') _].
    unfold Destroy. run. rewrite Hst'. cbn. by rewrite Hd'.
Qed.

Lemma Close_pings_CLOSING (n : nat) : forall (w : World C T),
  wp (Close_pings n)
     (fun _ w' => SESSION_STATE_CLOSING (session w') = SESSION_STATE_CLOSING (session w)) w.
Proof.
  induction n as [| n IH]; intros w; [done |].
  cbn [Close_pings]. apply wp_bind, wp_this.
  destruct (outstanding_pings_ (session w)) as [| ping rest] eqn:E; [done |].
  cbn [length Nat.eqb]. unfold PopPing.
  apply wp_bind, wp_bind, wp_this. rewrite E.
  apply wp_bind, wp_update, wp_bind, wp_update, wp_ret.
  apply wp_bind. unfold wp at 1, SetImmediate.
  eapply wp_mono; [apply IH |]. intros u w' H. exact H.
Qed.

Lemma wp_Close_CLOSING code socket_closed (w : World C T) :
  wp (Close code socket_closed)
     (fun _ w' => SESSION_STATE_CLOSING (session w') = true) w.
Proof.
  unfold Close. apply wp_bind, wp_this.
  destruct (SESSION_STATE_CLOSING (session w)) eqn:Ec; [by apply wp_ret |].
  apply wp_bind, wp_update. apply wp_bind.
  eapply wp_mono; [apply fp_when, fp_stream_ReadStop |].
  intros u1 w1 H1. apply flushed_stream_reset in H1 as (H1 & _). cbn in H1.
  apply wp_bind.
  apply wp_mono with (Q := fun _ w2 => SESSION_STATE_CLOSING (session w2) = true).
  { destruct socket_closed; cbn [negb].
    - destruct (stream_ (session w)); unfold wp; cbn; done.
    - apply wp_bind. unfold wp at 1, call.
      destruct (nghttp2_submit _ (nghttp2 w1)) as [r c'].
      apply wp_bind, wp_CHECK. intros _. apply wp_bind.
      eapply wp_mono; [apply dp_SendPendingData |].
      intros r' w3 H3. apply wp_ret.
      apply drained_CLOSING in H3. cbn in H3. congruence. }
  intros u2 w2 H2. cbv beta in H2. apply wp_bind, wp_update. apply wp_bind, wp_this. apply wp_bind.
  eapply wp_mono; [apply Close_pings_CLOSING |].
  intros u3 w3 H3. cbn in H3.
  unfold wp, Http2Session_EmitStatistics. run.
  destruct (http2_observer w3); cbn; congruence.
Qed.

Lemma Close_again (w w1 : World C T) code socket_closed code' socket_closed' :
  Close code socket_closed w = Ok (tt, w1) ->
  Close code' socket_closed' w1 = Ok (tt, w1).
Proof.
  intros E.
  pose proof (wp_Ok _ _ _ _ _ (wp_Close_CLOSING code socket_closed w) E) as H.
  unfold Close. run. by rewrite H.
Qed.

(** X16. Destroy and Close are idempotent.  A second Destroy of a stream
    right after the first changes nothing: the stream is not flushed,
    marked or scheduled for deletion a second time.  A second Close of the
    session, whatever its arguments, changes nothing either: no second
    GOAWAY is submitted and the i/o stream is not touched again.  (If the
    first call aborts, so does the sequence.) *)
Theorem Destroy_and_Close_are_idempotent (w : World C T) :
  (forall id, (Destroy id ;; Destroy id) w = Destroy id w) /\
  (forall code socket_closed code' socket_closed',
     (Close code socket_closed ;; Close code' socket_closed') w =
       Close code socket_closed w).
Proof.
  split.
  - intros id. unfold bind at 1.
    destruct (Destroy id w) as [[[] w1] | |] eqn:E; [| done | done].
    by apply Destroy_again in E.
  - intros code socket_closed code' socket_closed'. unfold bind at 1.
    destruct (Close code socket_closed w) as [[[] w1] | |] eqn:E; [| done | done].
    by apply (Close_again _ _ _ _ code' socket_closed') in E.
Qed.

End Again.

(** ** The life of a stream *)

Section Life.
Context {C T : Type} {codec : Nghttp2 C} {transport : StreamResource T}.
Context {header : Http2Header}.
Variable onstreamclose : Z -> Z -> @M C T unit.

(** The stream [id] is in the table, was added to the world [w0], and
    holds references for its headers. *)
Record alive (id : Z) (w0 w : World C T) (st : Http2Stream) : Prop := {
  alive_streams : streams_ (session w) = <[id := st]> (streams_ (session w0));
  alive_id : id_ st = id;
  alive_destroyed : IsDestroyed st = false;
  alive_queue : queue_ st = [];
  alive_memory : current_session_memory_ (session w) =
                 current_session_memory_ (session w0) + sizeof_Http2Stream;
  alive_pending : pending_rst_streams_ (session w) = pending_rst_streams_ (session w0);
  alive_outgoing : outgoing_buffers_ (session w) = outgoing_buffers_ (session w0);
  alive_immediates : immediates w = immediates w0;
  alive_observer : http2_observer w = http2_observer w0;
  alive_refs : forall k, rcbuf_count w k = (rcbuf_count w0 k + held k (current_headers_ st))%N;
}.

Lemma OnBeginHeadersCallback_alive (w0 : World C T) id category :
  streams_ (session w0) !! id = None ->
  (N.of_nat (size (streams_ (session w0))) <? stream_limit w0)%N
    && IsAvailableSessionMemory (session w0) sizeof_Http2Stream = true ->
  exists w1 st1,
    OnBeginHeadersCallback id category w0 = Ok (0, w1) /\ alive id w0 w1 st1.
Proof.
  intros Hnone Hcan.
  unfold OnBeginHeadersCallback. run. rewrite Hnone. cbv beta iota.
  rewrite CanAddStream_eq, Hcan. cbn.
  unfold new_Http2Stream, AddStream. run. cbn.
  eexists _, _. split; [reflexivity |].
  split; cbn; try done.
  intros k. unfold rcbuf_count. cbn. lia.
Qed.

Lemma held_snoc k hs h :
  held k (hs ++ [h]) =
    (held k hs + (if (rcbuf_id (name h) =? k)%nat then 1 else 0)
     + (if (rcbuf_id (value h) =? k)%nat then 1 else 0))%N.
Proof. induction hs as [| h' hs IH]; cbn; [lia |]. rewrite IH. lia. Qed.

Lemma AddHeader_alive (w0 w : World C T) id st name value flags :
  alive id w0 w st ->
  exists b w' st',
    AddHeader id name value flags w = Ok (b, w') /\ alive id w0 w' st'.
Proof.
  intros [Hs Hid Hd Hq Hm Hp Ho Hi Hob Hr].
  assert (Hst : streams_ (session w) !! id = Some st).
  { rewrite Hs. apply lookup_insert_eq. }
  destruct (AddHeader_refuses (session w) st name value) eqn:Eref.
  - exists false, w, st. split; [by apply (AddHeader_refused w id st) |]. by split.
  - unfold AddHeader_refuses in Eref.
    unfold AddHeader. run. rewrite Hst. cbn. rewrite Hd. cbn. rewrite Eref.
    unfold nghttp2_rcbuf_incref. cbn.
    eexists true, _, (with_header id st name value flags). split; [reflexivity |].
    split; cbn; try done.
    + by rewrite Hs, insert_insert_eq.
    + intros k. unfold rcbuf_count in *. cbn. rewrite held_snoc. cbn.
      specialize (Hr k).
      generalize (rcbuf_id name) (rcbuf_id value). intros a b.
      destruct (Nat.eqb_spec a k) as [En | En],
               (Nat.eqb_spec b k) as [Ev | Ev]; subst;
        rewrite ?lookup_insert_eq, ?lookup_insert_ne by done; cbn;
        rewrite ?lookup_insert_eq, ?lookup_insert_ne by done; cbn; lia.
Qed.

Lemma AddHeaders_alive pairs : forall (w0 w : World C T) id st,
  alive id w0 w st ->
  exists rs w' st',
    AddHeaders id pairs w = Ok (rs, w') /\ alive id w0 w' st'.
Proof.
  induction pairs as [| [[name value] flags] pairs IH]; intros w0 w id st Ha.
  - by exists [], w, st.
  - cbn [AddHeaders].
    destruct (AddHeader_alive w0 w id st name value flags Ha) as (b & w1 & st1 & E1 & Ha1).
    destruct (IH w0 w1 id st1 Ha1) as (rs & w2 & st2 & E2 & Ha2).
    exists (b :: rs), w2, st2. split; [| done].
    unfold bind. by rewrite E1, E2.
Qed.

Lemma OnStreamClose_alive (w0 w : World C T) id st code :
  alive id w0 w st ->
  HasPendingRstStream (session w0) id = false ->
  exists w3 st3 d,
    OnStreamClose onstreamclose false id code w = Ok (0, w3) /\
    streams_ (session w3) = <[id := st3]> (streams_ (session w0)) /\
    id_ st3 = id /\ queue_ st3 = [] /\
    current_headers_ st3 = current_headers_ st /\
    current_session_memory_ (session w3) = current_session_memory_ (session w) /\
    outgoing_buffers_ (session w3) = outgoing_buffers_ (session w) /\
    immediates w3 = immediates w ++ [ImmStreamDestroy id] ++ d /\
    Forall (eq (ImmStreamStatistics id)) d /\
    rcbuf_refs w3 = rcbuf_refs w /\
    http2_observer w3 = http2_observer w.
Proof.
  intros [Hs Hid Hd Hq Hm Hp Ho Hi Hob Hr] Hpend.
  assert (Hst : streams_ (session w) !! id = Some st).
  { rewrite Hs. apply lookup_insert_eq. }
  unfold HasPendingRstStream in Hpend. rewrite <- Hp in Hpend.
  unfold OnStreamClose, Http2Stream_Close, Destroy, Http2Stream_EmitStatistics. run.
  rewrite Hst. cbn. rewrite Hd. cbn. rewrite Hst. cbn. rewrite Hd. cbn.
  rewrite lookup_insert_eq. cbn. unfold IsDestroyed in Hd. rewrite Hd. cbn.
  unfold HasPendingRstStream. cbn. rewrite Hpend. cbn.
  rewrite lookup_insert_eq. cbn.
  destruct (http2_observer w) eqn:Eob; cbn.
  - eexists _, _, [ImmStreamStatistics id]. split; [reflexivity |]. cbn.
    rewrite Hs, !insert_insert_eq, <- app_assoc.
    repeat split; try done. by repeat constructor.
  - eexists _, _, []. split; [reflexivity |]. cbn.
    rewrite Hs, !insert_insert_eq.
    repeat split; try done.
Qed.

Lemma release_headers hs : forall (w : World C T) (base : nat -> N),
  (forall k, rcbuf_count w k = (base k + held k hs)%N) ->
  exists refs,
    for_each hs release_header w = Ok (tt, set_rcbuf_refs refs w) /\
    forall k, default 0%N (refs !! k) = base k.
Proof.
  induction hs as [| h hs IH]; intros w base Hr.
  - exists (rcbuf_refs w). split; [by destruct w |].
    intros k. specialize (Hr k). unfold rcbuf_count in Hr. cbn in Hr. lia.
  - cbn [for_each]. unfold release_header at 1, nghttp2_rcbuf_decref. run. cbn.
    match goal with |- context [for_each hs release_header ?w1] =>
      destruct (IH w1 base) as (refs & E & Hrefs)
    end.
    { intros k. specialize (Hr k). unfold rcbuf_count in *. cbn in *.
      revert Hr. generalize (rcbuf_id (name h)) (rcbuf_id (value h)). intros a b Hr.
      destruct (Nat.eqb_spec a k) as [En | En],
               (Nat.eqb_spec b k) as [Ev | Ev]; subst;
        rewrite ?lookup_insert_eq, ?lookup_insert_ne by done; cbn;
        rewrite ?lookup_insert_eq, ?lookup_insert_ne by done; cbn; lia. }
    exists refs. by rewrite E.
Qed.

Lemma statistics_tasks id d :
  Forall (eq (ImmStreamStatistics id)) d ->
  forall w5 : World C T,
    exists js, for_each d run_immediate w5 = Ok (tt, set_js_calls js w5).
Proof.
  induction 1 as [| i d <- Hd IH]; intros w5.
  - exists (js_calls w5). by destruct w5.
  - cbn [for_each run_immediate]. unfold HasHttp2Observer. run.
    destruct (http2_observer w5); cbn.
    + match goal with |- context [for_each d run_immediate ?w6] =>
        destruct (IH w6) as (js & E)
      end.
      exists js. by rewrite E.
    + apply IH.
Qed.

(** X17. A stream that the peer opens and that is closed before it is
    handed to JavaScript leaves no trace.  After the headers of the stream
    have arrived (whichever of them were accepted), the codec has closed
    the stream and the event loop has taken its next turn, the stream table
    and the memory counter of the session are what they were before the
    stream was opened, and every header buffer has as many references as it
    had then.  (No write of an earlier stream with the same id is on the
    socket, and no reset is pending for that id.) *)
Theorem stream_life_leaves_no_trace (w : World C T) id category pairs code :
  streams_ (session w) !! id = None ->
  (N.of_nat (size (streams_ (session w))) <? stream_limit w)%N
    && IsAvailableSessionMemory (session w) sizeof_Http2Stream = true ->
  HasPendingRstStream (session w) id = false ->
  HasWritesOnSocketForStream (session w) id = false ->
  immediates w = [] ->
  exists w',
    stream_life onstreamclose id category pairs code w = Ok (tt, w') /\
    streams_ (session w') = streams_ (session w) /\
    current_session_memory_ (session w') = current_session_memory_ (session w) /\
    (forall k, rcbuf_count w' k = rcbuf_count w k) /\
    immediates w' = [].
Proof.
  intros Hnone Hcan Hpend Hsock Himm.
  destruct (OnBeginHeadersCallback_alive w id category Hnone Hcan) as (w1 & st1 & E1 & Ha1).
  destruct (AddHeaders_alive pairs w w1 id st1 Ha1) as (rs & w2 & st2 & E2 & Ha2).
  destruct (OnStreamClose_alive w w2 id st2 code Ha2 Hpend)
    as (w3 & st3 & d & E3 & Hs3 & Hid3 & Hq3 & Hh3 & Hm3 & Ho3 & Hi3 & Hd3 & Hr3 & Hob3).
  destruct Ha2 as [Hs2 Hid2 Hd2 Hq2 Hm2 Hp2 Ho2 Hi2 Hob2 Hr2].
  unfold stream_life, bind. rewrite E1, E2, E3.
  unfold run_immediates. rewrite Hi3, Hi2, Himm. cbn [app for_each run_immediate].
  assert (Hst3 : streams_ (session w3) !! id = Some st3).
  { rewrite Hs3. apply lookup_insert_eq. }
  unfold HasWritesOnSocketForStream in Hsock. rewrite <- Ho2, <- Ho3 in Hsock.
  unfold Destroy_immediate at 1, delete_stream, RemoveStream.
  run. cbn. rewrite Hst3. cbn. rewrite Hq3. cbn.
  unfold HasWritesOnSocketForStream. cbn. rewrite Hsock. cbn.
  rewrite !lookup_insert_eq. cbn. rewrite Hh3.
  match goal with |- context [for_each (current_headers_ st2) release_header ?w4] =>
    destruct (release_headers (current_headers_ st2) w4 (rcbuf_count w))
      as (refs & E4 & Hrefs)
  end.
  { intros k. unfold rcbuf_count. cbn. rewrite Hr3. apply Hr2. }
  rewrite E4. cbn.
  assert (Hsize : (size (<[id := set_queue [] st3]> (streams_ (session w3))) =? 0)%nat
                  = false).
  { apply Nat.eqb_neq. intros H0. apply map_size_empty_inv in H0.
    apply (f_equal (fun m => m !! id)) in H0.
    by rewrite lookup_insert_eq, lookup_empty in H0. }
  rewrite Hsize. cbn.
  pose proof (statistics_tasks id d Hd3) as Htail.
  match goal with |- context [for_each d run_immediate ?w5] =>
    destruct (Htail w5) as (js & E5)
  end.
  rewrite E5. eexists. split; [reflexivity |]. cbn.
  rewrite Hid3, Hs3, !insert_insert_eq, delete_insert_id by done.
  repeat split; try done.
  rewrite Hm3, Hm2. lia.
Qed.

End Life.

(** ** Inbound data *)

Section InboundProofs.

#[local] Arguments consumed : simpl never.

Variable IsReading : InboundStream -> bool.
Variable nghttp2_session_consume_connection : Z -> Z.
Variable EmitAlloc : Z -> Inbound -> Z -> uv_buf_t.
Variable listener : Z -> Inbound -> Z -> uv_buf_t -> list read_cmd.

Lemma consumed_app id l1 l2 :
  consumed id (l1 ++ l2) = consumed id l1 + consumed id l2.
Proof.
  unfold consumed. induction l1 as [| c l1 IH]; cbn; [done |].
  rewrite IH. destruct (fst c =? id); lia.
Qed.

Lemma consumed_nonneg id l :
  Forall (fun c => 0 <= snd c) l -> 0 <= consumed id l.
Proof.
  unfold consumed. induction 1 as [| c l Hc _ IH]; cbn; [done |].
  destruct (fst c =? id); lia.
Qed.

(** What the calls of a listener leave as it is. *)
Record kept (s s' : Inbound) : Prop := {
  kept_live : forall id, live s' id = live s id;
  kept_credit : forall id, credit id s' = credit id s;
  kept_received : forall id, received id s' = received id s;
  kept_connection : consume_connection_calls s' = consume_connection_calls s;
  kept_reads : read_calls s' = read_calls s;
  kept_ok : inbound_ok s -> inbound_ok s';
}.

Lemma kept_refl s : kept s s.
Proof. by constructor. Qed.

Lemma kept_trans s1 s2 s3 : kept s1 s2 -> kept s2 s3 -> kept s1 s3.
Proof.
  intros [A1 A2 A3 A4 A5 A6] [B1 B2 B3 B4 B5 B6].
  constructor; intros; [rewrite B1 | rewrite B2 | rewrite B3 | rewrite B4
                       | rewrite B5 | ]; auto.
Qed.

Lemma live_Some s id :
  live s id = true ->
  exists st, in_streams s !! id = Some st /\ in_destroyed st = false.
Proof.
  unfold live. destruct (in_streams s !! id) as [st |]; [| done].
  destruct (in_destroyed st) eqn:E; [done |]. by exists st.
Qed.

Lemma parked_nonneg id s : inbound_ok s -> 0 <= parked id s.
Proof.
  intros [Hp _]. unfold parked.
  destruct (in_streams s !! id) as [st |] eqn:E; [| done].
  exact (Hp id st E).
Qed.

Lemma parked_le_credit id s : inbound_ok s -> 0 <= parked id s <= credit id s.
Proof.
  intros Hok. pose proof (parked_nonneg id s Hok).
  destruct Hok as [_ Hc]. pose proof (consumed_nonneg id _ Hc).
  unfold credit. lia.
Qed.

Lemma ReadStart_kept id s :
  live s id = true ->
  exists s', ReadStart id s = Ok (0, s') /\ kept s s' /\ parked id s' = 0 /\
             consumed id (consume_stream_calls s') = credit id s.
Proof.
  intros Hl. destruct (live_Some _ _ Hl) as (st & E & Hd).
  unfold ReadStart. rewrite E, Hd. eexists. split; [reflexivity |].
  split; [constructor | split].
  - intros id'. unfold live. cbn.
    destruct (decide (id' = id)) as [-> | Hne].
    + by rewrite lookup_insert_eq, E, Hd.
    + by rewrite lookup_insert_ne.
  - intros id'. unfold credit, parked. cbn. rewrite consumed_app. cbn.
    destruct (decide (id' = id)) as [-> | Hne].
    + rewrite lookup_insert_eq, E. unfold consumed at 2. cbn.
      rewrite Z.eqb_refl. lia.
    + rewrite lookup_insert_ne by done. unfold consumed at 2. cbn.
      destruct (Z.eqb_spec id id'); [congruence | lia].
  - intros id'. unfold received. cbn.
    destruct (decide (id' = id)) as [-> | Hne].
    + by rewrite lookup_insert_eq, E.
    + by rewrite lookup_insert_ne.
  - reflexivity.
  - reflexivity.
  - intros [Hp Hc]. split; cbn.
    + apply map_Forall_insert_2; [cbn; lia | exact Hp].
    + apply Forall_app. split; [exact Hc |]. constructor; [| constructor].
      cbn. exact (Hp id st E).
  - unfold parked. cbn. by rewrite lookup_insert_eq.
  - unfold credit, parked. cbn. rewrite consumed_app, E.
    unfold consumed at 2. cbn. rewrite Z.eqb_refl. lia.
Qed.

Lemma ReadStop_kept id s :
  live s id = true ->
  exists s', ReadStop IsReading id s = Ok (0, s') /\ kept s s'.
Proof.
  intros Hl. destruct (live_Some _ _ Hl) as (st & E & Hd).
  unfold ReadStop. rewrite E, Hd.
  destruct (IsReading st); cbn; [| exists s; split; [reflexivity | apply kept_refl]].
  eexists. split; [reflexivity |]. constructor.
  - intros id'. unfold live. cbn.
    destruct (decide (id' = id)) as [-> | Hne].
    + by rewrite lookup_insert_eq, E, Hd.
    + by rewrite lookup_insert_ne.
  - intros id'. unfold credit, parked. cbn.
    destruct (decide (id' = id)) as [-> | Hne].
    + by rewrite lookup_insert_eq, E.
    + by rewrite lookup_insert_ne.
  - intros id'. unfold received. cbn.
    destruct (decide (id' = id)) as [-> | Hne].
    + by rewrite lookup_insert_eq, E.
    + by rewrite lookup_insert_ne.
  - reflexivity.
  - reflexivity.
  - intros [Hp Hc]. split; cbn; [| exact Hc].
    apply map_Forall_insert_2; [cbn; exact (Hp id st E) | exact Hp].
Qed.

Lemma run_cmds_kept cmds : forall s,
  Forall (fun c => live s (cmd_id c) = true) cmds ->
  exists s', run_cmds IsReading cmds s = Ok s' /\ kept s s'.
Proof.
  induction cmds as [| c cmds IH]; intros s Hall.
  - exists s. split; [reflexivity | apply kept_refl].
  - apply Forall_cons in Hall as [Hc Hall].
    assert (exists s1, run_cmd IsReading c s = Ok (0, s1) /\ kept s s1)
      as (s1 & E1 & K1).
    { destruct c as [id | id]; cbn in *.
      - destruct (ReadStart_kept id s Hc) as (s1 & E & K & _). by exists s1.
      - apply ReadStop_kept, Hc. }
    destruct (IH s1) as (s' & E' & K').
    { eapply Forall_impl; [exact Hall |]. cbn. intros c' H.
      by rewrite (kept_live _ _ K1). }
    exists s'. cbn. rewrite E1. split; [exact E' | by eapply kept_trans].
Qed.

(** The listener hands out buffers that are not empty, and it starts and
    stops the reading of streams that are alive only. *)
Hypothesis EmitAlloc_len : forall id s n,
  0 < Z.of_N (buf_len (EmitAlloc id s n)) < 2 ^ 63.
Hypothesis listener_live : forall id s nread buf,
  live s id = true ->
  Forall (fun c => live s (cmd_id c) = true) (listener id s nread buf).

Lemma two_63_64 : 2 ^ 63 = 9223372036854775808 /\ 2 ^ 64 = 18446744073709551616.
Proof. by split. Qed.

Lemma OnDataChunkReceived_loop_spec id : forall fuel data len s,
  0 < len < 2 ^ 63 -> (Z.to_nat len <= fuel)%nat ->
  live s id = true -> inbound_ok s -> credit id s + len < 2 ^ 64 ->
  exists s' reads,
    OnDataChunkReceived_loop IsReading EmitAlloc listener fuel id data len s =
      Ok (0, s') /\
    read_calls s' = read_calls s ++ reads /\
    contiguous id data reads (data + len) /\
    credit id s' = credit id s + len /\
    (forall id', id' <> id -> credit id' s' = credit id' s) /\
    consume_connection_calls s' = consume_connection_calls s /\
    (forall id', live s' id' = live s id') /\
    (forall id', received id' s' = received id' s) /\
    inbound_ok s'.
Proof.
  destruct two_63_64 as [E63 E64].
  induction fuel as [| fuel IH]; intros data len s Hlen Hfuel Hl Hok Hcr; [lia |].
  cbn [OnDataChunkReceived_loop].
  pose proof (EmitAlloc_len id s len) as Hb.
  set (b := EmitAlloc id s len) in *.
  rewrite (to_ssize_t_small len) by lia.
  rewrite (to_ssize_t_small (Z.of_N (buf_len b))) by lia.
  set (avail := if Z.of_N (buf_len b) <? len then Z.of_N (buf_len b) else len).
  assert (Ha : 0 < avail <= len /\ avail <= Z.of_N (buf_len b)).
  { subst avail. destruct (Z.ltb_spec (Z.of_N (buf_len b)) len); lia. }
  set (buf := match base b with
              | nullptr => uv_buf_init (address data) (buf_len b)
              | _ => b
              end).
  assert (Hbuf : buf_len buf = buf_len b /\ base buf <> nullptr).
  { subst buf. destruct (base b) eqn:Eb; cbn; rewrite ?Eb; done. }
  unfold EmitRead.
  set (s1 := {| in_streams := in_streams s;
                consume_connection_calls := consume_connection_calls s;
                consume_stream_calls := consume_stream_calls s;
                read_calls := read_calls s ++ _ |}).
  destruct (run_cmds_kept (listener id s1 avail buf) s1) as (s1' & E1 & K1).
  { apply listener_live. exact Hl. }
  rewrite E1.
  assert (Hl1 : live s1' id = true) by (rewrite (kept_live _ _ K1); exact Hl).
  destruct (live_Some _ _ Hl1) as (st & Est & Hd).
  rewrite Est.
  assert (Hok1 : inbound_ok s1') by (apply (kept_ok _ _ K1); exact Hok).
  assert (Hcr1 : forall id', credit id' s1' = credit id' s)
    by (intros id'; rewrite (kept_credit _ _ K1); reflexivity).
  assert (Hlv1 : forall id', live s1' id' = live s id')
    by (intros id'; rewrite (kept_live _ _ K1); reflexivity).
  assert (Hrc1 : forall id', received id' s1' = received id' s)
    by (intros id'; rewrite (kept_received _ _ K1); reflexivity).
  set (s2 := if IsReading st then _ else _).
  assert (K2 : credit id s2 = credit id s + avail /\
               (forall id', id' <> id -> credit id' s2 = credit id' s) /\
               consume_connection_calls s2 = consume_connection_calls s /\
               (forall id', live s2 id' = live s id') /\
               (forall id', received id' s2 = received id' s) /\
               read_calls s2 = read_calls s1' /\
               inbound_ok s2).
  { pose proof (parked_le_credit id s1' Hok1) as Hp.
    rewrite Hcr1 in Hp.
    assert (Hpst : parked id s1' = inbound_consumed_data_while_paused_ st)
      by (unfold parked; rewrite Est; reflexivity).
    subst s2. destruct (IsReading st).
    - unfold to_size_t, size_t_max. rewrite Z.mod_small by lia.
      repeat split.
      + unfold credit, parked. cbn. rewrite consumed_app.
        unfold consumed at 2. cbn. rewrite Z.eqb_refl.
        specialize (Hcr1 id). unfold credit, parked in Hcr1. lia.
      + intros id' Hne. unfold credit, parked. cbn. rewrite consumed_app.
        unfold consumed at 2. cbn.
        destruct (Z.eqb_spec id id'); [congruence |].
        specialize (Hcr1 id'). unfold credit, parked in Hcr1. lia.
      + cbn. exact (kept_connection _ _ K1).
      + intros id'. rewrite <- Hlv1. reflexivity.
      + intros id'. rewrite <- Hrc1. reflexivity.
      + destruct Hok1 as [Hp1 _]. exact Hp1.
      + cbn. destruct Hok1 as [_ Hc1]. apply Forall_app. split; [exact Hc1 |].
        constructor; [cbn; lia | constructor].
    - unfold size_t_max. rewrite Z.mod_small by lia.
      repeat split.
      + specialize (Hcr1 id). unfold credit, parked in Hcr1 |- *.
        cbn. rewrite lookup_insert_eq. cbn. rewrite Est in Hcr1. lia.
      + intros id' Hne. unfold credit, parked. cbn.
        rewrite lookup_insert_ne by done. apply Hcr1.
      + cbn. exact (kept_connection _ _ K1).
      + intros id'. rewrite <- Hlv1. unfold live. cbn.
        destruct (decide (id' = id)) as [-> | Hne].
        * by rewrite lookup_insert_eq, Est.
        * by rewrite lookup_insert_ne.
      + intros id'. rewrite <- Hrc1. unfold received. cbn.
        destruct (decide (id' = id)) as [-> | Hne].
        * by rewrite lookup_insert_eq, Est.
        * by rewrite lookup_insert_ne.
      + cbn. destruct Hok1 as [Hp1 _].
        apply map_Forall_insert_2; [cbn; lia | exact Hp1].
      + cbn. destruct Hok1 as [_ Hc1]. exact Hc1. }
  clearbody s2.
  destruct K2 as (C1 & C2 & C3 & C4 & C5 & C6 & C7).
  assert (Hr : read_calls s2 = read_calls s ++
                 [{| read_stream := id; read_nread := avail;
                     read_buf := buf; read_data := data |}]).
  { rewrite C6, (kept_reads _ _ K1). reflexivity. }
  unfold size_t_max. rewrite (Z.mod_small (len - avail)) by lia.
  destruct (Z.eqb_spec (len - avail) 0) as [Hz | Hnz].
  - exists s2, [{| read_stream := id; read_nread := avail;
                   read_buf := buf; read_data := data |}].
    split; [reflexivity |]. split; [exact Hr |].
    split; [cbn; destruct Hbuf as [-> Hnn]; repeat split; try lia; exact Hnn |].
    split; [lia |]. done.
  - destruct (IH (data + avail) (len - avail) s2) as (s' & reads & E & R & Ct & D1 & D2 & D3 & D4 & D5 & D6);
      [lia | lia | by rewrite C4 | exact C7 | lia |].
    exists s', ({| read_stream := id; read_nread := avail;
                   read_buf := buf; read_data := data |} :: reads).
    split; [exact E |].
    split; [rewrite R, Hr, <- app_assoc; reflexivity |].
    split.
    { cbn. destruct Hbuf as [-> Hnn]. repeat split; try lia; [exact Hnn |].
      replace (data + len) with (data + avail + (len - avail)) by lia. exact Ct. }
    split; [lia |].
    split; [intros id' Hne; rewrite D2, C2 by done; reflexivity |].
    split; [congruence |].
    split; [intros id'; rewrite D4; apply C4 |].
    split; [intros id'; rewrite D5; apply C5 | exact D6].
Qed.

Lemma OnDataChunkReceived_spec (id data len : Z) (s : Inbound) :
  0 < len < 2 ^ 63 ->
  nghttp2_session_consume_connection len = 0 ->
  live s id = true -> inbound_ok s -> credit id s + len < 2 ^ 64 ->
  exists s' reads,
    OnDataChunkReceived IsReading nghttp2_session_consume_connection EmitAlloc
      listener (Z.to_nat len) id data len s = Ok (0, s') /\
    consume_connection_calls s' = consume_connection_calls s ++ [len] /\
    read_calls s' = read_calls s ++ reads /\
    contiguous id data reads (data + len) /\
    credit id s' = credit id s + len /\
    (forall id', id' <> id -> credit id' s' = credit id' s) /\
    received id s' = (received id s + len) mod 2 ^ 64 /\
    (forall id', live s' id' = live s id') /\
    inbound_ok s'.
Proof.
  intros Hlen Hcc Hl Hok Hcr.
  destruct (live_Some _ _ Hl) as (st & Est & Hd).
  unfold OnDataChunkReceived.
  destruct (Z.ltb_spec 0 len) as [_ | ?]; [| lia].
  rewrite Hcc. cbn [Z.eqb in_streams]. rewrite Est, Hd.
  set (s0 := {| in_streams := _; consume_connection_calls := _;
                consume_stream_calls := _; read_calls := _ |}).
  assert (Hlv0 : forall id', live s0 id' = live s id').
  { intros id'. unfold live. cbn.
    destruct (decide (id' = id)) as [-> | Hne].
    - by rewrite lookup_insert_eq, Est, Hd.
    - by rewrite lookup_insert_ne. }
  assert (Hcr0 : forall id', credit id' s0 = credit id' s).
  { intros id'. unfold credit, parked. cbn.
    destruct (decide (id' = id)) as [-> | Hne].
    - by rewrite lookup_insert_eq, Est.
    - by rewrite lookup_insert_ne. }
  destruct (OnDataChunkReceived_loop_spec id (Z.to_nat len) data len s0)
    as (s' & reads & E & R & Ct & D1 & D2 & D3 & D4 & D5 & D6);
    [lia | lia | by rewrite Hlv0 | | by rewrite Hcr0 |].
  { destruct Hok as [Hp Hc]. split; [| exact Hc]. cbn.
    apply map_Forall_insert_2; [cbn; exact (Hp id st Est) | exact Hp]. }
  exists s', reads. split; [exact E |].
  split; [exact D3 |]. split; [exact R |]. split; [exact Ct |].
  split; [by rewrite D1, Hcr0 |].
  split; [by intros id' Hne; rewrite D2, Hcr0 |].
  split.
  { rewrite D5. unfold received. cbn. by rewrite lookup_insert_eq, Est. }
  split; [intros id'; by rewrite D4, Hlv0 | exact D6].
Qed.

(** X18. A chunk of a DATA frame of [len] bytes for a stream that is alive:
    while the listener hands out buffers that are not empty, and starts and
    stops reading on live streams only, OnDataChunkReceived returns 0 after
    at most [len] rounds.  nghttp2 is told once that the connection has
    consumed [len] bytes; EmitRead hands the bytes of the chunk over in
    their order, each once, and never more at a time than the buffer of the
    listener holds; the bytes that nghttp2 has been told of for the stream,
    together with those that wait for ReadStart, grow by [len], and those of
    every other stream stay as they are. *)
Theorem OnDataChunkReceived_credits_every_byte (id data len : Z) (s : Inbound) :
  0 < len < 2 ^ 63 ->
  nghttp2_session_consume_connection len = 0 ->
  live s id = true -> inbound_ok s -> credit id s + len < 2 ^ 64 ->
  exists s' reads,
    OnDataChunkReceived IsReading nghttp2_session_consume_connection EmitAlloc
      listener (Z.to_nat len) id data len s = Ok (0, s') /\
    consume_connection_calls s' = consume_connection_calls s ++ [len] /\
    read_calls s' = read_calls s ++ reads /\
    contiguous id data reads (data + len) /\
    credit id s' = credit id s + len /\
    (forall id', id' <> id -> credit id' s' = credit id' s) /\
    received id s' = (received id s + len) mod 2 ^ 64 /\
    inbound_ok s'.
Proof.
  intros Hlen Hcc Hl Hok Hcr.
  destruct (OnDataChunkReceived_spec id data len s Hlen Hcc Hl Hok Hcr)
    as (s' & reads & E & H1 & H2 & H3 & H4 & H5 & H6 & _ & H8).
  exists s', reads. done.
Qed.

Lemma chunk_bytes_cons id op ops :
  chunk_bytes id (op :: ops) = chunk_bytes id [op] + chunk_bytes id ops.
Proof.
  unfold chunk_bytes. cbn. destruct op as [id' d len | |]; [| lia | lia].
  destruct (id' =? id); lia.
Qed.

Lemma run_inbound_op_spec op s :
  valid_inbound_op nghttp2_session_consume_connection s op ->
  inbound_ok s ->
  credit (op_id op) s + chunk_bytes (op_id op) [op] < 2 ^ 64 ->
  exists r s',
    run_inbound_op IsReading nghttp2_session_consume_connection EmitAlloc listener op s =
      Ok (r, s') /\
    (forall id, credit id s' = credit id s + chunk_bytes id [op]) /\
    (forall id, live s' id = live s id) /\
    inbound_ok s'.
Proof.
  intros [Hl Hv] Hok Hcr. destruct op as [id data len | id | id]; cbn in Hl.
  - destruct Hv as [Hlen Hcc]. cbn [op_id] in Hcr.
    unfold chunk_bytes in Hcr |- *. cbn in Hcr |- *.
    rewrite Z.eqb_refl in Hcr.
    destruct (Z.eq_dec len 0) as [-> | Hnz].
    + exists 0, s. split; [reflexivity |].
      split; [| done]. intros id'. destruct (id =? id'); lia.
    + destruct (OnDataChunkReceived_spec id data len s)
        as (s' & reads & E & _ & _ & _ & H4 & H5 & _ & H7 & H8);
        [lia | exact Hcc | exact Hl | exact Hok | lia |].
      exists 0, s'. split; [exact E |]. split; [| done].
      intros id'. destruct (Z.eqb_spec id id') as [<- | Hne]; [lia |].
      rewrite H5 by congruence. lia.
  - destruct (ReadStart_kept id s Hl) as (s' & E & K & _).
    exists 0, s'. split; [exact E |].
    split; [intros id'; rewrite (kept_credit _ _ K); unfold chunk_bytes; cbn; lia |].
    split; [apply (kept_live _ _ K) | apply (kept_ok _ _ K), Hok].
  - destruct (ReadStop_kept id s Hl) as (s' & E & K).
    exists 0, s'. split; [exact E |].
    split; [intros id'; rewrite (kept_credit _ _ K); unfold chunk_bytes; cbn; lia |].
    split; [apply (kept_live _ _ K) | apply (kept_ok _ _ K), Hok].
Qed.

Lemma valid_inbound_op_live s s' op :
  (forall id, live s' id = live s id) ->
  valid_inbound_op nghttp2_session_consume_connection s op ->
  valid_inbound_op nghttp2_session_consume_connection s' op.
Proof. intros Hl [H1 H2]. split; [by rewrite Hl | exact H2]. Qed.

Lemma chunk_bytes_valid id s ops :
  Forall (valid_inbound_op nghttp2_session_consume_connection s) ops ->
  0 <= chunk_bytes id ops.
Proof.
  induction 1 as [| op ops [_ Hv] _ IH]; [done |].
  rewrite chunk_bytes_cons. unfold chunk_bytes at 1. cbn.
  destruct op as [id' d len | |]; [| lia | lia].
  destruct (id' =? id); lia.
Qed.

Lemma run_inbound_ops_spec ops : forall s,
  inbound_ok s ->
  Forall (valid_inbound_op nghttp2_session_consume_connection s) ops ->
  (forall id, credit id s + chunk_bytes id ops < 2 ^ 64) ->
  exists s',
    run_inbound_ops IsReading nghttp2_session_consume_connection EmitAlloc listener ops s =
      Ok s' /\
    (forall id, credit id s' = credit id s + chunk_bytes id ops) /\
    (forall id, live s' id = live s id) /\
    inbound_ok s'.
Proof.
  induction ops as [| op ops IH]; intros s Hok Hv Hcr.
  - exists s. split; [reflexivity |]. split; [| done].
    intros id. unfold chunk_bytes. cbn. lia.
  - apply Forall_cons in Hv as [Hop Hv].
    pose proof (chunk_bytes_valid (op_id op) s ops Hv) as Hnn.
    destruct (run_inbound_op_spec op s Hop Hok) as (r & s1 & E1 & C1 & L1 & Ok1).
    { specialize (Hcr (op_id op)). rewrite chunk_bytes_cons in Hcr. lia. }
    destruct (IH s1 Ok1) as (s' & E' & C' & L' & Ok').
    { eapply Forall_impl; [exact Hv |]. intros op'.
      apply valid_inbound_op_live, L1. }
    { intros id. specialize (Hcr id). rewrite chunk_bytes_cons in Hcr.
      rewrite C1. lia. }
    exists s'. cbn [run_inbound_ops]. rewrite E1. split; [exact E' |].
    split; [| split; [| exact Ok']].
    + intros id. rewrite C', C1, (chunk_bytes_cons id op ops). lia.
    + intros id. by rewrite L', L1.
Qed.

(** X19. Whatever chunks of DATA frames arrive for streams that are alive,
    and however their owners start and stop reading in between (the
    listener as before): once ReadStart is called on a stream, nghttp2 has
    been told of every byte that arrived for the stream, and none waits any
    more. *)
Theorem ReadStart_reports_every_byte (ops : list inbound_op) (s : Inbound)
    (id : Z) :
  inbound_ok s ->
  Forall (valid_inbound_op nghttp2_session_consume_connection s) ops ->
  (forall id', credit id' s + chunk_bytes id' ops < 2 ^ 64) ->
  live s id = true ->
  exists s' s'',
    run_inbound_ops IsReading nghttp2_session_consume_connection EmitAlloc listener ops s =
      Ok s' /\
    ReadStart id s' = Ok (0, s'') /\
    consumed id (consume_stream_calls s'') = credit id s + chunk_bytes id ops /\
    parked id s'' = 0 /\
    (forall id', id' <> id -> credit id' s'' = credit id' s + chunk_bytes id' ops).
Proof.
  intros Hok Hv Hcr Hl.
  destruct (run_inbound_ops_spec ops s Hok Hv Hcr) as (s' & E & C & L & Ok').
  destruct (ReadStart_kept id s') as (s'' & E2 & K & P & Q); [by rewrite L |].
  exists s', s''. split; [exact E |]. split; [exact E2 |].
  split; [by rewrite Q, C |]. split; [exact P |].
  intros id' _. by rewrite (kept_credit _ _ K), C.
Qed.

(** X20. With the allocator of Http2StreamListener, a chunk of a DATA frame
    for a stream that is alive goes to the listener in one call of EmitRead,
    in a buffer that is the chunk itself: nothing is copied, and the loop
    ends after its first round. *)
Theorem OnStreamAlloc_hands_over_the_chunk_itself (id data len : Z) (s : Inbound) :
  0 < len < 2 ^ 63 ->
  nghttp2_session_consume_connection len = 0 ->
  live s id = true ->
  exists s',
    OnDataChunkReceived IsReading nghttp2_session_consume_connection
      (fun _ _ size => Http2StreamListener_OnStreamAlloc size)
      listener 1 id data len s = Ok (0, s') /\
    read_calls s' = read_calls s ++
      [{| read_stream := id; read_nread := len;
          read_buf := uv_buf_init (address data) (Z.to_N len);
          read_data := data |}].
Proof.
  intros Hlen Hcc Hl. destruct two_63_64 as [E63 E64].
  destruct (live_Some _ _ Hl) as (st & Est & Hd).
  unfold OnDataChunkReceived.
  destruct (Z.ltb_spec 0 len) as [_ | ?]; [| lia].
  rewrite Hcc. cbn [Z.eqb in_streams]. rewrite Est, Hd.
  cbn [OnDataChunkReceived_loop].
  change (buf_len (Http2StreamListener_OnStreamAlloc len)) with (Z.to_N len).
  change (base (Http2StreamListener_OnStreamAlloc len)) with nullptr.
  cbv beta iota zeta.
  rewrite Z2N.id by lia. rewrite to_ssize_t_small by lia.
  rewrite Z.ltb_irrefl, Z.sub_diag, Z.mod_0_l by (unfold size_t_max; lia).
  unfold EmitRead.
  set (s1 := {| in_streams := _; consume_connection_calls := _;
                consume_stream_calls := _; read_calls := _ ++ _ |}).
  assert (Hl1 : live s1 id = true).
  { unfold live. cbn. by rewrite lookup_insert_eq. }
  destruct (run_cmds_kept (listener id s1 len (uv_buf_init (address data) (Z.to_N len))) s1)
    as (s1' & E1 & K1); [by apply listener_live |].
  rewrite E1.
  assert (Hl1' : live s1' id = true) by (by rewrite (kept_live _ _ K1)).
  destruct (live_Some _ _ Hl1') as (st' & Est' & _).
  rewrite Est'. cbn [Z.eqb].
  destruct (IsReading st'); eexists; (split; [reflexivity |]); cbn;
    rewrite (kept_reads _ _ K1); reflexivity.
Qed.

End InboundProofs.

(** ** SendPendingData: from the codec to the socket *)

Section Flush.
Context {C T : Type} {codec : Nghttp2 C} {transport : StreamResource T}.
Context {header : Http2Header}.

Lemma for_each_app {A : Type} (l1 l2 : list A) (f : A -> @M C T unit) w :
  for_each (l1 ++ l2) f w =
    match for_each l1 f w with
    | Ok (_, w1) => for_each l2 f w1
    | Crash => Crash
    | OutOfFuel => OutOfFuel
    end.
Proof.
  revert w. induction l1 as [| x l1 IH]; intros w; [reflexivity |].
  cbn [app for_each]. unfold bind.
  destruct (f x w) as [[u w1] | |]; [| reflexivity | reflexivity].
  apply IH.
Qed.

Lemma for_each_frames frames : forall (w : World C T),
  for_each (map mem_send_frame frames) on_mem_send_event w =
    Ok (tt, set_session
              (set_outgoing
                 (outgoing_buffers_ (session w) ++ frame_buffers frames)
                 (outgoing_storage_ (session w) + queue_bytes (frame_buffers frames))
                 (session w)) w).
Proof.
  induction frames as [| n frames IH]; intros w.
  - cbn. unfold queue_bytes. cbn. rewrite app_nil_r, N.add_0_r.
    destruct w as [s c cs i ics im js rc ob]. by destruct s.
  - cbn [map for_each on_mem_send_event]. unfold CopyDataIntoOutgoing. run.
    rewrite IH. cbn. unfold queue_bytes. cbn.
    rewrite <- app_assoc, N.add_assoc. reflexivity.
Qed.

Lemma completions_app l1 l2 status :
  completions (l1 ++ l2) status = completions l1 status ++ completions l2 status.
Proof. unfold completions. apply omap_app. Qed.

Lemma completions_frame_buffers frames status :
  completions (frame_buffers frames) status = [].
Proof. induction frames as [| n frames IH]; [done |]. exact IH. Qed.

Lemma completions_flush_buffers frames moved padlen status :
  completions (flush_buffers frames moved padlen) status = completions moved status.
Proof.
  unfold flush_buffers, data_frame_buffers.
  rewrite !completions_app, completions_frame_buffers.
  destruct (0 <? padlen)%N; cbn; by rewrite app_nil_r.
Qed.

Lemma ClearOutgoing_plain (w : World C T) status :
  SESSION_STATE_SENDING (session w) = true ->
  pending_rst_streams_ (session w) = [] ->
  outgoing_buffers_ (session w) <> [] ->
  ClearOutgoing status w =
    Ok (tt, set_js_calls
              (js_calls w ++ completions (outgoing_buffers_ (session w)) status)
              (set_session (set_outgoing [] 0%N (set_SENDING false (session w))) w)).
Proof.
  intros Hs Hp Hb. unfold ClearOutgoing, ClearOutgoing_body. run.
  rewrite Hs. cbn -[WriteWrap_Done_all].
  destruct (outgoing_buffers_ (session w)) as [| wr l] eqn:E; [done |].
  cbn -[WriteWrap_Done_all completions]. rewrite WriteWrap_Done_all_spec.
  cbn -[completions]. rewrite Hp. reflexivity.
Qed.

Lemma flush_buffers_not_empty frames moved padlen :
  flush_buffers frames moved padlen <> [].
Proof.
  unfold flush_buffers, data_frame_buffers. intros H.
  apply (f_equal List.length) in H. rewrite !length_app in H. cbn in H. lia.
Qed.

(** What SendPendingData has gathered when nghttp2 has nothing more. *)
Lemma gather_flush_events (w : World C T) frames id st length padlen moved rest :
  outgoing_buffers_ (session w) = [] ->
  streams_ (session w) !! id = Some st ->
  id_ st = id ->
  queue_consistent st ->
  (0 < length)%N ->
  (0 < available_outbound_length_ st)%N ->
  let amount := N.min (available_outbound_length_ st) length in
  OnSendData_loop (after_empty_chunks (queue_ st)) amount = Some (moved, rest) ->
  (padlen <= 256)%N ->
  exists storage,
    for_each (flush_events frames id length amount padlen) on_mem_send_event w =
      Ok (tt, set_session
                (set_outgoing (flush_buffers frames moved padlen) storage
                   (session (with_stream id (set_queue rest (after_OnRead amount st))
                               (OnRead_world id st amount w))))
                (OnRead_world id st amount w)).
Proof.
  intros Hb Hst Hid Hc Hl Ha amount Hloop Hpad. unfold flush_events.
  rewrite for_each_app, for_each_frames. cbn [for_each]. unfold bind, ret.
  cbn [on_mem_send_event]. unfold provider_read.
  rewrite (OnRead_data recorded_EmitWantsWrite recorded_ontrailers _ id st length 0 0%nat)
    by done.
  fold amount.
  erewrite (OnSendData_spec _ id (after_OnRead amount st) amount padlen moved rest);
    [| cbn; apply lookup_insert_eq | by destruct st | exact Hloop | exact Hpad].
  eexists. cbn. rewrite Hb. cbn. unfold flush_buffers.
  rewrite !insert_insert_eq. reflexivity.
Qed.

Lemma OnStreamAfterWrite_plain (w : World C T) status :
  SESSION_STATE_SENDING (session w) = true ->
  pending_rst_streams_ (session w) = [] ->
  outgoing_buffers_ (session w) <> [] ->
  exists w',
    OnStreamAfterWrite status w = Ok (tt, w') /\
    js_calls w' = js_calls w ++ completions (outgoing_buffers_ (session w)) status /\
    outgoing_buffers_ (session w') = [] /\
    SESSION_STATE_SENDING (session w') = false.
Proof.
  intros Hs Hp Hb. unfold OnStreamAfterWrite. unfold bind at 1.
  rewrite (ClearOutgoing_plain w status Hs Hp Hb). run. cbn -[completions].
  unfold MaybeScheduleWrite. run.
  destruct (SESSION_STATE_WRITE_SCHEDULED (session w)) eqn:Ews;
    cbn -[completions]; rewrite ?Ews; cbn -[completions];
    destruct (nghttp2_session_want_write (nghttp2 w)); cbn -[completions];
    eexists; (split; [reflexivity | done]).
Qed.

(** X21. One flush, from the codec to the socket and back.  The session is
    idle (not destroyed, not sending, nothing outgoing, no reset deferred)
    and has its i/o stream; the stream holds as many bytes in its queue as
    it counts as available, and at least one.  nghttp2 serializes frames of
    its own, asks the provider of the stream for up to [length] bytes, and
    sends a DATA frame with the bytes that the provider promises.  OnRead
    completes the empty chunks at the head of the queue with status 0 and
    takes the amount off the two counters; OnSendData moves the writes that
    its loop takes from the queue behind the empty chunks.  SendPendingData
    returns 0 after one call of Write on the i/o stream, with the frames,
    the nine bytes of the frame header and the writes, in this order; the
    queue of the stream keeps the rest.  When the write finishes at once,
    every request that went out is completed with the error code of the
    write, once, and nothing is outgoing any more.  When it finishes later,
    the session stays in the sending state with the buffers, no request
    that went out is completed yet, and OnStreamAfterWrite completes each
    of them once with its status and clears the buffers. *)
Theorem SendPendingData_writes_and_completes (w : World C T)
    (frames : list positive) (id : Z) (st : Http2Stream) (length padlen : N)
    (r : Z) (c' : C) (status : Z) :
  Http2Session_IsDestroyed (session w) = false ->
  SESSION_STATE_SENDING (session w) = false ->
  outgoing_buffers_ (session w) = [] ->
  outgoing_storage_ (session w) = 0%N ->
  pending_rst_streams_ (session w) = [] ->
  stream_ (session w) = true ->
  streams_ (session w) !! id = Some st ->
  id_ st = id ->
  queue_consistent st ->
  (0 < length)%N ->
  (0 < available_outbound_length_ st)%N ->
  (padlen <= 256)%N ->
  let amount := N.min (available_outbound_length_ st) length in
  nghttp2_session_mem_send (nghttp2 w) =
    (flush_events frames id length amount padlen, r, c') ->
  r <> NGHTTP2_ERR_NOMEM ->
  exists moved rest w',
    OnSendData_loop (after_empty_chunks (queue_ st)) amount = Some (moved, rest) /\
    let bufs := flush_buffers frames moved padlen in
    let res := fst (StreamBase_Write (buffer_sizes bufs) (io w)) in
    let emptied := completions (empty_chunks (queue_ st)) 0 in
    SendPendingData w = Ok (0, w') /\
    io_calls w' =
      io_calls w ++ io_Write (buffer_sizes bufs) ::
        (if nghttp2_session_want_read c' then [] else [io_ReadStop]) /\
    streams_ (session w') !! id = Some (set_queue rest (after_OnRead amount st)) /\
    current_session_memory_ (session w') =
      current_session_memory_ (session w) - Z.of_N amount /\
    if async res then
      SESSION_STATE_SENDING (session w') = true /\
      outgoing_buffers_ (session w') = bufs /\
      js_calls w' = js_calls w ++ emptied /\
      exists w'',
        OnStreamAfterWrite status w' = Ok (tt, w'') /\
        js_calls w'' = js_calls w ++ emptied ++ completions moved status /\
        outgoing_buffers_ (session w'') = [] /\
        SESSION_STATE_SENDING (session w'') = false
    else
      SESSION_STATE_SENDING (session w') = false /\
      outgoing_buffers_ (session w') = [] /\
      js_calls w' = js_calls w ++ emptied ++ completions moved (err res).
Proof.
  intros Hd Hs Hb Hg Hp Hio Hst Hid Hc Hl Ha Hpad amount Hsend Hr.
  assert (Hle : (amount <= queue_bytes (after_empty_chunks (queue_ st)))%N).
  { rewrite queue_bytes_after_empty_chunks. unfold queue_consistent in Hc. lia. }
  destruct (OnSendData_loop (after_empty_chunks (queue_ st)) amount)
    as [[moved rest] |] eqn:Hloop.
  2: { apply OnSendData_loop_None in Hloop. lia. }
  exists moved, rest.
  set (bufs := flush_buffers frames moved padlen).
  set (emptied := completions (empty_chunks (queue_ st)) 0).
  cut (exists w',
    SendPendingData w = Ok (0, w') /\
    io_calls w' =
      io_calls w ++ io_Write (buffer_sizes bufs) ::
        (if nghttp2_session_want_read c' then [] else [io_ReadStop]) /\
    streams_ (session w') !! id = Some (set_queue rest (after_OnRead amount st)) /\
    current_session_memory_ (session w') =
      current_session_memory_ (session w) - Z.of_N amount /\
    if async (fst (StreamBase_Write (buffer_sizes bufs) (io w))) then
      SESSION_STATE_SENDING (session w') = true /\
      outgoing_buffers_ (session w') = bufs /\
      js_calls w' = js_calls w ++ emptied /\
      exists w'',
        OnStreamAfterWrite status w' = Ok (tt, w'') /\
        js_calls w'' = js_calls w ++ emptied ++ completions moved status /\
        outgoing_buffers_ (session w'') = [] /\
        SESSION_STATE_SENDING (session w'') = false
    else
      SESSION_STATE_SENDING (session w') = false /\
      outgoing_buffers_ (session w') = [] /\
      js_calls w' = js_calls w ++ emptied ++ completions moved (err (fst (StreamBase_Write (buffer_sizes bufs) (io w))))).
  { intros (w' & H). exists w'. split; [reflexivity | exact H]. }
  rewrite SendPendingData_unfold. unfold SendPendingData_body. run.
  rewrite Hd. cbn. rewrite Hs. cbn. rewrite Hb, Hg. cbn.
  unfold mem_send at 1. cbn. rewrite Hsend. cbn.
  set (w1 := set_nghttp2 c' _ _).
  destruct (gather_flush_events w1 frames id st length padlen moved rest)
    as (storage & E);
    [exact Hb | exact Hst | exact Hid | exact Hc | exact Hl | exact Ha
    | exact Hloop | exact Hpad |].
  fold amount in E. rewrite E. clear E.
  destruct (Z.eqb_spec r NGHTTP2_ERR_NOMEM) as [? | _]; [done |].
  cbn. rewrite Hio. cbn.
  pose proof (flush_buffers_not_empty frames moved padlen) as Hne.
  fold bufs in Hne |- *.
  destruct (Nat.eqb_spec (List.length bufs) 0) as [Hz | _];
    [by destruct bufs |].
  unfold stream_Write.
  change (map (fun wr : nghttp2_stream_write => len (buf wr)) bufs)
    with (buffer_sizes bufs).
  match goal with |- context [StreamBase_Write _ ?t] =>
    lazymatch t with io w => fail | _ => change t with (io w) end
  end.
  match goal with |- context [set_io _ (?c ++ _)] => change c with (io_calls w) end.
  destruct (StreamBase_Write (buffer_sizes bufs) (io w)) as [res t].
  cbn [fst]. destruct (async res) eqn:Ea; cbn [negb].
  - cbn [nghttp2 set_io set_session set_nghttp2 w1 io_calls OnRead_world set_js_calls].
    set (w2 := set_io t _ _).
    assert (Hafter : forall w3 : World C T,
              js_calls w3 = js_calls w2 ->
              session w3 = session w2 -> nghttp2 w3 = nghttp2 w2 ->
              exists w'', OnStreamAfterWrite status w3 = Ok (tt, w'') /\
                js_calls w'' = js_calls w ++ emptied ++ completions moved status /\
                outgoing_buffers_ (session w'') = [] /\
                SESSION_STATE_SENDING (session w'') = false).
    { intros w3 Hj Hse Hn.
      destruct (OnStreamAfterWrite_plain w3 status) as (w3' & E3 & J3 & O3 & S3);
        [by rewrite Hse | by rewrite Hse | by rewrite Hse |].
      exists w3'. split; [exact E3 |]. split; [| done].
      rewrite J3, Hj, Hse. cbn -[completions flush_buffers]. fold emptied. unfold bufs.
      by rewrite completions_flush_buffers, <- app_assoc. }
    match goal with |- context [nghttp2_session_want_read ?c] =>
      lazymatch c with c' => fail | _ => change c with c' end
    end.
    destruct (nghttp2_session_want_read c'); cbn [negb when]; unfold ret, stream_ReadStop;
      eexists; (split; [reflexivity |]); cbn -[completions];
      rewrite ?lookup_insert_eq; repeat split;
      first [reflexivity | by rewrite <- app_assoc | apply Hafter; reflexivity].
  - set (w2 := set_io t _ _).
    rewrite (ClearOutgoing_plain w2 (err res)); [| reflexivity | exact Hp | exact Hne].
    cbn [nghttp2 set_io set_session set_nghttp2 set_js_calls w1 w2 OnRead_world].
    match goal with |- context [nghttp2_session_want_read ?c] =>
      lazymatch c with c' => fail | _ => change c with c' end
    end.
    destruct (nghttp2_session_want_read c'); cbn [negb when]; unfold ret, stream_ReadStop;
      eexists; (split; [reflexivity |]); cbn -[completions flush_buffers];
      fold emptied; unfold bufs; rewrite ?lookup_insert_eq, completions_flush_buffers;
      repeat split; first [reflexivity | by rewrite <- app_assoc].
Qed.

End Flush.

(** ** Concrete sessions *)

Section Examples.
Local Existing Instances scripted_codec async_flag_stream example_header.

(** C1 does not hold of SubmitRequest.  On a session whose codec allows one
    concurrent stream and whose memory cannot afford a stream, two requests
    in a row are both registered, under the ids 1 and 3, and the table holds
    two streams. *)
Lemma SubmitRequest_passes_the_stream_bound :
  IsAvailableSessionMemory (session world_one_stream_no_memory) sizeof_Http2Stream = false /\
  stream_limit world_one_stream_no_memory = 1%N /\
  exists w',
    run_two_requests world_one_stream_no_memory = Ok ((1, 3), w') /\
    size (streams_ (session w')) = 2%nat /\
    stream_limit w' = 1%N.
Proof.
  split; [reflexivity |]. split; [reflexivity |].
  eexists. split; [vm_compute; reflexivity |].
  split; vm_compute; reflexivity.
Qed.



(** C6 does not hold of a write that took a part of a buffer.  After four of
    the ten bytes of stream 1 went to the socket, the stream is destroyed;
    on the next turn of the event loop the stream is deleted, while the write
    is still in progress and the outgoing buffers still hold the bytes at
    the address of the stream's data; the write request has been completed
    as canceled, not as written. *)
Lemma stream_deleted_while_its_bytes_are_on_the_socket :
  exists w',
    run_destroy_after_partial_send world_partial_send = Ok (tt, w') /\
    streams_ (session w') !! 1 = None /\
    SESSION_STATE_SENDING (session w') = true /\
    outgoing_buffers_ (session w') =
      [{| req_wrap := None; buf := uv_buf_init nullptr 9 |};
       {| req_wrap := None; buf := uv_buf_init (base example_buf) 4 |}] /\
    js_calls w' = [WriteWrap_Done (example_wrap 1) UV_ECANCELED].
Proof.
  eexists. split; [vm_compute; reflexivity |].
  repeat split; vm_compute; reflexivity.
Qed.


(** C8 does not hold of the wake-up.  Stream 1 has a write queued that the
    codec did not take, and no write is scheduled; a second DoWrite on the
    stream resumes it in the codec and schedules a write. *)
Lemma DoWrite_wakes_with_queued_data :
  exists w w',
    run_write_then_tick world_fresh = Ok (tt, w) /\
    queue_ <$> streams_ (session w) !! 1 =
      Some [{| req_wrap := Some (example_wrap 1); buf := example_buf |}] /\
    immediates w = [] /\
    DoWrite 1 (example_wrap 2) [example_buf] w = Ok (0, w') /\
    nghttp2_calls w' = nghttp2_calls w ++ [nghttp2_session_resume_data 1] /\
    immediates w' = [ImmSendPendingData].
Proof.
  eexists. eexists. split; [vm_compute; reflexivity |].
  split; [vm_compute; reflexivity |].
  split; [vm_compute; reflexivity |].
  split; [vm_compute; reflexivity |].
  split; vm_compute; reflexivity.
Qed.

(** *** The theorems at concrete sessions *)

Lemma CanAddStream_guards_peer_streams_witness :
  (exists res w', SubmitRequest 3 no_options world_one_stream_no_memory = Ok (res, w')) /\
  (exists st w',
     OnBeginHeadersCallback 1 0 world_fresh = Ok (0, w') /\
     streams_ (session w') = <[1 := st]> (streams_ (session world_fresh)) /\
     nghttp2 w' = nghttp2 world_fresh /\
     nghttp2_calls w' = nghttp2_calls world_fresh) /\
  (exists rs w',
     OnBeginHeaders_all [(1, 0); (3, 0); (5, 0)] world_one_stream_no_memory = Ok (rs, w') /\
     within_stream_limit w' /\
     stream_limit w' = stream_limit world_one_stream_no_memory).
Proof.
  split; [| split].
  - destruct (CanAddStream_guards_peer_streams world_one_stream_no_memory)
      as (_ & H & _).
    apply H; [reflexivity | vm_compute; discriminate].
  - destruct (CanAddStream_guards_peer_streams world_fresh) as (_ & _ & H & _).
    apply (H 1 0). reflexivity.
  - destruct (CanAddStream_guards_peer_streams world_one_stream_no_memory)
      as (_ & _ & _ & H).
    apply H.
    + intros c id code. reflexivity.
    + vm_compute. discriminate.
Defined.



Lemma waiter_queue_full_is_refused_before_the_codec_witness :
  (exists w',
     Ping {| ping_id := 3 |} None world_with_waiters = Ok (false, w') /\
     nghttp2 w' = nghttp2 world_with_waiters /\
     nghttp2_calls w' = nghttp2_calls world_with_waiters) /\
  (exists w',
     Settings {| settings_id := 2; entries_ := [] |} world_with_waiters = Ok (false, w') /\
     nghttp2 w' = nghttp2 world_with_waiters /\
     nghttp2_calls w' = nghttp2_calls world_with_waiters) /\
  (exists w',
     (a <- Ping {| ping_id := 1 |} None ;;
      b <- Ping {| ping_id := 2 |} (Some 7%N) ;;
      c <- Ping {| ping_id := 3 |} None ;;
      ret [a; b; c]) world_fresh = Ok ([true; true; false], w') /\
     nghttp2_calls w' =
       nghttp2_calls world_fresh ++
         [nghttp2_submit_ping None; nghttp2_submit_ping (Some 7%N)]).
Proof.
  split; [| split].
  - destruct (waiter_queue_full_is_refused_before_the_codec world_with_waiters)
      as (H & _ & _).
    apply H. reflexivity.
  - destruct (waiter_queue_full_is_refused_before_the_codec world_with_waiters)
      as (_ & H & _).
    apply H. reflexivity.
  - destruct (waiter_queue_full_is_refused_before_the_codec world_fresh)
      as (_ & _ & H).
    apply H; [reflexivity | reflexivity |].
    intros c payload. reflexivity.
Defined.

Lemma unsolicited_ack_is_a_session_error_witness :
  let ack := {| hd_flags := 1; ping_opaque_data := 7 |} in
  HandlePingFrame ack world_fresh =
    Ok (tt, set_js_calls (js_calls world_fresh ++ [onerror NGHTTP2_ERR_PROTO]) world_fresh) /\
  HandleSettingsFrame ack world_fresh =
    Ok (tt, set_js_calls (js_calls world_fresh ++ [onerror NGHTTP2_ERR_PROTO]) world_fresh) /\
  (exists w',
     HandlePingFrame ack world_with_waiters = Ok (tt, w') /\
     outstanding_pings_ (session w') = [{| ping_id := 2 |}] /\
     js_calls w' =
       js_calls world_with_waiters ++ [ondone_ping {| ping_id := 1 |} true (Some 7%N)]) /\
  (exists w',
     HandleSettingsFrame ack world_with_waiters = Ok (tt, w') /\
     outstanding_settings_ (session w') = [] /\
     js_calls w' =
       js_calls world_with_waiters ++
         [ondone_settings {| settings_id := 1; entries_ := [] |} true]).
Proof.
  intros ack.
  assert (Hack : Z.land (hd_flags ack) NGHTTP2_FLAG_ACK <> 0) by (vm_compute; discriminate).
  split; [| split; [| split]].
  - destruct (unsolicited_ack_is_a_session_error world_fresh ack Hack) as (H & _).
    apply H. reflexivity.
  - destruct (unsolicited_ack_is_a_session_error world_fresh ack Hack) as (_ & _ & H & _).
    apply H. reflexivity.
  - destruct (unsolicited_ack_is_a_session_error world_with_waiters ack Hack)
      as (_ & H & _).
    apply (H {| ping_id := 1 |} [{| ping_id := 2 |}]). reflexivity.
  - destruct (unsolicited_ack_is_a_session_error world_with_waiters ack Hack)
      as (_ & _ & _ & H).
    apply (H {| settings_id := 1; entries_ := [] |} []). reflexivity.
Defined.

Lemma stream_deleted_only_without_writes_on_socket_witness :
  let w := world_with_queued_write in
  returns (Destroy 1)
     (fun _ w' =>
        (exists st', streams_ (session w') !! 1 = Some st' /\ IsDestroyed st' = true) /\
        exists d1 d2,
          immediates w' = immediates w ++ d1 ++ [ImmStreamDestroy 1] ++ d2) w /\
  exists w',
    run_immediate (ImmStreamDestroy 1) w = Ok (tt, w') /\
    js_calls w' = js_calls w ++ [WriteWrap_Done (example_wrap 1) UV_ECANCELED] /\
    outgoing_buffers_ (session w') = outgoing_buffers_ (session w) /\
    streams_ (session w') !! 1 = None.
Proof.
  intros w.
  destruct (stream_deleted_only_without_writes_on_socket w 1
              (set_queue [{| req_wrap := Some (example_wrap 1); buf := example_buf |}]
                 (example_stream 1)))
    as (H1 & H3 & H2 & _); [reflexivity | reflexivity |].
  split; [| exact H2].
  apply wp_returns; [apply H1; reflexivity |].
  destruct H3 as (w' & E); [reflexivity | reflexivity |]. by exists tt, w'.
Defined.


Lemma DoWrite_enqueues_and_resumes_witness :
  exists w',
    DoWrite 1 (example_wrap 1) [example_buf] (world_with_stream 10000) = Ok (0, w') /\
    queue_ <$> streams_ (session w') !! 1 =
      Some [{| req_wrap := Some (example_wrap 1); buf := example_buf |}] /\
    available_outbound_length_ <$> streams_ (session w') !! 1 = Some 10%N /\
    current_session_memory_ (session w') = 10 /\
    nghttp2_calls w' = [nghttp2_session_resume_data 1] /\
    immediates w' = [ImmSendPendingData].
Proof.
  destruct (DoWrite_enqueues_and_resumes (world_with_stream 10000) 1 (example_stream 1)
              (example_wrap 1) [example_buf])
    as (w' & E & Hst & Ha & Hq & Hm & Hc & Hi);
    [reflexivity | reflexivity | reflexivity | vm_compute; discriminate |].
  exists w'. split; [exact E |].
  rewrite Hst. split; [reflexivity |]. split; [reflexivity |].
  split; [exact Hm |]. split; [exact Hc |].
  rewrite Hi. vm_compute in E. injection E as <-. reflexivity.
Defined.

Lemma OnDWordAlignedPadding_aligns_witness :
  OnDWordAlignedPadding 10 100 = 15 /\
  (OnDWordAlignedPadding 10 100 + 9) mod 8 = 0 /\
  OnDWordAlignedPadding 10 12 = 12 /\
  OnDWordAlignedPadding 7 100 = 7 /\
  OnDWordAlignedPadding (2 ^ 63 + 7) (2 ^ 63 + 7) = to_ssize_t (2 ^ 63 + 7).
Proof.
  destruct (OnDWordAlignedPadding_aligns 10 100) as (_ & _ & H1);
    [lia | lia | reflexivity |].
  destruct H1 as (_ & H1 & H2); [reflexivity |].
  destruct (OnDWordAlignedPadding_aligns 10 12) as (_ & _ & H3);
    [lia | lia | reflexivity |].
  destruct H3 as (_ & H3 & _); [reflexivity |].
  destruct (OnDWordAlignedPadding_aligns 7 100) as (_ & _ & H4);
    [lia | lia | reflexivity |].
  destruct H4 as (H4 & _); [reflexivity |].
  destruct (OnDWordAlignedPadding_aligns (2 ^ 63 + 7) (2 ^ 63 + 7)) as (H5 & _);
    [lia | lia | reflexivity |].
  split; [apply H1; vm_compute; discriminate |].
  split; [apply H2; right; vm_compute; discriminate |].
  split; [apply H3; vm_compute; discriminate |].
  split; [apply H4; reflexivity | exact H5].
Defined.


End Examples.

(** ** Further concrete runs *)

Section MoreExamples.
Local Existing Instances scripted_codec async_flag_stream example_header.

Lemma OnSelectPadding_within_payload_witness :
  100 <= OnSelectPadding (fun _ maxPayloadLen => maxPayloadLen + 5)
           (example_session_padding PADDING_STRATEGY_CALLBACK) 100 16384 <= 16384 /\
  100 <= OnSelectPadding (fun _ _ => 0)
           (example_session_padding PADDING_STRATEGY_ALIGNED) 100 16384 <= 16384 /\
  OnSelectPadding (fun _ _ => 0) (example_session_padding PADDING_STRATEGY_MAX) 100 16384
    = 16384.
Proof.
  split; [| split].
  - apply (OnSelectPadding_within_payload (fun _ maxPayloadLen => maxPayloadLen + 5)
             (example_session_padding PADDING_STRATEGY_CALLBACK) 100 16384);
      [lia | lia | reflexivity].
  - apply (OnSelectPadding_within_payload (fun _ _ => 0)
             (example_session_padding PADDING_STRATEGY_ALIGNED) 100 16384);
      [lia | lia | reflexivity].
  - apply (OnSelectPadding_within_payload (fun _ _ => 0)
             (example_session_padding PADDING_STRATEGY_MAX) 100 16384);
      [lia | lia | reflexivity | reflexivity].
Defined.

Lemma OnCallbackPadding_clamps_witness :
  OnCallbackPadding (fun frameLen _ => frameLen + 28) 100 16384 = 128 /\
  OnCallbackPadding (fun _ _ => 7) 100 16384 = 100 /\
  OnCallbackPadding (fun _ _ => 70000) 100 16384 = 16384 /\
  OnCallbackPadding (fun _ _ => 70000) 0 16384 = 0.
Proof.
  destruct (OnCallbackPadding_clamps (fun frameLen _ => frameLen + 28) 100 16384)
    as (_ & H1 & _); [split; [lia | reflexivity] | split; [lia | reflexivity] |].
  destruct (OnCallbackPadding_clamps (fun _ _ => 7) 100 16384)
    as (_ & _ & H2 & _); [split; [lia | reflexivity] | split; [lia | reflexivity] |].
  destruct (OnCallbackPadding_clamps (fun _ _ => 70000) 100 16384)
    as (_ & _ & _ & H3 & _); [split; [lia | reflexivity] | split; [lia | reflexivity] |].
  destruct (OnCallbackPadding_clamps (fun _ _ => 70000) 0 16384)
    as (H4 & _); [split; [lia | reflexivity] | split; [lia | reflexivity] |].
  split; [apply H1; [lia | vm_compute; split; discriminate] |].
  split; [apply H2; [lia | reflexivity] |].
  split; [apply H3; [lia | vm_compute; split; [discriminate | reflexivity]] |].
  apply H4; reflexivity.
Defined.

Lemma Headers_round_trip_witness :
  Headers_new 8 40 1001 (nul_terminated (header_fields example_header_pairs)) 2 =
    constructed
      {| Headers_count_ := 2;
         Headers_nva :=
           [ {| nv_name := [Byte.x61]; nv_value := [Byte.x62; Byte.x63];
                nv_flags := NGHTTP2_NV_FLAG_NONE |};
             {| nv_name := [Byte.x64]; nv_value := [];
                nv_flags := NGHTTP2_NV_FLAG_NONE |} ] |}.
Proof.
  apply (Headers_round_trip 8 40 1001 example_header_pairs);
    [lia | lia | lia | reflexivity |].
  repeat constructor.
Defined.

Lemma Headers_rejects_nul_bytes_witness :
  Headers_new 8 40 1001 (nul_terminated (header_fields example_header_pairs_nul)) 2 =
    constructed {| Headers_count_ := 1; Headers_nva := [zero_header] |}.
Proof.
  apply (Headers_rejects_nul_bytes 8 40 1001 example_header_pairs_nul);
    [lia | lia | lia | reflexivity |].
  apply Exists_cons_hd. right. intros H.
  apply Forall_cons in H as [_ H]. apply Forall_cons in H as [H _]. discriminate H.
Defined.

Lemma Headers_new_checks_witness :
  Headers_new 8 40 1001 [Byte.x61; Byte.x00] 0 = check_failed /\
  Headers_new 8 40 1001 [Byte.x61; Byte.x00] 1 <> check_failed.
Proof.
  destruct (Headers_new_checks 8 40 1001 [Byte.x61; Byte.x00] 0) as [_ H0];
    [lia | lia | lia | reflexivity |].
  destruct (Headers_new_checks 8 40 1001 [Byte.x61; Byte.x00] 1) as [_ H1];
    [lia | lia | lia | reflexivity |].
  split.
  - apply H0. split; [reflexivity | discriminate].
  - intros H. apply H1 in H as [H _]. discriminate H.
Defined.

Lemma ROUND_UP_least_multiple_witness :
  1001 <= ROUND_UP 1001 8 < 1009 /\ ROUND_UP 1001 8 mod 8 = 0.
Proof.
  destruct (ROUND_UP_least_multiple 1001 8) as (H1 & H2 & _);
    [lia | lia | reflexivity |].
  split; [exact H1 | exact H2].
Defined.

Lemma Http2Settings_Init_entries_witness :
  (length (@Http2Settings_Init node_settings_buffer example_settings_buffer) <= 6)%nat /\
  @Http2Settings_Init node_settings_buffer example_settings_buffer =
    [(NGHTTP2_SETTINGS_HEADER_TABLE_SIZE_id, 8192%N);
     (NGHTTP2_SETTINGS_MAX_HEADER_LIST_SIZE_id, 1000%N)].
Proof.
  destruct (@Http2Settings_Init_entries node_settings_buffer example_settings_buffer)
    as (H & _); [repeat constructor; (done || lia) |].
  split; [exact H | reflexivity].
Defined.

Lemma Http2Settings_Init_after_RefreshDefaults_witness :
  @Http2Settings_Init node_settings_buffer
    (@Http2Settings_RefreshDefaults node_settings_buffer example_settings_buffer) =
    [(1, 4096%N); (5, 16384%N); (4, 65535%N); (6, 65535%N); (2, 1%N)].
Proof.
  apply (@Http2Settings_Init_after_RefreshDefaults node_settings_buffer
           example_settings_buffer).
  - repeat constructor; (done || lia).
  - by apply (bool_decide_unpack _).
Defined.

Lemma OnSendData_loop_conserves_witness :
  let queue :=
    [{| req_wrap := None; buf := uv_buf_init (address 500) 3 |};
     {| req_wrap := Some (example_wrap 1); buf := example_buf |}] in
  OnSendData_loop queue 7 =
    Some ([{| req_wrap := None; buf := uv_buf_init (address 500) 3 |};
           {| req_wrap := None; buf := uv_buf_init (address 1000) 4 |}],
          [{| req_wrap := Some (example_wrap 1);
              buf := uv_buf_init (address 1004) 6 |}]) /\
  (forall moved rest,
     OnSendData_loop queue 7 = Some (moved, rest) ->
     queue_bytes moved = 7%N /\
     (queue_bytes moved + queue_bytes rest = 13)%N /\
     queue_wraps (moved ++ rest) = [example_wrap 1]) /\
  (OnSendData_loop queue 14 = None).
Proof.
  intros queue. split; [reflexivity |]. split.
  - intros moved rest E.
    destruct (OnSendData_loop_conserves queue 7) as [_ H].
    destruct (H _ _ E) as (H1 & H2 & H3 & _).
    split; [exact H1 |]. split; [exact H2 | exact H3].
  - destruct (OnSendData_loop_conserves queue 14) as [H _].
    apply H. reflexivity.
Defined.

Lemma OnRead_then_OnSendData_witness :
  exists w1 w2 st2,
    OnRead (fun _ _ => ret tt) (fun _ => ret tt) 1 1 4 0 world_with_queued_data =
      Ok ((4, NGHTTP2_DATA_FLAG_NO_COPY), w1) /\
    OnSendData 1 4 3 w1 = Ok (tt, w2) /\
    streams_ (session w2) !! 1 = Some st2 /\
    available_outbound_length_ st2 = 6%N /\
    current_session_memory_ (session w2) = 6 /\
    js_calls w2 = [WriteWrap_Done (example_wrap 1) 0].
Proof.
  destruct (OnRead_then_OnSendData (fun _ _ => ret tt) (fun _ => ret tt)
              world_with_queued_data 1
              (set_available_outbound_length 10
                 (set_queue
                    [{| req_wrap := Some (example_wrap 1);
                        buf := uv_buf_init (address 900) 0 |};
                     {| req_wrap := Some (example_wrap 2); buf := example_buf |}]
                    (example_stream 1))) 4 3 0)
    as (w1 & w2 & st2 & moved & H1 & H2 & H3 & _ & H4 & H5 & _ & _ & _ & H6);
    [reflexivity | reflexivity | reflexivity | reflexivity | reflexivity
    | vm_compute; discriminate |].
  exists w1, w2, st2. repeat split; assumption.
Defined.

Lemma OnRead_at_the_end_of_the_data_witness :
  exists w',
    OnRead (fun _ _ => ret tt) (fun _ => ret tt) 1 1 16384 0 world_at_end_of_data =
      Ok ((0, 3), w') /\
    js_calls w' = [WriteWrap_Done (example_wrap 1) 0].
Proof.
  destruct (OnRead_at_the_end_of_the_data (header := example_header)
              (fun _ _ => ret tt) (fun _ => ret tt)
              (fun _ _ => eq_refl) world_at_end_of_data 1
              (set_flag_trailers true
                 (set_flag_shut true
                    (set_queue
                       [{| req_wrap := Some (example_wrap 1);
                           buf := uv_buf_init (address 900) 0 |}]
                       (example_stream 1)))) 16384 0)
    as (_ & H & _); [reflexivity | reflexivity | reflexivity | reflexivity |].
  eexists. split; [apply H; reflexivity | reflexivity].
Defined.

Lemma DoWrite_keeps_the_queue_consistent_witness :
  exists w' st',
    DoWrite 1 (example_wrap 3) [example_buf] world_with_queued_data = Ok (0, w') /\
    streams_ (session w') !! 1 = Some st' /\
    available_outbound_length_ st' = 20%N /\
    queue_bytes (queue_ st') = 20%N.
Proof.
  pose proof (DoWrite_keeps_the_queue_consistent world_with_queued_data 1
                (set_available_outbound_length 10
                   (set_queue
                      [{| req_wrap := Some (example_wrap 1);
                          buf := uv_buf_init (address 900) 0 |};
                       {| req_wrap := Some (example_wrap 2); buf := example_buf |}]
                      (example_stream 1)))
                (example_wrap 3) [example_buf]) as H.
  apply returns_Ok in H as (r & w' & E & -> & st' & H1 & H2 & H3);
    [| reflexivity | reflexivity | intros _ _; vm_compute; discriminate].
  exists w', st'. split; [exact E |]. split; [exact H1 |].
  vm_compute in E. injection E as <-. vm_compute in H1. injection H1 as <-.
  split; reflexivity.
Defined.

Lemma HandleHeadersFrame_lists_every_header_witness :
  HandleHeadersFrame_pushes 2
    [ {| name := example_rcbuf 1; value := example_rcbuf 2; flags := 0 |};
      {| name := example_rcbuf 3; value := example_rcbuf 4; flags := 0 |};
      {| name := example_rcbuf 5; value := example_rcbuf 6; flags := 0 |} ] =
    Some [ [example_rcbuf 1; example_rcbuf 2; example_rcbuf 3; example_rcbuf 4];
           [example_rcbuf 5; example_rcbuf 6] ].
Proof.
  destruct (HandleHeadersFrame_lists_every_header 2
              [ {| name := example_rcbuf 1; value := example_rcbuf 2; flags := 0 |};
                {| name := example_rcbuf 3; value := example_rcbuf 4; flags := 0 |};
                {| name := example_rcbuf 5; value := example_rcbuf 6; flags := 0 |} ])
    as (pushes & E & _); [lia |].
  rewrite E. vm_compute in E. injection E as <-. reflexivity.
Defined.

Lemma allocator_accounts_for_every_block_witness :
  exists m',
    run_ops example_multiply example_mem_ops no_memory = mem_ok tt m' /\
    current_nghttp2_memory_ m' = 0.
Proof.
  destruct (allocator_accounts_for_every_block example_multiply example_mem_ops
              no_memory) as (m' & E & _ & H0).
  - split; [vm_compute; reflexivity |].
    split; [apply map_Forall_empty | vm_compute; reflexivity].
  - unfold example_mem_ops.
    split; [repeat split; first [vm_compute; reflexivity | vm_compute; discriminate] |].
    intros ? E; vm_compute in E; injection E as <-.
    split; [exists 40; repeat split;
            first [vm_compute; reflexivity | vm_compute; discriminate] |].
    intros ? E; vm_compute in E; injection E as <-.
    split; [repeat split;
            first [vm_compute; reflexivity | vm_compute; discriminate
                  | eexists; vm_compute; reflexivity] |].
    intros ? E; vm_compute in E; injection E as <-.
    split; [eexists; vm_compute; reflexivity |].
    intros ? E; vm_compute in E; injection E as <-.
    split; [eexists; vm_compute; reflexivity |].
    intros ? E; vm_compute in E; injection E as <-.
    split; [eexists; vm_compute; reflexivity |].
    intros ? E; vm_compute in E; injection E as <-.
    exact I.
  - exists m'. split; [exact E |]. apply H0.
    vm_compute in E. injection E as <-. reflexivity.
Defined.

Lemma H2Malloc_then_H2Free_witness :
  exists m1 m2,
    H2Malloc (Some (1000, 7)) 100 no_memory = mem_ok (Some 1008) m1 /\
    current_nghttp2_memory_ m1 = 108 /\
    H2Free (Some 1008) m1 = mem_ok tt m2 /\
    current_nghttp2_memory_ m2 = 0.
Proof.
  destruct (H2Malloc_then_H2Free no_memory 100 1000 7)
    as (_ & _ & m1 & H1 & H2 & _ & (m2 & H3 & H4 & _) & _);
    [split; [vm_compute; reflexivity
             | split; [apply map_Forall_empty | vm_compute; reflexivity]]
    | lia | reflexivity | reflexivity | vm_compute; reflexivity |].
  exists m1, m2. repeat split; assumption.
Defined.

Lemma stream_life_leaves_no_trace_witness :
  exists w',
    stream_life (fun _ _ => ret tt) 1 0
      [(example_rcbuf 1, example_rcbuf 2, 0); (example_rcbuf 1, example_rcbuf 3, 0)]
      0 world_fresh = Ok (tt, w') /\
    streams_ (session w') = ∅ /\
    current_session_memory_ (session w') = 0 /\
    rcbuf_count w' 1 = 0%N.
Proof.
  destruct (stream_life_leaves_no_trace (fun _ _ => ret tt) world_fresh 1 0
              [(example_rcbuf 1, example_rcbuf 2, 0); (example_rcbuf 1, example_rcbuf 3, 0)]
              0) as (w' & E & H1 & H2 & H3 & _);
    [reflexivity | reflexivity | reflexivity | reflexivity | reflexivity |].
  exists w'. split; [exact E |]. split; [exact H1 |]. split; [exact H2 | apply H3].
Defined.

Lemma example_EmitAlloc_len (id : Z) (s : Inbound) (n : Z) :
  0 < Z.of_N (buf_len (example_EmitAlloc id s n)) < 2 ^ 63.
Proof. by split. Qed.

Lemma example_listener_live (id : Z) (s : Inbound) (nread : Z) (buf : uv_buf_t) :
  live s id = true ->
  Forall (fun c => live s (cmd_id c) = true) (example_listener id s nread buf).
Proof.
  intros Hl. unfold example_listener.
  destruct (length (read_calls s) =? 2)%nat; repeat constructor. exact Hl.
Qed.

Lemma example_inbound_ok : inbound_ok example_inbound.
Proof.
  split; [| constructor]. unfold example_inbound. cbn.
  apply map_Forall_insert_2; [done |].
  apply map_Forall_insert_2; [done |]. apply map_Forall_empty.
Qed.

Lemma example_inbound_room (id : Z) :
  credit id example_inbound + chunk_bytes id example_inbound_ops < 2 ^ 64.
Proof.
  destruct (decide (id = 1)) as [-> | H1]; [vm_compute; reflexivity |].
  destruct (decide (id = 3)) as [-> | H3]; [vm_compute; reflexivity |].
  unfold credit, parked, chunk_bytes, example_inbound, example_inbound_ops.
  cbn -[Z.eqb].
  rewrite !lookup_insert_ne, lookup_empty by done.
  rewrite (proj2 (Z.eqb_neq 1 id)), (proj2 (Z.eqb_neq 3 id)) by congruence.
  reflexivity.
Qed.

Lemma OnDataChunkReceived_credits_every_byte_witness :
  exists s' reads,
    OnDataChunkReceived example_IsReading (fun _ => 0) example_EmitAlloc
      example_listener (Z.to_nat 10) 1 1000 10 example_inbound = Ok (0, s') /\
    consume_connection_calls s' = consume_connection_calls example_inbound ++ [10] /\
    read_calls s' = read_calls example_inbound ++ reads /\
    contiguous 1 1000 reads (1000 + 10) /\
    credit 1 s' = credit 1 example_inbound + 10 /\
    (forall id', id' <> 1 -> credit id' s' = credit id' example_inbound) /\
    received 1 s' = (received 1 example_inbound + 10) mod 2 ^ 64 /\
    inbound_ok s'.
Proof.
  apply (OnDataChunkReceived_credits_every_byte example_IsReading (fun _ => 0)
           example_EmitAlloc example_listener
           example_EmitAlloc_len example_listener_live 1 1000 10 example_inbound).
  - lia.
  - reflexivity.
  - reflexivity.
  - exact example_inbound_ok.
  - vm_compute. reflexivity.
Defined.

Lemma ReadStart_reports_every_byte_witness :
  exists s' s'',
    run_inbound_ops example_IsReading (fun _ => 0) example_EmitAlloc example_listener
      example_inbound_ops example_inbound = Ok s' /\
    ReadStart 3 s' = Ok (0, s'') /\
    consumed 3 (consume_stream_calls s'') =
      credit 3 example_inbound + chunk_bytes 3 example_inbound_ops /\
    parked 3 s'' = 0 /\
    (forall id', id' <> 3 ->
       credit id' s'' = credit id' example_inbound + chunk_bytes id' example_inbound_ops).
Proof.
  apply (ReadStart_reports_every_byte example_IsReading (fun _ => 0)
           example_EmitAlloc example_listener
           example_EmitAlloc_len example_listener_live
           example_inbound_ops example_inbound 3).
  - exact example_inbound_ok.
  - repeat constructor; cbn; lia.
  - exact example_inbound_room.
  - reflexivity.
Defined.

Lemma OnStreamAlloc_hands_over_the_chunk_itself_witness :
  exists s',
    OnDataChunkReceived example_IsReading (fun _ => 0)
      (fun _ _ size => Http2StreamListener_OnStreamAlloc size)
      example_listener 1 3 2000 5 example_inbound = Ok (0, s') /\
    read_calls s' = read_calls example_inbound ++
      [{| read_stream := 3; read_nread := 5;
          read_buf := uv_buf_init (address 2000) (Z.to_N 5);
          read_data := 2000 |}].
Proof.
  apply (OnStreamAlloc_hands_over_the_chunk_itself example_IsReading (fun _ => 0)
           example_listener example_listener_live 3 2000 5 example_inbound).
  - lia.
  - reflexivity.
  - reflexivity.
Defined.

Lemma SendPendingData_writes_and_completes_witness :
  exists w' w'',
    SendPendingData (world_before_flush true) = Ok (0, w') /\
    io_calls w' = [io_Write [13; 9; 10]%N] /\
    queue_ <$> streams_ (session w') !! 1 = Some [] /\
    available_outbound_length_ <$> streams_ (session w') !! 1 = Some 0%N /\
    current_session_memory_ (session w') = 0 /\
    js_calls w' = [WriteWrap_Done (example_wrap 1) 0] /\
    OnStreamAfterWrite 0 w' = Ok (tt, w'') /\
    js_calls w'' = [WriteWrap_Done (example_wrap 1) 0; WriteWrap_Done (example_wrap 2) 0].
Proof.
  destruct (SendPendingData_writes_and_completes (world_before_flush true)
              [13%positive] 1
              (set_available_outbound_length 10
                 (set_queue
                    [{| req_wrap := Some (example_wrap 1);
                        buf := uv_buf_init (address 900) 0 |};
                     {| req_wrap := Some (example_wrap 2); buf := example_buf |}]
                    (example_stream 1)))
              16384 0
              0 (snd (scripted_mem_send (nghttp2 (world_before_flush true)))) 0)
    as (moved & rest & w' & Eloop & E & Hio & Hst & Hm & Hcase);
    [reflexivity | reflexivity | reflexivity | reflexivity | reflexivity
    | reflexivity | reflexivity | reflexivity | reflexivity | reflexivity
    | reflexivity | vm_compute; discriminate | reflexivity
    | vm_compute; discriminate |].
  vm_compute in Eloop. injection Eloop as <- <-.
  cbn in Hcase. destruct Hcase as (_ & _ & Hjs & w'' & E' & Hjs' & _).
  exists w', w''. rewrite Hst.
  split; [exact E |]. split; [exact Hio |].
  split; [reflexivity |]. split; [reflexivity |].
  split; [exact Hm |]. split; [exact Hjs |]. split; [exact E' | exact Hjs'].
Defined.

End MoreExamples.
